(* ===== verification/_CoqProject ===== *)
-Q . S2P
Prelude.v
Win32.v
Syscalls.v
Structs.v
Machine.v
Contract.v
DemoOS.v
WinBase.v
Temporaries.v
WinTime.v
XTime.v
XPath.v
XNetwork.v
WinNetwork.v
XThread.v
XSemaphore.v
SemaphoreSpec.v
WinThread.v
XFile.v
XWatcher.v
WinFile.v
XAsync.v
XProcess.v
XQuote.v
WinProcess.v
XMemory.v
WinMemory.v
XIpc.v
WinIpc.v
XDynLib.v
WinDynLib.v
XTls.v
XHooks.v
XTerminal.v
WinTerminal.v
XEvent.v
XEventInv.v
XEventSafe.v
XEventLoop.v
XEventLife.v
XEventCreate.v
XEventTimers.v
XEventSpec.v
XBackend.v
XEventDemo.v
XBackendDemo.v
CppOwner.v
XCpp.v
