(* ===== verification/Prelude.v ===== *)
(** * Verification of xlib

    xlib is a C library of portable system services: paths and files, clocks,
    sockets, threads, processes, an event loop, shared memory and a few hooks, with
    a header of C++ classes on top.  Its modules are thin but stateful: most
    functions allocate a structure, make several system calls that may each fail,
    and must then either hand out the structure or give everything back; and each
    has a POSIX and a Windows body.  This development models both builds as
    executable Rocq definitions, and proves what they promise for every answer of
    the operating system and of the allocator.

    ** How the program is modelled

    - [Prelude]: C strings as lists of characters, buffers, 64-bit arithmetic
      with its wrap-around ([u64], [s64], [u32]), errno values, the hint database
      [xlib] and shared lemmas.
    - [Win32]: the kinds of kernel resources and the calls of the Windows API as an
      indexed type, with what its documentation promises of each answer
      ([win32_post]); the class [Codepage] for the conversions between bytes and
      UTF-16, which are the system's.
    - [Syscalls]: the system calls as an indexed type [syscall R]; a history is a
      list of events (calls with their answers, allocations, calls of functions
      of the user).  The class [OS] gives the answer to a call after a history
      and states, in [sys_post], what the manual pages promise: nothing else is
      assumed of the kernel.  [held t] are the descriptors, mappings, directories,
      threads and locks held after [t]; [refs t] counts the uses of objects the
      kernel counts (named semaphores, libraries); [registered t ep] is what an
      epoll descriptor knows, [filters t kq] what a kqueue knows; [calls t] are the
      calls of the user's functions.
    - [Structs]: the library's structures as records, with their embedding into
      the objects of the heap.
    - [Machine]: the state [st] (errno, heap, history), the monad [M] whose runs
      end in a value, by exhausting the fuel of a loop, by leaving the program
      (exit, exec) or in undefined behaviour (a dangling, mistyped or out of
      bounds access, a wrong free), and the weakest precondition [wp].  [Total]
      excludes starving, leaving and undefined behaviour; [Partial] allows
      starving.  Loops are [iterM] with one unit of fuel per round; [fold_range]
      and [for_range] are counted loops and need none.
    - [Contract]: the protocol most objects follow.  [Handle] is its interface (a
      destructor and the resources a structure owns), [constructor_post] what a
      constructor promises, [bracket_restores] the theorem that making an object
      and destroying it restores heap and resources; [RefHandle] is the same for
      objects the kernel counts; [keeps] is said of operations that only talk to
      the kernel.
    - [WinBase]: what the Windows builds share: the last error and the conversions
      of strings.  [Temporaries]: functions that take several blocks and handles
      and give them back on the way out ([holding]).
    - [DemoOS]: executable environments in which the witnesses are evaluated.

    ** The components

    Each file names its source.  Definitions have the names of the C functions;
    out-parameters are returned with the code, [None] where nothing is written.
    An [X] file has the POSIX build and what both builds share, the [Win] file
    beside it the Windows bodies; their definitions have the same names.

    - [XTime], [WinTime] (src/x_time.c): sleeping is exact however often signals
      interrupt it, ends once they stop, and its overflow check is exact; elapsed
      times never wrap.
    - [XPath] (src/x_filesystem.c): joining implements [join] within its buffer,
      the base name is the last component, and joining keeps it.
    - [XNetwork], [WinNetwork] (src/x_network.c): addresses (their form, the round
      trip of host and port), sockets and every operation on them; constructors
      keep the protocol; [x_socket_receive_from] and timeouts are specified
      exactly; Windows starts its socket library at most once.
    - [XThread], [WinThread], [XSemaphore], [SemaphoreSpec] (src/x_thread.c):
      threads, mutexes, conditions and keys as objects; the counting semaphore as
      interleaved steps of any number of threads, with an invariant by induction on
      reachability, the absence of lost wake-ups, and a simulation of a
      specification in which each call takes effect at one instant.
    - [XFile], [WinFile], [XWatcher], [XAsync] (src/x_filesystem.c): files and
      directories, the watcher as a log of observed states, the worker of
      asynchronous reads.
    - [XProcess], [WinProcess] (src/x_process.c): starting processes (both sides of
      fork and the child's search of PATH; CreateProcess with its environment
      block), waiting, pipes, pipelines, the environment.  [XQuote]: the command
      line of Windows is built within the buffer sized for it, and a program reads
      back exactly the arguments.
    - [XMemory], [WinMemory] (src/x_memory.c): protections, virtual memory, mapped
      files.  [XIpc], [WinIpc] (src/x_ipc.c): names, shared memory, named
      semaphores.  [XDynLib], [WinDynLib] (src/x_dynamic_library.c): libraries,
      symbols, the error text.  [XTerminal], [WinTerminal] (src/x_terminal.c).
    - [XTls] (src/x_tls.c): the context forwards each operation once, in order.
      [XHooks] (src/x_allocator.c, src/x_diagnostics.c): the current allocator and
      the three global hooks.
    - [XEvent] (src/x_event.c, epoll): the event loop, all of its operations; the
      user's callbacks are a parameter that may do anything, call back included.
      [XEventInv] has the representation [loop_rep] of a loop in memory, the
      invariant [loop_inv] (it adds that epoll knows only live sources) and the
      additions; [XEventSafe] compaction, waiting, dispatching and the step of a
      run; [XEventLoop] the safety of whole runs and of callbacks made of the
      library's operations; [XEventLife] and [XEventCreate] destruction and
      creation; [XEventTimers] and [XEventSpec] what passes, waits, additions and
      runs do exactly; [XEventDemo] concrete loops and runs.
    - [XBackend] (src/x_event.c, kqueue and select on POSIX and Windows):
      registration and waiting of the other builds; they tell a source the same as
      epoll, the wait with select tells exactly the ready sources, waiting is safe
      whatever the callbacks do; where they fall short (half a registration, more
      descriptors than an fd_set holds).  [XBackendDemo] has the examples.
    - [CppOwner], [XCpp] (include/xlib/xlib.hpp): the owning classes as programs of
      constructions, moves and destructions with exceptions, which release
      everything once; a Module per class for its member functions.

    The event loop uses the clock, sockets, processes and watchers through their
    contracts ([wp_time_monotonic], [wp_socket_send_to], [wp_process_poll], the
    watcher's poll); the process and file modules use paths and pipes likewise.
    The C++ classes use the C functions through [Handle].

    ** Fuel

    The loops that need fuel are those the kernel or the user can prolong.  Loops
    that signals restart end when [quiet_after n] (no call is interrupted from the
    [n]th on) and the fuel exceeds [n]; [grow_capacity] has 65 units, more than
    the doublings a 64-bit size allows; rearming needs one round per missed
    period; a pass over the sources one per source.  A run of the event loop ends
    only when the program lets it, so its safety is [Partial]; runs over timers
    that are due are proved to end.

    ** What is not modelled, and why

    The operations of the event loop other than registering and waiting are
    modelled over epoll only: they are common code, but the invariant says what
    epoll knows, and a kqueue registration that fails half way does not keep it.
    The examples and the build files (clients of the library); the export macros;
    [x_assert_fail] (prints and aborts); [semaphore::wait] and [post] of the C++
    header, which forward to the interleaved operations, and the allocations of
    [std::string]; what [vsnprintf], [strerror], the TLS hooks and the conversion
    to wide characters do (parameters); data races between threads other than
    those on the semaphore, since operations run one after the other outside
    [XSemaphore]; the content of mapped and shared memory.  Memory of one
    structure is one cell of the heap: a pointer into a structure is not
    expressible, and freed addresses may be reused by the allocator. *)
From stdpp Require Export base gmap list strings fin_maps relations.
From Stdlib Require Export ZArith Lia Ascii.


#[global] Open Scope Z_scope.

(** ** Text

    A C string is modelled by the list of its characters, the terminating
    NUL left out; a possibly NULL [const char *] is an [option]. *)

Abbreviation text := (list ascii).
Abbreviation cstr := (option (list ascii)).

Declare Scope text_scope.
Delimit Scope text_scope with txt.

Definition str (s : string) : text := String.list_ascii_of_string s.
Definition NUL : ascii := Ascii.zero.

Definition is_null {A} (o : option A) : bool :=
  match o with None => true | Some _ => false end.

Definition txt (o : cstr) : text := default [] o.

Definition strlen (s : text) : Z := Z.of_nat (length s).

(** [strcmp (a, b) == 0], [strchr] and [strncmp (a, b, n) == 0] on texts
    without embedded NUL characters. *)
Definition streqb (a b : text) : bool := bool_decide (a = b).

Fixpoint strchr (s : text) (c : ascii) : option nat :=
  match s with
  | [] => None
  | x :: s' => if Ascii.eqb x c then Some O else S <$> strchr s' c
  end.

(** The characters of a C string, NUL included, read at index [i]. *)
Definition char_at (s : text) (i : nat) : ascii := default NUL (s !! i).

Definition strncmp_eq (a b : text) (n : nat) : bool :=
  bool_decide (take n (a ++ [NUL]) = take n (b ++ [NUL])).

(** The C string in an array: its characters up to the first NUL. *)
Definition cstring (b : text) : text :=
  match strchr b NUL with Some n => take n b | None => b end.

(** [memcpy (b + off, src, length src)] into an array [b]; [None] when the copy
    would run past the end of the array. *)
Definition memcpy (b : text) (off : nat) (src : text) : option text :=
  if decide (off + length src <= length b)%nat
  then Some (take off b ++ src ++ drop (off + length src) b) else None.

Lemma memcpy_length b off src b' : memcpy b off src = Some b' -> length b' = length b.
Proof.
  unfold memcpy. case_decide; [|done]. intros [= <-].
  rewrite !length_app, length_take, length_drop. lia.
Qed.

Lemma memcpy_0 b src :
  (length src <= length b)%nat -> memcpy b 0 src = Some (src ++ drop (length src) b).
Proof. intros. unfold memcpy. by rewrite decide_True. Qed.

(** Two adjacent copies are one. *)
Lemma memcpy_adjacent b src1 src2 :
  (length src1 + length src2 <= length b)%nat ->
  memcpy (src1 ++ drop (length src1) b) (length src1) src2 =
    Some ((src1 ++ src2) ++ drop (length (src1 ++ src2)) b).
Proof.
  intros. unfold memcpy. rewrite decide_True by (rewrite length_app, length_drop; lia).
  rewrite take_app_length. f_equal. rewrite <- (assoc_L (++)). do 2 f_equal.
  rewrite drop_app_ge by lia. rewrite drop_drop, length_app. f_equal. lia.
Qed.

(** ** Fixed-width integers *)

Definition UINT64_MAX : Z := 18446744073709551615.
Definition INT64_MAX : Z := 9223372036854775807.
Definition UINT_MAX : Z := 4294967295.
Definition INT_MAX : Z := 2147483647.
(** LP64: [size_t] and [uint64_t] have the same range. *)
Definition SIZE_MAX : Z := UINT64_MAX.
Definition SSIZE_MAX : Z := INT64_MAX.
Definition PTRDIFF_MAX : Z := INT64_MAX.

Definition u64 (z : Z) : Z := z mod 2 ^ 64.
Definition u32 (z : Z) : Z := z mod 2 ^ 32.
(** Conversion to a signed 64-bit integer ([off_t], [ssize_t]). *)
Definition s64 (z : Z) : Z := (z + 2 ^ 63) mod 2 ^ 64 - 2 ^ 63.

Definition is_u64 (z : Z) : Prop := 0 <= z < 2 ^ 64.
Definition is_u32 (z : Z) : Prop := 0 <= z < 2 ^ 32.

Lemma u64_range z : is_u64 (u64 z).
Proof. unfold is_u64, u64. apply Z.mod_pos_bound. lia. Qed.

Lemma u64_small z : is_u64 z -> u64 z = z.
Proof. unfold is_u64, u64. intros. by apply Z.mod_small. Qed.

Lemma s64_small z : - 2 ^ 63 <= z < 2 ^ 63 -> s64 z = z.
Proof. unfold s64. intros. rewrite Z.mod_small; lia. Qed.

(** [flag bits m]: the C condition [(bits & m) != 0]. *)
Definition flag (bits m : Z) : bool := negb (Z.land bits m =? 0).

Create HintDb xlib discriminated.
#[export] Hint Resolve u64_range u64_small s64_small : xlib.

(** ** errno values of the target (Linux) *)

Definition ENOENT : Z := 2.
Definition EINTR : Z := 4.
Definition EIO : Z := 5.
Definition EAGAIN : Z := 11.
Definition EWOULDBLOCK : Z := EAGAIN.
Definition ENOMEM : Z := 12.
Definition EACCES : Z := 13.
Definition EBUSY : Z := 16.
Definition EEXIST : Z := 17.
Definition EINVAL : Z := 22.
Definition ENOTTY : Z := 25.
Definition ENAMETOOLONG : Z := 36.
Definition EOVERFLOW : Z := 75.
Definition EAFNOSUPPORT : Z := 97.

(** ** Lemmas shared by the components *)

Lemma strchr_Some s c i :
  strchr s c = Some i -> s !! i = Some c /\ c ∉ take i s.
Proof.
  revert i. induction s as [|x s IH]; intros i H; [done|]. cbn in H.
  destruct (Ascii.eqb_spec x c) as [->|Hne].
  - injection H as <-. split; [done|]. rewrite take_0. apply not_elem_of_nil.
  - destruct (strchr s c) as [j|] eqn:E; [|done]. injection H as <-.
    destruct (IH _ eq_refl) as [H1 H2]. split; [done|].
    rewrite firstn_cons. apply not_elem_of_cons. split; [congruence|done].
Qed.

Lemma strchr_None s c : strchr s c = None -> c ∉ s.
Proof.
  induction s as [|x s IH]; cbn; intros H; [apply not_elem_of_nil|].
  destruct (Ascii.eqb_spec x c) as [->|Hne]; [done|].
  destruct (strchr s c) eqn:E; [done|].
  apply not_elem_of_cons. split; [congruence|auto].
Qed.

Lemma strchr_app_first s c t : c ∉ s -> strchr (s ++ c :: t) c = Some (length s).
Proof.
  induction s as [|x s IH]; intros H; cbn.
  - by rewrite Ascii.eqb_refl.
  - apply not_elem_of_cons in H as [H1 H2].
    destruct (Ascii.eqb_spec x c); [congruence|]. by rewrite IH.
Qed.

Lemma strchr_none s c : c ∉ s -> strchr s c = None.
Proof.
  induction s as [|x s IH]; intros H; [done|]. cbn.
  apply not_elem_of_cons in H as [H1 H2].
  destruct (Ascii.eqb_spec x c); [congruence|]. by rewrite IH.
Qed.

Lemma cstring_terminated w rest : NUL ∉ w -> cstring (w ++ NUL :: rest) = w.
Proof. intros H. unfold cstring. by rewrite strchr_app_first, take_app_length. Qed.

(** Writing right after the prefix already written. *)
Lemma write_at_end {A} (w rest data : list A) :
  take (length w) (w ++ rest) ++ data ++ drop (length w + length data) (w ++ rest) =
  (w ++ data) ++ drop (length data) rest.
Proof.
  rewrite take_app_length, <- (assoc_L (++)). do 2 f_equal.
  rewrite drop_app_ge by lia. f_equal. lia.
Qed.

Lemma strchr_lt s c i : strchr s c = Some i -> (i < length s)%nat.
Proof. intros H. apply strchr_Some in H as [H _]. by eapply lookup_lt_Some. Qed.

(** Membership in an explicit list. *)
Ltac in_list := rewrite !elem_of_cons; tauto.
