(* ===== verification/Win32.v ===== *)
(** * The Win32 boundary: kinds of kernel resources and calls of the Windows API

    The Windows builds of the modules call the functions below.  As with the
    POSIX calls, a constructor carries the arguments the code passes and its
    index says what comes back; [win32_post] states what the documentation of
    the call promises.  The thread's last error takes the place of errno.  The
    conversion between UTF-8 and UTF-16 is a parameter, [Codepage]. *)
From S2P Require Import Prelude.

(** ** Kinds of resources, of both builds *)

Inductive rkind := KFd | KMap | KDir | KSem | KDl | KAddrinfo | KThread
  | KAttr | KMutex | KCond | KKey
  | KHandle | KView | KVirtual | KModule | KFind | KCrit | KTlsIndex | KSocket.

#[export] Instance rkind_eq_dec : EqDecision rkind.
Proof. solve_decision. Defined.

Definition rkind_code (k : rkind) : nat :=
  match k with
  | KFd => 0 | KMap => 1 | KDir => 2 | KSem => 3 | KDl => 4 | KAddrinfo => 5
  | KThread => 6 | KAttr => 7 | KMutex => 8 | KCond => 9 | KKey => 10
  | KHandle => 11 | KView => 12 | KVirtual => 13 | KModule => 14 | KFind => 15
  | KCrit => 16 | KTlsIndex => 17 | KSocket => 18
  end%nat.
Definition rkind_decode (n : nat) : option rkind :=
  match n with
  | 0 => Some KFd | 1 => Some KMap | 2 => Some KDir | 3 => Some KSem
  | 4 => Some KDl | 5 => Some KAddrinfo | 6 => Some KThread | 7 => Some KAttr
  | 8 => Some KMutex | 9 => Some KCond | 10 => Some KKey | 11 => Some KHandle
  | 12 => Some KView | 13 => Some KVirtual | 14 => Some KModule | 15 => Some KFind
  | 16 => Some KCrit | 17 => Some KTlsIndex | 18 => Some KSocket | _ => None
  end%nat.
#[export] Instance rkind_countable : Countable rkind.
Proof. apply (inj_countable rkind_code rkind_decode). by intros []. Defined.

Abbreviation resources := (gset (rkind * Z)).

Definition got (k : rkind) (bad r : Z) : resources :=
  if r =? bad then ∅ else {[ (k, r) ]}.

(** The resource of a call that reports success by a boolean. *)
Definition got_if (k : rkind) (ok : bool) (r : Z) : resources :=
  if ok then {[ (k, r) ]} else ∅.

(** ** Values of the API *)

(** Wide strings: lists of UTF-16 units. *)
Abbreviation wtext := (list Z).

Definition INVALID_HANDLE_VALUE : Z := -1.
Definition INFINITE : Z := 4294967295.
Definition WAIT_OBJECT_0 : Z := 0.
Definition WAIT_TIMEOUT : Z := 258.
Definition WAIT_FAILED : Z := 4294967295.
Definition TLS_OUT_OF_INDEXES : Z := 4294967295.
Definition INVALID_SOCKET : Z := -1.
Definition SOCKET_ERROR : Z := -1.

Definition ERROR_SUCCESS : Z := 0.
Definition ERROR_FILE_NOT_FOUND : Z := 2.
Definition ERROR_PATH_NOT_FOUND : Z := 3.
Definition ERROR_ACCESS_DENIED : Z := 5.
Definition ERROR_NOT_ENOUGH_MEMORY : Z := 8.
Definition ERROR_OUTOFMEMORY : Z := 14.
Definition ERROR_NO_MORE_FILES : Z := 18.
Definition ERROR_FILE_EXISTS : Z := 80.
Definition ERROR_INVALID_PARAMETER : Z := 87.
Definition ERROR_BROKEN_PIPE : Z := 109.
Definition ERROR_INSUFFICIENT_BUFFER : Z := 122.
Definition ERROR_INVALID_NAME : Z := 123.
Definition ERROR_MOD_NOT_FOUND : Z := 126.
Definition ERROR_PROC_NOT_FOUND : Z := 127.
Definition ERROR_ALREADY_EXISTS : Z := 183.
Definition ERROR_BAD_EXE_FORMAT : Z := 193.
Definition ERROR_ENVVAR_NOT_FOUND : Z := 203.
Definition ERROR_NO_UNICODE_TRANSLATION : Z := 1113.

(** [WIN32_FIND_DATAW]: attributes, size (high, low) and name. *)
Record find_data := FindData
  { fd_attributes : Z; fd_size_high : Z; fd_size_low : Z; fd_name : wtext }.
(** [WIN32_FILE_ATTRIBUTE_DATA]: attributes, last write (low, high), size (high, low). *)
Record attribute_data := AttributeData
  { ad_attributes : Z; ad_write_low : Z; ad_write_high : Z; ad_size_high : Z; ad_size_low : Z }.
(** The members of [STARTUPINFOW] the code sets: use of the handles, and them. *)
Record startup_info := StartupInfo
  { su_use_handles : bool; su_input : Z; su_output : Z; su_error : Z }.

(** ** The calls *)

Inductive win32 : Set -> Type :=
  (* handles and time *)
  | CloseHandle (h : Z) : win32 bool
  | WaitForSingleObject (h ms : Z) : win32 Z
  | GetSystemTimeAsFileTime : win32 (Z * Z)
  | QueryPerformanceCounter : win32 (bool * Z)
  | QueryPerformanceFrequency : win32 (bool * Z)
  | CreateWaitableTimerA (manual_reset : bool) : win32 Z
  | SetWaitableTimer (h due : Z) : win32 bool
  (* threads; a synchronisation object is named by its structure *)
  | CreateThread (data : Z) : win32 (Z * Z)
  | InitializeCriticalSection (c : Z) : win32 unit
  | EnterCriticalSection (c : Z) : win32 unit
  | TryEnterCriticalSection (c : Z) : win32 bool
  | LeaveCriticalSection (c : Z) : win32 unit
  | DeleteCriticalSection (c : Z) : win32 unit
  | InitializeSRWLock (l : Z) : win32 unit
  | AcquireSRWLockExclusive (l : Z) : win32 unit
  | TryAcquireSRWLockExclusive (l : Z) : win32 bool
  | ReleaseSRWLockExclusive (l : Z) : win32 unit
  | InitializeConditionVariable (c : Z) : win32 unit
  | SleepConditionVariableCS (c m ms : Z) : win32 bool
  | SleepConditionVariableSRW (c l ms flags : Z) : win32 bool
  | WakeConditionVariable (c : Z) : win32 unit
  | WakeAllConditionVariable (c : Z) : win32 unit
  | TlsAlloc : win32 Z
  | TlsSetValue (index value : Z) : win32 bool
  | TlsGetValue (index : Z) : win32 Z
  | TlsFree (index : Z) : win32 bool
  (* memory, mappings, named objects *)
  | GetSystemInfo : win32 Z
  | VirtualAlloc (size type protection : Z) : win32 Z
  | VirtualProtect (address size protection : Z) : win32 bool
  | VirtualFree (address size type : Z) : win32 bool
  | VirtualQuery (address : Z) : win32 (Z * Z)
  | CreateFileA (path : text) (access share disposition : Z) : win32 Z
  | CreateFileMappingA (file protection size_high size_low : Z) (name : cstr) : win32 Z
  | OpenFileMappingA (access : Z) (name : text) : win32 Z
  | MapViewOfFile (mapping access size : Z) : win32 Z
  | UnmapViewOfFile (address : Z) : win32 bool
  | FlushViewOfFile (address size : Z) : win32 bool
  | FlushFileBuffers (file : Z) : win32 bool
  | CreateSemaphoreA (initial maximum : Z) (name : text) : win32 Z
  | OpenSemaphoreA (access : Z) (name : text) : win32 Z
  | ReleaseSemaphore (h count : Z) : win32 bool
  (* text *)
  | MultiByteToWideChar (value : text) (capacity : Z) : win32 (Z * wtext)
  | WideCharToMultiByte (value : wtext) (capacity : Z) : win32 (Z * text)
  | FormatMessageA (error size : Z) : win32 (Z * text)
  (* modules *)
  | LoadLibraryW (path : wtext) : win32 Z
  | GetProcAddress (h : Z) (name : text) : win32 Z
  | FreeLibrary (h : Z) : win32 bool
  (* files and directories *)
  | CreateFileW (path : wtext) (access share : Z) (inherit : bool) (disposition : Z) : win32 Z
  | SetFilePointerEx (file distance method : Z) : win32 bool
  | SetEndOfFile (file : Z) : win32 bool
  | GetFileSizeEx (file : Z) : win32 (bool * Z)
  | ReadFile (file count : Z) : win32 (bool * text)
  | WriteFile (file : Z) (data : text) (count : Z) : win32 (bool * Z)
  | DeleteFileW (path : wtext) : win32 bool
  | CreateDirectoryW (path : wtext) : win32 bool
  | RemoveDirectoryW (path : wtext) : win32 bool
  | FindFirstFileW (pattern : wtext) : win32 (Z * find_data)
  | FindNextFileW (h : Z) : win32 (bool * find_data)
  | FindClose (h : Z) : win32 bool
  | GetFileAttributesExW (path : wtext) : win32 (bool * attribute_data)
  (* processes *)
  | DuplicateHandle (h : Z) (inherit : bool) : win32 (bool * Z)
  | GetStdHandle (number : Z) : win32 Z
  | CreateProcessW (command_line : wtext) (inherit : bool) (flags : Z) (environment : option wtext)
      (directory : option wtext) (startup : startup_info) : win32 (bool * (Z * Z))
  | GetExitCodeProcess (h : Z) : win32 (bool * Z)
  | TerminateProcess (h code : Z) : win32 bool
  | CreatePipe (inherit : bool) : win32 (bool * (Z * Z))
  | GetEnvironmentVariableW (name : wtext) (capacity : Z) : win32 (Z * wtext)
  | SetEnvironmentVariableW (name : wtext) (value : option wtext) : win32 bool
  (* consoles: the visible window as left, top, right, bottom *)
  | GetConsoleScreenBufferInfo (h : Z) : win32 (bool * (Z * Z * Z * Z))
  (* sockets *)
  | WSAStartup (version : Z) : win32 Z
  | WSAsocket (family type protocol : Z) : win32 Z
  | WSAaccept (s : Z) : win32 Z
  | closesocket (s : Z) : win32 Z
  | ioctlsocket (s command : Z) (argument : Z) : win32 Z
  | WSAsetsockopt (s level option : Z) (value : list Z) : win32 Z
  | InetPtonA (family : Z) (host : text) : win32 (Z * list Z)
  | InetNtopA (family : Z) (source : list Z) (size : Z) : win32 cstr.

(** ** Resources taken and given back *)

Definition win32_acquires {R : Set} (c : win32 R) : R -> resources :=
  match c with
  | CreateWaitableTimerA _ => got KHandle 0
  | CreateThread _ => fun r => got KHandle 0 r.1
  | InitializeCriticalSection m => fun _ => {[ (KCrit, m) ]}
  | TlsAlloc => got KTlsIndex TLS_OUT_OF_INDEXES
  | VirtualAlloc _ _ _ => got KVirtual 0
  | CreateFileA _ _ _ _ => got KHandle INVALID_HANDLE_VALUE
  | CreateFileW _ _ _ _ _ => got KHandle INVALID_HANDLE_VALUE
  | CreateFileMappingA _ _ _ _ _ => got KHandle 0
  | OpenFileMappingA _ _ => got KHandle 0
  | MapViewOfFile _ _ _ => got KView 0
  | CreateSemaphoreA _ _ _ => got KHandle 0
  | OpenSemaphoreA _ _ => got KHandle 0
  | FindFirstFileW _ => fun r => got KFind INVALID_HANDLE_VALUE r.1
  | DuplicateHandle _ _ => fun r => got_if KHandle r.1 r.2
  | CreateProcessW _ _ _ _ _ _ => fun r =>
      if r.1 then {[ (KHandle, r.2.1) ]} ∪ {[ (KHandle, r.2.2) ]} else ∅
  | CreatePipe _ => fun r =>
      if r.1 then {[ (KHandle, r.2.1) ]} ∪ {[ (KHandle, r.2.2) ]} else ∅
  | WSAsocket _ _ _ => got KSocket INVALID_SOCKET
  | WSAaccept _ => got KSocket INVALID_SOCKET
  | _ => fun _ => ∅
  end.

Definition win32_releases {R : Set} (c : win32 R) : resources :=
  match c with
  | CloseHandle h => {[ (KHandle, h) ]}
  | DeleteCriticalSection m => {[ (KCrit, m) ]}
  | TlsFree i => {[ (KTlsIndex, i) ]}
  | VirtualFree a _ _ => {[ (KVirtual, a) ]}
  | UnmapViewOfFile a => {[ (KView, a) ]}
  | FindClose h => {[ (KFind, h) ]}
  | closesocket s => {[ (KSocket, s) ]}
  | _ => ∅
  end.

(** Loaded modules are counted by the kernel. *)
Definition win32_uses {R : Set} (c : win32 R) : R -> option (bool * Z) :=
  match c with
  | LoadLibraryW _ => fun r => if r =? 0 then None else Some (true, r)
  | FreeLibrary h => fun _ => Some (false, h)
  | _ => fun _ => None
  end.

(** Calls that change nothing in what is held. *)
Definition win32_inert {R : Set} (c : win32 R) : bool :=
  match c with
  | CloseHandle _ | CreateWaitableTimerA _ | CreateThread _ | InitializeCriticalSection _
  | DeleteCriticalSection _ | TlsAlloc | TlsFree _ | VirtualAlloc _ _ _ | VirtualFree _ _ _
  | CreateFileA _ _ _ _ | CreateFileW _ _ _ _ _ | CreateFileMappingA _ _ _ _ _
  | OpenFileMappingA _ _ | MapViewOfFile _ _ _ | UnmapViewOfFile _ | CreateSemaphoreA _ _ _
  | OpenSemaphoreA _ _ | FindFirstFileW _ | FindClose _ | DuplicateHandle _ _
  | CreateProcessW _ _ _ _ _ _ | CreatePipe _ | WSAsocket _ _ _ | WSAaccept _ | closesocket _
  | LoadLibraryW _ | FreeLibrary _ => false
  | _ => true
  end.

Lemma win32_inert_acquires {R : Set} (c : win32 R) r :
  win32_inert c = true -> win32_acquires c r = ∅.
Proof. by destruct c. Qed.

Lemma win32_inert_releases {R : Set} (c : win32 R) :
  win32_inert c = true -> win32_releases c = ∅.
Proof. by destruct c. Qed.

Lemma win32_inert_uses {R : Set} (c : win32 R) r :
  win32_inert c = true -> win32_uses c r = None.
Proof. by destruct c. Qed.

(** ** What the documentation promises *)

(** [utf16 s] is the conversion of the bytes [s] to UTF-16, [None] when they are
    not valid UTF-8; [utf8] is the conversion back. *)
Class Codepage := {
  utf16 : text -> option wtext;
  utf8 : wtext -> option text;
  utf16_nul s w : utf16 s = Some w -> 0 ∉ w;
  utf8_nul w s : utf8 w = Some s -> NUL ∉ s
}.

(** The conversion of the NUL-terminated string [s] by [conv] into [capacity]
    units, terminator included; a capacity of 0 asks for the size. *)
Definition converts {A B} (conv : list A -> option (list B)) (nul : B) (s : list A)
    (capacity : Z) (r : Z * list B) (e : Z) : Prop :=
  (r.1 = 0 /\ 0 < e) \/
  exists w, conv s = Some w /\ r.1 = Z.of_nat (length w) + 1 /\ r.1 <= 2147483647 /\
    if capacity =? 0 then r.2 = [] else r.1 <= capacity /\ r.2 = w ++ [nul].

Definition ok_or_error (ok : bool) (e : Z) : Prop := ok = true \/ (ok = false /\ 0 < e).

(** A fresh handle other than [bad], 0 and -1, or [bad] with the last error set. *)
Definition fresh_or_error (X : resources) (k : rkind) (bad r e : Z) : Prop :=
  (r = bad /\ 0 < e) \/ (r <> bad /\ 0 < r /\ (k, r) ∉ X).

Definition is_dword (z : Z) : Prop := is_u32 z.

(** [X] are the resources held before the call. *)
Definition win32_post `{Codepage} (X : resources) {R : Set} (c : win32 R) : R -> Z -> Prop :=
  match c with
  | WaitForSingleObject _ ms => fun r e =>
      r = WAIT_OBJECT_0 \/ (r = WAIT_TIMEOUT /\ ms <> INFINITE) \/ (r = WAIT_FAILED /\ 0 < e)
  | GetSystemTimeAsFileTime => fun r _ => is_dword r.1 /\ is_dword r.2
  | QueryPerformanceCounter => fun r e => ok_or_error r.1 e /\ 0 <= r.2 < 2 ^ 63
  | QueryPerformanceFrequency => fun r e => ok_or_error r.1 e /\ 0 < r.2 < 2 ^ 63
  | CreateWaitableTimerA _ => fresh_or_error X KHandle 0
  | SetWaitableTimer _ _ => ok_or_error
  | CreateThread _ => fun r e => fresh_or_error X KHandle 0 r.1 e
  | TlsAlloc => fun r _ => r = TLS_OUT_OF_INDEXES \/ (0 <= r /\ (KTlsIndex, r) ∉ X)
  | GetSystemInfo => fun r _ => is_dword r
  | VirtualAlloc _ _ _ => fresh_or_error X KVirtual 0
  | VirtualProtect _ _ _ => ok_or_error
  | VirtualQuery _ => fun r _ => r.1 <> 0 -> is_u64 r.2
  | CreateFileA _ _ _ _ => fresh_or_error X KHandle INVALID_HANDLE_VALUE
  | CreateFileW _ _ _ _ _ => fresh_or_error X KHandle INVALID_HANDLE_VALUE
  | CreateFileMappingA _ _ _ _ _ => fresh_or_error X KHandle 0
  | OpenFileMappingA _ _ => fresh_or_error X KHandle 0
  | MapViewOfFile _ _ _ => fresh_or_error X KView 0
  | FlushViewOfFile _ _ => ok_or_error
  | FlushFileBuffers _ => ok_or_error
  | CreateSemaphoreA _ _ _ => fresh_or_error X KHandle 0
  | OpenSemaphoreA _ _ => fresh_or_error X KHandle 0
  | ReleaseSemaphore _ _ => ok_or_error
  | MultiByteToWideChar s n => converts utf16 0 s n
  | WideCharToMultiByte w n => converts utf8 NUL w n
  | FormatMessageA _ n => fun r _ => r.1 = 0 \/ (0 < r.1 < n /\ Z.of_nat (length r.2) = r.1 /\ NUL ∉ r.2)
  | LoadLibraryW _ => fun r e => (r = 0 /\ 0 < e) \/ 0 < r
  | GetProcAddress _ _ => fun r e => r = 0 -> 0 < e
  | SetFilePointerEx _ _ _ => ok_or_error
  | SetEndOfFile _ => ok_or_error
  | GetFileSizeEx _ => fun r e => ok_or_error r.1 e /\ 0 <= r.2 < 2 ^ 63
  | ReadFile _ n => fun r e => ok_or_error r.1 e /\ (r.1 = true -> Z.of_nat (length r.2) <= n)
  | WriteFile _ _ n => fun r e => ok_or_error r.1 e /\ (r.1 = true -> 0 <= r.2 <= n)
  | DeleteFileW _ => ok_or_error
  | CreateDirectoryW _ => ok_or_error
  | RemoveDirectoryW _ => ok_or_error
  | FindFirstFileW _ => fun r e => fresh_or_error X KFind INVALID_HANDLE_VALUE r.1 e
  | FindNextFileW _ => fun r e => ok_or_error r.1 e
  | GetFileAttributesExW _ => fun r e => ok_or_error r.1 e
  | DuplicateHandle _ _ => fun r e =>
      (r.1 = false /\ 0 < e) \/ (r.1 = true /\ 0 < r.2 /\ (KHandle, r.2) ∉ X)
  | CreateProcessW _ _ _ _ _ _ => fun r e =>
      (r.1 = false /\ 0 < e) \/
      (r.1 = true /\ 0 < r.2.1 /\ 0 < r.2.2 /\ r.2.1 <> r.2.2 /\
       (KHandle, r.2.1) ∉ X /\ (KHandle, r.2.2) ∉ X)
  | CreatePipe _ => fun r e =>
      (r.1 = false /\ 0 < e) \/
      (r.1 = true /\ 0 < r.2.1 /\ 0 < r.2.2 /\ r.2.1 <> r.2.2 /\
       (KHandle, r.2.1) ∉ X /\ (KHandle, r.2.2) ∉ X)
  | GetExitCodeProcess _ => fun r e => ok_or_error r.1 e /\ is_dword r.2
  | TerminateProcess _ _ => ok_or_error
  (* the size asked for counts the terminator, the length stored does not *)
  | GetEnvironmentVariableW _ n => fun r e =>
      0 <= r.1 <= 32767 /\
      (n = 0 -> r.1 = 0 -> 0 < e) /\
      (0 < r.1 < n -> Z.of_nat (length r.2) = r.1 /\ 0 ∉ r.2)
  | SetEnvironmentVariableW _ _ => ok_or_error
  | WSAsocket _ _ _ => fresh_or_error X KSocket INVALID_SOCKET
  | WSAaccept _ => fresh_or_error X KSocket INVALID_SOCKET
  | ioctlsocket _ _ _ => fun r e => r <> 0 -> 0 < e
  | WSAsetsockopt _ _ _ _ => fun r e => r <> 0 -> 0 < e
  | InetPtonA af _ => fun r e =>
      (r.1 = -1 -> 0 < e) /\
      (r.1 = 1 -> length r.2 = if af =? 2 (* AF_INET *) then 4%nat else 16%nat)
  | InetNtopA _ _ _ => fun r e => r = None -> 0 < e
  | _ => fun _ _ => True
  end.

(** The promises constrain the last error only from below, after a failure. *)
Lemma win32_post_error `{Codepage} X {R : Set} (c : win32 R) r e :
  win32_post X c r 0 -> win32_post X c r e.
Proof.
  destruct c; cbn [win32_post]; unfold ok_or_error, fresh_or_error, converts;
    try solve [intuition lia]; try (intros [[? ?]|?]; [lia|by right]).
Qed.
