(* ===== verification/Syscalls.v ===== *)
(** * The boundary of the model: calls into the operating system

    Everything xlib calls that is not under src/ and not part of the C
    language's library is one constructor of [syscall], with the arguments the
    code passes and, as the index, what the call hands back (the return value
    and what it stores through its out-arguments).  The behaviour of the calls
    is a parameter: the class [OS] below.  It is a function of the whole
    history of calls, so it covers any deterministic environment, and every
    theorem quantifies over it.  [sys_post] states what the manual pages
    promise about one call; nothing else is assumed. *)
From S2P Require Export Win32.
From S2P Require Import Prelude.

Abbreviation ptr := Z (only parsing).
Definition NULL : ptr := 0.
Definition MAP_FAILED : ptr := -1.

(** [struct stat], the members the code reads. *)
Record stat := Stat { st_mode : Z; st_size : Z; st_mtime : Z }.
Definition S_ISDIR (mode : Z) : bool := Z.land mode 61440 =? 16384.

(** [struct timespec] as (seconds, nanoseconds). *)
Abbreviation timespec := (Z * Z)%type (only parsing).

(** [struct addrinfo] hints: family, socktype, protocol, flags. *)
Record addrinfo_hints := Hints
  { ai_family : Z; ai_socktype : Z; ai_protocol : Z; ai_flags : Z }.

(** pthread calls that return 0 or an error number; a synchronisation object is
    named by the structure that contains it. *)
Inductive pthread_op : Set :=
  | PMutexattrInit | PMutexattrSettype (kind : Z) | PMutexattrDestroy
  | PMutexInit (m : ptr) | PMutexDestroy (m : ptr)
  | PMutexLock (m : ptr) | PMutexTrylock (m : ptr) | PMutexUnlock (m : ptr)
  | PCondInit (c : ptr) | PCondDestroy (c : ptr) | PCondWait (c m : ptr)
  | PCondSignal (c : ptr) | PCondBroadcast (c : ptr)
  | PKeyDelete (key : Z) | PSetspecific (key : Z) (value : ptr).

(** One [struct kevent] of a change list: the answer to [Skevent_change] has, with
    its code, how many of the changes the kernel applied before the first that failed. *)
Record kchange := KChange { kc_ident : Z; kc_filter : Z; kc_add : bool; kc_udata : ptr }.

Inductive syscall : Set -> Type :=
  (* time *)
  | Sclock_gettime (clock : Z) : syscall (Z * timespec)
  | Snanosleep (sec nsec : Z) : syscall (Z * timespec)
  (* files *)
  | Sopen (path : text) (flags mode : Z) : syscall Z
  | Sclose (fd : Z) : syscall Z
  | Sread (fd count : Z) : syscall (Z * text)
  | Swrite (fd : Z) (data : text) (count : Z) : syscall Z
  | Slseek (fd off whence : Z) : syscall Z
  | Sfstat (fd : Z) : syscall (Z * stat)
  | Sstat (path : text) : syscall (Z * stat)
  | Sunlink (path : text) : syscall Z
  | Smkdir (path : text) (mode : Z) : syscall Z
  | Srmdir (path : text) : syscall Z
  | Sopendir (path : text) : syscall ptr
  | Sreaddir (dir : ptr) : syscall (option text)
  | Sclosedir (dir : ptr) : syscall Z
  (* memory *)
  | Ssysconf (name : Z) : syscall Z
  | Smmap (length prot flags fd off : Z) : syscall ptr
  | Smprotect (addr : ptr) (length prot : Z) : syscall Z
  | Smunmap (addr : ptr) (length : Z) : syscall Z
  | Sftruncate (fd length : Z) : syscall Z
  | Smsync (addr : ptr) (length flags : Z) : syscall Z
  (* inter-process communication *)
  | Sshm_open (name : text) (flags mode : Z) : syscall Z
  | Sshm_unlink (name : text) : syscall Z
  | Ssem_open (name : text) (oflag mode value : Z) : syscall ptr
  | Ssem_wait (sem : ptr) : syscall Z
  | Ssem_post (sem : ptr) : syscall Z
  | Ssem_close (sem : ptr) : syscall Z
  | Ssem_unlink (name : text) : syscall Z
  (* sockets; socket addresses are byte strings *)
  | Ssocket (domain type protocol : Z) : syscall Z
  | Sbind (fd : Z) (addr : list Z) : syscall Z
  | Slisten (fd backlog : Z) : syscall Z
  | Saccept (fd : Z) : syscall Z
  | Sconnect (fd : Z) (addr : list Z) : syscall Z
  | Ssend (fd : Z) (data : text) (count : Z) : syscall Z
  | Srecv (fd count : Z) : syscall (Z * text)
  | Ssendto (fd : Z) (data : text) (count : Z) (addr : list Z) : syscall Z
  | Srecvfrom (fd count : Z) : syscall (Z * text * list Z)
  | Sgetsockname (fd : Z) : syscall (Z * list Z)
  | Sfcntl (fd cmd arg : Z) : syscall Z
  | Ssetsockopt (fd level optname : Z) (optval : list Z) : syscall Z
  | Sgetaddrinfo (host : cstr) (service : text) (hints : addrinfo_hints) : syscall (Z * list (list Z))
  | Sfreeaddrinfo (results : list (list Z)) : syscall unit
  | Sinet_ntop (af : Z) (src : list Z) (size : Z) : syscall cstr
  | Sinet_pton (af : Z) (host : text) : syscall (Z * list Z)
  (* processes *)
  | Sfork : syscall Z
  | Sexecv (path : text) (args : list text) : syscall Z
  | Sexecvp (path : text) (args : list text) : syscall Z
  | Sexecve (path : text) (args env : list text) : syscall Z
  | Schdir (path : text) : syscall Z
  | Sdup2 (fd target : Z) : syscall Z
  | Swaitpid (pid options : Z) : syscall (Z * Z)
  | Skill (pid sig : Z) : syscall Z
  | Spipe : syscall (Z * (Z * Z))
  | Sgetenv (name : text) : syscall cstr
  | Ssetenv (name value : text) (overwrite : Z) : syscall Z
  | Sunsetenv (name : text) : syscall Z
  (* threads *)
  | Spthread_create (function : Z) (data : ptr) : syscall (Z * Z)
  | Spthread_join (handle : Z) : syscall Z
  | Spthread_detach (handle : Z) : syscall Z
  | Spthread (op : pthread_op) : syscall Z
  | Spthread_key_create : syscall (Z * Z)
  | Spthread_getspecific (key : Z) : syscall ptr
  (* readiness *)
  | Sepoll_create1 (flags : Z) : syscall Z
  | Sepoll_ctl (epfd op fd events : Z) (data : ptr) : syscall Z
  | Sepoll_wait (epfd maxevents timeout : Z) : syscall (Z * list (Z * ptr))
  | Skqueue : syscall Z
  | Skevent_change (kq : Z) (changes : list kchange) : syscall (Z * nat)
  | Skevent_wait (kq maxevents : Z) (timeout : option timespec) : syscall (Z * list (Z * ptr))
  | Sselect (nfds : Z) (reads writes : list Z) (timeout : option timespec)
      : syscall (Z * (list Z * list Z))
  (* dynamic linking and terminals *)
  | Sdlopen (path : text) (flags : Z) : syscall ptr
  | Sdlsym (handle : ptr) (name : text) : syscall ptr
  | Sdlerror : syscall cstr
  | Sdlclose (handle : ptr) : syscall Z
  | Sstrerror (error : Z) : syscall text
  | Sisatty (fd : Z) : syscall Z
  | Sioctl_winsize (fd : Z) : syscall (Z * (Z * Z))
  (* the calls of the Windows builds *)
  | W {R : Set} (c : win32 R) : syscall R.

(** One entry of the history; allocations are recorded with their result, and
    so are the calls of functions of the user. *)
Inductive ev : Type :=
  | Ev {R : Set} (c : syscall R) (r : R)
  | EvMalloc (size : Z) (p : ptr)
  | EvFree (p : ptr)
  | EvCall (function : Z) (args : list Z).

(** The calls of user functions, latest first. *)
Fixpoint calls (h : list ev) : list (Z * list Z) :=
  match h with
  | [] => []
  | EvCall f args :: t => (f, args) :: calls t
  | _ :: t => calls t
  end.

(** ** Kernel resources held, as a function of the history *)

Definition acquires (e : ev) : resources :=
  match e with
  | Ev (Sopen _ _ _) r => got KFd (-1) r
  | Ev (Sshm_open _ _ _) r => got KFd (-1) r
  | Ev (Ssocket _ _ _) r => got KFd (-1) r
  | Ev (Saccept _) r => got KFd (-1) r
  | Ev (Sepoll_create1 _) r => got KFd (-1) r
  | Ev Skqueue r => got KFd (-1) r
  | Ev (Sdup2 _ _) r => got KFd (-1) r
  | Ev Spipe r => if r.1 =? 0 then {[ (KFd, r.2.1) ]} ∪ {[ (KFd, r.2.2) ]} else ∅
  | Ev (Sopendir _) r => got KDir NULL r
  | Ev (Smmap _ _ _ _ _) r => got KMap MAP_FAILED r
  | Ev (Spthread_create _ _) r => if r.1 =? 0 then {[ (KThread, r.2) ]} else ∅
  | Ev (Spthread op) r =>
      match op with
      | PMutexattrInit => if r =? 0 then {[ (KAttr, 0) ]} else ∅
      | PMutexInit m => if r =? 0 then {[ (KMutex, m) ]} else ∅
      | PCondInit c => if r =? 0 then {[ (KCond, c) ]} else ∅
      | _ => ∅
      end
  | Ev Spthread_key_create r => if r.1 =? 0 then {[ (KKey, r.2) ]} else ∅
  | Ev (W c) r => win32_acquires c r
  | _ => ∅
  end.

Definition releases (e : ev) : resources :=
  match e with
  | Ev (Sclose fd) _ => {[ (KFd, fd) ]}
  | Ev (Sclosedir d) _ => {[ (KDir, d) ]}
  | Ev (Smunmap a _) _ => {[ (KMap, a) ]}
  | Ev (Spthread_join t) r => if r =? 0 then {[ (KThread, t) ]} else ∅
  | Ev (Spthread_detach t) _ => {[ (KThread, t) ]}
  | Ev (Spthread op) _ =>
      match op with
      | PMutexattrDestroy => {[ (KAttr, 0) ]}
      | PMutexDestroy m => {[ (KMutex, m) ]}
      | PCondDestroy c => {[ (KCond, c) ]}
      | PKeyDelete k => {[ (KKey, k) ]}
      | _ => ∅
      end
  | Ev (W c) _ => win32_releases c
  | _ => ∅
  end.

Fixpoint held (h : list ev) : resources :=
  match h with
  | [] => ∅
  | e :: h' => (held h' ∖ releases e) ∪ acquires e
  end.

(** ** epoll registrations, as a function of the history *)

Definition EPOLL_CTL_ADD : Z := 1.
Definition EPOLL_CTL_DEL : Z := 2.

Fixpoint registered (h : list ev) (epfd : Z) : gmap Z ptr :=
  match h with
  | [] => ∅
  | e :: h' =>
      let m := registered h' epfd in
      match e with
      | Ev (Sepoll_ctl ep op fd _ p) r =>
          if (ep =? epfd) && (r =? 0)
          then if op =? EPOLL_CTL_ADD then <[fd := p]> m
               else if op =? EPOLL_CTL_DEL then delete fd m else m
          else m
      | Ev (Sclose fd) _ => if fd =? epfd then ∅ else delete fd m
      | Ev (Sepoll_create1 _) r => if r =? epfd then ∅ else m
      | _ => m
      end
  end.

(** ** kqueue filters, as a function of the history *)

Definition apply_change (c : kchange) (m : gmap (Z * Z) ptr) : gmap (Z * Z) ptr :=
  if kc_add c then <[(kc_ident c, kc_filter c) := kc_udata c]> m
  else delete (kc_ident c, kc_filter c) m.

Fixpoint filters (h : list ev) (kq : Z) : gmap (Z * Z) ptr :=
  match h with
  | [] => ∅
  | e :: h' =>
      let m := filters h' kq in
      match e with
      | Ev (Skevent_change q changes) r =>
          if q =? kq then foldl (fun m c => apply_change c m) m (take r.2 changes) else m
      | Ev (Sclose fd) _ =>
          if fd =? kq then ∅ else filter (fun kv => kv.1.1 <> fd) m
      | Ev Skqueue r => if r =? kq then ∅ else m
      | _ => m
      end
  end.

(** ** Counted resources

    A semaphore or a library that is opened twice may be the same object for the
    kernel, which counts its uses. *)

Definition one (x y : rkind * Z) : Z := if decide (x = y) then 1 else 0.

Definition ref_change (e : ev) (x : rkind * Z) : Z :=
  match e with
  | Ev (Ssem_open _ _ _ _) r => if r =? NULL then 0 else one x (KSem, r)
  | Ev (Sdlopen _ _) r => if r =? NULL then 0 else one x (KDl, r)
  | Ev (Ssem_close s) _ => - one x (KSem, s)
  | Ev (Sdlclose d) _ => - one x (KDl, d)
  | Ev (W c) r =>
      match win32_uses c r with
      | Some (b, m) => if b : bool then one x (KModule, m) else - one x (KModule, m)
      | None => 0
      end
  | _ => 0
  end.

(** How often [x] is open after a history. *)
Fixpoint refs (t : list ev) (x : rkind * Z) : Z :=
  match t with [] => 0 | e :: t => refs t x + ref_change e x end.

(** ** What the manual pages promise *)

(** Zero on success; -1 with errno set on failure. *)
Definition ok_or_errno (r e : Z) : Prop := r = 0 \/ (r = -1 /\ 0 < e).
(** A fresh resource, or the failure value with errno set. *)
Definition fresh_or_errno (h : list ev) (k : rkind) (bad r e : Z) : Prop :=
  (r = bad /\ 0 < e) \/ (r <> bad /\ 0 <= r /\ (k, r) ∉ held h).
(** A count of at most [n], or -1 with errno set. *)
Definition count_or_errno (r n e : Z) : Prop :=
  (r = -1 /\ 0 < e) \/ 0 <= r <= n.
Definition timespec_ok (t : timespec) : Prop :=
  0 <= t.1 < 2 ^ 63 /\ 0 <= t.2 < 1000000000.
Definition stat_ok (s : stat) : Prop := 0 <= st_size s < 2 ^ 63.

Definition sys_post `{Codepage} (h : list ev) {R : Set} (c : syscall R) : R -> Z -> Prop :=
  match c with
  | Sclock_gettime _ => fun r e => ok_or_errno r.1 e /\ timespec_ok r.2
  | Snanosleep _ _ => fun r e => ok_or_errno r.1 e /\ timespec_ok r.2
  | Sopen _ _ _ => fun r e => fresh_or_errno h KFd (-1) r e
  | Sread _ n => fun r e => count_or_errno r.1 n e /\ (0 <= r.1 -> Z.of_nat (length r.2) = r.1)
  | Swrite _ _ n => fun r e => count_or_errno r n e
  | Slseek _ _ _ => fun r e => (r = -1 /\ 0 < e) \/ 0 <= r
  | Sfstat _ => fun r e => ok_or_errno r.1 e /\ stat_ok r.2
  | Sstat _ => fun r e => ok_or_errno r.1 e /\ stat_ok r.2
  | Sunlink _ => ok_or_errno
  | Smkdir _ _ => ok_or_errno
  | Srmdir _ => ok_or_errno
  | Sopendir _ => fun r e => fresh_or_errno h KDir NULL r e
  | Sreaddir _ => fun r _ =>
      match r with Some name => NUL ∉ name /\ "/"%char ∉ name | None => True end
  | Smmap _ _ _ _ _ => fun r e => fresh_or_errno h KMap MAP_FAILED r e /\ r <> NULL
  | Smprotect _ _ _ => ok_or_errno
  | Sftruncate _ _ => ok_or_errno
  | Smsync _ _ _ => ok_or_errno
  | Sshm_open _ _ _ => fun r e => fresh_or_errno h KFd (-1) r e
  | Sshm_unlink _ => ok_or_errno
  | Ssem_open _ _ _ _ => fun r e => (r = NULL /\ 0 < e) \/ 0 < r
  | Ssem_wait _ => ok_or_errno
  | Ssem_post _ => ok_or_errno
  | Ssem_unlink _ => ok_or_errno
  | Ssocket _ _ _ => fun r e => fresh_or_errno h KFd (-1) r e
  | Sbind _ _ => ok_or_errno
  | Slisten _ _ => ok_or_errno
  | Saccept _ => fun r e => fresh_or_errno h KFd (-1) r e
  | Sconnect _ _ => ok_or_errno
  | Ssend _ _ n => fun r e => count_or_errno r n e
  | Srecv _ n => fun r e => count_or_errno r.1 n e /\ (0 <= r.1 -> Z.of_nat (length r.2) = r.1)
  | Ssendto _ _ n _ => fun r e => count_or_errno r n e
  | Srecvfrom _ n => fun r e =>
      count_or_errno r.1.1 n e /\ (0 <= r.1.1 -> Z.of_nat (length r.1.2) = r.1.1)
  | Sgetsockname _ => fun r e => ok_or_errno r.1 e
  | Ssetsockopt _ _ _ _ => ok_or_errno
  | Sgetaddrinfo _ _ _ => fun r e => r.1 = -11 (* EAI_SYSTEM *) -> 0 < e
  | Sinet_ntop _ _ _ => fun r e => r = None -> 0 < e
  | Sinet_pton af _ => fun r _ =>
      r.1 = 1 -> length r.2 = if af =? 2 (* AF_INET *) then 4%nat else 16%nat
  | Sfcntl _ cmd _ => fun r e =>
      (r = -1 /\ 0 < e) \/ (0 <= r /\ (cmd = 4 (* F_SETFL *) -> r = 0))
  | Schdir _ => ok_or_errno
  | Sfork => fun r e => (r = -1 /\ 0 < e) \/ 0 <= r
  | Sdup2 _ t => fun r e => (r = -1 /\ 0 < e) \/ r = t
  | Swaitpid pid _ => fun r e => (r.1 = -1 /\ 0 < e) \/ r.1 = 0 \/ r.1 = pid
  | Skill _ _ => ok_or_errno
  | Spipe => fun r e =>
      (r.1 = -1 /\ 0 < e) \/
      (r.1 = 0 /\ 0 <= r.2.1 /\ 0 <= r.2.2 /\ r.2.1 <> r.2.2 /\
       (KFd, r.2.1) ∉ held h /\ (KFd, r.2.2) ∉ held h)
  | Ssetenv _ _ _ => ok_or_errno
  | Sunsetenv _ => ok_or_errno
  | Spthread_create _ _ => fun r _ => 0 <= r.1 /\ (r.1 = 0 -> (KThread, r.2) ∉ held h)
  | Spthread_join _ => fun r _ => 0 <= r
  | Spthread _ => fun r _ => 0 <= r
  | Spthread_key_create => fun r _ => 0 <= r.1 /\ (r.1 = 0 -> (KKey, r.2) ∉ held h)
  | Sepoll_create1 _ => fun r e => fresh_or_errno h KFd (-1) r e
  | Sepoll_ctl ep op fd _ p => fun r e =>
      ok_or_errno r e /\
      (* deleting an existing registration succeeds *)
      (op = EPOLL_CTL_DEL -> is_Some (registered h ep !! fd) -> r = 0)
  | Sepoll_wait ep n _ => fun r e =>
      count_or_errno r.1 n e /\
      (0 <= r.1 -> Z.of_nat (length r.2) = r.1 /\
        Forall (fun x => exists fd, registered h ep !! fd = Some x.2) r.2)
  | Skqueue => fun r e => fresh_or_errno h KFd (-1) r e
  | Skevent_change _ changes => fun r e =>
      ok_or_errno r.1 e /\ (r.2 <= length changes)%nat /\ (r.1 = 0 <-> r.2 = length changes)
  | Skevent_wait kq n _ => fun r e =>
      count_or_errno r.1 n e /\
      (0 <= r.1 -> Z.of_nat (length r.2) = r.1 /\
        Forall (fun x => exists ident, filters h kq !! (ident, x.1) = Some x.2) r.2)
  | Sselect _ reads writes _ => fun r e =>
      (r.1 = -1 /\ 0 < e) \/
      (r.1 = Z.of_nat (length r.2.1) + Z.of_nat (length r.2.2) /\ r.2.1 ⊆ reads /\ r.2.2 ⊆ writes)
  | Sioctl_winsize _ => fun r e => ok_or_errno r.1 e
  | W c => win32_post (held h) c
  | _ => fun _ _ => True
  end.

(** ** The environment

    [os_call h c] is the answer to call [c] after history [h], with the value
    the call gives errno, 0 when it leaves errno alone (no call sets errno to
    zero).  [os_malloc h live n] is the address the allocator
    returns for [n] bytes ([NULL] when it fails); it never returns an address in
    use, nor a block larger than [PTRDIFF_MAX].  [os_junk] is the indeterminate
    content of the block. *)
Class OS := {
  os_codepage :: Codepage;
  os_call {R : Set} : list ev -> syscall R -> R * Z;
  os_call_post {R : Set} h (c : syscall R) :
    sys_post h c (os_call h c).1 (os_call h c).2;
  os_call_errno {R : Set} h (c : syscall R) : 0 <= (os_call h c).2;
  os_malloc : list ev -> gset ptr -> Z -> ptr;
  os_malloc_post h live n :
    os_malloc h live n = NULL \/
    (0 < os_malloc h live n /\ os_malloc h live n ∉ live /\ n <= PTRDIFF_MAX);
  os_junk : list ev -> nat -> ascii
}.

(** The promises constrain errno only from below, after a failure. *)
Lemma sys_post_errno `{Codepage} h {R : Set} (c : syscall R) r e :
  sys_post h c r 0 -> sys_post h c r e.
Proof.
  destruct c; cbn [sys_post]; try apply win32_post_error;
    unfold ok_or_errno, fresh_or_errno, count_or_errno; intuition lia.
Qed.

(** ** Lemmas on held resources *)

Lemma held_cons e h : held (e :: h) = (held h ∖ releases e) ∪ acquires e.
Proof. done. Qed.

Lemma got_bad k b : got k b b = ∅.
Proof. unfold got. by rewrite Z.eqb_refl. Qed.

Lemma got_ok k b r : r <> b -> got k b r = {[ (k, r) ]}.
Proof. intros H. unfold got. by apply Z.eqb_neq in H as ->. Qed.

(** An acquisition undone by the matching release leaves nothing behind. *)
Lemma held_undo (X : resources) x : x ∉ X -> (X ∪ {[ x ]}) ∖ {[ x ]} = X.
Proof. intros. apply set_eq. set_solver. Qed.

Lemma res_diff_empty (X : resources) : X ∖ ∅ = X.
Proof. apply set_eq. set_solver. Qed.

Lemma res_union_empty (X : resources) : X ∪ ∅ = X.
Proof. apply set_eq. set_solver. Qed.

(** Simplifies [held] of a history that starts with known events. *)
Ltac held_simpl :=
  cbn -[got];
  rewrite ?got_bad, ?res_diff_empty, ?res_union_empty.

(** ** Calls that acquire, release and register nothing *)

Definition inert (e : ev) : bool :=
  match e with
  | Ev (Sopen _ _ _) _ | Ev (Sclose _) _ | Ev (Sopendir _) _ | Ev (Sclosedir _) _
  | Ev (Smmap _ _ _ _ _) _ | Ev (Smunmap _ _) _ | Ev (Sshm_open _ _ _) _
  | Ev (Ssem_open _ _ _ _) _ | Ev (Ssem_close _) _ | Ev (Ssocket _ _ _) _
  | Ev (Saccept _) _ | Ev Spipe _ | Ev (Sdup2 _ _) _ | Ev (Spthread_create _ _) _
  | Ev (Spthread_join _) _ | Ev (Spthread_detach _) _ | Ev (Spthread _) _
  | Ev Spthread_key_create _ | Ev (Sepoll_create1 _) _
  | Ev (Sepoll_ctl _ _ _ _ _) _ | Ev Skqueue _ | Ev (Skevent_change _ _) _ | Ev (Sdlopen _ _) _ | Ev (Sdlclose _) _
  | EvCall _ _ => false
  | Ev (W c) _ => win32_inert c
  | _ => true
  end.

(** [t'] extends [t] by inert events only. *)
Definition inert_ext (t t' : list ev) : Prop :=
  exists u, t' = u ++ t /\ Forall (fun e => inert e = true) u.

Lemma inert_held_cons e t : inert e = true -> held (e :: t) = held t.
Proof.
  intros H. cbn [held].
  assert (releases e = ∅ /\ acquires e = ∅) as [-> ->].
  { destruct e as [R c r| | |]; [|done..]. destruct c; try done.
    split; [by apply win32_inert_releases|by apply win32_inert_acquires]. }
  by rewrite res_diff_empty, res_union_empty.
Qed.

Lemma inert_registered_cons e t ep :
  inert e = true -> registered (e :: t) ep = registered t ep.
Proof. intros H. destruct e as [R c r| | |]; [|done..]. by destruct c. Qed.

Lemma inert_ext_held t t' : inert_ext t t' -> held t' = held t.
Proof.
  intros (u & -> & Hu). induction Hu as [|e u He _ IH]; [done|].
  cbn [app]. by rewrite inert_held_cons.
Qed.

Lemma inert_ext_registered t t' ep :
  inert_ext t t' -> registered t' ep = registered t ep.
Proof.
  intros (u & -> & Hu). induction Hu as [|e u He _ IH]; [done|].
  cbn [app]. by rewrite inert_registered_cons.
Qed.

Lemma inert_refs_cons e t x : inert e = true -> refs (e :: t) x = refs t x.
Proof.
  intros H. cbn [refs]. assert (ref_change e x = 0) as ->; [|lia].
  destruct e as [R c r| | |]; [|done..]. destruct c; try done. cbn in *. by rewrite win32_inert_uses.
Qed.

Lemma inert_ext_refs t t' x : inert_ext t t' -> refs t' x = refs t x.
Proof.
  intros (u & -> & Hu). induction Hu as [|e u He _ IH]; [done|].
  cbn [app]. by rewrite inert_refs_cons.
Qed.

Lemma inert_ext_calls t t' : inert_ext t t' -> calls t' = calls t.
Proof.
  intros (u & -> & Hu). induction Hu as [|e u He _ IH]; [done|]. by destruct e.
Qed.

Lemma inert_ext_length t t' : inert_ext t t' -> (length t <= length t')%nat.
Proof. intros (u & -> & _). rewrite length_app. lia. Qed.

Lemma inert_ext_refl t : inert_ext t t.
Proof. by exists []. Qed.

Lemma inert_ext_cons e t t' : inert e = true -> inert_ext t t' -> inert_ext t (e :: t').
Proof. intros He (u & -> & Hu). exists (e :: u). by split; [|constructor]. Qed.

Lemma inert_ext_trans t t' t'' : inert_ext t t' -> inert_ext t' t'' -> inert_ext t t''.
Proof.
  intros (u & -> & Hu) (v & -> & Hv). exists (v ++ u).
  by rewrite (assoc_L (++)), Forall_app.
Qed.

#[export] Hint Resolve inert_ext_refl inert_ext_trans : xlib.
#[export] Hint Extern 1 (inert_ext _ (_ :: _)) => (apply inert_ext_cons; [reflexivity|]) : xlib.
