(* ===== verification/Structs.v ===== *)
(** * The structures of xlib

    One Record per [struct] of the sources (POSIX members), and [obj], the sum
    of everything the library allocates.  An [int] member that the code only
    uses as a truth value is a [bool]; pointers, integers and handles are [Z];
    a function pointer is the [Z] that names it in the caller's code table. *)
From S2P Require Import Prelude Syscalls.

(** ** include/xlib/filesystem.h, src/x_filesystem.c *)

Definition XLIB_PATH_MAX : Z := 4096.
Definition XLIB_NAME_MAX : Z := 1024.

Record x_file := XFile { file_fd : Z }.

Record x_directory := XDirectory { dir_handle : ptr; dir_path : text }.

Record x_directory_entry :=
  XDirectoryEntry { ent_name : text; ent_is_directory : bool; ent_size : Z }.

Record x_file_watcher_state := XFileWatcherState
  { ws_exists : bool; ws_is_directory : bool; ws_size : Z; ws_modified : Z }.

#[export] Instance x_file_watcher_state_eq_dec : EqDecision x_file_watcher_state.
Proof. solve_decision. Defined.

Record x_file_watcher := XFileWatcher
  { fw_path : text; fw_state : x_file_watcher_state }.

Record x_async_file_read := XAsyncFileRead
  { ar_thread : ptr; ar_path : ptr; ar_data : ptr; ar_size : Z; ar_error : Z;
    ar_joined : bool; ar_callback : Z; ar_user_data : ptr }.

(** ** src/x_thread.c *)

Record x_thread := XThread
  { th_function : Z; th_data : ptr; th_result : Z; th_joined : bool; th_handle : Z }.

Record x_mutex := XMutex { mx_recursive : bool }.
(** The pthread object is the only member. *)
Record x_condition := XCondition { cd_object : unit }.
Record x_semaphore := XSemaphore { sm_count : Z }.
Record x_tls_key := XTlsKey { tk_handle : Z }.

(** ** include/xlib/network.h, src/x_network.c *)

Definition XLIB_SOCKET_ADDRESS_SIZE : Z := 128.

Record x_socket := XSocket { so_handle : Z; so_type : Z; so_family : Z }.

(** [unsigned char storage[128]; size_t length]. *)
Record x_socket_address := XSocketAddress { sa_storage : list Z; sa_length : Z }.

(** ** src/x_memory.c, src/x_ipc.c *)

Record x_mapped_file := XMappedFile { mf_data : ptr; mf_size : Z; mf_fd : Z }.
Record x_shared_memory := XSharedMemory { shm_data : ptr; shm_size : Z }.
Record x_named_semaphore := XNamedSemaphore { ns_handle : ptr }.

(** ** include/xlib/process.h, src/x_process.c *)

Record x_process := XProcess { pr_waited : bool; pr_exit_code : Z; pr_pid : Z }.
Record x_pipe := XPipe { pi_fd : Z }.

Record x_process_options := XProcessOptions
  { op_working_directory : cstr;
    op_stdin_path : cstr; op_stdout_path : cstr; op_stderr_path : cstr;
    op_environment : option (list text);
    op_stdin_pipe : ptr; op_stdout_pipe : ptr; op_stderr_pipe : ptr }.

(** ** include/xlib/tls.h, src/x_tls.c *)

Record x_tls_hooks := XTlsHooks
  { hk_connect : Z; hk_accept : Z; hk_read : Z; hk_write : Z; hk_close : Z;
    hk_user_data : ptr }.
Record x_tls_context := XTlsContext { tc_hooks : x_tls_hooks; tc_socket : ptr }.

(** ** src/x_dynamic_library.c *)

Record x_dynamic_library := XDynamicLibrary { dl_handle : ptr }.

(** ** src/x_event.c *)

Definition X_EVENT_SOURCE_SOCKET : Z := 1.
Definition X_EVENT_SOURCE_TIMER : Z := 2.
Definition X_EVENT_SOURCE_PROCESS : Z := 3.
Definition X_EVENT_SOURCE_FILE : Z := 4.

Record x_event_source := XEventSource
  { es_loop : ptr; es_type : Z; es_active : bool; es_internal : bool;
    es_events : Z; es_native_handle : Z; es_socket : ptr; es_process : ptr;
    es_watcher : ptr; es_due_ns : Z; es_interval_ns : Z; es_callback : Z;
    es_user_data : ptr }.

Record x_event_loop := XEventLoop
  { el_sources : ptr; el_count : Z; el_capacity : Z; el_running : bool;
    el_stop_requested : bool; el_wake_receiver : ptr; el_wake_sender : ptr;
    el_wake_address : x_socket_address; el_wake_source : ptr; el_backend_fd : Z }.

(** Member updates. *)
Definition es_set_active (b : bool) (s : x_event_source) : x_event_source :=
  XEventSource (es_loop s) (es_type s) b (es_internal s) (es_events s)
    (es_native_handle s) (es_socket s) (es_process s) (es_watcher s)
    (es_due_ns s) (es_interval_ns s) (es_callback s) (es_user_data s).
Definition es_set_internal (b : bool) (s : x_event_source) : x_event_source :=
  XEventSource (es_loop s) (es_type s) (es_active s) b (es_events s)
    (es_native_handle s) (es_socket s) (es_process s) (es_watcher s)
    (es_due_ns s) (es_interval_ns s) (es_callback s) (es_user_data s).
Definition es_set_due (d : Z) (s : x_event_source) : x_event_source :=
  XEventSource (es_loop s) (es_type s) (es_active s) (es_internal s) (es_events s)
    (es_native_handle s) (es_socket s) (es_process s) (es_watcher s)
    d (es_interval_ns s) (es_callback s) (es_user_data s).

Definition el_set_array (a : ptr) (cap : Z) (l : x_event_loop) : x_event_loop :=
  XEventLoop a (el_count l) cap (el_running l) (el_stop_requested l)
    (el_wake_receiver l) (el_wake_sender l) (el_wake_address l)
    (el_wake_source l) (el_backend_fd l).
Definition el_set_count (n : Z) (l : x_event_loop) : x_event_loop :=
  XEventLoop (el_sources l) n (el_capacity l) (el_running l) (el_stop_requested l)
    (el_wake_receiver l) (el_wake_sender l) (el_wake_address l)
    (el_wake_source l) (el_backend_fd l).
Definition el_set_running (b : bool) (l : x_event_loop) : x_event_loop :=
  XEventLoop (el_sources l) (el_count l) (el_capacity l) b (el_stop_requested l)
    (el_wake_receiver l) (el_wake_sender l) (el_wake_address l)
    (el_wake_source l) (el_backend_fd l).
Definition el_set_stop (b : bool) (l : x_event_loop) : x_event_loop :=
  XEventLoop (el_sources l) (el_count l) (el_capacity l) (el_running l) b
    (el_wake_receiver l) (el_wake_sender l) (el_wake_address l)
    (el_wake_source l) (el_backend_fd l).
Definition el_set_receiver (p : ptr) (l : x_event_loop) : x_event_loop :=
  XEventLoop (el_sources l) (el_count l) (el_capacity l) (el_running l)
    (el_stop_requested l) p (el_wake_sender l) (el_wake_address l)
    (el_wake_source l) (el_backend_fd l).
Definition el_set_sender (p : ptr) (l : x_event_loop) : x_event_loop :=
  XEventLoop (el_sources l) (el_count l) (el_capacity l) (el_running l)
    (el_stop_requested l) (el_wake_receiver l) p (el_wake_address l)
    (el_wake_source l) (el_backend_fd l).
Definition el_set_address (a : x_socket_address) (l : x_event_loop) : x_event_loop :=
  XEventLoop (el_sources l) (el_count l) (el_capacity l) (el_running l)
    (el_stop_requested l) (el_wake_receiver l) (el_wake_sender l) a
    (el_wake_source l) (el_backend_fd l).
Definition el_set_source (p : ptr) (l : x_event_loop) : x_event_loop :=
  XEventLoop (el_sources l) (el_count l) (el_capacity l) (el_running l)
    (el_stop_requested l) (el_wake_receiver l) (el_wake_sender l) (el_wake_address l)
    p (el_backend_fd l).
Definition el_set_backend (fd : Z) (l : x_event_loop) : x_event_loop :=
  XEventLoop (el_sources l) (el_count l) (el_capacity l) (el_running l)
    (el_stop_requested l) (el_wake_receiver l) (el_wake_sender l) (el_wake_address l)
    (el_wake_source l) fd.

(** ** The members of the Windows builds *)

(** A buffer of wide characters. *)
Record wide := Wide { units : wtext }.

Record win_file := WinFile { wf_handle : Z }.
Record win_directory := WinDirectory
  { wd_handle : Z; wd_data : find_data; wd_pending : bool; wd_error : Z }.
Record win_thread := WinThread
  { wt_function : Z; wt_data : ptr; wt_result : Z; wt_joined : bool; wt_handle : Z; wt_id : Z }.
Record win_mutex := WinMutex { wm_recursive : bool }.
Record win_condition := WinCondition { wc_object : unit }.
Record win_semaphore := WinSemaphore { ws_count : Z }.
Record win_tls_key := WinTlsKey { wk_handle : Z }.
Record win_socket := WinSocket { wo_handle : Z; wo_type : Z; wo_family : Z }.
Record win_mapped_file := WinMappedFile
  { wmf_data : ptr; wmf_size : Z; wmf_file : Z; wmf_mapping : Z }.
Record win_shared_memory := WinSharedMemory { wsm_data : ptr; wsm_size : Z; wsm_mapping : Z }.
Record win_named_semaphore := WinNamedSemaphore { wns_handle : Z }.
Record win_process := WinProcess
  { wpr_waited : bool; wpr_exit_code : Z; wpr_process : Z; wpr_thread : Z }.
Record win_pipe := WinPipe { wpi_handle : Z }.
Record win_dynamic_library := WinDynamicLibrary { wdl_handle : Z }.

Inductive win_obj : Type :=
  | WOWide (w : wide)
  | WOFile (f : win_file)
  | WODirectory (d : win_directory)
  | WOThread (t : win_thread)
  | WOMutex (m : win_mutex)
  | WOCondition (c : win_condition)
  | WOSemaphore (s : win_semaphore)
  | WOTlsKey (k : win_tls_key)
  | WOSocket (s : win_socket)
  | WOMappedFile (m : win_mapped_file)
  | WOSharedMemory (m : win_shared_memory)
  | WONamedSemaphore (s : win_named_semaphore)
  | WOProcess (p : win_process)
  | WOPipe (p : win_pipe)
  | WODynamicLibrary (d : win_dynamic_library).

(** ** Heap objects *)

Inductive obj : Type :=
  | OBytes (b : text)            (* malloc'ed character data *)
  | OPtrs (l : list ptr)         (* malloc'ed array of pointers *)
  | OFile (f : x_file)
  | ODirectory (d : x_directory)
  | OFileWatcher (w : x_file_watcher)
  | OAsyncRead (a : x_async_file_read)
  | OThread (t : x_thread)
  | OMutex (m : x_mutex)
  | OCondition (c : x_condition)
  | OSemaphore (s : x_semaphore)
  | OTlsKey (k : x_tls_key)
  | OSocket (s : x_socket)
  | OMappedFile (m : x_mapped_file)
  | OSharedMemory (m : x_shared_memory)
  | ONamedSemaphore (s : x_named_semaphore)
  | OProcess (p : x_process)
  | OPipe (p : x_pipe)
  | OTlsContext (c : x_tls_context)
  | ODynamicLibrary (d : x_dynamic_library)
  | OEventSource (s : x_event_source)
  | OEventLoop (l : x_event_loop)
  | OWin (w : win_obj).

(** What [calloc] leaves in a structure. *)
Definition zero_event_source : x_event_source :=
  XEventSource NULL 0 false false 0 0 NULL NULL NULL 0 0 0 NULL.
Definition zero_socket_address : x_socket_address :=
  XSocketAddress (replicate 128 0) 0.
Definition zero_event_loop : x_event_loop :=
  XEventLoop NULL 0 0 false false NULL NULL zero_socket_address NULL 0.
Definition zero_async_file_read : x_async_file_read :=
  XAsyncFileRead NULL NULL NULL 0 0 false 0 NULL.
Definition zero_process_options : x_process_options :=
  XProcessOptions None None None None None NULL NULL NULL.

(** ** Typed access

    [CStruct T] relates a structure type to its heap objects: reading a [T] out
    of an object of another type is an error of the program. *)
Class CStruct (T : Type) := {
  to_obj : T -> obj;
  of_obj : obj -> option T;
  of_to_obj x : of_obj (to_obj x) = Some x;
  to_of_obj o x : of_obj o = Some x -> o = to_obj x
}.

#[local] Ltac solve_cstruct := first [done | by intros [] ? [= ->] | intros o x H; destruct o as [ | | | | | | | | | | | | | | | | | | | | | w]; try discriminate H;
  destruct w; try discriminate H; by injection H as ->].
#[local] Obligation Tactic := solve_cstruct.

#[export] Program Instance bytes_cstruct : CStruct text :=
  {| to_obj := OBytes; of_obj o := match o with OBytes x => Some x | _ => None end |}.
#[export] Program Instance ptrs_cstruct : CStruct (list ptr) :=
  {| to_obj := OPtrs; of_obj o := match o with OPtrs x => Some x | _ => None end |}.
#[export] Program Instance file_cstruct : CStruct x_file :=
  {| to_obj := OFile; of_obj o := match o with OFile x => Some x | _ => None end |}.
#[export] Program Instance directory_cstruct : CStruct x_directory :=
  {| to_obj := ODirectory; of_obj o := match o with ODirectory x => Some x | _ => None end |}.
#[export] Program Instance watcher_cstruct : CStruct x_file_watcher :=
  {| to_obj := OFileWatcher; of_obj o := match o with OFileWatcher x => Some x | _ => None end |}.
#[export] Program Instance async_cstruct : CStruct x_async_file_read :=
  {| to_obj := OAsyncRead; of_obj o := match o with OAsyncRead x => Some x | _ => None end |}.
#[export] Program Instance thread_cstruct : CStruct x_thread :=
  {| to_obj := OThread; of_obj o := match o with OThread x => Some x | _ => None end |}.
#[export] Program Instance mutex_cstruct : CStruct x_mutex :=
  {| to_obj := OMutex; of_obj o := match o with OMutex x => Some x | _ => None end |}.
#[export] Program Instance condition_cstruct : CStruct x_condition :=
  {| to_obj := OCondition; of_obj o := match o with OCondition x => Some x | _ => None end |}.
#[export] Program Instance semaphore_cstruct : CStruct x_semaphore :=
  {| to_obj := OSemaphore; of_obj o := match o with OSemaphore x => Some x | _ => None end |}.
#[export] Program Instance tls_key_cstruct : CStruct x_tls_key :=
  {| to_obj := OTlsKey; of_obj o := match o with OTlsKey x => Some x | _ => None end |}.
#[export] Program Instance socket_cstruct : CStruct x_socket :=
  {| to_obj := OSocket; of_obj o := match o with OSocket x => Some x | _ => None end |}.
#[export] Program Instance mapped_file_cstruct : CStruct x_mapped_file :=
  {| to_obj := OMappedFile; of_obj o := match o with OMappedFile x => Some x | _ => None end |}.
#[export] Program Instance shared_memory_cstruct : CStruct x_shared_memory :=
  {| to_obj := OSharedMemory; of_obj o := match o with OSharedMemory x => Some x | _ => None end |}.
#[export] Program Instance named_semaphore_cstruct : CStruct x_named_semaphore :=
  {| to_obj := ONamedSemaphore; of_obj o := match o with ONamedSemaphore x => Some x | _ => None end |}.
#[export] Program Instance process_cstruct : CStruct x_process :=
  {| to_obj := OProcess; of_obj o := match o with OProcess x => Some x | _ => None end |}.
#[export] Program Instance pipe_cstruct : CStruct x_pipe :=
  {| to_obj := OPipe; of_obj o := match o with OPipe x => Some x | _ => None end |}.
#[export] Program Instance tls_context_cstruct : CStruct x_tls_context :=
  {| to_obj := OTlsContext; of_obj o := match o with OTlsContext x => Some x | _ => None end |}.
#[export] Program Instance dynamic_library_cstruct : CStruct x_dynamic_library :=
  {| to_obj := ODynamicLibrary; of_obj o := match o with ODynamicLibrary x => Some x | _ => None end |}.
#[export] Program Instance event_source_cstruct : CStruct x_event_source :=
  {| to_obj := OEventSource; of_obj o := match o with OEventSource x => Some x | _ => None end |}.
#[export] Program Instance event_loop_cstruct : CStruct x_event_loop :=
  {| to_obj := OEventLoop; of_obj o := match o with OEventLoop x => Some x | _ => None end |}.
#[export] Program Instance wide_cstruct : CStruct wide :=
  {| to_obj x := OWin (WOWide x);
     of_obj o := match o with OWin (WOWide x) => Some x | _ => None end |}.
#[export] Program Instance win_file_cstruct : CStruct win_file :=
  {| to_obj x := OWin (WOFile x);
     of_obj o := match o with OWin (WOFile x) => Some x | _ => None end |}.
#[export] Program Instance win_directory_cstruct : CStruct win_directory :=
  {| to_obj x := OWin (WODirectory x);
     of_obj o := match o with OWin (WODirectory x) => Some x | _ => None end |}.
#[export] Program Instance win_thread_cstruct : CStruct win_thread :=
  {| to_obj x := OWin (WOThread x);
     of_obj o := match o with OWin (WOThread x) => Some x | _ => None end |}.
#[export] Program Instance win_mutex_cstruct : CStruct win_mutex :=
  {| to_obj x := OWin (WOMutex x);
     of_obj o := match o with OWin (WOMutex x) => Some x | _ => None end |}.
#[export] Program Instance win_condition_cstruct : CStruct win_condition :=
  {| to_obj x := OWin (WOCondition x);
     of_obj o := match o with OWin (WOCondition x) => Some x | _ => None end |}.
#[export] Program Instance win_semaphore_cstruct : CStruct win_semaphore :=
  {| to_obj x := OWin (WOSemaphore x);
     of_obj o := match o with OWin (WOSemaphore x) => Some x | _ => None end |}.
#[export] Program Instance win_tls_key_cstruct : CStruct win_tls_key :=
  {| to_obj x := OWin (WOTlsKey x);
     of_obj o := match o with OWin (WOTlsKey x) => Some x | _ => None end |}.
#[export] Program Instance win_socket_cstruct : CStruct win_socket :=
  {| to_obj x := OWin (WOSocket x);
     of_obj o := match o with OWin (WOSocket x) => Some x | _ => None end |}.
#[export] Program Instance win_mapped_file_cstruct : CStruct win_mapped_file :=
  {| to_obj x := OWin (WOMappedFile x);
     of_obj o := match o with OWin (WOMappedFile x) => Some x | _ => None end |}.
#[export] Program Instance win_shared_memory_cstruct : CStruct win_shared_memory :=
  {| to_obj x := OWin (WOSharedMemory x);
     of_obj o := match o with OWin (WOSharedMemory x) => Some x | _ => None end |}.
#[export] Program Instance win_named_semaphore_cstruct : CStruct win_named_semaphore :=
  {| to_obj x := OWin (WONamedSemaphore x);
     of_obj o := match o with OWin (WONamedSemaphore x) => Some x | _ => None end |}.
#[export] Program Instance win_process_cstruct : CStruct win_process :=
  {| to_obj x := OWin (WOProcess x);
     of_obj o := match o with OWin (WOProcess x) => Some x | _ => None end |}.
#[export] Program Instance win_pipe_cstruct : CStruct win_pipe :=
  {| to_obj x := OWin (WOPipe x);
     of_obj o := match o with OWin (WOPipe x) => Some x | _ => None end |}.
#[export] Program Instance win_dynamic_library_cstruct : CStruct win_dynamic_library :=
  {| to_obj x := OWin (WODynamicLibrary x);
     of_obj o := match o with OWin (WODynamicLibrary x) => Some x | _ => None end |}.
