(* ===== verification/Machine.v ===== *)
(** * The machine the code runs on

  A C function is a computation [M A] over the state [st]: errno, the heap of
  allocated structures and the history of system calls.  A run ends normally
  ([Done]), by running out of fuel in a loop ([NoFuel]), by leaving the
  program ([Halt]: exit, abort or a successful exec) or in undefined behaviour
  ([Undef]: an access to a freed or mistyped object, an access out of bounds,
  a second free).  [wp] is the weakest precondition of a computation. *)
From S2P Require Import Prelude Syscalls Structs.

(** ** State *)

Record st := St { errno : Z; hp : gmap ptr obj; tr : list ev }.

Inductive ub := UbDangling | UbType | UbBounds | UbFree | UbOther.

Inductive halted :=
| HExit (code : Z)
| HExec (path : text) (args env : list text).

Inductive outcome (A : Type) : Type :=
| Done (a : A) (s : st)
| NoFuel
| Halt (h : halted) (s : st)
| Undef (u : ub).
Arguments Done {A}. Arguments NoFuel {A}. Arguments Halt {A}. Arguments Undef {A}.

Definition M (A : Type) : Type := st -> outcome A.

#[export] Instance M_ret : MRet M := fun A a s => Done a s.
#[export] Instance M_bind : MBind M := fun A B k m s =>
match m s with
| Done a s' => k a s'
| NoFuel => NoFuel
| Halt h s' => Halt h s'
| Undef u => Undef u
end.

(** ** Primitive operations *)

Section Primitives.
Context {os : OS}.

Definition undef {A} (u : ub) : M A := fun _ => Undef u.
Definition nofuel {A} : M A := fun _ => NoFuel.
Definition halt {A} (h : halted) : M A := fun s => Halt h s.

Definition sys {R : Set} (c : syscall R) : M R := fun s =>
  let a := os_call (tr s) c in
  Done a.1 (St (if a.2 =? 0 then errno s else a.2) (hp s) (Ev c a.1 :: tr s)).

Definition get_errno : M Z := fun s => Done (errno s) s.
Definition set_errno (e : Z) : M unit := fun s => Done tt (St e (hp s) (tr s)).

(** [calloc (1, sizeof (T))]: a zeroed structure, or NULL. *)
Definition calloc {T} `{CStruct T} (size : Z) (zero : T) : M ptr := fun s =>
  let p := os_malloc (tr s) (dom (hp s)) size in
  let t := EvMalloc size p :: tr s in
  if p =? NULL then Done NULL (St ENOMEM (hp s) t)
  else Done p (St (errno s) (<[p := to_obj zero]> (hp s)) t).

(** [malloc (n)] of character data, its content indeterminate. *)
Definition malloc (n : Z) : M ptr := fun s =>
  let p := os_malloc (tr s) (dom (hp s)) n in
  let t := EvMalloc n p :: tr s in
  if p =? NULL then Done NULL (St ENOMEM (hp s) t)
  else Done p (St (errno s)
                 (<[p := OBytes (os_junk (tr s) <$> seq 0 (Z.to_nat n))]> (hp s)) t).

(** [realloc (p, n * sizeof p)] of an array of pointers: the old content is
    kept and the block may stay where it is; the new elements are indeterminate (zero here: no code reads an
    element before writing it, which the bounds of its count guarantee). *)
Definition realloc_ptrs (old : ptr) (size : Z) (n : Z) : M ptr := fun s =>
  let p := os_malloc (tr s) (dom (delete old (hp s))) size in
  let t := EvMalloc size p :: tr s in
  if p =? NULL then Done NULL (St ENOMEM (hp s) t)
  else if old =? NULL
  then Done p (St (errno s) (<[p := OPtrs (replicate (Z.to_nat n) NULL)]> (hp s)) t)
  else match hp s !! old with
       | Some (OPtrs l) =>
           Done p (St (errno s)
             (<[p := OPtrs (take (Z.to_nat n) (l ++ replicate (Z.to_nat n) NULL))]>
                (delete old (hp s)))
             (EvFree old :: t))
       | _ => Undef UbFree
       end.

Definition free (p : ptr) : M unit := fun s =>
  if p =? NULL then Done tt s
  else match hp s !! p with
       | Some _ => Done tt (St (errno s) (delete p (hp s)) (EvFree p :: tr s))
       | None => Undef UbFree
       end.

(** [*p] at type [T]; a NULL or dangling [p] is undefined behaviour. *)
Definition load (T : Type) `{CStruct T} (p : ptr) : M T := fun s =>
  match hp s !! p with
  | None => Undef UbDangling
  | Some o => match of_obj o with Some x => Done x s | None => Undef UbType end
  end.

Definition store {T} `{CStruct T} (p : ptr) (x : T) : M unit := fun s =>
  match hp s !! p with
  | None => Undef UbDangling
  | Some o =>
      match of_obj (T := T) o with
      | Some _ => Done tt (St (errno s) (<[p := to_obj x]> (hp s)) (tr s))
      | None => Undef UbType
      end
  end.

Definition modify (T : Type) `{CStruct T} (p : ptr) (f : T -> T) : M unit :=
  x ← load T p; store p (f x).

(** [a[i]] and [a[i] = x] for an array of pointers. *)
Definition load_elem (a : ptr) (i : Z) : M ptr :=
  l ← load (list ptr) a;
  match l !! Z.to_nat i with
  | Some p => if 0 <=? i then mret p else undef UbBounds
  | None => undef UbBounds
  end.
Definition store_elem (a : ptr) (i : Z) (x : ptr) : M unit :=
  l ← load (list ptr) a;
  if (0 <=? i) && (i <? Z.of_nat (length l))
  then store a (<[Z.to_nat i := x]> l) else undef UbBounds.

(** [memcpy (p + off, data, length data)] into character data. *)
Definition write_bytes (p : ptr) (off : Z) (data : text) : M unit :=
  b ← load text p;
  if (0 <=? off) && (off + strlen data <=? Z.of_nat (length b))
  then store p (take (Z.to_nat off) b ++ data ++
                drop (Z.to_nat off + length data)%nat b)
  else undef UbBounds.

(** A loop: [body] returns [inl] to go on with a new loop state and [inr] to
    leave; one unit of fuel per iteration. *)
Fixpoint iterM {A B} (fuel : nat) (body : A -> M (A + B)) (a : A) : M B :=
  match fuel with
  | O => nofuel
  | S n => r ← body a;
           match r with inl a' => iterM n body a' | inr b => mret b end
  end.

(** [for (i = lo; i < lo + n; ++i)] without and with an early exit. *)
Fixpoint fold_range {A} (n lo : nat) (body : nat -> A -> M A) (a : A) : M A :=
  match n with
  | O => mret a
  | S n' => a' ← body lo a; fold_range n' (S lo) body a'
  end.

Fixpoint for_range {A B} (n lo : nat) (body : nat -> A -> M (A + B)) (a : A) : M (A + B) :=
  match n with
  | O => mret (inl a)
  | S n' => r ← body lo a;
            match r with inl a' => for_range n' (S lo) body a' | inr b => mret (inr b) end
  end.

(** A call of a function of the user, recorded in the history. *)
Definition invoke {A} (function : Z) (args : list Z) (body : M A) : M A := fun s =>
  body (St (errno s) (hp s) (EvCall function args :: tr s)).
End Primitives.

Arguments load T {_} p : rename.
Arguments modify T {_} p f : rename.

(** ** Weakest preconditions

  The mode says whether a run may exhaust its fuel (partial correctness) and
  which ways of leaving the program are allowed. *)

Record wpmode := WpMode
{ may_starve : Prop; halt_post : halted -> st -> Prop }.

Definition Total : wpmode := WpMode False (fun _ _ => False).
Definition Partial : wpmode := WpMode True (fun _ _ => False).

Definition wp (md : wpmode) {A} (m : M A) (Q : A -> st -> Prop) (s : st) : Prop :=
match m s with
| Done a s' => Q a s'
| NoFuel => may_starve md
| Halt h s' => halt_post md h s'
| Undef _ => False
end.

(** Signals stop arriving: from the [n]th call on, no call is interrupted. *)
Definition quiet_after `{OS} (n : nat) : Prop :=
forall (R : Set) t (c : syscall R), (n <= length t)%nat -> (os_call t c).2 <> EINTR.

Section Wp.
Context {os : OS}.
Implicit Types (md : wpmode) (e : Z) (h : gmap ptr obj) (t : list ev).

Lemma wp_ret md {A} (a : A) Q s : Q a s -> wp md (mret a) Q s.
Proof. done. Qed.

Lemma wp_bind md {A B} (m : M A) (k : A -> M B) Q s :
  wp md m (fun a => wp md (k a) Q) s -> wp md (mbind k m) Q s.
Proof. unfold wp, mbind, M_bind. by destruct (m s). Qed.

Lemma wp_mono md {A} (m : M A) Q Q' s :
  wp md m Q s -> (forall a s', Q a s' -> Q' a s') -> wp md m Q' s.
Proof. unfold wp. destruct (m s); eauto. Qed.

(** A total result is a partial one. *)
Lemma wp_total_partial {A} (m : M A) Q s : wp Total m Q s -> wp Partial m Q s.
Proof. unfold wp. by destruct (m s). Qed.

Lemma wp_total_any md {A} (m : M A) Q s : wp Total m Q s -> wp md m Q s.
Proof. unfold wp. by destruct (m s). Qed.

Lemma wp_done {A} (m : M A) Q s :
  wp Total m Q s -> exists a s', m s = Done a s' /\ Q a s'.
Proof. unfold wp. destruct (m s); cbn; [eauto|done..]. Qed.

Lemma wp_sys md {R : Set} (c : syscall R) Q e h t :
  (forall r e', sys_post t c r e' -> (e' = e \/ 0 < e') ->
     Q r (St e' h (Ev c r :: t))) ->
  wp md (sys c) Q (St e h t).
Proof.
  intros H. unfold wp, sys. cbn [tr hp errno]. pose proof (os_call_post t c) as Hp.
  pose proof (os_call_errno t c). apply H; destruct (Z.eqb_spec (os_call t c).2 0) as [E|E].
  - rewrite E in Hp. by apply sys_post_errno.
  - done.
  - by left.
  - lia.
Qed.

(** The same, keeping the environment's answer. *)
Lemma wp_sys_eq md {R : Set} (c : syscall R) Q e h t :
  (forall r e', os_call t c = (r, e') -> sys_post t c r e' ->
     Q r (St (if e' =? 0 then e else e') h (Ev c r :: t))) ->
  wp md (sys c) Q (St e h t).
Proof.
  intros H. apply H; [|apply os_call_post]. cbn. by destruct (os_call t c).
Qed.

Lemma wp_get_errno md Q e h t : Q e (St e h t) -> wp md get_errno Q (St e h t).
Proof. done. Qed.

Lemma wp_set_errno md Q e e' h t :
  Q tt (St e' h t) -> wp md (set_errno e') Q (St e h t).
Proof. done. Qed.

Lemma wp_calloc md {T} `{CStruct T} n (z : T) Q e h t :
  Q NULL (St ENOMEM h (EvMalloc n NULL :: t)) ->
  (forall p, 0 < p -> h !! p = None ->
     Q p (St e (<[p := to_obj z]> h) (EvMalloc n p :: t))) ->
  wp md (calloc n z) Q (St e h t).
Proof.
  intros H1 H2. unfold wp, calloc; cbn.
  destruct (os_malloc_post t (dom h) n) as [->|(Hp & Hd & _)]; [done|].
  apply not_elem_of_dom in Hd.
  destruct (Z.eqb_spec (os_malloc t (dom h) n) NULL) as [E|_]; [|auto].
  unfold NULL in E. lia.
Qed.

Lemma wp_malloc md n Q e h t :
  Q NULL (St ENOMEM h (EvMalloc n NULL :: t)) ->
  (forall p b, 0 < p -> h !! p = None -> length b = Z.to_nat n -> n <= PTRDIFF_MAX ->
     Q p (St e (<[p := OBytes b]> h) (EvMalloc n p :: t))) ->
  wp md (malloc n) Q (St e h t).
Proof.
  intros H1 H2. unfold wp, malloc; cbn.
  destruct (os_malloc_post t (dom h) n) as [->|(Hp & Hd & Hn)]; [done|].
  apply not_elem_of_dom in Hd.
  destruct (Z.eqb_spec (os_malloc t (dom h) n) NULL) as [E|_].
  { unfold NULL in E. lia. }
  apply H2; [done..| |done]. by rewrite length_fmap, length_seq.
Qed.

Lemma wp_free md p o Q e h t :
  h !! p = Some o -> p <> NULL ->
  Q tt (St e (delete p h) (EvFree p :: t)) ->
  wp md (free p) Q (St e h t).
Proof.
  intros Hp Hn HQ. unfold wp, free; cbn.
  apply Z.eqb_neq in Hn as ->. by rewrite Hp.
Qed.

Lemma wp_free_null md Q s : Q tt s -> wp md (free NULL) Q s.
Proof. done. Qed.

Lemma wp_load md {T} `{CStruct T} p (x : T) Q e h t :
  h !! p = Some (to_obj x) -> Q x (St e h t) -> wp md (load T p) Q (St e h t).
Proof. intros Hp HQ. unfold wp, load; cbn. by rewrite Hp, of_to_obj. Qed.

Lemma wp_store md {T} `{CStruct T} p (x y : T) Q e h t :
  h !! p = Some (to_obj x) ->
  Q tt (St e (<[p := to_obj y]> h) t) -> wp md (store p y) Q (St e h t).
Proof. intros Hp HQ. unfold wp, store; cbn. by rewrite Hp, of_to_obj. Qed.

Lemma wp_modify md {T} `{CStruct T} p (x : T) f Q e h t :
  h !! p = Some (to_obj x) ->
  Q tt (St e (<[p := to_obj (f x)]> h) t) -> wp md (modify T p f) Q (St e h t).
Proof.
  intros Hp HQ. unfold modify. apply wp_bind.
  eapply wp_load; [done|]. by eapply wp_store.
Qed.

Lemma wp_load_elem md a l i p Q e h t :
  h !! a = Some (OPtrs l) -> 0 <= i -> l !! Z.to_nat i = Some p ->
  Q p (St e h t) -> wp md (load_elem a i) Q (St e h t).
Proof.
  intros Ha Hi Hl HQ. unfold load_elem. apply wp_bind.
  eapply (wp_load _ _ l); [done|]. rewrite Hl.
  by apply Z.leb_le in Hi as ->.
Qed.

Lemma wp_store_elem md a l i x Q e h t :
  h !! a = Some (OPtrs l) -> 0 <= i < Z.of_nat (length l) ->
  Q tt (St e (<[a := OPtrs (<[Z.to_nat i := x]> l)]> h) t) ->
  wp md (store_elem a i x) Q (St e h t).
Proof.
  intros Ha [H1 H2] HQ. unfold store_elem. apply wp_bind.
  eapply (wp_load _ _ l); [done|].
  apply Z.leb_le in H1 as ->. apply Z.ltb_lt in H2 as ->.
  by eapply (wp_store _ _ l).
Qed.

Lemma wp_write_bytes md p b off data Q e h t :
  h !! p = Some (OBytes b) -> 0 <= off ->
  off + strlen data <= Z.of_nat (length b) ->
  Q tt (St e (<[p := OBytes (take (Z.to_nat off) b ++ data ++
                             drop (Z.to_nat off + length data) b)]> h) t) ->
  wp md (write_bytes p off data) Q (St e h t).
Proof.
  intros Hp H1 H2 HQ. unfold write_bytes. apply wp_bind.
  eapply (wp_load _ _ b); [done|].
  apply Z.leb_le in H1 as ->. apply Z.leb_le in H2 as ->.
  by eapply (wp_store _ _ b).
Qed.

Lemma wp_realloc_ptrs md old l size n Q e h t :
  (old = NULL /\ l = [] \/ old <> NULL /\ h !! old = Some (OPtrs l)) ->
  Q NULL (St ENOMEM h (EvMalloc size NULL :: t)) ->
  (forall p, 0 < p -> delete old h !! p = None -> size <= PTRDIFF_MAX ->
     Q p (St e (<[p := OPtrs (take (Z.to_nat n) (l ++ replicate (Z.to_nat n) NULL))]>
                  (if old =? NULL then h else delete old h))
          (if old =? NULL then EvMalloc size p :: t
           else EvFree old :: EvMalloc size p :: t))) ->
  wp md (realloc_ptrs old size n) Q (St e h t).
Proof.
  intros Hold H1 H2. unfold wp, realloc_ptrs; cbn.
  destruct (os_malloc_post t (dom (delete old h)) size) as [->|(Hp & Hd & Hn)]; [done|].
  apply not_elem_of_dom in Hd.
  destruct (Z.eqb_spec (os_malloc t (dom (delete old h)) size) NULL) as [E|_].
  { unfold NULL in E. lia. }
  specialize (H2 _ Hp Hd Hn).
  destruct Hold as [[-> ->]|[Hne Hl]].
  - rewrite Z.eqb_refl in *. cbn [app] in H2.
    by rewrite take_ge in H2 by (by rewrite length_replicate).
  - apply Z.eqb_neq in Hne as E. rewrite E in *. by rewrite Hl.
Qed.

(** Loops.  [I] holds before every iteration. *)
Lemma wp_iter_partial md {A B} (I : A -> st -> Prop) (body : A -> M (A + B)) Q :
  may_starve md ->
  (forall a s, I a s ->
     wp md (body a) (fun r s' => match r with inl a' => I a' s' | inr b => Q b s' end) s) ->
  forall fuel a s, I a s -> wp md (iterM fuel body a) Q s.
Proof.
  intros Hm Hbody fuel. induction fuel as [|n IH]; intros a s HI; [done|].
  cbn [iterM]. apply wp_bind. eapply wp_mono; [by apply Hbody|].
  intros [a'|b] s' H; [by apply IH|by apply wp_ret].
Qed.

(** With a variant bounded by the fuel the loop ends. *)
Lemma wp_iter md {A B} (I : A -> st -> Prop) (v : A -> st -> nat)
    (body : A -> M (A + B)) Q :
  (forall a s, I a s ->
     wp md (body a) (fun r s' => match r with
                                 | inl a' => I a' s' /\ (v a' s' < v a s)%nat
                                 | inr b => Q b s' end) s) ->
  forall fuel a s, I a s -> (v a s < fuel)%nat -> wp md (iterM fuel body a) Q s.
Proof.
  intros Hbody fuel. induction fuel as [|n IH]; intros a s HI Hf; [lia|].
  cbn [iterM]. apply wp_bind. eapply wp_mono; [by apply Hbody|].
  intros [a'|b] s' H; [|by apply wp_ret]. destruct H. apply IH; [done|lia].
Qed.

(** [I i a] holds before iteration [i] of a bounded loop. *)
Lemma wp_fold_range md {A} (I : nat -> A -> st -> Prop) (body : nat -> A -> M A) n lo :
  (forall i a s, (lo <= i < lo + n)%nat -> I i a s -> wp md (body i a) (I (S i)) s) ->
  forall a s, I lo a s -> wp md (fold_range n lo body a) (I (lo + n)%nat) s.
Proof.
  revert lo. induction n as [|n IH]; intros lo Hb a s HI; cbn [fold_range].
  - rewrite Nat.add_0_r. by apply wp_ret.
  - apply wp_bind. eapply wp_mono; [apply Hb; [lia|done]|]. intros a' s' HI'.
    replace (lo + S n)%nat with (S lo + n)%nat by lia. apply IH; [|done].
    intros i a'' s'' Hi. apply Hb. lia.
Qed.

Lemma wp_for_range md {A B} (I : nat -> A -> st -> Prop) (E : B -> st -> Prop)
    (body : nat -> A -> M (A + B)) n lo :
  (forall i a s, (lo <= i < lo + n)%nat -> I i a s ->
     wp md (body i a) (fun r s' => match r with inl a' => I (S i) a' s' | inr b => E b s' end) s) ->
  forall a s, I lo a s ->
  wp md (for_range n lo body a)
    (fun r s' => match r with inl a' => I (lo + n)%nat a' s' | inr b => E b s' end) s.
Proof.
  revert lo. induction n as [|n IH]; intros lo Hb a s HI; cbn [for_range].
  - rewrite Nat.add_0_r. by apply wp_ret.
  - apply wp_bind. eapply wp_mono; [apply Hb; [lia|done]|]. intros [a'|b] s' HI'; [|by apply wp_ret].
    replace (lo + S n)%nat with (S lo + n)%nat by lia. apply IH; [|done].
    intros i a'' s'' Hi. apply Hb. lia.
Qed.

Lemma wp_invoke md {A} f args (body : M A) Q e h t :
  wp md body Q (St e h (EvCall f args :: t)) -> wp md (invoke f args body) Q (St e h t).
Proof. done. Qed.

(** One unfolding, for executions that are known to go on or to end. *)
Lemma wp_iter_S md {A B} n (body : A -> M (A + B)) a Q s :
  wp md (body a) (fun r s' => match r with
                              | inl a' => wp md (iterM n body a') Q s'
                              | inr b => Q b s' end) s ->
  wp md (iterM (S n) body a) Q s.
Proof.
  intros H. cbn [iterM]. apply wp_bind. eapply wp_mono; [done|].
  by intros [a'|b] s' H'; [|apply wp_ret].
Qed.
End Wp.

(** ** Equations of concrete runs *)

Lemma bind_done {A B} (m : M A) (k : A -> M B) a s s' :
  m s = Done a s' -> mbind k m s = k a s'.
Proof. unfold mbind, M_bind. by intros ->. Qed.

Lemma load_done {os : OS} {T} `{CStruct T} p (x : T) s :
  hp s !! p = Some (to_obj x) -> load T p s = Done x s.
Proof. unfold load. intros ->. by rewrite of_to_obj. Qed.

Lemma modify_done {os : OS} {T} `{CStruct T} p (x : T) f s :
  hp s !! p = Some (to_obj x) ->
  modify T p f s = Done tt (St (errno s) (<[p := to_obj (f x)]> (hp s)) (tr s)).
Proof.
  intros Hp. unfold modify. rewrite (bind_done _ _ x s s) by by apply load_done.
  unfold store. by rewrite Hp, of_to_obj.
Qed.

(** ** Tactics

  [wp_step] executes one primitive; conditionals are split with their equation
  and turned into linear facts; [wp_run] repeats it. *)

Ltac zbool :=
repeat match goal with
| H : (_ =? _) = true |- _ => apply Z.eqb_eq in H
| H : (_ =? _) = false |- _ => apply Z.eqb_neq in H
| H : (_ <? _) = true |- _ => apply Z.ltb_lt in H
| H : (_ <? _) = false |- _ => apply Z.ltb_ge in H
| H : (_ <=? _) = true |- _ => apply Z.leb_le in H
| H : (_ <=? _) = false |- _ => apply Z.leb_gt in H
| H : negb _ = true |- _ => apply negb_true_iff in H
| H : negb _ = false |- _ => apply negb_false_iff in H
| H : (_ || _)%bool = false |- _ => apply orb_false_iff in H as [? ?]
| H : (_ && _)%bool = true |- _ => apply andb_true_iff in H as [? ?]
| H : (_ || _)%bool = true |- _ => apply orb_true_iff in H as [H|H]
end.

Lemma lookup_fresh {A} (m : gmap Z A) p q x y :
m !! p = None -> m !! q = Some y -> <[p := x]> m !! q = Some y.
Proof. intros. rewrite lookup_insert_ne; [done|congruence]. Qed.

Lemma lookup_delete_fresh {A} (m : gmap Z A) p q y :
m !! p = None -> m !! q = Some y -> delete p m !! q = Some y.
Proof. intros. rewrite lookup_delete_ne; [done|congruence]. Qed.

(** Discards a branch whose NULL test contradicts the allocation's result. *)
Ltac absurd_branch :=
try match goal with
| H : true = false |- _ => discriminate H
| H : false = true |- _ => discriminate H
| H : ?p = ?a, H' : ?p <> ?a |- _ => destruct (H' H)
| H : ?a <> ?a |- _ => destruct (H eq_refl)
| H : ?p = 0, H' : 0 < ?p |- _ => exfalso; rewrite H in H'; discriminate H'
| H : ?p = NULL, H' : 0 < ?p |- _ => exfalso; rewrite H in H'; discriminate H'
end.

Ltac lookup_solve :=
solve [ done | eassumption | by simplify_map_eq | apply lookup_fresh; eassumption
      | apply lookup_fresh; [eassumption | by simplify_map_eq]
      | eauto with xlib ].

Ltac wp_step :=
lazymatch goal with
| |- wp _ (mbind _ _) _ _ => apply wp_bind
| |- wp _ (mret _) _ _ => apply wp_ret
| |- wp _ (sys _) _ (St _ _ _) =>
    apply wp_sys; let r := fresh "r" in let e := fresh "e" in
    let H := fresh "Hpost" in let Hz := fresh "Herr" in
    intros r e H Hz; cbn [sys_post] in H
| |- wp _ get_errno _ (St _ _ _) => apply wp_get_errno
| |- wp _ (set_errno _) _ (St _ _ _) => apply wp_set_errno
| |- wp _ (calloc _ _) _ (St _ _ _) =>
    apply wp_calloc; [|let p := fresh "p" in let H1 := fresh "Hpos" in
                       let H2 := fresh "Hnew" in intros p H1 H2]
| |- wp _ (malloc _) _ (St _ _ _) =>
    apply wp_malloc; [|let p := fresh "p" in let b := fresh "b" in
                       let H1 := fresh "Hpos" in let H2 := fresh "Hnew" in
                       let H3 := fresh "Hlen" in let H4 := fresh "Hmax" in
                       intros p b H1 H2 H3 H4]
| |- wp _ (free NULL) _ _ => apply wp_free_null
| |- wp _ (free _) _ (St _ _ _) =>
    eapply wp_free; [lookup_solve | unfold NULL in *; first [done | lia] |]
| |- wp _ (load _ _) _ (St _ _ _) => eapply wp_load; [lookup_solve|]
| |- wp _ (store _ _) _ (St _ _ _) => eapply wp_store; [lookup_solve|]
| |- wp _ (modify _ _ _) _ (St _ _ _) => eapply wp_modify; [lookup_solve|]
| |- wp _ (if ?b then _ else _) _ _ =>
    let E := fresh "E" in destruct b eqn:E; cbn [is_null] in E; zbool; absurd_branch
end; cbn beta iota.

Ltac wp_run := repeat wp_step.

(** Projections only: the programs in the goal stay folded. *)
Ltac proj_simpl := cbn [fst snd hp tr errno] in *.

(** Equality of heaps built by insertions and deletions, pointwise. *)
Ltac map_solve :=
  apply map_eq; let k := fresh "k" in intros k;
  repeat rewrite ?lookup_insert, ?lookup_delete;
  repeat case_decide; simplify_eq; first [reflexivity | congruence].

(** Two steps of a sequence regrouped as one. *)
Lemma wp_assoc2 md {A B} (m : M unit) (n : M A) (k : A -> M B) Q s :
  wp md (x ← (m;; n); k x) Q s -> wp md (m;; x ← n; k x) Q s.
Proof. unfold wp, mbind, M_bind. by destruct (m s). Qed.
