(* ===== verification/Contract.v ===== *)
(** * Contracts between the components

    Most of xlib's objects follow one protocol: a constructor that either
    returns a fresh structure owning kernel resources or fails without leaving
    anything behind, and a destructor that gives the structure and its resources
    back.  [Handle] is the interface; the modules that define such objects
    provide its instances, and [bracket_restores] is proved once against it. *)
From S2P Require Import Prelude Syscalls Structs Machine.

(** [h_res p x] are the kernel resources the structure [x] at [p] owns. *)
Class Handle {os : OS} (T : Type) `{CStruct T} := {
  h_res : ptr -> T -> resources;
  h_close : ptr -> M unit;
  h_close_null s : h_close NULL s = Done tt s;
  h_close_spec md p (x : T) e h t Q :
    h !! p = Some (to_obj x) -> p <> NULL ->
    (forall e' t', held t' = held t ∖ h_res p x -> Q tt (St e' (delete p h) t')) ->
    wp md (h_close p) Q (St e h t)
}.

Section Contract.
Context {os : OS}.

(** What a constructor promises, from the state [s] before to [s'] after, with
    its code and what it stored through its out-parameter. *)
Definition constructor_post {T} `{CStruct T, !Handle T} (P : T -> Prop) (s : st)
    (r : Z * option ptr) (s' : st) : Prop :=
  (r.1 = 0 /\ exists p x,
     r.2 = Some p /\ 0 < p /\ hp s !! p = None /\
     hp s' = <[p := to_obj x]> (hp s) /\
     held (tr s') = held (tr s) ∪ h_res p x /\ h_res p x ## held (tr s) /\ P x) \/
  (0 < r.1 /\ (r.2 = None \/ r.2 = Some NULL) /\
   hp s' = hp s /\ held (tr s') = held (tr s)).

Lemma constructor_ok {T} `{CStruct T, !Handle T} (P : T -> Prop) e h t p x e' t' :
  0 < p -> h !! p = None -> held t' = held t ∪ h_res p x -> h_res p x ## held t -> P x ->
  constructor_post P (St e h t) (0, Some p) (St e' (<[p := to_obj x]> h) t').
Proof. intros. left. split; [done|]. exists p, x. by split_and!. Qed.

Lemma constructor_fail {T} `{CStruct T, !Handle T} (P : T -> Prop) e h t rc out e' h' t' :
  0 < rc -> out = None \/ out = Some NULL -> h' = h -> held t' = held t ->
  constructor_post P (St e h t) (rc, out) (St e' h' t').
Proof. intros. right. by split_and!. Qed.

(** Making an object and destroying it, when it was made. *)
Definition bracket {T} `{CStruct T, !Handle T} (make : M (Z * option ptr)) : M Z :=
  r ← make;
  (if r.1 =? 0 then h_close (default NULL r.2) else mret tt);;
  mret r.1.

(** A constructor that keeps its contract followed by the destructor leaves the
    heap and the kernel resources as they were, whatever the calls answer. *)
Lemma bracket_restores {T} `{CStruct T, !Handle T} (P : T -> Prop) make s :
  wp Total make (constructor_post P s) s ->
  wp Total (bracket make) (fun _ s' => hp s' = hp s /\ held (tr s') = held (tr s)) s.
Proof.
  intros Hm. unfold bracket. apply wp_bind. eapply wp_mono; [done|].
  intros [rc out] [e' h' t'] [[Hrc (p & x & Ho & Hp & Hn & Hh & Hheld & Hd & _)]|
                              (Hrc & _ & Hh & Hheld)]; cbn in *; subst.
  - apply wp_bind. cbn [default from_option id Z.eqb].
    eapply h_close_spec; [by simplify_map_eq|unfold NULL; lia|].
    intros e'' t'' Ht. apply wp_ret. cbn. rewrite Ht, Hheld. split.
    + rewrite delete_insert_eq. by rewrite delete_id.
    + apply set_eq. set_solver.
  - destruct (Z.eqb_spec rc 0); [lia|]. apply wp_bind, wp_ret, wp_ret. done.
Qed.
End Contract.

(** Closing tactics for the leaves of a constructor's proof. *)
Ltac posts :=
  unfold fresh_or_errno, ok_or_errno, count_or_errno, fresh_or_error, ok_or_error in *;
  repeat match goal with
  | H : _ /\ _ |- _ => destruct H
  | H : (_ = _ /\ _) \/ _ |- _ => destruct H
  | H : _ \/ (_ = _ /\ _) |- _ => destruct H
  end.

Ltac heap_simpl :=
  rewrite ?delete_insert_eq, ?insert_insert_eq;
  repeat (rewrite delete_id by by simplify_map_eq).

Ltac held_hyps :=
  repeat match goal with
  | H : context [held (_ :: _)] |- _ =>
      progress (cbn [held releases acquires win32_acquires win32_releases] in H;
                rewrite ?got_bad, ?res_diff_empty, ?res_union_empty in H)
  end.

(** A handle is not the value of a failure. *)
Ltac side_neq := unfold NULL, MAP_FAILED, INVALID_HANDLE_VALUE, INVALID_SOCKET in *; first [done | lia].

Ltac held_solve :=
  held_hyps; held_simpl;
  repeat match goal with
  | |- context [?r =? 0] => destruct (Z.eqb_spec r 0); [|try lia]; try lia
  end; rewrite ?res_diff_empty, ?res_union_empty; rewrite ?got_ok by side_neq;
  first [done | apply held_undo; assumption | apply set_eq; set_solver].

Ltac ctor_fail :=
  apply constructor_fail;
  [ posts; first [done | lia | congruence] | first [by left | by right]
  | by heap_simpl | posts; try lia; held_solve ].

Ltac ctor_ok x :=
  heap_simpl; eapply (constructor_ok _ _ _ _ _ x);
  [ posts; lia | done | posts; held_solve
  | posts; held_hyps; cbn -[got];
    rewrite ?got_ok by side_neq;
    first [apply disjoint_singleton_l; assumption | set_solver] | ].

(** A destructor's proof: run it, then compare what is held. *)
Ltac close_tac :=
  intros; match goal with H : _ <> NULL |- _ => let E := fresh "E" in pose proof H as E; apply Z.eqb_neq in E; rewrite E end;
  wp_run;
  once (match goal with H : _ |- _ => apply H end);
  cbn [held releases acquires];
  repeat match goal with E : ?b = _ |- context [if ?b then _ else _] => rewrite E end;
 rewrite ?res_diff_empty, ?res_union_empty;
  first [reflexivity | apply set_eq; set_solver].

(** Contradictory branches on a NULL result. *)
Ltac absurd_null := exfalso; unfold NULL, MAP_FAILED in *; lia.

(** ** Operations that only talk to the kernel *)

(** The heap is untouched and no kernel resource changes hands. *)
Definition keeps (s s' : st) : Prop := hp s' = hp s /\ inert_ext (tr s) (tr s').

Lemma keeps_refl s : keeps s s.
Proof. split; [done|apply inert_ext_refl]. Qed.

Lemma keeps_trans s1 s2 s3 : keeps s1 s2 -> keeps s2 s3 -> keeps s1 s3.
Proof. intros [? ?] [? ?]. split; [congruence|by eapply inert_ext_trans]. Qed.

Lemma keeps_after e e' h t x s :
  inert x = true -> keeps (St e' h (x :: t)) s -> keeps (St e h t) s.
Proof.
  intros Hx [Hh Ht]. split; [done|]. eapply inert_ext_trans; [|exact Ht].
  by apply inert_ext_cons; [|apply inert_ext_refl].
Qed.

#[export] Hint Resolve keeps_refl : xlib.

Ltac keeps_solve := split; cbn; [done|eauto 20 with xlib].

(** ** Counted handles

    The same protocol for objects the kernel counts: opening one twice may give
    the same handle, so that what a constructor takes is one use of it. *)
Class RefHandle {os : OS} (T : Type) `{CStruct T} := {
  rf_key : T -> rkind * Z;
  rf_close : ptr -> M unit;
  rf_close_null s : rf_close NULL s = Done tt s;
  rf_close_spec md p (x : T) e h t Q :
    h !! p = Some (to_obj x) -> p <> NULL ->
    (forall e' t', held t' = held t -> (forall y, refs t' y = refs t y - one y (rf_key x)) ->
       Q tt (St e' (delete p h) t')) ->
    wp md (rf_close p) Q (St e h t)
}.

Section Counted.
Context {os : OS}.

Definition ref_restored (s s' : st) : Prop :=
  hp s' = hp s /\ held (tr s') = held (tr s) /\ forall y, refs (tr s') y = refs (tr s) y.

Definition ref_constructor_post {T} `{CStruct T, !RefHandle T} (s : st) (r : Z * option ptr) (s' : st) : Prop :=
  (r.1 = 0 /\ exists p x,
     r.2 = Some p /\ 0 < p /\ hp s !! p = None /\ hp s' = <[p := to_obj x]> (hp s) /\
     held (tr s') = held (tr s) /\ (rf_key x).2 <> NULL /\
     forall y, refs (tr s') y = refs (tr s) y + one y (rf_key x)) \/
  (0 < r.1 /\ (r.2 = None \/ r.2 = Some NULL) /\ ref_restored s s').

Lemma ref_failed {T} `{CStruct T, !RefHandle T} e h t rc out e' h' t' :
  0 < rc -> out = None \/ out = Some NULL -> h' = h -> held t' = held t ->
  (forall y, refs t' y = refs t y) -> ref_constructor_post (St e h t) (rc, out) (St e' h' t').
Proof. intros. by right. Qed.

Lemma ref_made {T} `{CStruct T, !RefHandle T} e h t p x e' t' :
  0 < p -> h !! p = None -> held t' = held t -> (rf_key x).2 <> NULL ->
  (forall y, refs t' y = refs t y + one y (rf_key x)) ->
  ref_constructor_post (St e h t) (0, Some p) (St e' (<[p := to_obj x]> h) t').
Proof. intros. left. split; [done|]. by exists p, x. Qed.

Definition ref_bracket {T} `{CStruct T, !RefHandle T} (make : M (Z * option ptr)) : M Z :=
  r ← make;
  (if r.1 =? 0 then rf_close (default NULL r.2) else mret tt);;
  mret r.1.

(** Closing what was made, if it was made. *)
Lemma ref_close_made {T} `{CStruct T, !RefHandle T} s rc out s' :
  ref_constructor_post s (rc, out) s' ->
  wp Total (if rc =? 0 then rf_close (default NULL out) else mret tt) (fun _ => ref_restored s) s'.
Proof.
  destruct s' as [e' h' t']. intros [[Hrc (p & x & Ho & Hp & Hn & Hh & Hheld & Hk & Href)]|(Hrc & _ & Hr)];
    cbn [fst snd hp tr] in *; subst.
  - cbn [default from_option id Z.eqb].
    eapply rf_close_spec; [by rewrite lookup_insert_eq|unfold NULL; lia|].
    intros e'' t'' Ht Hr. split; cbn [hp tr].
    + by rewrite delete_insert_eq, delete_id.
    + split; [congruence|]. intros y. rewrite Hr, Href. lia.
  - destruct (Z.eqb_spec rc 0); [lia|]. by apply wp_ret.
Qed.

Lemma ref_bracket_restores {T} `{CStruct T, !RefHandle T} make s :
  wp Total make (ref_constructor_post s) s ->
  wp Total (ref_bracket make) (fun _ => ref_restored s) s.
Proof.
  intros Hm. unfold ref_bracket. apply wp_bind. eapply wp_mono; [done|].
  intros [rc out] s' Hr. apply wp_bind. eapply wp_mono; [by apply ref_close_made|].
  intros [] s'' H'. by apply wp_ret.
Qed.
End Counted.

(** The leaves of such a constructor's proof. *)
Ltac refs_solve :=
  let y := fresh "y" in intros y; cbn [refs ref_change rf_key win32_uses];
  repeat match goal with
  | E : ?r <> NULL |- context [?r =? NULL] => rewrite (proj2 (Z.eqb_neq r NULL) E)
  | E : ?r = NULL |- _ => rewrite E
  end; cbn; lia.

Ltac ref_fail :=
  apply ref_failed; [posts; unfold NULL in *; first [done|lia]|first [by left|by right]|by heap_simpl|by held_simpl|refs_solve].

Ltac ref_ok x :=
  rewrite ?insert_insert_eq; apply (ref_made _ _ _ _ x); [done|done|by held_simpl|done|refs_solve].
