(* ===== verification/DemoOS.v ===== *)
(** * A concrete environment

  The theorems hold for every [OS]; this file builds executable instances of
  the class, so that the theorems can be applied and evaluated on concrete
  inputs.  A [demo] says, as functions of the history, which calls fail, what
  data and numbers the calls deliver and which sources are ready. *)
From S2P Require Import Prelude Syscalls Structs Machine.

Record demo := Demo {
dm_fail : list ev -> option positive;      (* errno of a failing call *)
dm_data : list ev -> text;                 (* bytes delivered *)
dm_num : list ev -> N;                     (* a number delivered *)
dm_ready : list ev -> list (Z * ptr);      (* ready events *)
dm_nomem : list ev -> bool                 (* the allocation fails *)
}.

Definition quiet_demo : demo :=
Demo (fun _ => None) (fun _ => []) (fun _ => 0%N) (fun _ => []) (fun _ => false).

(** A number above all resources of kind [k] and above 2. *)
Definition fresh_number (X : resources) : Z :=
1 + foldr Z.max 2 (snd <$> elements X).

Lemma foldr_max_ge l x : x ∈ l -> x <= foldr Z.max 2 l.
Proof.
induction l as [|y l IH]; intros H; [by apply elem_of_nil in H|].
apply elem_of_cons in H as [->|H]; cbn; [lia|]. specialize (IH H). lia.
Qed.

Lemma foldr_max_2 l : 2 <= foldr Z.max 2 l.
Proof. induction l as [|y l IH]; cbn; lia. Qed.

Lemma fresh_number_above X k r : (k, r) ∈ X -> r < fresh_number X.
Proof.
intros H. apply elem_of_elements in H.
unfold fresh_number. assert (r <= foldr Z.max 2 (snd <$> elements X)); [|lia].
apply foldr_max_ge. apply list_elem_of_fmap. by exists (k, r).
Qed.

Lemma fresh_number_not_in X k n : fresh_number X <= n -> (k, n) ∉ X.
Proof. intros H Hin. apply fresh_number_above in Hin. lia. Qed.

Lemma fresh_number_pos X : 3 <= fresh_number X.
Proof. unfold fresh_number. pose proof (foldr_max_2 (snd <$> elements X)). lia. Qed.

Definition fresh_ptr (live : gset ptr) : ptr := 1 + foldr Z.max 2 (elements live).

Lemma fresh_ptr_not_in live : fresh_ptr live ∉ live.
Proof.
intros H. apply elem_of_elements, foldr_max_ge in H. unfold fresh_ptr in H. lia.
Qed.

(** The code page of the examples: ASCII without NUL, one unit per character. *)
Definition ascii_unit (z : Z) : bool := (0 <? z) && (z <? 128).
Definition demo_utf16 (s : text) : option wtext :=
  let w := (fun c => Z.of_nat (nat_of_ascii c)) <$> s in
  if forallb ascii_unit w then Some w else None.
Definition demo_utf8 (w : wtext) : option text :=
  if forallb ascii_unit w then Some ((fun z => ascii_of_nat (Z.to_nat z)) <$> w) else None.

Lemma ascii_units w x : forallb ascii_unit w = true -> x ∈ w -> 0 < x < 128.
Proof.
  intros H Hx. apply list_elem_of_In in Hx. eapply forallb_forall in H; [|exact Hx].
  unfold ascii_unit in H. apply andb_true_iff in H as [H1 H2]. lia.
Qed.

#[local] Program Instance demo_codepage : Codepage := {| utf16 := demo_utf16; utf8 := demo_utf8 |}.
Next Obligation.
  intros s w H Hin. unfold demo_utf16 in H.
  destruct (forallb _ _) eqn:E; [|done]. injection H as <-.
  by eapply ascii_units in E; [|exact Hin]; lia.
Qed.
Next Obligation.
  intros w s H Hin. unfold demo_utf8 in H.
  destruct (forallb _ _) eqn:E; [|done]. injection H as <-.
  apply list_elem_of_fmap in Hin as (z & Hz & Hin).
  eapply ascii_units in E; [|exact Hin].
  assert (nat_of_ascii NUL = Z.to_nat z) as H0.
  { rewrite Hz. apply nat_ascii_embedding. lia. }
  change (nat_of_ascii NUL) with 0%nat in H0. lia.
Qed.

Section Kernel.
Context (d : demo) (h : list ev).

Definition outcome_of {A} (bad good : A) : A * Z :=
  match dm_fail d h with Some e => (bad, Zpos e) | None => (good, 0) end.

Definition fresh_here : Z := fresh_number (held h).
Definition chunk (n : Z) : text := take (Z.to_nat n) (dm_data d h).
Definition number : Z := Z.of_N (dm_num d h) mod 1000000000.
Definition no_stat : stat := Stat 0 0 0.

(** A directory entry's name made of [l], none when nothing is left. *)
Definition entry_name (l : text) : option text :=
  match filter (fun c => c <> NUL /\ c <> "/"%char) l with [] => None | n => Some n end.

(** The ready events that are registered, at most [n]. *)
Definition ready_events (ep n : Z) : list (Z * ptr) :=
  take (Z.to_nat n)
    (filter (fun x => Exists (fun kv => kv.2 = x.2) (map_to_list (registered h ep)))
            (dm_ready d h)).

(** The ready filters among those set, at most [n], and the ready descriptors. *)
Definition ready_filters (kq n : Z) : list (Z * ptr) :=
  take (Z.to_nat n)
    (filter (fun x => Exists (fun kv => kv.1.2 = x.1 /\ kv.2 = x.2) (map_to_list (filters h kq)))
            (dm_ready d h)).
Definition ready_of (l : list Z) : list Z := filter (fun x => x ∈ fst <$> dm_ready d h) l.

(** A conversion by [conv], as the documentation of the two functions has it. *)
Definition demo_convert {A B} (conv : list A -> option (list B)) (nul : B) (s : list A)
    (capacity : Z) : (Z * list B) * Z :=
  match conv s, dm_fail d h with
  | Some w, None =>
      let n := Z.of_nat (length w) + 1 in
      if INT_MAX <? n then ((0, []), ERROR_INVALID_PARAMETER)
      else if capacity =? 0 then ((n, []), 0)
      else if capacity <? n then ((0, []), ERROR_INSUFFICIENT_BUFFER)
      else ((n, w ++ [nul]), 0)
  | None, _ => ((0, []), ERROR_NO_UNICODE_TRANSLATION)
  | _, Some e => ((0, []), Zpos e)
  end.

(** The value of a variable: the bytes delivered, as far as they are ASCII. *)
Definition variable_value : wtext := default [] (demo_utf16 (take 1000 (dm_data d h))).

(** 0 for success, or the code of the failure. *)
Definition code_of_failure : Z := match dm_fail d h with Some e => Zpos e | None => 0 end.

Definition demo_win32 {R : Set} (c : win32 R) : R * Z :=
  match c in win32 R return R * Z with
  | CloseHandle _ => outcome_of false true
  | WaitForSingleObject _ _ => outcome_of WAIT_FAILED WAIT_OBJECT_0
  | GetSystemTimeAsFileTime => ((number, 27111903), 0)
  | QueryPerformanceCounter => outcome_of (false, 0) (true, number)
  | QueryPerformanceFrequency => outcome_of (false, 1) (true, 10000000)
  | CreateWaitableTimerA _ => outcome_of 0 fresh_here
  | SetWaitableTimer _ _ => outcome_of false true
  | CreateThread _ => outcome_of (0, 0) (fresh_here, 1)
  | InitializeCriticalSection _ => (tt, 0)
  | EnterCriticalSection _ => (tt, 0)
  | TryEnterCriticalSection _ => outcome_of false true
  | LeaveCriticalSection _ => (tt, 0)
  | DeleteCriticalSection _ => (tt, 0)
  | InitializeSRWLock _ => (tt, 0)
  | AcquireSRWLockExclusive _ => (tt, 0)
  | TryAcquireSRWLockExclusive _ => outcome_of false true
  | ReleaseSRWLockExclusive _ => (tt, 0)
  | InitializeConditionVariable _ => (tt, 0)
  | SleepConditionVariableCS _ _ _ => outcome_of false true
  | SleepConditionVariableSRW _ _ _ _ => outcome_of false true
  | WakeConditionVariable _ => (tt, 0)
  | WakeAllConditionVariable _ => (tt, 0)
  | TlsAlloc => outcome_of TLS_OUT_OF_INDEXES fresh_here
  | TlsSetValue _ _ => outcome_of false true
  | TlsGetValue _ => (number, 0)
  | TlsFree _ => outcome_of false true
  | GetSystemInfo => (number, 0)
  | VirtualAlloc _ _ _ => outcome_of 0 fresh_here
  | VirtualProtect _ _ _ => outcome_of false true
  | VirtualFree _ _ _ => outcome_of false true
  | VirtualQuery _ => outcome_of (0, 0) (48, number)
  | CreateFileA _ _ _ _ => outcome_of INVALID_HANDLE_VALUE fresh_here
  | CreateFileMappingA _ _ _ _ _ => outcome_of 0 fresh_here
  | OpenFileMappingA _ _ => outcome_of 0 fresh_here
  | MapViewOfFile _ _ _ => outcome_of 0 fresh_here
  | UnmapViewOfFile _ => outcome_of false true
  | FlushViewOfFile _ _ => outcome_of false true
  | FlushFileBuffers _ => outcome_of false true
  | CreateSemaphoreA _ _ _ => outcome_of 0 fresh_here
  | OpenSemaphoreA _ _ => outcome_of 0 fresh_here
  | ReleaseSemaphore _ _ => outcome_of false true
  | MultiByteToWideChar s n => demo_convert demo_utf16 0 s n
  | WideCharToMultiByte w n => demo_convert demo_utf8 NUL w n
  | FormatMessageA _ n =>
      let m := filter (fun c => c <> NUL) (chunk (n - 1)) in
      if n <=? 1 then ((0, []), 0) else ((strlen m, m), 0)
  | LoadLibraryW _ => outcome_of 0 fresh_here
  | GetProcAddress _ _ => outcome_of 0 fresh_here
  | FreeLibrary _ => outcome_of false true
  | CreateFileW _ _ _ _ _ => outcome_of INVALID_HANDLE_VALUE fresh_here
  | SetFilePointerEx _ _ _ => outcome_of false true
  | SetEndOfFile _ => outcome_of false true
  | GetFileSizeEx _ => outcome_of (false, 0) (true, number)
  | ReadFile _ n => if n <? 0 then ((false, []), ERROR_INVALID_PARAMETER)
                    else outcome_of (false, []) (true, chunk n)
  | WriteFile _ _ n => if n <? 0 then ((false, 0), ERROR_INVALID_PARAMETER)
                       else outcome_of (false, 0) (true, n)
  | DeleteFileW _ => outcome_of false true
  | CreateDirectoryW _ => outcome_of false true
  | RemoveDirectoryW _ => outcome_of false true
  | FindFirstFileW _ => outcome_of (INVALID_HANDLE_VALUE, FindData 0 0 0 [])
                          (fresh_here, FindData 0 0 number variable_value)
  | FindNextFileW _ => outcome_of (false, FindData 0 0 0 [])
                         (true, FindData 0 0 number variable_value)
  | FindClose _ => outcome_of false true
  | GetFileAttributesExW _ => outcome_of (false, AttributeData 0 0 0 0 0)
                                (true, AttributeData 0 number 0 0 number)
  | DuplicateHandle _ _ => outcome_of (false, 0) (true, fresh_here)
  | GetStdHandle n => (n + 1, 0)
  | CreateProcessW _ _ _ _ _ _ =>
      outcome_of (false, (0, 0)) (true, (fresh_here, fresh_here + 1))
  | GetExitCodeProcess _ => outcome_of (false, 0) (true, number)
  | TerminateProcess _ _ => outcome_of false true
  | CreatePipe _ => outcome_of (false, (0, 0)) (true, (fresh_here, fresh_here + 1))
  | GetEnvironmentVariableW _ n =>
      match dm_fail d h with
      | Some e => ((0, []), Zpos e)
      | None =>
          let v := variable_value in
          if n <=? Z.of_nat (length v) then ((Z.of_nat (length v) + 1, []), 0)
          else ((Z.of_nat (length v), v), 0)
      end
  | SetEnvironmentVariableW _ _ => outcome_of false true
  | GetConsoleScreenBufferInfo _ => outcome_of (false, (0, 0, 0, 0)) (true, (0, 0, 79, 24))
  | WSAStartup _ => (code_of_failure, 0)
  | WSAsocket _ _ _ => outcome_of INVALID_SOCKET fresh_here
  | WSAaccept _ => outcome_of INVALID_SOCKET fresh_here
  | closesocket _ => outcome_of (-1) 0
  | ioctlsocket _ _ _ => outcome_of (-1) 0
  | WSAsetsockopt _ _ _ _ => outcome_of (-1) 0
  | InetPtonA af _ => outcome_of (-1, [])
      (1, if af =? 2 then [127; 0; 0; 1] else replicate 15 0 ++ [1])
  | InetNtopA _ _ _ => outcome_of None (Some (dm_data d h))
  end.

Definition demo_call {R : Set} (c : syscall R) : R * Z :=
  match c in syscall R return R * Z with
  | Sclock_gettime _ => outcome_of (-1, (0, 0)) (0, (number, 0))
  | Snanosleep _ _ => outcome_of (-1, (0, number)) (0, (0, 0))
  | Sopen _ _ _ => outcome_of (-1) fresh_here
  | Sclose _ => outcome_of (-1) 0
  | Sread _ n => if n <? 0 then (( -1, []), 22)
                 else outcome_of (-1, []) (strlen (chunk n), chunk n)
  | Swrite _ _ n => if n <? 0 then (-1, 22) else outcome_of (-1) n
  | Slseek _ off _ => outcome_of (-1) (Z.max 0 off)
  | Sfstat _ => outcome_of (-1, no_stat) (0, Stat 0 number number)
  | Sstat _ => outcome_of (-1, no_stat) (0, Stat 0 number number)
  | Sunlink _ => outcome_of (-1) 0
  | Smkdir _ _ => outcome_of (-1) 0
  | Srmdir _ => outcome_of (-1) 0
  | Sopendir _ => outcome_of NULL fresh_here
  | Sreaddir _ => outcome_of None (entry_name (dm_data d h))
  | Sclosedir _ => outcome_of (-1) 0
  | Ssysconf _ => (number, 0)
  | Smmap _ _ _ _ _ => outcome_of MAP_FAILED fresh_here
  | Smprotect _ _ _ => outcome_of (-1) 0
  | Smunmap _ _ => outcome_of (-1) 0
  | Sftruncate _ _ => outcome_of (-1) 0
  | Smsync _ _ _ => outcome_of (-1) 0
  | Sshm_open _ _ _ => outcome_of (-1) fresh_here
  | Sshm_unlink _ => outcome_of (-1) 0
  | Ssem_open _ _ _ _ => outcome_of NULL fresh_here
  | Ssem_wait _ => outcome_of (-1) 0
  | Ssem_post _ => outcome_of (-1) 0
  | Ssem_close _ => outcome_of (-1) 0
  | Ssem_unlink _ => outcome_of (-1) 0
  | Ssocket _ _ _ => outcome_of (-1) fresh_here
  | Sbind _ _ => outcome_of (-1) 0
  | Slisten _ _ => outcome_of (-1) 0
  | Saccept _ => outcome_of (-1) fresh_here
  | Sconnect _ _ => outcome_of (-1) 0
  | Ssend _ _ n => if n <? 0 then (-1, 22) else outcome_of (-1) n
  | Srecv _ n => if n <? 0 then (( -1, []), 22)
                 else outcome_of (-1, []) (strlen (chunk n), chunk n)
  | Ssendto _ _ n _ => if n <? 0 then (-1, 22) else outcome_of (-1) n
  | Srecvfrom _ n => if n <? 0 then (( -1, [], []), 22)
                     else outcome_of (-1, [], []) (strlen (chunk n), chunk n, [2; 0])
  | Sgetsockname _ => outcome_of (-1, []) (0, [2; 0])
  | Sfcntl _ _ _ => outcome_of (-1) 0
  | Ssetsockopt _ _ _ _ => outcome_of (-1) 0
  | Sgetaddrinfo _ _ _ => outcome_of (-2, []) (0, [[2; 0; 0; 0; 127; 0; 0; 1]])
  | Sfreeaddrinfo _ => (tt, 0)
  | Sinet_ntop _ _ _ => outcome_of None (Some (dm_data d h))
  | Sinet_pton af _ => outcome_of (0, [])
      (1, if af =? 2 then [127; 0; 0; 1] else replicate 15 0 ++ [1])
  | Sfork => outcome_of (-1) number
  | Sexecv _ _ => outcome_of (-1) 0
  | Sexecvp _ _ => outcome_of (-1) 0
  | Sexecve _ _ _ => outcome_of (-1) 0
  | Schdir _ => outcome_of (-1) 0
  | Sdup2 _ t => outcome_of (-1) t
  | Swaitpid pid _ => outcome_of (-1, 0) (pid, number)
  | Skill _ _ => outcome_of (-1) 0
  | Spipe => outcome_of (-1, (0, 0)) (0, (fresh_here, fresh_here + 1))
  | Sgetenv _ => outcome_of None (Some (dm_data d h))
  | Ssetenv _ _ _ => outcome_of (-1) 0
  | Sunsetenv _ => outcome_of (-1) 0
  | Spthread_create _ _ => match dm_fail d h with
                           | Some e => ((Zpos e, 0), 0) | None => ((0, fresh_here), 0) end
  | Spthread_join _ => match dm_fail d h with Some e => (Zpos e, 0) | None => (0, 0) end
  | Spthread_detach _ => (0, 0)
  | Spthread _ => match dm_fail d h with Some e => (Zpos e, 0) | None => (0, 0) end
  | Spthread_key_create => match dm_fail d h with
                           | Some e => ((Zpos e, 0), 0) | None => ((0, fresh_here), 0) end
  | Spthread_getspecific _ => (number, 0)
  | Sepoll_create1 _ => outcome_of (-1) fresh_here
  | Sepoll_ctl _ op _ _ _ => if op =? EPOLL_CTL_DEL then (0, 0) else outcome_of (-1) 0
  | Sepoll_wait ep n _ =>
      if n <? 0 then (( -1, []), 22)
      else outcome_of (-1, [])
             (Z.of_nat (length (ready_events ep n)), ready_events ep n)
  | Skqueue => outcome_of (-1) fresh_here
  | Skevent_change _ changes =>
      match dm_fail d h, changes with
      | Some e, _ :: _ => ((-1, pred (length changes)), Zpos e)
      | _, _ => ((0, length changes), 0)
      end
  | Skevent_wait kq n _ =>
      if n <? 0 then (( -1, []), 22)
      else outcome_of (-1, []) (Z.of_nat (length (ready_filters kq n)), ready_filters kq n)
  | Sselect _ reads writes _ =>
      outcome_of (-1, ([], []))
        (Z.of_nat (length (ready_of reads)) + Z.of_nat (length (ready_of writes)), (ready_of reads, ready_of writes))
  | Sdlopen _ _ => outcome_of NULL fresh_here
  | Sdlsym _ _ => outcome_of NULL number
  | Sdlerror => outcome_of (Some (dm_data d h)) None
  | Sdlclose _ => (0, 0)
  | Sstrerror _ => (dm_data d h, 0)
  | Sisatty _ => (number, 0)
  | Sioctl_winsize _ => outcome_of (-1, (0, 0)) (0, (number, number))
  | W c => demo_win32 c
  end.

Definition demo_malloc (live : gset ptr) (n : Z) : ptr :=
  if dm_nomem d h || (PTRDIFF_MAX <? n) then NULL else fresh_ptr live.

Lemma number_range : 0 <= number < 1000000000.
Proof. apply Z.mod_pos_bound. lia. Qed.

Lemma chunk_length n : 0 <= n -> 0 <= strlen (chunk n) <= n.
Proof. intros. unfold strlen, chunk. rewrite length_take. lia. Qed.

Lemma ready_events_ok ep n :
  0 <= n ->
  0 <= Z.of_nat (length (ready_events ep n)) <= n /\
  Forall (fun x => exists fd, registered h ep !! fd = Some x.2) (ready_events ep n).
Proof.
  intros Hn. split; [unfold ready_events; rewrite length_take; lia|].
  unfold ready_events. apply Forall_take, Forall_forall. intros x Hx.
  apply list_elem_of_filter in Hx as [Hx _].
  apply Exists_exists in Hx as ([fd p] & Hin & Hp). cbn in Hp. subst.
  exists fd. by apply elem_of_map_to_list.
Qed.

Lemma ready_filters_ok kq n :
  0 <= n ->
  0 <= Z.of_nat (length (ready_filters kq n)) <= n /\
  Forall (fun x => exists ident, filters h kq !! (ident, x.1) = Some x.2) (ready_filters kq n).
Proof.
  intros Hn. split; [unfold ready_filters; rewrite length_take; lia|].
  unfold ready_filters. apply Forall_take, Forall_forall. intros x Hx.
  apply list_elem_of_filter in Hx as [Hx _].
  apply Exists_exists in Hx as ([[i f] p] & Hin & Hf & Hp). cbn in Hf, Hp. subst.
  exists i. by apply elem_of_map_to_list.
Qed.

Lemma ready_of_subset l : ready_of l ⊆ l.
Proof. unfold ready_of. intros x Hx. by apply list_elem_of_filter in Hx as [_ ?]. Qed.

Lemma entry_name_ok l :
  match entry_name l with Some n => NUL ∉ n /\ "/"%char ∉ n | None => True end.
Proof.
  unfold entry_name.
  pose proof (fun c (H : c ∈ filter (fun c => c <> NUL /\ c <> "/"%char) l) =>
    proj1 (proj1 (list_elem_of_filter _ _ _) H)) as Hin.
  destruct (filter _ l); [done|]. split; intros H; by destruct (Hin _ H).
Qed.

Lemma outcome_ok_or_errno : ok_or_errno (outcome_of (-1) 0).1 (outcome_of (-1) 0).2.
Proof. unfold outcome_of, ok_or_errno. destruct (dm_fail d h); cbn; [right; split; lia|by left]. Qed.

Lemma outcome_fresh k bad :
  bad < 3 ->
  fresh_or_errno h k bad (outcome_of bad fresh_here).1 (outcome_of bad fresh_here).2.
Proof.
  pose proof (fresh_number_pos (held h)). unfold outcome_of, fresh_or_errno, fresh_here.
  destruct (dm_fail d h); cbn; [left; split; lia|]. right.
  split_and!; [lia..|]. by apply fresh_number_not_in.
Qed.

Lemma outcome_count n :
  0 <= n -> count_or_errno (outcome_of (-1) n).1 n (outcome_of (-1) n).2.
Proof.
  unfold outcome_of, count_or_errno. destruct (dm_fail d h); cbn; [left|right]; lia.
Qed.

(** Cases on whether the call fails and on the sign of the count. *)
Ltac demo_cases :=
  unfold outcome_of, ok_or_errno, count_or_errno, NULL, MAP_FAILED;
  repeat match goal with
  | |- context [if ?c <? 0 then _ else _] => destruct (Z.ltb_spec c 0)
  | |- context [if ?c =? 2 then _ else _] => destruct (Z.eqb_spec c 2)
  | |- context [if ?c =? EPOLL_CTL_DEL then _ else _] =>
      destruct (Z.eqb_spec c EPOLL_CTL_DEL)
  | |- context [dm_fail d h] => destruct (dm_fail d h)
  end; cbn.

Lemma demo_convert_ok {A B} (conv : list A -> option (list B)) nul s n :
  converts conv nul s n (demo_convert conv nul s n).1 (demo_convert conv nul s n).2.
Proof.
  unfold demo_convert, converts. destruct (conv s) as [w|] eqn:E; [|by left].
  destruct (dm_fail d h) as [e|]; [by left|].
  destruct (Z.ltb_spec INT_MAX (Z.of_nat (length w) + 1)) as [|Hle]; [by left|].
  unfold INT_MAX in Hle. destruct (Z.eqb_spec n 0); [right; exists w; by split_and!|].
  destruct (Z.ltb_spec n (Z.of_nat (length w) + 1)); [by left|].
  right. exists w. by split_and!.
Qed.

Lemma variable_value_ok : Z.of_nat (length variable_value) <= 1000 /\ 0 ∉ variable_value.
Proof.
  unfold variable_value. destruct (demo_utf16 _) as [w|] eqn:E; cbn [default].
  - split; [|exact (@utf16_nul demo_codepage _ _ E)].
    unfold demo_utf16 in E. destruct (forallb _ _); [|done]. injection E as <-.
    unfold id. rewrite length_fmap, length_take. lia.
  - cbn. split; [lia|]. apply not_elem_of_nil.
Qed.

Lemma outcome_ok_or_error : ok_or_error (outcome_of false true).1 (outcome_of false true).2.
Proof. unfold outcome_of, ok_or_error. destruct (dm_fail d h); [by right|by left]. Qed.

Lemma outcome_fresh_handle k bad :
  bad <= 0 ->
  fresh_or_error (held h) k bad (outcome_of bad fresh_here).1 (outcome_of bad fresh_here).2.
Proof.
  pose proof (fresh_number_pos (held h)). unfold outcome_of, fresh_or_error, fresh_here.
  destruct (dm_fail d h); cbn; [left; split; lia|]. right.
  split_and!; [lia..|]. by apply fresh_number_not_in.
Qed.

Lemma message_ok n :
  1 < n -> let m := filter (fun c => c <> NUL) (chunk (n - 1)) in
  strlen m = 0 \/ (0 < strlen m < n /\ Z.of_nat (length m) = strlen m /\ NUL ∉ m).
Proof.
  intros Hn m. pose proof (length_filter (fun c => c <> NUL) (chunk (n - 1))) as Hl.
  destruct (chunk_length (n - 1)) as [_ Hc]; [lia|]. fold m in Hl. unfold strlen in *.
  destruct (Z.eq_dec (Z.of_nat (length m)) 0); [by left|right]. split_and!; [lia..|done|].
  intros Hin. by apply list_elem_of_filter in Hin as [].
Qed.

Lemma demo_win32_post {R : Set} (c : win32 R) :
  win32_post (held h) c (demo_win32 c).1 (demo_win32 c).2.
Proof.
  pose proof number_range as Hn. pose proof (fresh_number_pos (held h)) as Hf.
  pose proof variable_value_ok as [Hv Hv0].
  destruct c; cbn [win32_post demo_win32]; try done;
    try apply outcome_ok_or_error; try apply demo_convert_ok;
    try (apply outcome_fresh_handle; unfold INVALID_HANDLE_VALUE, INVALID_SOCKET; lia).
  all: unfold ok_or_error, is_dword, is_u32, is_u64, fresh_or_error, fresh_here, outcome_of;
    repeat match goal with
    | |- context [if ?c <? 0 then _ else _] => destruct (Z.ltb_spec c 0)
    | |- context [if ?c =? 2 then _ else _] => destruct (Z.eqb_spec c 2)
    end; try destruct (dm_fail d h); cbn;
    try solve [repeat split; intros; try done; try lia; auto using fresh_number_not_in
              | left; split; [done|lia] | by split; [left|] | by split; [right|] | right; split_and!; try lia; apply fresh_number_not_in; lia
              | auto].
  - destruct (Z.leb_spec size 1); [by left|by apply message_ok].
  - destruct (Z.leb_spec size 1); [by left|by apply message_ok].
  - split; [by left|]. intros _. by apply chunk_length.
  - right. split_and!; [unfold INVALID_HANDLE_VALUE; lia|lia|by apply fresh_number_not_in].
  - destruct (Z.leb_spec capacity (Z.of_nat (length variable_value))); cbn; split_and!; try lia.
    by intros _.
Qed.

Lemma demo_call_post {R : Set} (c : syscall R) :
  sys_post h c (demo_call c).1 (demo_call c).2.
Proof.
  pose proof number_range as Hn. pose proof (fresh_number_pos (held h)) as Hf.
  destruct c; cbn [sys_post demo_call]; try done; try apply demo_win32_post;
    try apply outcome_ok_or_errno; try (apply outcome_fresh; unfold NULL; lia);
    try (destruct (Z.ltb_spec count 0); [by left|by apply outcome_count]);
    try (unfold timespec_ok, stat_ok; demo_cases; split_and?;
         first [done | lia | right; lia | left; lia]).
  - demo_cases; (split; [|by intros]); [by left..|]. right. by apply chunk_length.
  - demo_cases; [done|]. apply entry_name_ok.
  - split; [apply outcome_fresh; unfold MAP_FAILED; lia|].
    unfold fresh_here. demo_cases; lia.
  - unfold fresh_here. demo_cases; [by left|right; lia].
  - demo_cases; (split; [|by intros]); [by left..|]. right. by apply chunk_length.
  - demo_cases; (split; [|by intros]); [by left..|]. right. by apply chunk_length.
  - unfold fresh_here. demo_cases; [by left|right].
    split_and!; try lia; apply fresh_number_not_in; lia.
  - unfold fresh_here. demo_cases; (split; [lia|]); intros; [done|].
    by apply fresh_number_not_in.
  - unfold fresh_here. demo_cases; (split; [lia|]); intros; [done|].
    by apply fresh_number_not_in.
  - demo_cases; [split; [by left|by intros]..|].
    destruct (ready_events_ok epfd maxevents); [lia|]. split; [by right|done].
  - destruct (dm_fail d h) as [e|], changes as [|c changes]; cbn; unfold ok_or_errno;
      (split; [lia|]); (split; [lia|]); split; lia.
  - demo_cases; [split; [by left|by intros]..|].
    destruct (ready_filters_ok kq maxevents); [lia|]. split; [by right|done].
  - demo_cases; [left; lia|right]. split; [done|]. split; apply ready_of_subset.
Qed.

Lemma demo_call_errno {R : Set} (c : syscall R) : 0 <= (demo_call c).2.
Proof.
  destruct c; cbn [demo_call]; try (demo_cases; lia); [by repeat case_match|].
  destruct c; cbn [demo_win32]; unfold outcome_of, demo_convert; repeat case_match; cbn; try done; lia.
Qed.

Lemma demo_malloc_post live n :
  demo_malloc live n = NULL \/
  (0 < demo_malloc live n /\ demo_malloc live n ∉ live /\ n <= PTRDIFF_MAX).
Proof.
  unfold demo_malloc. destruct (dm_nomem d h); [by left|]. cbn.
  destruct (Z.ltb_spec PTRDIFF_MAX n); [by left|]. right.
  split_and!; [|apply fresh_ptr_not_in|lia].
  unfold fresh_ptr. pose proof (foldr_max_2 (elements live)). lia.
Qed.
End Kernel.

Definition demo_os (d : demo) : OS := {|
os_call R h c := demo_call d h c;
os_call_post R h c := demo_call_post d h c;
os_call_errno R h c := demo_call_errno d h c;
os_malloc h live n := demo_malloc d h live n;
os_malloc_post h live n := demo_malloc_post d h live n;
os_junk _ _ := NUL
|}.

(** An initial state: nothing allocated, no history. *)
Definition st0 : st := St 0 ∅ [].

(** Environments used by the examples. *)
Definition calm_os : OS := demo_os quiet_demo.
(** Every call fails with errno [e]. *)
Definition failing_os (e : positive) : OS :=
demo_os (Demo (fun _ => Some e) (fun _ => []) (fun _ => 0%N) (fun _ => []) (fun _ => false)).
(** No call fails but there is no memory. *)
Definition nomem_os : OS :=
demo_os (Demo (fun _ => None) (fun _ => []) (fun _ => 0%N) (fun _ => []) (fun _ => true)).
(** The first [n] calls are interrupted by a signal. *)
Definition signal_os (n : nat) : OS :=
demo_os (Demo (fun t => if decide (length t < n)%nat then Some 4%positive else None)
              (fun _ => []) (fun _ => 0%N) (fun _ => []) (fun _ => false)).

(** [fork] answers the parent, with pid 7, and every other call succeeds. *)
Definition parent_os : OS :=
  demo_os (Demo (fun _ => None) (fun _ => []) (fun _ => 7%N) (fun _ => []) (fun _ => false)).

(** A demo whose calls are not interrupted from the [n]th on. *)
Lemma demo_quiet d n :
  (forall t, (n <= length t)%nat -> dm_fail d t <> Some 4%positive) ->
  quiet_after (H := demo_os d) n.
Proof.
  intros Hd R t c Hlen. specialize (Hd t Hlen).
  assert (forall A (b g : A), (outcome_of d t b g).2 <> EINTR) as Ho.
  { intros A b g. unfold outcome_of. destruct (dm_fail d t); cbn; [|done].
    unfold EINTR. congruence. }
  destruct c; cbn; try done; try apply Ho; repeat case_match; try done; try apply Ho;
    try (cbn; unfold EINTR; congruence).
  destruct c; cbn; try done; try apply Ho; unfold demo_convert; repeat case_match;
    cbn; try done; try apply Ho; unfold EINTR; congruence.
Qed.

Lemma signal_os_quiet n : quiet_after (H := signal_os n) n.
Proof. apply demo_quiet. intros t Ht. cbn. by rewrite decide_False by lia. Qed.

(** Closed side conditions of the examples. *)
Ltac decide_closed := first [done | lia | by vm_compute | by apply (bool_decide_unpack _); vm_compute].
