(* ===== verification/WinBase.v ===== *)
(** * What the Windows builds share: the last error and the conversions

    The last error of the thread takes the place errno has in the POSIX builds:
    the same cell of the state, set by the calls that fail. *)
From S2P Require Import Prelude Syscalls Structs Machine Contract DemoOS.

Definition CP_UTF8 : Z := 65001.
Definition GENERIC_READ : Z := 2147483648.
Definition GENERIC_WRITE : Z := 1073741824.
Definition FILE_SHARE_READ : Z := 1.
Definition FILE_SHARE_WRITE : Z := 2.
Definition CREATE_ALWAYS : Z := 2.
Definition OPEN_EXISTING : Z := 3.
Definition OPEN_ALWAYS : Z := 4.
Definition TRUNCATE_EXISTING : Z := 5.
Definition STD_INPUT_HANDLE : Z := -10.
Definition STD_OUTPUT_HANDLE : Z := -11.
Definition STD_ERROR_HANDLE : Z := -12.
Definition FILE_BEGIN : Z := 0.
Definition FILE_CURRENT : Z := 1.
Definition FILE_END : Z := 2.

(** Conversions to [int] and [DWORD], and from [DWORD] to [int]. *)
Definition int_of (z : Z) : Z := (z + 2 ^ 31) mod 2 ^ 32 - 2 ^ 31.

(** The wide string in a buffer: its units up to the first 0. *)
Fixpoint wcs (w : wtext) : wtext :=
  match w with
  | [] => []
  | x :: w => if x =? 0 then [] else x :: wcs w
  end.

Lemma wcs_terminated_more w rest : 0 ∉ w -> wcs (w ++ 0 :: rest) = w.
Proof.
  induction w as [|x w IH]; intros H; [done|]. apply not_elem_of_cons in H as [H1 H2]. cbn.
  destruct (Z.eqb_spec x 0) as [->|]; [done|]. by rewrite IH.
Qed.

Lemma wcs_terminated w : 0 ∉ w -> wcs (w ++ [0]) = w.
Proof. apply wcs_terminated_more. Qed.

Section WinBase.
Context {os : OS}.

Definition GetLastError : M Z := get_errno.

Definition win {R : Set} (c : win32 R) : M R := sys (W c).

(** A call whose answer is not used. *)
Definition win_ {R : Set} (c : win32 R) : M unit := _ ← win c; mret tt.

(** Storing [data] from unit [off] of a wide buffer on. *)
Definition write_wide (p : ptr) (off : Z) (data : wtext) : M unit :=
  b ← load wide p;
  if (0 <=? off) && (off + Z.of_nat (length data) <=? Z.of_nat (length (units b)))
  then store p (Wide (take (Z.to_nat off) (units b) ++ data ++
                        drop (Z.to_nat off + length data) (units b)))
  else undef UbBounds.

(** [calloc (count, sizeof (wchar_t))] *)
Definition calloc_wide (count : Z) : M ptr :=
  calloc (u64 (count * 2)) (Wide (replicate (Z.to_nat count) 0)).

(** The common part of [x_process_utf8_to_wide], [x_filesystem_utf8_to_wide] and
    [x_dynamic_library_utf8_to_wide], which differ in what they make of an error. *)
Inductive conversion :=
  | Converted (wide : ptr)
  | ConvInvalid            (* no value or nowhere to store the result *)
  | ConvFailed (error : Z) (* the last error *)
  | ConvNoMemory.

Definition utf8_to_wide (value : cstr) (wide : bool) : M conversion :=
  if is_null value || negb wide then mret ConvInvalid
  else
    count ← win (MultiByteToWideChar (txt value) 0);
    if count.1 =? 0 then error ← GetLastError; mret (ConvFailed error)
    else
      converted ← calloc_wide count.1;
      if converted =? NULL then mret ConvNoMemory
      else
        r ← win (MultiByteToWideChar (txt value) count.1);
        if r.1 =? 0 then error ← GetLastError; free converted;; mret (ConvFailed error)
        else write_wide converted 0 r.2;; mret (Converted converted).

(** What the callers make of it: the code and the stored pointer. *)
Definition conversion_code (error_from_windows : Z -> Z) (c : conversion) : Z * option ptr :=
  match c with
  | Converted p => (0, Some p)
  | ConvInvalid => (EINVAL, None)
  | ConvFailed error => (error_from_windows error, Some NULL)
  | ConvNoMemory => (ENOMEM, Some NULL)
  end.

(** The wide string a buffer holds, as the Windows functions read it. *)
Definition load_wide (p : ptr) : M wtext := b ← load wide p; mret (wcs (units b)).

(** ** Specifications *)

Lemma wp_win md {R : Set} (c : win32 R) Q e h t :
  (forall r e', win32_post (held t) c r e' -> (e' = e \/ 0 < e') ->
     Q r (St e' h (Ev (W c) r :: t))) ->
  wp md (win c) Q (St e h t).
Proof. intros H. by apply wp_sys. Qed.

Lemma wp_win_ md {R : Set} (c : win32 R) Q e h t :
  (forall r e', win32_post (held t) c r e' -> Q tt (St e' h (Ev (W c) r :: t))) ->
  wp md (win_ c) Q (St e h t).
Proof. intros H. apply wp_bind, wp_win. intros. apply wp_ret. by apply H. Qed.

Lemma wp_write_wide md p b off data Q e h t :
  h !! p = Some (to_obj (Wide b)) -> 0 <= off ->
  off + Z.of_nat (length data) <= Z.of_nat (length b) ->
  Q tt (St e (<[p := to_obj (Wide (take (Z.to_nat off) b ++ data ++
          drop (Z.to_nat off + length data)%nat b))]> h) t) ->
  wp md (write_wide p off data) Q (St e h t).
Proof.
  intros Hp H1 H2 HQ. unfold write_wide. apply wp_bind.
  eapply (wp_load _ _ (Wide b)); [done|]. cbn [units].
  apply Z.leb_le in H1 as ->. apply Z.leb_le in H2 as ->.
  by eapply (wp_store _ _ (Wide b)).
Qed.

Lemma wp_load_wide md p w Q e h t :
  h !! p = Some (to_obj (Wide (w ++ [0]))) -> 0 ∉ w -> Q w (St e h t) ->
  wp md (load_wide p) Q (St e h t).
Proof.
  intros Hp Hw HQ. unfold load_wide. apply wp_bind. eapply wp_load; [done|].
  apply wp_ret. cbn [units]. by rewrite wcs_terminated.
Qed.

(** A conversion makes one buffer, with the converted string, or nothing. *)
Definition converted_post (v : text) (h : gmap ptr obj) (t : list ev) (c : conversion) (s : st) : Prop :=
  inert_ext t (tr s) /\
  match c with
  | Converted p => exists w, utf16 v = Some w /\ 0 < p /\ h !! p = None /\
                             hp s = <[p := to_obj (Wide (w ++ [0]))]> h
  | ConvFailed error => 0 < error /\ hp s = h
  | ConvNoMemory => hp s = h
  | ConvInvalid => False
  end.

Lemma wp_utf8_to_wide md v Q e h t :
  (forall c s', converted_post v h t c s' -> Q c s') ->
  wp md (utf8_to_wide (Some v) true) Q (St e h t).
Proof.
  intros HQ. unfold utf8_to_wide, GetLastError, calloc_wide. cbn [is_null negb orb txt default from_option]. change (id v) with v.
  wp_step. apply wp_win. intros n e1 Hn He1. cbn [win32_post] in Hn. wp_run.
  - apply HQ. split; cbn [tr hp]; [eauto 20 with xlib|]. split; [|done].
    destruct Hn as [[_ ?]|(w & _ & Hl & _)]; lia.
  - apply HQ. split; cbn [tr hp]; [eauto 20 with xlib|done].
  - apply wp_win. intros r e2 Hr He2. cbn [win32_post] in Hr.
    destruct Hn as [[? _]|(w & Hw & Hl & _)]; [done|].
    wp_run.
    + apply HQ. split; cbn [tr hp]; [eauto 20 with xlib|]. rewrite delete_insert_id by done. split; [|done].
      destruct Hr as [[_ ?]|(w' & _ & Hl' & _)]; lia.
    + destruct Hr as [[? _]|(w' & Hw' & Hl' & _ & Hr)]; [done|].
      assert (w' = w) as -> by congruence. clear Hw'.
      destruct (Z.eqb_spec n.1 0); [done|]. destruct Hr as [_ Hr].
      eapply wp_write_wide; [by rewrite lookup_insert_eq|done| |].
      * rewrite Hr, length_app, length_replicate. cbn. lia.
      * wp_run. apply HQ. split; cbn [tr hp]; [eauto 20 with xlib|]. exists w. split_and!; [done..|].
        rewrite insert_insert_eq, Hr, drop_ge, app_nil_r; [done|].
        rewrite length_replicate, length_app. cbn. lia.
Qed.

(** The same for a caller that maps the errors with [f]. *)
Definition wide_made (v : text) (h : gmap ptr obj) (t : list ev) (r : Z * option ptr) (s : st) : Prop :=
  inert_ext t (tr s) /\
  ((r.1 = 0 /\ exists p w, r.2 = Some p /\ utf16 v = Some w /\ 0 ∉ w /\ 0 < p /\ h !! p = None /\
      hp s = <[p := to_obj (Wide (w ++ [0]))]> h) \/
   (0 < r.1 /\ hp s = h)).

Lemma wp_conversion_code md f v e h t Q :
  (forall e', 0 < e' -> 0 < f e') ->
  (forall r s', wide_made v h t r s' -> Q r s') ->
  wp md (c ← utf8_to_wide (Some v) true; mret (conversion_code f c)) Q (St e h t).
Proof.
  intros Hf HQ. apply wp_bind, wp_utf8_to_wide. intros c s' [Ht Hc]. apply wp_ret, HQ.
  split; [done|]. destruct c as [p| |code|]; cbn.
  - destruct Hc as (w & Hw & Hp & Hn & Hh). left. split; [done|].
    exists p, w. split_and!; try done. by eapply utf16_nul.
  - done.
  - destruct Hc. right. split; [auto|done].
  - by right.
Qed.
End WinBase.

(** [wp_step] for the Windows calls. *)
Ltac win_step :=
  lazymatch goal with
  | |- wp _ (win _) _ (St _ _ _) =>
      apply wp_win; let r := fresh "r" in let e := fresh "e" in
      let H := fresh "Hpost" in let Hz := fresh "Herr" in
      intros r e H Hz; cbn [win32_post] in H; cbn beta iota
  | |- wp _ (win_ _) _ (St _ _ _) =>
      apply wp_win_; let r := fresh "r" in let e := fresh "e" in let H := fresh "Hpost" in
      intros r e H; cbn [win32_post] in H; cbn beta iota
  | |- wp _ GetLastError _ _ => unfold GetLastError; wp_step
  | |- _ => wp_step
  end.
Ltac win_run := repeat win_step.

(** What is held after a path, from the answers of its calls. *)
Ltac held_by_posts :=
  posts; unfold NULL, INVALID_HANDLE_VALUE, INVALID_SOCKET in *;
  try (exfalso; first [lia | congruence]); subst; cbn [held acquires releases win32_acquires win32_releases];
  repeat match goal with
  | H : ?x = ?b |- context [got _ ?b ?x] => rewrite H
  | H : ?x = true |- context [got_if _ ?x _] => rewrite H
  | H : ?x = false |- context [got_if _ ?x _] => rewrite H
  | H : ?x = true |- context [if ?x then _ else _] => rewrite H
  | H : ?x = false |- context [if ?x then _ else _] => rewrite H
  end; held_solve.

(** The code of a failure is positive. *)
Ltac code_pos :=
  first [ done | by eauto with xlib
        | posts; unfold NULL, INVALID_HANDLE_VALUE, INVALID_SOCKET in *;
          first [exfalso; first [congruence | lia] | by eauto with xlib] ].

(** A constructor that fails: its code, its result, its heap and what is held. *)
Ltac win_fail :=
  apply constructor_fail;
  [ code_pos | first [by left | by right] | by heap_simpl | held_by_posts ].
