(* ===== verification/Temporaries.v ===== *)
(** * Temporaries of a long function

    A function that allocates several blocks and opens several handles, and gives
    them back on every path, is followed through [holding]: the state is the
    initial one plus the blocks [ps] and the handles [hs] made so far.  NULL
    entries stand for what was not needed. *)
From S2P Require Import Prelude Syscalls Structs Machine Contract DemoOS WinBase.

Abbreviation block := (ptr * obj)%type.

Section Temporaries.
Context {os : OS}.
Implicit Types (h : gmap ptr obj) (t : list ev) (ps : list block) (hs : list Z).

Fixpoint with_blocks ps h : gmap ptr obj :=
  match ps with
  | [] => h
  | (p, o) :: ps => if p =? NULL then with_blocks ps h else <[p := o]> (with_blocks ps h)
  end.

Fixpoint blocks_ok ps h : Prop :=
  match ps with
  | [] => True
  | (p, _) :: ps => blocks_ok ps h /\ (p = NULL \/ (0 < p /\ with_blocks ps h !! p = None))
  end.

Fixpoint handle_set hs : resources :=
  match hs with
  | [] => ∅
  | x :: hs => got KHandle NULL x ∪ handle_set hs
  end.

(** The handles are distinct, and none of them in [R]. *)
Fixpoint handles_ok hs (R : resources) : Prop :=
  match hs with
  | [] => True
  | x :: hs => handles_ok hs R /\ (x = NULL \/ (0 < x /\ (KHandle, x) ∉ R ∪ handle_set hs))
  end.

Record holding (s0 : st) ps hs (s : st) : Prop := Holding {
  hold_heap : hp s = with_blocks ps (hp s0);
  hold_blocks : blocks_ok ps (hp s0);
  hold_held : held (tr s) = held (tr s0) ∪ handle_set hs;
  hold_handles : handles_ok hs (held (tr s0))
}.

Lemma holding_refl s : holding s [] [] s.
Proof. split; [done..| |done]. cbn. apply set_eq. set_solver. Qed.

Lemma holding_done s0 s : holding s0 [] [] s -> hp s = hp s0 /\ held (tr s) = held (tr s0).
Proof. intros [Hh _ Ht _]. split; [done|]. rewrite Ht. cbn. apply set_eq. set_solver. Qed.

Lemma holding_null_block s0 ps hs o s : holding s0 ps hs s -> holding s0 ((NULL, o) :: ps) hs s.
Proof. intros [H1 H2 H3 H4]. split; cbn; auto. Qed.

Lemma handle_set_snoc hs x : handle_set (hs ++ [x]) = handle_set hs ∪ got KHandle NULL x.
Proof.
  induction hs as [|y hs IH]; cbn; [apply set_eq; set_solver|]. rewrite IH. by rewrite (assoc_L (∪)).
Qed.

Lemma handles_ok_snoc hs x R :
  handles_ok hs R -> x = NULL \/ (0 < x /\ (KHandle, x) ∉ R ∪ handle_set hs) -> handles_ok (hs ++ [x]) R.
Proof.
  induction hs as [|y hs IH]; cbn; intros Hhs Hx; [by split|].
  destruct Hhs as [Hhs Hy]. split.
  - apply IH; [done|]. destruct Hx as [?|[? ?]]; [by left|right; set_solver].
  - destruct Hy as [?|[? Hy]]; [by left|right]. split; [done|]. rewrite handle_set_snoc.
    rewrite (assoc_L (∪)), elem_of_union. intros [?|Hin]; [done|].
    unfold got in Hin. destruct (Z.eqb_spec x NULL); [set_solver|].
    apply elem_of_singleton in Hin as [= ->]. destruct Hx as [?|[? Hx]]; [done|].
    unfold got in Hx. destruct (Z.eqb_spec x NULL); [done|]. set_solver.
Qed.

(** Steps that change nothing. *)
Lemma holding_inert s0 ps hs s e t :
  holding s0 ps hs s -> inert_ext (tr s) t -> holding s0 ps hs (St e (hp s) t).
Proof. intros [H1 H2 H3 H4] Ht. split; [done..| |done]. cbn [tr]. by rewrite (inert_ext_held _ _ Ht). Qed.

Lemma holding_event s0 ps hs e e' h t x :
  holding s0 ps hs (St e h t) -> held (x :: t) = held t -> holding s0 ps hs (St e' h (x :: t)).
Proof. intros [H1 H2 H3 H4] Ht. split; [done..| |done]. cbn [tr] in *. by rewrite Ht. Qed.

Lemma holding_block s0 ps hs s p o e t :
  holding s0 ps hs s -> inert_ext (tr s) t -> 0 < p -> hp s !! p = None ->
  holding s0 ((p, o) :: ps) hs (St e (<[p := o]> (hp s)) t).
Proof.
  intros [H1 H2 H3 H4] Ht Hp Hn. rewrite H1 in Hn.
  split; cbn [hp tr with_blocks blocks_ok]; [|by auto|by rewrite (inert_ext_held _ _ Ht)|done].
  assert (p <> NULL) as Hne by (unfold NULL; lia). apply Z.eqb_neq in Hne as ->. by rewrite H1.
Qed.

Lemma holding_update s0 ps1 p o o' ps2 hs s :
  holding s0 (ps1 ++ (p, o) :: ps2) hs s -> 0 < p ->
  hp s !! p = Some o /\
  forall e t, inert_ext (tr s) t ->
    holding s0 (ps1 ++ (p, o') :: ps2) hs (St e (<[p := o']> (hp s)) t).
Proof.
  intros [H1 H2 H3 H4] Hp. assert (p <> NULL) as Hne by (unfold NULL; lia).
  assert (hp s !! p = Some o /\ with_blocks (ps1 ++ (p, o') :: ps2) (hp s0) = <[p := o']> (hp s) /\
          blocks_ok (ps1 ++ (p, o') :: ps2) (hp s0)) as (G1 & G2 & G3).
  { rewrite H1. clear H1 H3 H4. induction ps1 as [|[q x] ps1 IH]; cbn [app with_blocks blocks_ok] in *.
    - apply Z.eqb_neq in Hne as ->. rewrite lookup_insert_eq, insert_insert_eq. tauto.
    - destruct H2 as [H2 Hq]. destruct (IH H2) as (I1 & I2 & I3).
      destruct (Z.eqb_spec q NULL) as [->|Hqn]; [split_and!; [done..|auto]|].
      destruct Hq as [?|[Hq Hqf]]; [done|].
      assert (q <> p) as Hqp by (intros ->; congruence).
      split; [by rewrite lookup_insert_ne|]. rewrite I2.
      split; [by apply insert_insert_ne|]. split; [done|]. right. split; [done|].
      by rewrite lookup_insert_ne. }
  split; [done|]. intros e t Ht. split; cbn [hp tr]; [done..| |done].
  by rewrite (inert_ext_held _ _ Ht).
Qed.

Lemma holding_swap s0 p a q b ps hs s :
  0 < p -> 0 < q -> holding s0 ((p, a) :: (q, b) :: ps) hs s -> holding s0 ((q, b) :: (p, a) :: ps) hs s.
Proof.
  intros Hp Hq [H1 H2 H3 H4]. cbn in *.
  rewrite (proj2 (Z.eqb_neq p NULL)), (proj2 (Z.eqb_neq q NULL)) in * by (unfold NULL; lia).
  destruct H2 as [[H2 [?|[_ Hqf]]] [?|[_ Hpf]]]; [unfold NULL in *; lia..|].
  apply lookup_insert_None in Hpf as [Hpf Hqp].
  split; cbn; rewrite ?(proj2 (Z.eqb_neq p NULL)), ?(proj2 (Z.eqb_neq q NULL)) by (unfold NULL; lia); [| |done..].
  - rewrite H1. by apply insert_insert_ne.
  - split; [split; [done|by right]|]. right. split; [done|]. by rewrite lookup_insert_ne by done.
Qed.

Lemma holding_lookup s0 ps hs s p o :
  holding s0 ps hs s -> hp s0 !! p = Some o -> hp s !! p = Some o.
Proof.
  intros [H1 H2 _ _] Hp. rewrite H1. clear H1.
  induction ps as [|[q x] ps IH]; cbn [with_blocks blocks_ok] in *; [done|].
  destruct H2 as [H2 Hq]. destruct (Z.eqb_spec q NULL); [auto|].
  destruct Hq as [?|[_ Hq]]; [done|]. rewrite lookup_insert_ne; [auto|].
  intros ->. by rewrite IH in Hq.
Qed.

(** Taking a handle. *)
Lemma holding_handle s0 ps hs s x e h t ev :
  holding s0 ps hs s -> h = hp s -> 0 < x -> (KHandle, x) ∉ held (tr s) ->
  held (ev :: t) = held (tr s) ∪ got KHandle NULL x ->
  holding s0 ps (hs ++ [x]) (St e h (ev :: t)).
Proof.
  intros [H1 H2 H3 H4] -> Hx Hn Ht. split; [done..| |].
  - cbn [tr]. rewrite Ht, H3, handle_set_snoc. by rewrite (assoc_L (∪)).
  - apply handles_ok_snoc; [done|]. right. split; [done|]. by rewrite <- H3.
Qed.

Lemma holding_two_handles s0 ps hs x y e e' h t ev :
  holding s0 ps hs (St e h t) -> 0 < x -> 0 < y -> x <> y ->
  (KHandle, x) ∉ held t -> (KHandle, y) ∉ held t ->
  held (ev :: t) = held t ∪ ({[ (KHandle, x) ]} ∪ {[ (KHandle, y) ]}) ->
  holding s0 ps (hs ++ [x; y]) (St e' h (ev :: t)).
Proof.
  intros [H1 H2 H3 H4] Hx Hy Hxy Hfx Hfy Ht. cbn [tr] in *.
  assert (forall z, 0 < z -> got KHandle NULL z = {[ (KHandle, z) ]}) as Hg.
  { intros z Hz. apply got_ok. unfold NULL. lia. }
  change [x; y] with ([x] ++ [y]). rewrite (assoc_L (++)). split; [done..| |].
  - cbn [tr]. rewrite Ht, H3, !handle_set_snoc, !Hg by done. by rewrite !(assoc_L (∪)).
  - apply handles_ok_snoc; [apply handles_ok_snoc; [done|]|]; right; (split; [done|]).
    + by rewrite <- H3.
    + rewrite handle_set_snoc, (assoc_L (∪)), <- H3, Hg by done.
      rewrite elem_of_union, elem_of_singleton. intros [?|[= ?]]; [done|congruence].
Qed.

Lemma holding_null_handle s0 ps hs s : holding s0 ps hs s -> holding s0 ps (hs ++ [NULL]) s.
Proof.
  intros [H1 H2 H3 H4]. split; [done..| |].
  - rewrite handle_set_snoc, got_bad, H3. apply set_eq. set_solver.
  - apply handles_ok_snoc; [done|by left].
Qed.

(** Giving things back: the last block, the first handle. *)
Lemma wp_holding_free md s0 p o ps hs s (Q : unit -> st -> Prop) :
  holding s0 ((p, o) :: ps) hs s -> (forall s', errno s' = errno s -> tr s ⊆ tr s' -> holding s0 ps hs s' -> Q tt s') ->
  wp md (free p) Q s.
Proof.
  intros [H1 H2 H3 H4] HQ. destruct s as [e h t]. cbn [hp tr with_blocks blocks_ok] in *.
  destruct H2 as [H2 Hp]. destruct (Z.eqb_spec p NULL) as [->|Hn].
  - apply wp_free_null, HQ; [done|done|]. by split.
  - destruct Hp as [?|[Hp Hf]]; [done|]. eapply wp_free; [by rewrite H1, lookup_insert_eq|done|].
    apply HQ; [done|by apply list_subseteq_cons|].
    split; cbn [hp tr held acquires releases]; [|done| |done].
    + by rewrite H1, delete_insert_id.
    + by rewrite res_diff_empty, res_union_empty.
Qed.

Definition close_handle (x : Z) : M unit := if negb (x =? NULL) then win_ (CloseHandle x) else mret tt.

Lemma wp_holding_close md s0 x ps hs s (Q : unit -> st -> Prop) :
  holding s0 ps (x :: hs) s -> (forall s', tr s ⊆ tr s' -> holding s0 ps hs s' -> Q tt s') ->
  wp md (close_handle x) Q s.
Proof.
  intros [H1 H2 H3 H4] HQ. destruct s as [e h t]. cbn [hp tr handle_set handles_ok] in *.
  destruct H4 as [H4 Hx]. unfold close_handle. destruct (Z.eqb_spec x NULL) as [->|Hn]; cbn [negb].
  - apply wp_ret, HQ; [done|]. split; [done..| |done]. cbn [tr]. rewrite H3, got_bad. apply set_eq. set_solver.
  - destruct Hx as [?|[_ Hx]]; [done|]. win_step. apply HQ; [by apply list_subseteq_cons|]. split; [done..| |done].
    cbn [tr held acquires releases win32_acquires win32_releases]. rewrite H3, got_ok, res_union_empty by done.
    apply set_eq. set_solver.
Qed.

Lemma handle_set_disjoint hs R : handles_ok hs R -> handle_set hs ## R.
Proof.
  induction hs as [|x hs IH]; cbn; [set_solver|]. intros [Hhs Hx]. specialize (IH Hhs).
  unfold got. destruct (Z.eqb_spec x NULL); [set_solver|]. destruct Hx as [?|[_ Hx]]; [done|]. set_solver.
Qed.

(** What a constructor ends with: its structure and its handles, or nothing. *)
Lemma holding_made {T} `{CStruct T, !Handle T} (P : T -> Prop) s0 p (x : T) hs s :
  holding s0 [(p, to_obj x)] hs s -> 0 < p -> h_res p x = handle_set hs -> P x ->
  constructor_post P s0 (0, Some p) s.
Proof.
  intros [H1 [_ H2] H3 H4] Hp Hres HP. left. split; [done|]. exists p, x. cbn in *.
  assert (p <> NULL) as Hn by (unfold NULL; lia). destruct H2 as [?|[_ H2]]; [done|].
  apply Z.eqb_neq in Hn. rewrite Hn in H1. rewrite Hres.
  split_and!; try done. by apply handle_set_disjoint.
Qed.

Lemma holding_failed {T} `{CStruct T, !Handle T} (P : T -> Prop) s0 rc out s :
  holding s0 [] [] s -> 0 < rc -> out = None \/ out = Some NULL -> constructor_post P s0 (rc, out) s.
Proof. intros Hs Hrc Ho. apply holding_done in Hs as [? ?]. by right. Qed.

(** An allocation and a conversion. *)
Lemma wp_holding_calloc md {T} `{CStruct T} n (z : T) s0 ps hs s Q :
  holding s0 ps hs s ->
  (forall s', holding s0 ps hs s' -> Q NULL s') ->
  (forall p s', 0 < p -> holding s0 ((p, to_obj z) :: ps) hs s' -> Q p s') ->
  wp md (calloc n z) Q s.
Proof.
  intros Hs H1 H2. destruct s as [e h t]. apply wp_calloc.
  - apply H1. apply (holding_inert _ _ _ _ _ _ Hs). cbn. auto with xlib.
  - intros p Hp Hn. apply H2; [done|]. apply (holding_block _ _ _ _ _ _ _ _ Hs); cbn; auto with xlib.
Qed.

Definition wide_held (v : text) s0 ps hs (r : Z * option ptr) (s : st) : Prop :=
  (r.1 = 0 /\ exists p w, r.2 = Some p /\ utf16 v = Some w /\ 0 ∉ w /\ 0 < p /\
     holding s0 ((p, to_obj (Wide (w ++ [0]))) :: ps) hs s) \/
  (0 < r.1 /\ holding s0 ps hs s).

Lemma wp_holding_convert md f v s0 ps hs s Q :
  (forall e', 0 < e' -> 0 < f e') -> holding s0 ps hs s ->
  (forall r s', wide_held v s0 ps hs r s' -> Q r s') ->
  wp md (c ← utf8_to_wide (Some v) true; mret (conversion_code f c)) Q s.
Proof.
  intros Hf Hs HQ. destruct s as [e h t]. apply wp_conversion_code; [done|].
  intros r [e' h' t'] [Ht Hr]. apply HQ. cbn [hp tr] in *.
  destruct Hr as [(Hr & p & w & H1 & H2 & H3 & H4 & H5 & ->)|[Hr ->]]; [left|right]; (split; [done|]).
  - exists p, w. split_and!; try done. by apply (holding_block _ _ _ _ _ _ _ _ Hs).
  - by apply (holding_inert _ _ _ _ _ _ Hs).
Qed.

Lemma wp_holding_load_wide md s0 ps1 p w ps2 hs s Q :
  holding s0 (ps1 ++ (p, to_obj (Wide (w ++ [0]))) :: ps2) hs s -> 0 < p -> 0 ∉ w -> Q w s ->
  wp md (load_wide p) Q s.
Proof.
  intros Hs Hp Hw HQ. destruct s as [e h t]. eapply wp_load_wide; [|done|done].
  by apply (holding_update _ _ _ _ (to_obj (Wide [])) _ _ _ Hs).
Qed.

(** A call that takes and gives nothing. *)
Lemma wp_holding_win md {R : Set} (c : win32 R) s0 ps hs s Q :
  win32_inert c = true -> holding s0 ps hs s ->
  (forall r e s', errno s' = e -> win32_post (held (tr s)) c r e ->
     Ev (W c) r ∈ tr s' -> tr s ⊆ tr s' -> holding s0 ps hs s' -> Q r s') ->
  wp md (win c) Q s.
Proof.
  intros Hc Hs HQ. destruct s as [e h t]. apply wp_win. intros r e' Hp _.
  apply (HQ r e'); [done|done|apply list_elem_of_here|by apply list_subseteq_cons|].
  apply (holding_inert _ _ _ _ _ _ Hs). apply inert_ext_cons; [done|apply inert_ext_refl].
Qed.
End Temporaries.
