(* ===== verification/WinTime.v ===== *)
(** * Clocks and sleeping on Windows (src/x_time.c, Windows build) *)
From S2P Require Import Prelude Syscalls Structs Machine Contract DemoOS WinBase.

(** The two halves of a 64-bit value ([ULARGE_INTEGER], [FILETIME]). *)
Definition quad_part (low high : Z) : Z := Z.lor (Z.shiftl high 32) low.

Lemma quad_part_eq low high :
  is_dword low -> is_dword high -> quad_part low high = high * 2 ^ 32 + low.
Proof.
  unfold is_dword, is_u32, quad_part. intros Hl Hh.
  rewrite <- Z.shiftl_mul_pow2 by lia. symmetry. apply Z.add_nocarry_lor.
  apply Z.bits_inj'. intros n Hn. rewrite Z.bits_0, Z.land_spec, Z.shiftl_spec by lia.
  destruct (Z.ltb_spec n 32).
  - rewrite (Z.testbit_neg_r high) by lia. done.
  - apply andb_false_iff. right. apply Z.bits_above_log2; [lia|].
    destruct (Z.eq_dec low 0) as [->|]; [cbn; lia|].
    apply Z.log2_lt_pow2; [lia|]. eapply Z.lt_le_trans; [apply Hl|].
    apply Z.pow_le_mono_r; lia.
Qed.

Definition filetime_epoch : Z := 116444736000000000.

(** The counter [cnt] at [freq] counts per second, in nanoseconds. *)
Definition counter_ns (cnt freq : Z) : Z :=
  u64 (u64 (cnt / freq * 1000000000) + u64 (cnt mod freq * 1000000000) / freq).

Section Time.
Context {os : OS}.

Definition x_time_filetime_ns : M (Z * option Z) :=
  filetime ← win GetSystemTimeAsFileTime;
  let value := quad_part filetime.1 filetime.2 in
  if value <? filetime_epoch then mret (EINVAL, None)
  else
    let intervals_since_unix_epoch := u64 (value - filetime_epoch) in
    mret (0, Some (u64 (intervals_since_unix_epoch * 100))).

Definition x_time_monotonic_ns (nanoseconds : bool) : M (Z * option Z) :=
  if negb nanoseconds then mret (EINVAL, None)
  else
    counter ← win QueryPerformanceCounter;
    if negb counter.1 then mret (EINVAL, None)
    else
      frequency ← win QueryPerformanceFrequency;
      if negb frequency.1 then mret (EINVAL, None)
      else mret (0, Some (counter_ns (u64 counter.2) (u64 frequency.2))).

Definition x_time_system_ns (nanoseconds : bool) : M (Z * option Z) :=
  if negb nanoseconds then mret (EINVAL, None) else x_time_filetime_ns.

Definition x_time_sleep_us (microseconds : Z) : M Z :=
  if microseconds =? 0 then mret 0
  else if INT64_MAX / 10 <? microseconds then mret EOVERFLOW
  else
    timer ← win (CreateWaitableTimerA true);
    if timer =? NULL then mret EAGAIN
    else
      let due_time := s64 (- (s64 (s64 microseconds * 10))) in
      set ← win (SetWaitableTimer timer due_time);
      if negb set then win_ (CloseHandle timer);; mret EINVAL
      else
        r ← win (WaitForSingleObject timer INFINITE);
        if negb (r =? WAIT_OBJECT_0) then win_ (CloseHandle timer);; mret EINVAL
        else win_ (CloseHandle timer);; mret 0.

Definition x_time_sleep_ms (milliseconds : Z) : M Z :=
  if UINT64_MAX / 1000 <? milliseconds then mret EOVERFLOW
  else x_time_sleep_us (u64 (milliseconds * 1000)).

(** ** The clocks *)

(** The split into whole seconds and a remainder loses nothing: at up to
    18446744073 counts per second, and as long as the result fits 64 bits, the
    conversion is the exact quotient, rounded down. *)
Theorem counter_ns_exact cnt freq :
  0 <= cnt < 2 ^ 63 -> 0 < freq <= 18446744073 -> cnt * 1000000000 / freq < 2 ^ 64 ->
  counter_ns cnt freq = cnt * 1000000000 / freq.
Proof.
  intros Hc Hf Hr. unfold counter_ns.
  pose proof (Z.div_mod cnt freq ltac:(lia)) as Hdm.
  pose proof (Z.mod_pos_bound cnt freq ltac:(lia)) as Hm.
  pose proof (Z.div_pos cnt freq ltac:(lia) ltac:(lia)) as Hq.
  assert (cnt * 1000000000 / freq =
          cnt / freq * 1000000000 + cnt mod freq * 1000000000 / freq) as Heq.
  { rewrite <- Z.div_add_l by lia. f_equal. rewrite Hdm at 1. ring. }
  assert (0 <= cnt mod freq * 1000000000 / freq) by (apply Z.div_pos; nia).
  rewrite Heq in Hr.
  rewrite (u64_small (cnt mod freq * 1000000000)) by (unfold is_u64; nia).
  rewrite (u64_small (cnt / freq * 1000000000)) by (unfold is_u64; nia).
  rewrite u64_small by (unfold is_u64; nia). by rewrite Heq.
Qed.

(** Readings of the counter are the exact quotient, and the two calls are all
    that happens. *)
Theorem x_time_monotonic_ns_exact s :
  wp Total (x_time_monotonic_ns true) (fun r s' =>
    hp s' = hp s /\ held (tr s') = held (tr s) /\
    ((r = (EINVAL, None)) \/
     exists cnt freq,
       tr s' = Ev (W QueryPerformanceFrequency) (true, freq) ::
               Ev (W QueryPerformanceCounter) (true, cnt) :: tr s /\
       (freq <= 18446744073 -> cnt * 1000000000 / freq < 2 ^ 64 ->
        r = (0, Some (cnt * 1000000000 / freq))))) s.
Proof.
  destruct s as [e h t]. unfold x_time_monotonic_ns. win_run; cbn [negb];
    (split; [done|split; [by cbn [tr]; rewrite !inert_held_cons by done|]]); try (by left).
  right. destruct r as [ok cnt], r0 as [ok' freq]. cbn [fst snd] in *. subst.
  exists cnt, freq. split; [done|]. intros Hf Hr. destruct Hpost as [_ Hc], Hpost0 as [_ Hq].
  rewrite (u64_small cnt), (u64_small freq) by (unfold is_u64; lia).
  by rewrite counter_ns_exact by lia.
Qed.

(** ** Sleeping *)

(** A sleep takes a timer and gives it back on every path.  It reports success
    only after waiting, without end, for a timer set to exactly the time asked
    for; the only durations refused are those a timer cannot express. *)
Theorem x_time_sleep_us_restores us s :
  is_u64 us ->
  wp Total (x_time_sleep_us us) (fun rc s' =>
    hp s' = hp s /\ held (tr s') = held (tr s) /\
    (rc = EOVERFLOW <-> 2 ^ 63 <= us * 10) /\
    (rc = 0 -> us = 0 \/ exists timer c,
       tr s' = Ev (W (CloseHandle timer)) c ::
               Ev (W (WaitForSingleObject timer INFINITE)) WAIT_OBJECT_0 ::
               Ev (W (SetWaitableTimer timer (- (us * 10)))) true ::
               Ev (W (CreateWaitableTimerA true)) timer :: tr s)) s.
Proof.
  intros Hus. destruct s as [e h t]. unfold x_time_sleep_us, is_u64 in *.
  change (INT64_MAX / 10) with 922337203685477580. win_step.
  { apply wp_ret. split_and!; [done..|split; [done|lia]|by left]. }
  win_step; [apply wp_ret; split_and!; [done..|split; [lia|done]|done]|].
  rewrite (s64_small us), (s64_small (us * 10)), s64_small by lia.
  win_run; cbn [hp tr];
    (split; [done|split; [held_by_posts|split; [split; [done|lia]|]]]); try done.
  intros _. right. exists r. destruct r0; [|done]. destruct (Z.eqb_spec r1 WAIT_OBJECT_0); [|done].
  subst. by eexists.
Qed.
End Time.
