(* ===== verification/XTime.v ===== *)
(** * src/x_time.c: clocks, sleeping and elapsed timers *)
From S2P Require Import Prelude Syscalls Structs Machine DemoOS.

(** An out-parameter is a [bool], false when the pointer is NULL; a function
  returns its code with what it stored, [None] when it stored nothing. *)

Definition CLOCK_REALTIME : Z := 0.
Definition CLOCK_MONOTONIC : Z := 1.

Section Time.
Context {os : OS}.

Definition x_time_clock_ns (clock_id : Z) : M (Z * option Z) :=
  r ← sys (Sclock_gettime clock_id);
  if negb (r.1 =? 0) then e ← get_errno; mret (e, None)
  else mret (0, Some (u64 (u64 (u64 r.2.1 * 1000000000) + u64 r.2.2))).

Definition x_time_monotonic_ns (nanoseconds : bool) : M (Z * option Z) :=
  if negb nanoseconds then mret (EINVAL, None)
  else x_time_clock_ns CLOCK_MONOTONIC.

Definition x_time_system_ns (nanoseconds : bool) : M (Z * option Z) :=
  if negb nanoseconds then mret (EINVAL, None)
  else x_time_clock_ns CLOCK_REALTIME.

(** One turn of the loop around [nanosleep]. *)
Definition x_time_sleep_step (request : timespec) : M (timespec + Z) :=
  r ← sys (Snanosleep request.1 request.2);
  if r.1 =? 0 then mret (inr 0)
  else e ← get_errno;
       if negb (e =? EINTR) then mret (inr e) else mret (inl r.2).

Definition x_time_sleep_us (fuel : nat) (microseconds : Z) : M Z :=
  if microseconds =? 0 then mret 0
  else
    let request := (microseconds / 1000000, (microseconds mod 1000000) * 1000) in
    iterM fuel x_time_sleep_step request.

Definition x_time_sleep_ms (fuel : nat) (milliseconds : Z) : M Z :=
  if UINT64_MAX / 1000 <? milliseconds then mret EOVERFLOW
  else x_time_sleep_us fuel (u64 (milliseconds * 1000)).

(** [x_timer_t] is its only member, [started_ns]. *)
Definition x_timer_start (timer : bool) : M (Z * option Z) :=
  if negb timer then mret (EINVAL, None) else x_time_monotonic_ns true.

Definition x_timer_elapsed_ns (timer : option Z) (nanoseconds : bool) : M (Z * option Z) :=
  match timer with
  | Some started_ns =>
      if negb nanoseconds then mret (EINVAL, None) else
      now ← x_time_monotonic_ns true;
      if negb (now.1 =? 0) then mret (now.1, None)
      else
        let n := default 0 now.2 in
        mret (0, Some (if started_ns <=? n then n - started_ns else 0))
  | None => mret (EINVAL, None)
  end.

(** ** Specifications used by the other components *)

(** What a clock reading returns: on success a 64-bit count, on failure a
    positive error; the heap and the held resources do not change. *)
Definition clock_result (e : Z) (h : gmap ptr obj) (t : list ev)
    (r : Z * option Z) (s : st) : Prop :=
  hp s = h /\ inert_ext t (tr s) /\
  ((r.1 = 0 /\ exists n, r.2 = Some n /\ is_u64 n) \/ (0 < r.1 /\ r.2 = None)).

Lemma wp_time_monotonic md e h t Q :
  (forall r s, clock_result e h t r s -> Q r s) ->
  wp md (x_time_monotonic_ns true) Q (St e h t).
Proof.
  intros HQ. unfold x_time_monotonic_ns, x_time_clock_ns. cbn [negb].
  wp_run; apply HQ; (split_and!; [done|by cbn; auto with xlib|]).
  - right. destruct Hpost as [[?|[? ?]] _]; [lia|done].
  - left. split; [done|]. eexists. split; [done|]. apply u64_range.
Qed.

(** The reading is exact: it does not wrap before the year 2554. *)
Lemma clock_ns_exact sec nsec :
  0 <= sec <= 18446744072 -> 0 <= nsec < 1000000000 ->
  u64 (u64 (u64 sec * 1000000000) + u64 nsec) = sec * 1000000000 + nsec.
Proof.
  intros. unfold u64. rewrite (Z.mod_small sec), (Z.mod_small nsec) by lia.
  rewrite (Z.mod_small (_ * _)) by lia. by rewrite Z.mod_small by lia.
Qed.

(** ** Sleeping *)

(** The time the kernel reports as slept over a history, in nanoseconds. *)
Fixpoint slept (t : list ev) : Z :=
  match t with
  | [] => 0
  | Ev (Snanosleep s n) r :: t' =>
      slept t' + (s * 1000000000 + n)
      - (if r.1 =? 0 then 0 else r.2.1 * 1000000000 + r.2.2)
  | _ :: t' => slept t'
  end.


Definition sleep_request_ok (e : ev) : Prop :=
  match e with Ev (Snanosleep sec nsec) _ => timespec_ok (sec, nsec) | _ => True end.

(** [x_time_sleep_us] returns once signals stop arriving: [n] units of
    fuel are enough when the [n]th call and the later ones are not
    interrupted.  Every request it hands to the kernel is a valid [timespec],
    and it never reports EINTR. *)
Theorem x_time_sleep_us_returns fuel us n s :
  is_u64 us -> quiet_after n -> (n < fuel)%nat ->
  wp Total (x_time_sleep_us fuel us)
    (fun rc s' => 0 <= rc /\ rc <> EINTR /\
       exists t', tr s' = t' ++ tr s /\ Forall sleep_request_ok t') s.
Proof.
  intros Hus Hq Hf. destruct s as [e h t]. unfold x_time_sleep_us. wp_step.
  { apply wp_ret. split_and!; [done..|]. by exists []. }
  apply (wp_iter _ (fun req s' => timespec_ok req /\
           exists t', tr s' = t' ++ t /\ Forall sleep_request_ok t')
           (fun _ s' => n - length (tr s'))%nat); cbn.
  - intros [sec nsec] [e1 h1 t1] [Hr (t' & Heq & Ht')]. unfold x_time_sleep_step.
    cbn in Heq. subst t1.
    apply wp_bind, wp_sys_eq. intros r e' Hc [Hp Hrem]. cbn in *.
    assert (Forall sleep_request_ok (Ev (Snanosleep sec nsec) r :: t')) as Ht
      by (by constructor).
    assert (exists t'0, Ev (Snanosleep sec nsec) r :: t' ++ t = t'0 ++ t /\
                        Forall sleep_request_ok t'0) as Hex by (by eexists (_ :: t')).
    assert (r.1 <> 0 -> (if e' =? 0 then e1 else e') = e' /\ 0 < e') as Herr.
    { intros. destruct Hp as [?|[? ?]]; [done|]. destruct (Z.eqb_spec e' 0); lia. }
    wp_run; [done| |]; destruct (Herr E0) as [He Hpos]; rewrite He in *.
    + split_and!; [lia|done|exact Hex].
    + split; [by split|].
      destruct (decide (n <= length (t' ++ t))%nat) as [Hn|Hn]; [|cbn; lia].
      destruct (Hq _ _ (Snanosleep sec nsec) Hn). by rewrite Hc.
  - split; [|by exists []]. unfold timespec_ok, is_u64 in *. cbn.
    pose proof (Z.mod_pos_bound us 1000000). split; [|lia].
    split; [apply Z.div_pos; lia|]. apply Z.div_lt_upper_bound; lia.
  - lia.
Qed.

(** The overflow check of [x_time_sleep_ms] is exact: it fails with
    EOVERFLOW, without calling the kernel, precisely when the duration in
    microseconds does not fit 64 bits, and otherwise sleeps for exactly
    [ms * 1000] microseconds. *)
Theorem x_time_sleep_ms_overflow fuel ms :
  is_u64 ms ->
  x_time_sleep_ms fuel ms =
    if decide (ms * 1000 < 2 ^ 64) then x_time_sleep_us fuel (ms * 1000)
    else mret EOVERFLOW.
Proof.
  intros Hms. unfold x_time_sleep_ms, is_u64, UINT64_MAX in *.
  case_decide.
  - destruct (Z.ltb_spec (18446744073709551615 / 1000) ms) as [Hlt|_].
    + change (18446744073709551615 / 1000) with 18446744073709551 in Hlt. lia.
    + by rewrite u64_small by (unfold is_u64; lia).
  - destruct (Z.ltb_spec (18446744073709551615 / 1000) ms) as [_|Hge]; [done|].
    change (18446744073709551615 / 1000) with 18446744073709551 in Hge. lia.
Qed.

(** An elapsed time is never the wrap-around of a negative difference: it
    is the difference of the two readings, or 0 when the clock went back. *)
Theorem x_timer_elapsed_bounded started s :
  is_u64 started ->
  wp Total (x_timer_elapsed_ns (Some started) true)
    (fun r s' => hp s' = hp s /\
       ((0 < r.1 /\ r.2 = None) \/
        (r.1 = 0 /\ exists now, is_u64 now /\ r.2 = Some (Z.max 0 (now - started))))) s.
Proof.
  intros Hs. destruct s as [e h t]. unfold x_timer_elapsed_ns. wp_step.
  apply wp_bind, wp_time_monotonic.
  intros [rc v] [e' h' t'] (Hh & _ & [[Hrc (now & Hv & Hnow)]|[Hrc Hv]]); cbn in *;
    subst; wp_run; cbn; (split; [done|]); try lia; [|by left].
  right. split; [done|]. exists now. split; [done|]. f_equal.
  destruct (Z.leb_spec started now); lia.
Qed.
End Time.

(** ** Examples *)


Lemma x_time_sleep_us_returns_witness :
wp Total (x_time_sleep_us (os := signal_os 3) 10 1500)
  (fun rc s' => 0 <= rc /\ rc <> EINTR /\
     exists t', tr s' = t' ++ tr st0 /\ Forall sleep_request_ok t') st0.
Proof.
apply (x_time_sleep_us_returns (os := signal_os 3) 10 1500 3).
- done.
- apply signal_os_quiet.
- lia.
Defined.

Lemma x_time_sleep_ms_overflow_witness :
x_time_sleep_ms (os := calm_os) 1 18446744073709552 = mret EOVERFLOW.
Proof. rewrite (x_time_sleep_ms_overflow (os := calm_os)); [by vm_compute|done]. Defined.

Lemma x_timer_elapsed_bounded_witness :
wp Total (x_timer_elapsed_ns (os := calm_os) (Some 7) true)
  (fun r s' => hp s' = hp st0 /\
     ((0 < r.1 /\ r.2 = None) \/
      (r.1 = 0 /\ exists now, is_u64 now /\ r.2 = Some (Z.max 0 (now - 7))))) st0.
Proof. apply (x_timer_elapsed_bounded (os := calm_os)). done. Defined.
