(* ===== verification/XPath.v ===== *)
(** * src/x_filesystem.c: the path functions

    The functions whose [#ifdef _WIN32] parts are conditions on characters take
    the platform as their argument [win].  Buffers are arrays: a result [None]
    means that the code wrote outside the caller's buffer. *)
From S2P Require Import Prelude Syscalls Structs.

Definition SLASH : ascii := "/"%char.
Definition BACKSLASH : ascii := "\"%char.

Definition x_filesystem_is_dot_entry (name : text) : bool :=
  streqb name (str ".") || streqb name (str "..").

(** The separators of the platform, and the one [x_path_join] inserts. *)
Definition is_separator (win : bool) (c : ascii) : bool :=
  Ascii.eqb c SLASH || (win && Ascii.eqb c BACKSLASH).
Definition path_separator (win : bool) : ascii := if win then BACKSLASH else SLASH.

Definition x_filesystem_has_separator (win : bool) (path : cstr) : bool :=
  match path with
  | None => false
  | Some p =>
      let length := length p in
      (0 <? length)%nat && is_separator win (char_at p (length - 1))
  end.

Definition is_letter (c : ascii) : bool :=
  let n := N_of_ascii c in
  ((65 <=? n) && (n <=? 90))%N || ((97 <=? n) && (n <=? 122))%N.

Definition x_path_is_absolute (win : bool) (path : cstr) : bool :=
  match path with
  | None => false
  | Some p =>
      let c := char_at p in
      if Ascii.eqb (c 0%nat) NUL then false
      else if Ascii.eqb (c 0%nat) SLASH then true
      else win &&
        ((Ascii.eqb (c 0%nat) BACKSLASH && Ascii.eqb (c 1%nat) BACKSLASH) ||
         (is_letter (c 0%nat) && Ascii.eqb (c 1%nat) ":"%char &&
          (Ascii.eqb (c 2%nat) BACKSLASH || Ascii.eqb (c 2%nat) SLASH)))
  end.

(** [buffer] is the caller's array, [buffer_size] the size it claims. *)
Definition x_path_join (win : bool) (buffer : option text) (buffer_size : Z)
    (left right : cstr) : option (Z * option text) :=
  match buffer, left, right with
  | Some buf, Some l, Some r =>
      if buffer_size =? 0 then Some (EINVAL, None)
      else if x_path_is_absolute win right || Ascii.eqb (char_at l 0) NUL then
        let right_length := strlen r in
        if buffer_size <? u64 (right_length + 1) then Some (ENAMETOOLONG, None)
        else b ← memcpy buf 0 (r ++ [NUL]); Some (0, Some b)
      else
        let left_length := strlen l in
        let right_length := strlen r in
        let needs_separator :=
          if x_filesystem_has_separator win left || Ascii.eqb (char_at r 0) NUL
          then 0 else 1 in
        let total_length := u64 (u64 (left_length + needs_separator) + right_length) in
        if buffer_size <? u64 (total_length + 1) then Some (ENAMETOOLONG, None)
        else
          b1 ← memcpy buf 0 l;
          b2 ← (if needs_separator =? 0 then Some b1
                else memcpy b1 (length l) [path_separator win]);
          b3 ← memcpy b2 (length l + Z.to_nat needs_separator) (r ++ [NUL]);
          Some (0, Some b3)
  | _, _, _ => Some (EINVAL, None)
  end.

(** The scan of [x_path_basename]; the result is [last - path]. *)
Fixpoint x_path_basename_loop (win : bool) (s : text) (cursor last : nat) : nat :=
  match s with
  | [] => last
  | c :: s' =>
      x_path_basename_loop win s' (S cursor)
        (if is_separator win c then S cursor else last)
  end.

Definition x_path_basename (win : bool) (path : cstr) (basename : bool) : Z * option nat :=
  match path with
  | Some p => if negb basename then (EINVAL, None)
              else (0, Some (x_path_basename_loop win p 0 0))
  | None => (EINVAL, None)
  end.

(** ** Abstract specification

    [join] is what a join means, [base] the part after the last separator. *)

Definition join (win : bool) (l r : text) : text :=
  if x_path_is_absolute win (Some r) || bool_decide (l = []) then r
  else if x_filesystem_has_separator win (Some l) || bool_decide (r = []) then l ++ r
  else l ++ path_separator win :: r.

Definition nul_free (s : text) : Prop := NUL ∉ s.

Lemma join_nul_free win l r : nul_free l -> nul_free r -> nul_free (join win l r).
Proof.
  unfold nul_free, join. intros Hl Hr. repeat case_match; try done; rewrite elem_of_app.
  - tauto.
  - rewrite elem_of_cons. intros [?|[H'|?]]; [done| |done].
    unfold path_separator, SLASH, BACKSLASH, NUL in *. destruct win; discriminate H'.
Qed.

Lemma char_at_0_nul s : nul_free s -> Ascii.eqb (char_at s 0) NUL = bool_decide (s = []).
Proof.
  intros Hs. destruct s as [|c s]; [done|]. rewrite bool_decide_eq_false_2 by done.
  apply Ascii.eqb_neq. intros E. apply Hs. cbn in E. subst. by left.
Qed.

Lemma join_length win l r :
  (length (join win l r) <= length l + length r + 1)%nat.
Proof.
  unfold join. repeat case_match; rewrite ?length_app; cbn [length]; lia.
Qed.

Lemma terminate w buf :
  (w ++ [NUL]) ++ drop (length (w ++ [NUL])) buf = w ++ NUL :: drop (length w + 1) buf.
Proof. by rewrite length_app, <- (assoc_L (++)). Qed.

(** The three copies of the general case write [l], the separator and [r]. *)
Lemma join_copies buf l sep r :
  (length l + length sep + length r + 1 <= length buf)%nat ->
  (b1 ← memcpy buf 0 l;
   b2 ← memcpy b1 (length l) sep;
   memcpy b2 (length (l ++ sep)) (r ++ [NUL])) =
  Some ((l ++ sep ++ r) ++ NUL :: drop (length (l ++ sep ++ r) + 1) buf).
Proof.
  intros Hlen. rewrite memcpy_0 by lia. cbn.
  rewrite memcpy_adjacent by lia. cbn.
  rewrite memcpy_adjacent by (rewrite !length_app; cbn; lia).
  rewrite <- terminate. by rewrite !(assoc_L (++)).
Qed.

(** Joining, for use by the callers. *)
Lemma path_join_eq win buf size l r :
  nul_free l -> nul_free r -> 0 < size <= Z.of_nat (length buf) ->
  strlen l + strlen r + 2 < 2 ^ 64 ->
  x_path_join win (Some buf) size (Some l) (Some r) =
    Some (if decide (strlen (join win l r) + 1 <= size)
          then (0, Some (join win l r ++ NUL :: drop (length (join win l r) + 1) buf))
          else (ENAMETOOLONG, None)).
Proof.
  intros Hl Hr [Hs1 Hs2] Hlen. unfold x_path_join, join, strlen in *.
  destruct (Z.eqb_spec size 0) as [?|_]; [lia|].
  rewrite !char_at_0_nul by done.
  destruct (x_path_is_absolute win (Some r) || bool_decide (l = [])) eqn:E1.
  - rewrite u64_small by (unfold is_u64; lia).
    destruct (Z.ltb_spec size (Z.of_nat (length r) + 1)).
    { by rewrite decide_False by lia. }
    rewrite decide_True by lia. rewrite memcpy_0 by (rewrite length_app; cbn; lia).
    cbn. by rewrite terminate.
  - destruct (x_filesystem_has_separator win (Some l) || bool_decide (r = [])) eqn:E2.
    + rewrite (u64_small (Z.of_nat (length l) + 0)), (u64_small (_ + Z.of_nat (length r))),
        u64_small by (unfold is_u64; lia).
      rewrite length_app.
      destruct (Z.ltb_spec size (Z.of_nat (length l) + 0 + Z.of_nat (length r) + 1)).
      { by rewrite decide_False by lia. }
      rewrite decide_True by lia. rewrite memcpy_0 by lia. cbn.
      rewrite Nat.add_0_r, memcpy_adjacent by (rewrite length_app; cbn; lia). cbn.
      by rewrite (assoc_L (++)), terminate, length_app.
    + rewrite (u64_small (Z.of_nat (length l) + 1)), (u64_small (_ + Z.of_nat (length r))),
        u64_small by (unfold is_u64; lia).
      rewrite length_app. cbn [length].
      destruct (Z.ltb_spec size (Z.of_nat (length l) + 1 + Z.of_nat (length r) + 1)).
      { by rewrite decide_False by lia. }
      rewrite decide_True by lia.
      pose proof (join_copies buf l [path_separator win] r ltac:(cbn; lia)) as Hc.
      change (1 =? 0) with false. change (Z.to_nat 1) with (length [path_separator win]).
      rewrite <- length_app.
      destruct (memcpy buf 0 l) as [b1|]; [|done]. cbn in *.
      destruct (memcpy b1 (length l) [path_separator win]) as [b2|]; [|done]. cbn in *.
      rewrite Hc. cbn. by rewrite length_app.
Qed.

(** C39. [x_path_join] implements [join] within the buffer: when the result and
    its NUL fit the claimed size the buffer starts with them and keeps its other
    bytes, otherwise ENAMETOOLONG is returned and the buffer is untouched; it
    never writes outside a buffer of at least the claimed size. *)
Theorem x_path_join_refines win buf size l r :
  nul_free l -> nul_free r -> 0 < size <= Z.of_nat (length buf) ->
  strlen l + strlen r + 2 < 2 ^ 64 ->
  x_path_join win (Some buf) size (Some l) (Some r) =
    Some (if decide (strlen (join win l r) + 1 <= size)
          then (0, Some (join win l r ++ NUL :: drop (length (join win l r) + 1) buf))
          else (ENAMETOOLONG, None)).
Proof. apply path_join_eq. Qed.

(** ** The last component *)

Definition sep_free (win : bool) (s : text) : Prop :=
  Forall (fun c => is_separator win c = false) s.
(** [a] is a directory prefix: empty, or ending in a separator. *)
Definition dir_prefix (win : bool) (a : text) : Prop :=
  a = [] \/ exists a' c, a = a' ++ [c] /\ is_separator win c = true.

Lemma basename_loop_sep_free win s cur lst :
  sep_free win s -> x_path_basename_loop win s cur lst = lst.
Proof.
  intros H. revert cur. induction H as [|c s Hc _ IH]; intros cur; [done|].
  cbn. by rewrite Hc.
Qed.

Lemma basename_loop_app win a b cur lst :
  x_path_basename_loop win (a ++ b) cur lst =
  x_path_basename_loop win b (cur + length a) (x_path_basename_loop win a cur lst).
Proof.
  revert cur lst. induction a as [|c a IH]; intros cur lst; cbn.
  - by rewrite Nat.add_0_r.
  - rewrite IH. f_equal. lia.
Qed.

Lemma basename_unique win a b :
  dir_prefix win a -> sep_free win b ->
  x_path_basename_loop win (a ++ b) 0 0 = length a.
Proof.
  intros Ha Hb. rewrite basename_loop_app, basename_loop_sep_free by done.
  destruct Ha as [->|(a' & c & -> & Hc)]; [done|].
  rewrite basename_loop_app. cbn. rewrite Hc, length_app. cbn. lia.
Qed.

Lemma split_last_sep win p :
  exists a b, p = a ++ b /\ dir_prefix win a /\ sep_free win b.
Proof.
  induction p as [|c p (a & b & -> & Ha & Hb)] using rev_ind.
  - exists [], []. split_and!; [done|by left|constructor].
  - destruct (is_separator win c) eqn:E.
    + exists ((a ++ b) ++ [c]), []. split_and!; [by rewrite app_nil_r| |constructor].
      right. eauto.
    + exists a, (b ++ [c]). split_and!; [by rewrite (assoc_L (++))|done|].
      apply Forall_app. split; [done|by repeat constructor].
Qed.

(** [x_path_basename] returns the last component: the path is the returned
    prefix and the component, the component has no separator, and the prefix is
    empty or ends in one; no other split has these two properties. *)
Theorem x_path_basename_spec win p :
  exists a b, p = a ++ b /\ dir_prefix win a /\ sep_free win b /\
    x_path_basename win (Some p) true = (0, Some (length a)) /\
    (forall a' b', p = a' ++ b' -> dir_prefix win a' -> sep_free win b' -> a' = a).
Proof.
  destruct (split_last_sep win p) as (a & b & -> & Ha & Hb).
  exists a, b. split_and!; [done..| |].
  - unfold x_path_basename. cbn. by rewrite basename_unique.
  - intros a' b' E Ha' Hb'.
    pose proof (basename_unique win a b Ha Hb) as H1.
    rewrite E, basename_unique in H1 by done.
    by apply app_inj_1 in E as [-> _].
Qed.

Lemma has_separator_last win l :
  x_filesystem_has_separator win (Some l) = true ->
  exists l' c, l = l' ++ [c] /\ is_separator win c = true.
Proof.
  destruct l as [|c l _] using rev_ind; [done|].
  cbn. rewrite length_app. cbn.
  replace (length l + 1 - 1)%nat with (length l) by lia.
  intros [_ H]%andb_true_iff. exists l, c. split; [done|].
  unfold char_at in H. by rewrite lookup_app_r, Nat.sub_diag in H by lia.
Qed.

Lemma is_separator_path win : is_separator win (path_separator win) = true.
Proof. by destruct win. Qed.

Lemma join_dir_prefix win l r :
  x_path_is_absolute win (Some r) = false -> r <> [] ->
  exists d, dir_prefix win d /\ join win l r = d ++ r.
Proof.
  intros Ha Hr. unfold join. rewrite Ha, (bool_decide_eq_false_2 (r = [])) by done. cbn [orb].
  case_bool_decide; [exists []; split; [by left|done]|]. rewrite orb_false_r.
  destruct (x_filesystem_has_separator win (Some l)) eqn:E.
  - exists l. split; [|done]. right. by apply has_separator_last.
  - exists (l ++ [path_separator win]). split.
    + right. exists l, (path_separator win). split; [done|]. apply is_separator_path.
    + by rewrite <- (assoc_L (++)).
Qed.

(** Joining keeps the last component: for a relative, non-empty right part
    the base name of the joined path is the base name of that part. *)
Theorem basename_join win l r d b :
  x_path_is_absolute win (Some r) = false -> r <> [] ->
  r = d ++ b -> dir_prefix win d -> sep_free win b ->
  exists d', join win l r = d' ++ b /\
    x_path_basename win (Some (join win l r)) true = (0, Some (length d')).
Proof.
  intros Ha Hr E Hd Hb. destruct (join_dir_prefix win l r Ha Hr) as (d0 & Hd0 & ->).
  exists (d0 ++ d). rewrite E, (assoc_L (++)). split; [done|].
  unfold x_path_basename. cbn. rewrite basename_unique; [done| |done].
  destruct Hd as [->|(d' & c & -> & Hc)]; [by rewrite app_nil_r|].
  right. exists (d0 ++ d'), c. by rewrite (assoc_L (++)).
Qed.

(** ** POSIX joins associate *)

Lemma posix_absolute p :
  x_path_is_absolute false (Some p) = bool_decide (head p = Some SLASH).
Proof.
  destruct p as [|c p]; [done|]. cbn. unfold char_at; cbn.
  destruct (Ascii.eqb_spec c NUL) as [->|_]; [done|].
  destruct (Ascii.eqb_spec c SLASH) as [->|?]; [done|].
  rewrite bool_decide_eq_false_2; [done|]. congruence.
Qed.

Lemma posix_has_separator p :
  x_filesystem_has_separator false (Some p) = bool_decide (last p = Some SLASH).
Proof.
  destruct p as [|c p _] using rev_ind; [done|].
  unfold x_filesystem_has_separator, char_at, is_separator.
  rewrite length_app, last_snoc. cbn [length].
  replace (length p + 1 - 1)%nat with (length p) by lia.
  rewrite lookup_app_r, Nat.sub_diag by lia. cbn [lookup list_lookup default].
  replace (0 <? length p + 1)%nat with true by (symmetry; apply Nat.ltb_lt; lia).
  cbn. rewrite orb_false_r. destruct (Ascii.eqb_spec c SLASH) as [->|?]; [done|].
  rewrite bool_decide_eq_false_2; [done|]. congruence.
Qed.

Definition sep_after (l : text) : text :=
  if bool_decide (last l = Some SLASH) then [] else [SLASH].

Lemma posix_join_abs l r : head r = Some SLASH -> join false l r = r.
Proof. intros H. unfold join. by rewrite posix_absolute, bool_decide_eq_true_2. Qed.

Lemma posix_join_nil_l r : join false [] r = r.
Proof. unfold join. by rewrite (bool_decide_eq_true_2 ([] = [])), orb_true_r. Qed.

Lemma posix_join_nil_r l : join false l [] = l.
Proof.
  unfold join. rewrite posix_absolute. cbn [head orb].
  rewrite (bool_decide_eq_false_2 (None = _)), (bool_decide_eq_true_2 ([] = [])) by done.
  cbn. case_bool_decide; [done|]. by rewrite orb_true_r, app_nil_r.
Qed.

Lemma posix_join_rel l r :
  l <> [] -> r <> [] -> head r <> Some SLASH -> join false l r = l ++ sep_after l ++ r.
Proof.
  intros Hl Hr Hh. unfold join, sep_after. rewrite posix_absolute, posix_has_separator.
  rewrite (bool_decide_eq_false_2 (head r = _)), (bool_decide_eq_false_2 (l = [])),
    (bool_decide_eq_false_2 (r = [])), orb_false_r by done. cbn.
  by case_bool_decide.
Qed.

Lemma sep_after_app l r : r <> [] -> sep_after (l ++ r) = sep_after r.
Proof.
  intros Hr. unfold sep_after. rewrite last_app.
  destruct (last r) eqn:E; [done|]. by apply last_None in E.
Qed.

(** On POSIX, joining is associative: a path may be assembled from its parts
    in any order. *)
Theorem posix_join_assoc a b c :
  join false (join false a b) c = join false a (join false b c).
Proof.
  destruct (decide (head c = Some SLASH)) as [Hc|Hc]; [by rewrite !(posix_join_abs _ c)|].
  destruct (decide (c = [])) as [->|Hc0]; [by rewrite !posix_join_nil_r|].
  destruct (decide (b = [])) as [->|Hb0]; [by rewrite posix_join_nil_l, posix_join_nil_r|].
  destruct (decide (a = [])) as [->|Ha0]; [by rewrite !posix_join_nil_l|].
  assert (head (join false b c) = head b) as Hh.
  { rewrite posix_join_rel by done. by destruct b. }
  destruct (decide (head b = Some SLASH)) as [Hb|Hb].
  { rewrite (posix_join_abs a b), (posix_join_abs a (join _ _ _)) by congruence. done. }
  rewrite (posix_join_rel a (join _ _ _)), (posix_join_rel a b), !posix_join_rel;
    try done; try congruence.
  - rewrite (assoc_L (++) a), sep_after_app by done. by rewrite <- !(assoc_L (++)).
  - by destruct a.
  - rewrite posix_join_rel by done. by destruct b.
Qed.

(** ** Examples *)

Example join_example :
  x_path_join false (Some (replicate 12 "x"%char)) 12 (Some (str "/tmp")) (Some (str "a.txt")) =
    Some (0, Some (str "/tmp/a.txt" ++ [NUL; "x"%char])).
Proof. reflexivity. Qed.

(** On Windows a drive-relative part keeps the join from being associative. *)
Example windows_join_not_associative :
  join true (join true (str "d") (str "C:")) (str "x") <>
  join true (str "d") (join true (str "C:") (str "x")).
Proof. vm_compute. done. Qed.

Lemma x_path_join_refines_witness :
  x_path_join false (Some (replicate 8 "x"%char)) 8 (Some (str "/usr")) (Some (str "lib")) =
    Some (ENAMETOOLONG, None) /\
  x_path_join true (Some (replicate 9 "x"%char)) 9 (Some (str "C:\usr")) (Some (str "a")) =
    Some (0, Some (str "C:\usr\a" ++ [NUL])).
Proof.
  split.
  - rewrite (x_path_join_refines false _ 8 (str "/usr") (str "lib")); [by vm_compute| | |done..];
      by apply (bool_decide_unpack _); vm_compute.
  - rewrite (x_path_join_refines true _ 9 (str "C:\usr") (str "a")); [by vm_compute| | |done..];
      by apply (bool_decide_unpack _); vm_compute.
Defined.

Lemma basename_join_witness :
  exists d', join false (str "/usr/") (str "lib/x.so") = d' ++ str "x.so" /\
    x_path_basename false (Some (join false (str "/usr/") (str "lib/x.so"))) true =
      (0, Some (length d')).
Proof.
  apply (basename_join false (str "/usr/") (str "lib/x.so") (str "lib/") (str "x.so")).
  - reflexivity.
  - discriminate.
  - reflexivity.
  - right. by exists (str "lib"), SLASH.
  - repeat constructor.
Defined.
