(* ===== verification/XNetwork.v ===== *)
(** * src/x_network.c: sockets and socket addresses (POSIX build)

    A socket address is the byte string the kernel sees; [x_socket_address] is
    the 128-byte storage with its length. *)
From S2P Require Import Prelude Syscalls Structs Machine Contract DemoOS.

(** ** Constants of the headers *)

Definition X_SOCKET_TCP : Z := 1.
Definition X_SOCKET_UDP : Z := 2.
Definition X_ADDRESS_FAMILY_IPV4 : Z := 4.
Definition X_ADDRESS_FAMILY_IPV6 : Z := 6.

Definition AF_UNSPEC : Z := 0.
Definition AF_INET : Z := 2.
Definition AF_INET6 : Z := 10.
Definition SOCK_STREAM : Z := 1.
Definition SOCK_DGRAM : Z := 2.
Definition SOCK_CLOEXEC : Z := 524288.
Definition IPPROTO_IP : Z := 0.
Definition IPPROTO_TCP : Z := 6.
Definition IPPROTO_UDP : Z := 17.
Definition AI_PASSIVE : Z := 1.
Definition EAI_NONAME : Z := -2.
Definition EAI_AGAIN : Z := -3.
Definition EAI_SERVICE : Z := -8.
Definition EAI_SYSTEM : Z := -11.
Definition F_SETFD : Z := 2.
Definition F_GETFL : Z := 3.
Definition F_SETFL : Z := 4.
Definition FD_CLOEXEC : Z := 1.
Definition O_NONBLOCK : Z := 2048.
Definition SOL_SOCKET : Z := 1.
Definition SO_REUSEADDR : Z := 2.
Definition SO_RCVTIMEO : Z := 20.
Definition SO_SNDTIMEO : Z := 21.
Definition TCP_NODELAY : Z := 1.
Definition IP_ADD_MEMBERSHIP : Z := 35.
Definition IP_DROP_MEMBERSHIP : Z := 36.

(** ** Layout of the kernel's address structures *)

(** An array member of [n] bytes holding [l]. *)
Definition field (n : nat) (l : list Z) : list Z := take n (l ++ replicate n 0).
Definition byte_at (l : list Z) (i : nat) : Z := default 0 (l !! i).

(** [sa_family] is a little-endian 16-bit member; a port is in network order. *)
Definition family_bytes (af : Z) : list Z := [af mod 256; af / 256].
Definition port_bytes (port : Z) : list Z := [port / 256; port mod 256].
Definition sa_family (storage : list Z) : Z := byte_at storage 0 + 256 * byte_at storage 1.
Definition sin_port (storage : list Z) : Z := 256 * byte_at storage 2 + byte_at storage 3.

Definition sizeof_sockaddr_in : Z := 16.
Definition sizeof_sockaddr_in6 : Z := 28.

Definition sockaddr_in (port : Z) (addr : list Z) : list Z :=
  family_bytes AF_INET ++ port_bytes port ++ field 4 addr ++ replicate 8 0.
Definition sockaddr_in6 (port : Z) (addr : list Z) : list Z :=
  family_bytes AF_INET6 ++ port_bytes port ++ replicate 4 0 ++ field 16 addr ++ replicate 4 0.

(** The bytes passed to the kernel with an address. *)
Definition sockaddr_of (a : x_socket_address) : list Z :=
  take (Z.to_nat (u32 (sa_length a))) (sa_storage a).

Definition out {A} (present : bool) (v : A) : option A := if present then Some v else None.

(** ** Addresses *)

Definition x_socket_copy_address (address : bool) (source : option (list Z)) (length : Z)
    : Z * option x_socket_address :=
  match source with
  | Some src =>
      if negb address || (length =? 0) then (EINVAL, None)
      else if XLIB_SOCKET_ADDRESS_SIZE <? length then (EOVERFLOW, None)
      else
        let n := Z.to_nat length in
        (0, Some (XSocketAddress (field n src ++ replicate (128 - n) 0) length))
  | None => (EINVAL, None)
  end.

Definition x_address_port (address : option x_socket_address) (port : bool) : Z * option Z :=
  match address with
  | Some a =>
      if negb port || (sa_length a =? 0) then (EINVAL, None)
      else if sa_family (sa_storage a) =? AF_INET then
        if sa_length a <? sizeof_sockaddr_in then (EINVAL, None)
        else (0, Some (sin_port (sa_storage a)))
      else if sa_family (sa_storage a) =? AF_INET6 then
        if sa_length a <? sizeof_sockaddr_in6 then (EINVAL, None)
        else (0, Some (sin_port (sa_storage a)))
      else (EAFNOSUPPORT, None)
  | None => (EINVAL, None)
  end.

Definition x_address_family (address : option x_socket_address) : Z :=
  match address with
  | Some a =>
      if sa_length a =? 0 then EINVAL
      else if sa_family (sa_storage a) =? AF_INET then X_ADDRESS_FAMILY_IPV4
      else if sa_family (sa_storage a) =? AF_INET6 then X_ADDRESS_FAMILY_IPV6
      else EAFNOSUPPORT
  | None => EINVAL
  end.

Section Network.
Context {os : OS}.

Definition x_network_startup : M Z := mret 0.

Definition x_socket_error : M Z := get_errno.

(** The loop over [getaddrinfo]'s results. *)
Fixpoint x_address_resolve_loop (cursor results : list (list Z)) : M (Z * option x_socket_address) :=
  match cursor with
  | [] => sys (Sfreeaddrinfo results);; mret (ENOENT, None)
  | ai_addr :: ai_next =>
      let r := x_socket_copy_address true (Some ai_addr) (Z.of_nat (length ai_addr)) in
      if r.1 =? 0 then sys (Sfreeaddrinfo results);; mret (0, r.2)
      else x_address_resolve_loop ai_next results
  end.

Definition x_address_resolve (address : bool) (host service : cstr) (type passive : Z)
    : M (Z * option x_socket_address) :=
  if negb address || is_null service
     || (negb (type =? X_SOCKET_TCP) && negb (type =? X_SOCKET_UDP))
  then mret (EINVAL, None)
  else
    error ← x_network_startup;
    if negb (error =? 0) then mret (error, None)
    else
      let native_type := if type =? X_SOCKET_TCP then SOCK_STREAM else SOCK_DGRAM in
      let hints := Hints AF_UNSPEC native_type
        (if type =? X_SOCKET_TCP then IPPROTO_TCP else IPPROTO_UDP)
        (if negb (passive =? 0) then AI_PASSIVE else 0) in
      r ← sys (Sgetaddrinfo host (txt service) hints);
      if negb (r.1 =? 0) then
        if r.1 =? EAI_AGAIN then mret (EAGAIN, None)
        else if (r.1 =? EAI_NONAME) || (r.1 =? EAI_SERVICE) then mret (ENOENT, None)
        else if r.1 =? EAI_SYSTEM then e ← get_errno; mret (e, None)
        else mret (EINVAL, None)
      else x_address_resolve_loop r.2 r.2.

Definition x_address_to_string (address : option x_socket_address) (buffer : bool)
    (buffer_size : Z) : M (Z * cstr) :=
  match address with
  | Some a =>
      if negb buffer || (buffer_size =? 0) then mret (EINVAL, None)
      else
        let af := sa_family (sa_storage a) in
        let convert src :=
          r ← sys (Sinet_ntop af src (u32 buffer_size));
          match r with
          | None => e ← get_errno; mret (e, None)
          | Some s => mret (0, Some s)
          end in
        if af =? AF_INET then convert (take 4 (drop 4 (sa_storage a)))
        else if af =? AF_INET6 then convert (take 16 (drop 8 (sa_storage a)))
        else mret (EAFNOSUPPORT, None)
  | None => mret (EINVAL, None)
  end.

Definition x_address_from_string (address : bool) (host : cstr) (port family : Z)
    : M (Z * option x_socket_address) :=
  if negb address || is_null host then mret (EINVAL, None)
  else if family =? X_ADDRESS_FAMILY_IPV4 then
    r ← sys (Sinet_pton AF_INET (txt host));
    if negb (r.1 =? 1) then mret (EINVAL, None)
    else mret (x_socket_copy_address true (Some (sockaddr_in port r.2)) sizeof_sockaddr_in)
  else if family =? X_ADDRESS_FAMILY_IPV6 then
    r ← sys (Sinet_pton AF_INET6 (txt host));
    if negb (r.1 =? 1) then mret (EINVAL, None)
    else mret (x_socket_copy_address true (Some (sockaddr_in6 port r.2)) sizeof_sockaddr_in6)
  else mret (EINVAL, None).

(** ** Sockets *)

Definition x_socket_create (out_socket : bool) (type family : Z) : M (Z * option ptr) :=
  if negb out_socket || (negb (type =? X_SOCKET_TCP) && negb (type =? X_SOCKET_UDP))
  then mret (EINVAL, None)
  else if negb (family =? AF_INET) && negb (family =? AF_INET6) then mret (EINVAL, None)
  else
    error ← x_network_startup;
    if negb (error =? 0) then mret (error, Some NULL)
    else
      created ← calloc 12 (XSocket 0 0 0);
      if created =? NULL then mret (ENOMEM, Some NULL)
      else
        let native_type := if type =? X_SOCKET_TCP then SOCK_STREAM else SOCK_DGRAM in
        let protocol := if type =? X_SOCKET_TCP then IPPROTO_TCP else IPPROTO_UDP in
        handle ← sys (Ssocket family (Z.lor native_type SOCK_CLOEXEC) protocol);
        if handle <? 0 then
          error ← get_errno;
          free created;; mret (error, Some NULL)
        else
          store created (XSocket handle type family);;
          mret (0, Some created).

Definition x_socket_tcp (socket : bool) := x_socket_create socket X_SOCKET_TCP AF_INET.
Definition x_socket_udp (socket : bool) := x_socket_create socket X_SOCKET_UDP AF_INET.
Definition x_socket_tcp6 (socket : bool) := x_socket_create socket X_SOCKET_TCP AF_INET6.
Definition x_socket_udp6 (socket : bool) := x_socket_create socket X_SOCKET_UDP AF_INET6.

(** [address == NULL || address->length == 0]. *)
Definition no_address (address : option x_socket_address) : bool :=
  match address with None => true | Some a => sa_length a =? 0 end.
Definition addr_bytes (address : option x_socket_address) : list Z :=
  match address with None => [] | Some a => sockaddr_of a end.

(** [return call != 0 ? x_socket_error () : 0]. *)
Definition check_zero (call : syscall Z) : M Z :=
  r ← sys call;
  if negb (r =? 0) then x_socket_error else mret 0.

Definition x_socket_bind (socket : ptr) (address : option x_socket_address) : M Z :=
  if (socket =? NULL) || no_address address then mret EINVAL
  else s ← load x_socket socket; check_zero (Sbind (so_handle s) (addr_bytes address)).

Definition x_socket_listen (socket : ptr) (backlog : Z) : M Z :=
  if socket =? NULL then mret EINVAL
  else s ← load x_socket socket; check_zero (Slisten (so_handle s) backlog).

Definition x_socket_accept (socket : ptr) (client : bool) : M (Z * option ptr) :=
  if (socket =? NULL) || negb client then mret (EINVAL, None)
  else
    accepted ← calloc 12 (XSocket 0 0 0);
    if accepted =? NULL then mret (ENOMEM, Some NULL)
    else
      s ← load x_socket socket;
      handle ← sys (Saccept (so_handle s));
      if handle <? 0 then
        error ← get_errno;
        free accepted;; mret (error, Some NULL)
      else
        sys (Sfcntl handle F_SETFD FD_CLOEXEC);;
        store accepted (XSocket handle X_SOCKET_TCP 0);;
        mret (0, Some accepted).

Definition x_socket_connect (socket : ptr) (address : option x_socket_address) : M Z :=
  if (socket =? NULL) || no_address address then mret EINVAL
  else s ← load x_socket socket; check_zero (Sconnect (so_handle s) (addr_bytes address)).

Definition int_chunk (size : Z) : Z := if INT_MAX <? size then INT_MAX else size.

Definition x_socket_send (socket : ptr) (buffer : cstr) (size : Z) (bytes_sent : bool)
    : M (Z * option Z) :=
  if (socket =? NULL) || is_null buffer then mret (EINVAL, None)
  else
    s ← load x_socket socket;
    result ← sys (Ssend (so_handle s) (txt buffer) (int_chunk size));
    if result <? 0 then e ← x_socket_error; mret (e, out bytes_sent 0)
    else mret (0, out bytes_sent result).

(** The last component is what was stored in the buffer. *)
Definition x_socket_receive (socket : ptr) (buffer : bool) (size : Z) (bytes_received : bool)
    : M (Z * option Z * text) :=
  if (socket =? NULL) || negb buffer then mret (EINVAL, None, [])
  else
    s ← load x_socket socket;
    result ← sys (Srecv (so_handle s) (int_chunk size));
    if result.1 <? 0 then e ← x_socket_error; mret (e, out bytes_received 0, [])
    else mret (0, out bytes_received result.1, result.2).

Definition x_socket_send_to (socket : ptr) (address : option x_socket_address)
    (buffer : cstr) (size : Z) (bytes_sent : bool) : M (Z * option Z) :=
  if (socket =? NULL) || is_null buffer || no_address address then mret (EINVAL, None)
  else
    s ← load x_socket socket;
    result ← sys (Ssendto (so_handle s) (txt buffer) (int_chunk size) (addr_bytes address));
    if result <? 0 then e ← x_socket_error; mret (e, out bytes_sent 0)
    else mret (0, out bytes_sent result).

Definition x_socket_receive_from (socket : ptr) (address buffer : bool) (size : Z)
    (bytes_received : bool) : M (Z * option x_socket_address * option Z * text) :=
  if (socket =? NULL) || negb buffer then mret (EINVAL, None, None, [])
  else
    s ← load x_socket socket;
    result ← sys (Srecvfrom (so_handle s) (int_chunk size));
    if result.1.1 <? 0 then e ← x_socket_error; mret (e, None, out bytes_received 0, [])
    else
      let source := result.2 in
      let c := if address
               then x_socket_copy_address true (Some source) (Z.of_nat (length source))
               else (0, None) in
      if negb (c.1 =? 0) then mret (c.1, None, out bytes_received 0, result.1.2)
      else mret (0, c.2, out bytes_received result.1.1, result.1.2).

Definition x_socket_local_address (socket : ptr) (address : bool) : M (Z * option x_socket_address) :=
  if (socket =? NULL) || negb address then mret (EINVAL, None)
  else
    s ← load x_socket socket;
    r ← sys (Sgetsockname (so_handle s));
    if negb (r.1 =? 0) then e ← x_socket_error; mret (e, None)
    else mret (x_socket_copy_address true (Some r.2) (Z.of_nat (length r.2))).

Definition x_socket_set_nonblocking (socket : ptr) (enabled : bool) : M Z :=
  if socket =? NULL then mret EINVAL
  else
    s ← load x_socket socket;
    flags ← sys (Sfcntl (so_handle s) F_GETFL 0);
    if flags <? 0 then get_errno
    else
      let flags := if enabled then Z.lor flags O_NONBLOCK else Z.land flags (Z.lnot O_NONBLOCK) in
      r ← sys (Sfcntl (so_handle s) F_SETFL flags);
      if negb (r =? 0) then get_errno else mret 0.

Definition x_socket_set_reuse_address (socket : ptr) (enabled : bool) : M Z :=
  if socket =? NULL then mret EINVAL
  else
    s ← load x_socket socket;
    check_zero (Ssetsockopt (so_handle s) SOL_SOCKET SO_REUSEADDR [if enabled then 1 else 0]).

Definition x_socket_set_tcp_no_delay (socket : ptr) (enabled : bool) : M Z :=
  if socket =? NULL then mret EINVAL
  else
    s ← load x_socket socket;
    if negb (so_type s =? X_SOCKET_TCP) then mret EINVAL
    else check_zero (Ssetsockopt (so_handle s) IPPROTO_TCP TCP_NODELAY [if enabled then 1 else 0]).

Definition x_socket_native_handle (socket : ptr) : M Z :=
  if socket =? NULL then mret 0
  else s ← load x_socket socket; mret (u64 (so_handle s)).

Definition x_socket_close (socket : ptr) : M unit :=
  if socket =? NULL then mret tt
  else
    s ← load x_socket socket;
    sys (Sclose (so_handle s));;
    free socket.

(** [struct timeval] as passed to [setsockopt]: seconds and microseconds. *)
Definition timeval_of_ms (milliseconds : Z) : list Z :=
  [milliseconds / 1000; u32 ((milliseconds mod 1000) * 1000)].

Definition x_socket_set_timeout (socket : ptr) (optname milliseconds : Z) : M Z :=
  if socket =? NULL then mret EINVAL
  else
    s ← load x_socket socket;
    r ← sys (Ssetsockopt (so_handle s) SOL_SOCKET optname (timeval_of_ms milliseconds));
    if negb (r =? 0) then get_errno else mret 0.

Definition x_socket_set_send_timeout (socket : ptr) (milliseconds : Z) : M Z :=
  x_socket_set_timeout socket SO_SNDTIMEO milliseconds.
Definition x_socket_set_receive_timeout (socket : ptr) (milliseconds : Z) : M Z :=
  x_socket_set_timeout socket SO_RCVTIMEO milliseconds.

Definition x_socket_multicast_group (socket : ptr) (group_address interface_address : cstr)
    (join : bool) : M Z :=
  if (socket =? NULL) || is_null group_address then mret EINVAL
  else
    s ← load x_socket socket;
    if negb (so_type s =? X_SOCKET_UDP) then mret EINVAL
    else
      g ← sys (Sinet_pton AF_INET (txt group_address));
      if negb (g.1 =? 1) then mret EINVAL
      else
        let set interface :=
          check_zero (Ssetsockopt (so_handle s) IPPROTO_IP
            (if join then IP_ADD_MEMBERSHIP else IP_DROP_MEMBERSHIP)
            (field 4 g.2 ++ field 4 interface)) in
        match interface_address with
        | Some i =>
            r ← sys (Sinet_pton AF_INET i);
            if negb (r.1 =? 1) then mret EINVAL else set r.2
        | None => set [0; 0; 0; 0]
        end.

Definition x_socket_join_multicast_group (socket : ptr) (group interface : cstr) : M Z :=
  x_socket_multicast_group socket group interface true.
Definition x_socket_leave_multicast_group (socket : ptr) (group interface : cstr) : M Z :=
  x_socket_multicast_group socket group interface false.

Definition x_socket_udp_bound (socket : bool) (host service : cstr) : M (Z * option ptr) :=
  if negb socket || is_null service then mret (EINVAL, None)
  else
    a ← x_address_resolve true host service X_SOCKET_UDP 1;
    if negb (a.1 =? 0) then mret (a.1, Some NULL)
    else
      let family := x_address_family a.2 in
      c ← x_socket_create true X_SOCKET_UDP
            (if family =? X_ADDRESS_FAMILY_IPV6 then AF_INET6 else AF_INET);
      if negb (c.1 =? 0) then mret (c.1, Some NULL)
      else
        let created := default NULL c.2 in
        error ← x_socket_set_reuse_address created true;
        if negb (error =? 0) then x_socket_close created;; mret (error, Some NULL)
        else
          error ← x_socket_bind created a.2;
          if negb (error =? 0) then x_socket_close created;; mret (error, Some NULL)
          else mret (0, Some created).
End Network.

(** ** The socket as an owned object *)

Section SocketHandle.
Context {os : OS}.

Lemma wp_socket_close md p (x : x_socket) e h t Q :
  h !! p = Some (to_obj x) -> p <> NULL ->
  (forall e' t', held t' = held t ∖ {[ (KFd, so_handle x) ]} -> Q tt (St e' (delete p h) t')) ->
  wp md (x_socket_close p) Q (St e h t).
Proof.
  intros Hp Hn HQ. unfold x_socket_close. apply Z.eqb_neq in Hn as E.
  rewrite E. wp_run. apply HQ. by held_simpl.
Qed.

#[export] Program Instance socket_handle : Handle x_socket := {|
  h_res _ s := {[ (KFd, so_handle s) ]};
  h_close := x_socket_close |}.
Next Obligation. done. Qed.
Next Obligation. intros. by eapply wp_socket_close. Qed.
End SocketHandle.

Section Contracts.
Context {os : OS}.

(** A socket made by [x_socket_create]. *)
Definition made_socket (type family : Z) (s : x_socket) : Prop :=
  so_type s = type /\ so_family s = family /\ 0 <= so_handle s.

(** Creating a socket changes no epoll registration. *)
Lemma wp_socket_create_registered type family md e h t Q :
  (forall r s', constructor_post (made_socket type family) (St e h t) r s' ->
     (forall ep, registered (tr s') ep = registered t ep) -> Q r s') ->
  wp md (x_socket_create true type family) Q (St e h t).
Proof.
  intros HQ. unfold x_socket_create, x_network_startup. wp_run.
  all: apply HQ; [|done]; first [ctor_fail; fail|ctor_ok (XSocket r type family)].
  by split_and!.
Qed.

Lemma wp_socket_create type family md e h t Q :
  (forall r s', constructor_post (made_socket type family) (St e h t) r s' -> Q r s') ->
  wp md (x_socket_create true type family) Q (St e h t).
Proof. intros HQ. apply wp_socket_create_registered. auto. Qed.

Lemma wp_socket_accept socket (s : x_socket) md e h t Q :
  h !! socket = Some (to_obj s) -> socket <> NULL ->
  (forall r s', constructor_post (made_socket X_SOCKET_TCP 0) (St e h t) r s' -> Q r s') ->
  wp md (x_socket_accept socket true) Q (St e h t).
Proof.
  intros Hs Hn HQ. unfold x_socket_accept. wp_run; try done.
  all: apply HQ; first [ctor_fail; fail|ctor_ok (XSocket r X_SOCKET_TCP 0)].
  by split_and!.
Qed.

(** The option-setting and address calls only talk to the kernel. *)
Lemma wp_check_zero c md e h t Q :
  inert (Ev c 0) = true -> (forall r, inert (Ev c r) = inert (Ev c 0)) ->
  (forall r e', sys_post t c r e' -> ok_or_errno r e') ->
  (forall rc s', 0 <= rc -> keeps (St e h t) s' -> Q rc s') ->
  wp md (check_zero c) Q (St e h t).
Proof.
  intros Hi Hir Hp HQ. unfold check_zero, x_socket_error. wp_run.
  all: apply Hp in Hpost; apply HQ; [posts; lia|].
  all: split; [done|]; apply inert_ext_cons; [by rewrite Hir|apply inert_ext_refl].
Qed.

Lemma wp_socket_set_reuse_address socket (s : x_socket) b md e h t Q :
  h !! socket = Some (to_obj s) ->
  (forall rc s', 0 <= rc -> keeps (St e h t) s' -> Q rc s') ->
  wp md (x_socket_set_reuse_address socket b) Q (St e h t).
Proof.
  intros Hs HQ. unfold x_socket_set_reuse_address. wp_run.
  all: first [by apply wp_check_zero | apply HQ; [done|keeps_solve]].
Qed.

Lemma wp_socket_bind socket (s : x_socket) a md e h t Q :
  h !! socket = Some (to_obj s) ->
  (forall rc s', 0 <= rc -> keeps (St e h t) s' -> Q rc s') ->
  wp md (x_socket_bind socket a) Q (St e h t).
Proof.
  intros Hs HQ. unfold x_socket_bind. wp_run.
  all: first [by apply wp_check_zero | apply HQ; [done|keeps_solve]].
Qed.

(** A well-formed address: the storage is full size, the length is within it and
    the rest is zero. *)
Definition address_ok (a : x_socket_address) : Prop :=
  length (sa_storage a) = 128%nat /\ 0 < sa_length a <= XLIB_SOCKET_ADDRESS_SIZE /\
  drop (Z.to_nat (sa_length a)) (sa_storage a) = replicate (128 - Z.to_nat (sa_length a)) 0.

Lemma copied_address_ok src n :
  0 < n <= 128 ->
  address_ok (XSocketAddress (field (Z.to_nat n) src ++ replicate (128 - Z.to_nat n) 0) n).
Proof.
  intros Hn. unfold address_ok, field, XLIB_SOCKET_ADDRESS_SIZE; cbn [sa_storage sa_length].
  assert (length (take (Z.to_nat n) (src ++ replicate (Z.to_nat n) 0)) = Z.to_nat n) as Hl.
  { rewrite length_take, length_app, length_replicate. lia. }
  rewrite length_app, Hl, length_replicate. split_and!; [lia..|].
  by rewrite drop_app_length' by done.
Qed.

(** Such an address has one representation. *)
Lemma address_ok_canonical a b :
  address_ok a -> address_ok b -> sockaddr_of a = sockaddr_of b -> a = b.
Proof.
  unfold sockaddr_of, u32. intros (Ha & Hla & Hda) (Hb & Hlb & Hdb) H.
  unfold XLIB_SOCKET_ADDRESS_SIZE in *. rewrite !Z.mod_small in H by lia.
  assert (sa_length a = sa_length b) as Hlen.
  { apply (f_equal length) in H. rewrite !length_take in H. lia. }
  destruct a as [sa na], b as [sb nb]; cbn [sa_storage sa_length] in *. subst nb. f_equal.
  rewrite <- (take_drop (Z.to_nat na) sa), <- (take_drop (Z.to_nat na) sb). congruence.
Qed.

Lemma copy_address_result b src n :
  0 <= n ->
  let r := x_socket_copy_address b src n in
  (r.1 = 0 /\ exists a, r.2 = Some a /\ address_ok a /\ sa_length a = n) \/
  (0 < r.1 /\ r.2 = None).
Proof.
  intros Hn. unfold x_socket_copy_address, XLIB_SOCKET_ADDRESS_SIZE, EINVAL, EOVERFLOW.
  destruct src as [src|]; [|by right].
  repeat (case_match; zbool; try by right). left. split; [done|]. eexists. split; [done|].
  split; [apply copied_address_ok; lia|done].
Qed.

(** What an operation that hands out an address may answer. *)
Definition address_result (r : Z * option x_socket_address) : Prop :=
  (r.1 = 0 /\ exists a, r.2 = Some a /\ address_ok a) \/ (0 < r.1 /\ r.2 = None).

Lemma copied_address_result src n : 0 <= n -> address_result (x_socket_copy_address true src n).
Proof.
  intros Hn. destruct (copy_address_result true src n Hn) as [(H1 & a & H2 & Ha & _)|H]; [left; eauto|by right].
Qed.

Lemma wp_address_resolve_loop cursor results md e h t Q :
  (forall r s', 0 <= r.1 -> address_result r ->
     keeps (St e h t) s' -> Q r s') ->
  wp md (x_address_resolve_loop cursor results) Q (St e h t).
Proof.
  intros HQ. induction cursor as [|a next IH]; cbn [x_address_resolve_loop].
  - wp_run. apply HQ; [done|by right|keeps_solve].
  - wp_run; [|done].
    pose proof (copied_address_result (Some a) (Z.of_nat (length a)) ltac:(lia)) as [[_ H]|[? _]]; [|lia].
    apply HQ; [done|by left|keeps_solve].
Qed.

Lemma wp_address_resolve b host service type passive md e h t Q :
  (forall r s', 0 <= r.1 -> address_result r ->
     keeps (St e h t) s' -> Q r s') ->
  wp md (x_address_resolve b host service type passive) Q (St e h t).
Proof.
  intros HQ. unfold x_address_resolve, x_network_startup. wp_run.
  all: try (apply HQ; [done|by right|keeps_solve]; fail).
  - rewrite E2 in Hpost. specialize (Hpost eq_refl). apply HQ; cbn; [lia|right; split; [cbn; lia|done]|keeps_solve].
  - apply wp_address_resolve_loop. intros r' s' H1' H2' Hk.
    apply HQ; [done..|]. eapply keeps_after; [|exact Hk]; done.
Qed.

Lemma wp_socket_udp_bound host service md e h t Q :
  (forall r s', constructor_post (fun s => so_type s = X_SOCKET_UDP) (St e h t) r s' ->
     Q r s') ->
  wp md (x_socket_udp_bound true host service) Q (St e h t).
Proof.
  intros HQ. unfold x_socket_udp_bound. wp_run.
  { apply HQ. ctor_fail. }
  apply wp_address_resolve. intros [rc a] [e1 h1 t1] Hrc Ha [Hh Ht]. proj_simpl; subst h1.
  apply inert_ext_held in Ht.
  wp_run. { apply HQ, constructor_fail; [lia|by right|done|done]. }
  apply wp_socket_create. intros [rc2 c] [e2 h2 t2] Hc.
  destruct Hc as [(Hrc2 & p & s & Hp & Hpos & Hnew & Hh2 & Ht2 & Hd & Hty & _)|
                  (Hrc2 & Hc & Hh2 & Ht2)]; proj_simpl; subst.
  2: { wp_run. apply HQ, constructor_fail; [lia|by right|done|congruence]. }
  wp_run. cbn [default from_option id]. rewrite Ht in Ht2, Hd.
  assert (forall e' t' rc, held t' = held t2 -> rc <> 0 -> 0 <= rc ->
    wp md (x_socket_close p;; mret (rc, Some NULL)) Q (St e' (<[p:=OSocket s]> h) t')) as Hclose.
  { intros e' t' rc' Ht' Hne Hge. wp_run.
    eapply wp_socket_close; [by simplify_map_eq|unfold NULL; lia|].
    intros e'' t'' Ht''. wp_run. apply HQ, constructor_fail; [lia|by right|by heap_simpl|].
    rewrite Ht'', Ht', Ht2. apply set_eq. cbn in *. set_solver. }
  eapply wp_socket_set_reuse_address; [by simplify_map_eq|].
  intros rc3 [e3 h3 t3] Hrc3 [Hh3 Ht3]; proj_simpl; subst. apply inert_ext_held in Ht3.
  wp_step; [by apply Hclose|]. wp_step.
  eapply wp_socket_bind; [by simplify_map_eq|].
  intros rc4 [e4 h4 t4] Hrc4 [Hh4 Ht4]; proj_simpl; subst. apply inert_ext_held in Ht4.
  wp_step; [apply Hclose; congruence|]. wp_run.
  apply HQ. apply (constructor_ok _ _ _ _ _ s); [done|done|congruence|done|done].
Qed.
End Contracts.

(** ** Specifications used by the event loop *)

Section Specs.
Context {os : OS}.

Lemma wp_socket_receive_from socket (x : x_socket) address size md e h t Q :
  h !! socket = Some (to_obj x) -> socket <> NULL ->
  (forall rc a n data s', 0 <= rc -> keeps (St e h t) s' ->
     (rc = 0 -> strlen data = n /\ 0 <= n <= int_chunk size) ->
     Q (rc, a, Some n, data) s') ->
  wp md (x_socket_receive_from socket address true size true) Q (St e h t).
Proof.
  intros Hs Hn HQ. unfold x_socket_receive_from, x_socket_error.
  wp_run; try done; posts.
  - apply HQ; [lia|keeps_solve|]. intros ->. lia.
  - lia.
  - lia.
  - destruct address; [|done].
    destruct (copy_address_result true (Some r.2) (Z.of_nat (length r.2)))
      as [[? _]|[? _]]; [lia|done|].
    apply HQ; [lia|keeps_solve|]. intros ?. lia.
  - lia.
  - apply HQ; [done|keeps_solve|]. intros _. unfold strlen. split; [|lia]. auto.
Qed.

Lemma wp_socket_send_to socket (x : x_socket) address data size count md e h t Q :
  h !! socket = Some (to_obj x) ->
  (forall rc n s', 0 <= rc -> keeps (St e h t) s' -> Q (rc, n) s') ->
  wp md (x_socket_send_to socket address data size count) Q (St e h t).
Proof.
  intros Hs HQ. unfold x_socket_send_to, x_socket_error. wp_run; posts; try lia.
  all: apply HQ; [first [done|lia]|keeps_solve].
Qed.

Lemma wp_socket_local_address socket (x : x_socket) md e h t Q :
  h !! socket = Some (to_obj x) ->
  (forall rc a s', 0 <= rc -> keeps (St e h t) s' ->
     address_result (rc, a) -> Q (rc, a) s') ->
  wp md (x_socket_local_address socket true) Q (St e h t).
Proof.
  intros Hs HQ. unfold x_socket_local_address, x_socket_error. wp_run.
  - apply HQ; [done|keeps_solve|by right].
  - posts; [lia|]. apply HQ; [lia|keeps_solve|right; split; [cbn; lia|done]].
  - pose proof (copied_address_result (Some r.2) (Z.of_nat (length r.2)) ltac:(lia)) as Hr.
    destruct (x_socket_copy_address _ _ _) as [rc a].
    apply HQ; [destruct Hr as [[? _]|[? _]]; cbn [fst] in *; lia|keeps_solve|done].
Qed.

Lemma wp_socket_set_nonblocking socket (x : x_socket) b md e h t Q :
  h !! socket = Some (to_obj x) ->
  (forall rc s', 0 <= rc -> keeps (St e h t) s' -> Q rc s') ->
  wp md (x_socket_set_nonblocking socket b) Q (St e h t).
Proof.
  intros Hs HQ. unfold x_socket_set_nonblocking. wp_run; posts.
  all: apply HQ; [|keeps_solve]; first [done|lia|idtac].
  assert (r0 = 0) by auto. lia.
Qed.
End Specs.

(** ** Theorems *)

Section Theorems.
Context {os : OS}.

(** [x_socket_udp_bound] resolves, creates, configures and binds; whichever
    of its steps fails, it returns a positive error with [*socket] NULL or
    untouched, and neither memory nor a descriptor is left behind; on success
    the caller owns one fresh UDP socket and its descriptor. *)
Theorem x_socket_udp_bound_contract host service s :
  wp Total (x_socket_udp_bound true host service)
    (constructor_post (fun x => so_type x = X_SOCKET_UDP) s) s.
Proof. destruct s as [e h t]. by apply wp_socket_udp_bound. Qed.

(** [x_socket_accept] on a live socket: the accepted socket is fresh, of
    type TCP, or an error is returned and nothing is left behind. *)
Theorem x_socket_accept_contract socket (x : x_socket) s :
  hp s !! socket = Some (to_obj x) -> socket <> NULL ->
  wp Total (x_socket_accept socket true)
    (constructor_post (made_socket X_SOCKET_TCP 0) s) s.
Proof. destruct s as [e h t]. intros. by eapply wp_socket_accept. Qed.

(** Creating any of the four kinds of socket, or a bound UDP socket, and
    closing it when it was created gives back every byte and every descriptor,
    on the error paths too. *)
Theorem socket_lifecycle make s :
  make ∈ [x_socket_tcp true; x_socket_udp true; x_socket_tcp6 true; x_socket_udp6 true]
  \/ (exists host service, make = x_socket_udp_bound true host service) ->
  wp Total (bracket make) (fun _ s' => hp s' = hp s /\ held (tr s') = held (tr s)) s.
Proof.
  destruct s as [e h t]. intros [Hm|(host & service & ->)].
  - repeat (apply elem_of_cons in Hm as [->|Hm];
            [by eapply bracket_restores, wp_socket_create|]).
    by apply elem_of_nil in Hm.
  - by eapply bracket_restores, wp_socket_udp_bound.
Qed.

Lemma field_exact n l : length l = n -> field n l = l.
Proof. intros <-. unfold field. by rewrite take_app_length. Qed.

Lemma port_bytes_read port : 256 * (port / 256) + port mod 256 = port.
Proof. pose proof (Z_div_mod_eq_full port 256). lia. Qed.

(** C34. Round trip of a textual address: what [x_address_from_string] accepts
    is read back by [x_address_port] and [x_address_family] unchanged, and
    [x_address_to_string] hands the kernel exactly the bytes that were parsed. *)
Theorem x_address_from_string_roundtrip host port family s :
  0 <= port < 65536 ->
  wp Total (x_address_from_string true (Some host) port family)
    (fun r s' => r.1 = 0 -> exists a bytes af,
       r.2 = Some a /\ tr s' = Ev (Sinet_pton af host) (1, bytes) :: tr s /\
       x_address_port (Some a) true = (0, Some port) /\
       x_address_family (Some a) = family /\ address_ok a /\
       forall n s1, x_address_to_string (Some a) true n s1 =
         if n =? 0 then Done (EINVAL, None) s1
         else (r ← sys (Sinet_ntop af bytes (u32 n));
               match r with
               | None => e ← get_errno; mret (e, None)
               | Some x => mret (0, Some x)
               end) s1) s.
Proof.
  intros Hport. destruct s as [e h t]. unfold x_address_from_string. wp_run; try done.
  - intros _. destruct r as [rc bytes]. proj_simpl. subst.
    eexists _, bytes, AF_INET. split_and!; [reflexivity|done| | | |].
    + transitivity (0, Some (256 * (port / 256) + port mod 256)); [reflexivity|].
      by rewrite port_bytes_read.
    + done.
    + apply copied_address_ok; unfold sizeof_sockaddr_in, sizeof_sockaddr_in6; lia.
    + intros n s1. cbn. destruct (n =? 0) eqn:En; [done|].
      specialize (Hpost eq_refl). cbn in Hpost.
      do 4 (destruct bytes as [|? bytes]; [done|]). destruct bytes; done.
  - intros _. destruct r as [rc bytes]. proj_simpl. subst.
    eexists _, bytes, AF_INET6. split_and!; [reflexivity|done| | | |].
    + transitivity (0, Some (256 * (port / 256) + port mod 256)); [reflexivity|].
      by rewrite port_bytes_read.
    + done.
    + apply copied_address_ok; unfold sizeof_sockaddr_in, sizeof_sockaddr_in6; lia.
    + intros n s1. cbn. destruct (n =? 0) eqn:En; [done|].
      specialize (Hpost eq_refl). cbn in Hpost.
      do 16 (destruct bytes as [|? bytes]; [done|]). destruct bytes; done.
Qed.
Lemma copy_address_cases src :
  let r := x_socket_copy_address true (Some src) (Z.of_nat (length src)) in
  (exists a, r = (0, Some a) /\ address_ok a /\ sockaddr_of a = src) \/
  (src = [] /\ r = (EINVAL, None)) \/
  ((128 < length src)%nat /\ r = (EOVERFLOW, None)).
Proof.
  unfold x_socket_copy_address, XLIB_SOCKET_ADDRESS_SIZE. cbn [negb orb]. case_match; zbool.
  { right. left. split; [|done]. apply length_zero_iff_nil. lia. }
  case_match; zbool; [right; right; split; [lia|done]|]. left. eexists. split; [done|].
  split; [apply copied_address_ok; lia|]. unfold sockaddr_of; cbn [sa_length sa_storage].
  unfold u32. rewrite Z.mod_small by lia. rewrite Nat2Z.id, field_exact by done.
  by rewrite take_app_length.
Qed.

(** How a datagram of [res] bytes from [src] is reported to a caller that wants
    its source. *)
Definition reported (src : list Z) (res : Z) (data : text)
    (r : Z * option x_socket_address * option Z * text) : Prop :=
  (exists a, r = (0, Some a, Some res, data) /\ address_ok a /\ sockaddr_of a = src) \/
  (src = [] /\ r = (EINVAL, None, Some 0, data)) \/
  ((128 < length src)%nat /\ r = (EOVERFLOW, None, Some 0, data)).

(** C35. Every outcome of [x_socket_receive_from]: on success the count is the
    length of the data in the buffer and at most the size asked for, and a
    requested source address is usable and is the kernel's; a failed call
    reports errno and the count 0.  When the kernel delivered a datagram without
    a source address to a caller that asked for one, the call fails with EINVAL
    although the datagram has been consumed: its data is in the buffer and its
    length is lost. *)
Theorem x_socket_receive_from_spec socket (x : x_socket) address size s :
  hp s !! socket = Some (to_obj x) -> socket <> NULL -> 0 <= size ->
  wp Total (x_socket_receive_from socket address true size true)
    (fun r s' => hp s' = hp s /\ exists res data src,
       tr s' = Ev (Srecvfrom (so_handle x) (Z.min size INT_MAX)) (res, data, src) :: tr s /\
       ((res = -1 /\ 0 < errno s' /\ r = (errno s', None, Some 0, [])) \/
        (0 <= res <= size /\ strlen data = res /\
         if address then reported src res data r
         else r = (0, None, Some res, data)))) s.
Proof.
  destruct s as [e h t]. intros Hs Hn Hsz. unfold x_socket_receive_from, x_socket_error.
  assert (int_chunk size = Z.min size INT_MAX) as Hc.
  { unfold int_chunk. destruct (Z.ltb_spec INT_MAX size); lia. }
  rewrite Hc. wp_run; destruct r as [[res data] src]; proj_simpl;
    (split; [done|]); exists res, data, src; (split; [done|]).
  - left. posts; [done|lia].
  - right. destruct Hpost as [[?|Hr] Hd]; [lia|]. specialize (Hd E).
    destruct address; [|done]. split; [lia|]. split; [unfold strlen; lia|].
    destruct (copy_address_cases src) as [(a & Ha & _)|[[? Ha]|[? Ha]]]; rewrite Ha in *;
      [done| |]; unfold reported; auto.
  - right. destruct Hpost as [[?|Hr] Hd]; [lia|]. specialize (Hd E).
    split; [lia|]. split; [unfold strlen; lia|]. destruct address; [|done].
    destruct (copy_address_cases src) as [(a & Ha & ?)|[[? Ha]|[? Ha]]]; rewrite Ha in *;
      [|done..]. left. by exists a.
Qed.

(** The send and receive timeouts reach the kernel exactly: for every
    32-bit number of milliseconds the [struct timeval] is normalised and denotes
    that duration; a failing call reports the kernel's error. *)
Theorem x_socket_set_timeout_exact socket (x : x_socket) optname ms s :
  hp s !! socket = Some (to_obj x) -> socket <> NULL -> is_u32 ms ->
  wp Total (x_socket_set_timeout socket optname ms)
    (fun rc s' => exists sec usec r,
       tr s' = Ev (Ssetsockopt (so_handle x) SOL_SOCKET optname [sec; usec]) r :: tr s /\
       hp s' = hp s /\ 0 <= usec < 1000000 /\ 0 <= sec /\
       sec * 1000000 + usec = ms * 1000 /\ rc = (if r =? 0 then 0 else errno s')) s.
Proof.
  destruct s as [e h t]. unfold is_u32. intros Hs Hn Hms.
  pose proof (Z_div_mod_eq_full ms 1000). pose proof (Z.mod_pos_bound ms 1000).
  assert (0 <= ms / 1000) by (apply Z.div_pos; lia).
  unfold x_socket_set_timeout, timeval_of_ms.
  assert (u32 (ms mod 1000 * 1000) = ms mod 1000 * 1000) as ->.
  { unfold u32. apply Z.mod_small. lia. }
  wp_run; eexists _, _, r; split_and!; try done; try lia.
  all: destruct (Z.eqb_spec r 0); done || lia.
Qed.

(** The operations that hand out an address. *)
Inductive address_source :=
  | FromResolve (host service : cstr) (type passive : Z)
  | FromString (host : cstr) (port family : Z)
  | FromLocal (socket : ptr)
  | FromReceive (socket : ptr) (size : Z).

Definition produce (source : address_source) : M (Z * option x_socket_address) :=
  match source with
  | FromResolve host service type passive => x_address_resolve true host service type passive
  | FromString host port family => x_address_from_string true host port family
  | FromLocal socket => x_socket_local_address socket true
  | FromReceive socket size =>
      r ← x_socket_receive_from socket true true size true; mret (r.1.1.1, r.1.1.2)
  end.

(** The socket asked is open. *)
Definition source_ok (source : address_source) (s : st) : Prop :=
  match source with
  | FromLocal socket | FromReceive socket _ =>
      socket <> NULL /\ exists x : x_socket, hp s !! socket = Some (to_obj x)
  | _ => True
  end.

Lemma wp_produce source e h t Q :
  source_ok source (St e h t) ->
  (forall r s', keeps (St e h t) s' -> address_result r -> Q r s') ->
  wp Total (produce source) Q (St e h t).
Proof.
  intros Hok HQ. destruct source as [host service type passive|host port family|socket|socket size]; cbn [produce].
  - apply wp_address_resolve. auto.
  - unfold x_address_from_string. wp_run; apply HQ; try keeps_solve; try (by right).
    all: by apply copied_address_result.
  - destruct Hok as [Hn [x Hx]]. eapply wp_socket_local_address; [done|auto].
  - destruct Hok as [Hn [x Hx]]. unfold x_socket_receive_from, x_socket_error.
    pose proof (fun r : Z * text * list Z =>
      copied_address_result (Some r.2) (Z.of_nat (length r.2)) ltac:(lia)) as Hc.
    wp_run; try done; posts; try lia; (apply HQ; [keeps_solve|]); cbn [fst snd] in *.
    all: try (right; split; [cbn; lia|done]); specialize (Hc r); destruct Hc as [[? Hd]|[? Hd]].
    all: first [exfalso; congruence | left; split; [done|exact Hd] | right; by split | exfalso; lia].
Qed.

(** C26. Every address the library hands out is well formed, whichever operation
    it comes from: the operation succeeds and stores one whose length is within
    the full-size storage and whose rest is zero, or it fails and stores none.
    Such values have one representation: two that hand the kernel the same bytes
    are equal as structures.  The heap and the kernel's resources are untouched. *)
Theorem addresses_well_formed source s :
  source_ok source s ->
  wp Total (produce source)
    (fun r s' => keeps s s' /\ (r.1 = 0 <-> r.2 <> None) /\
       forall a, r.2 = Some a ->
         address_ok a /\ length (sockaddr_of a) = Z.to_nat (sa_length a) /\
         forall b, address_ok b -> sockaddr_of b = sockaddr_of a -> b = a) s.
Proof.
  destruct s as [e h t]. intros Hok. apply wp_produce; [done|]. intros [rc out] s' Hk Hr. cbn [fst snd] in Hr.
  split; [done|]. destruct Hr as [[-> (a & -> & Ha)]|[Hrc ->]]; cbn [fst snd].
  - split; [by split|]. intros ? [= <-]. split; [done|]. split.
    + destruct Ha as (Hlen & Hl & _). unfold XLIB_SOCKET_ADDRESS_SIZE in Hl.
      unfold sockaddr_of, u32. rewrite length_take, Z.mod_small by lia. lia.
    + intros b Hb H. by apply address_ok_canonical.
  - cbn [fst] in Hrc. split; [|done]. split; [intros ->; lia|done].
Qed.
End Theorems.

(** ** Examples *)

Definition net_state : st := St 0 {[ 1 := to_obj (XSocket 5 X_SOCKET_UDP AF_INET) ]} [].

Lemma addresses_well_formed_witness :
  wp Total (produce (os := calm_os) (FromReceive 1 64))
    (fun r s' => keeps net_state s' /\ (r.1 = 0 <-> r.2 <> None) /\
       forall a, r.2 = Some a ->
         address_ok a /\ length (sockaddr_of a) = Z.to_nat (sa_length a) /\
         forall b, address_ok b -> sockaddr_of b = sockaddr_of a -> b = a) net_state.
Proof.
  apply (addresses_well_formed (os := calm_os) (FromReceive 1 64)).
  split; [done|]. by exists (XSocket 5 X_SOCKET_UDP AF_INET).
Defined.

Lemma x_socket_accept_contract_witness :
  wp Total (x_socket_accept (os := calm_os) 1 true)
    (constructor_post (os := calm_os) (made_socket X_SOCKET_TCP 0) net_state) net_state.
Proof. by apply (x_socket_accept_contract (os := calm_os) 1 (XSocket 5 2 2)). Defined.

Lemma socket_lifecycle_witness :
  wp Total (bracket (os := failing_os 24) (T := x_socket) (x_socket_tcp6 (os := failing_os 24) true))
    (fun _ s' => hp s' = hp st0 /\ held (tr s') = held (tr st0)) st0.
Proof. apply (socket_lifecycle (os := failing_os 24)). left. set_solver. Defined.

Lemma x_address_from_string_roundtrip_witness :
  exists a, x_address_from_string (os := calm_os) true (Some (str "127.0.0.1")) 8080 4 st0 =
    Done (0, Some a) (St 0 ∅ [Ev (Sinet_pton 2 (str "127.0.0.1")) (1, [127; 0; 0; 1])]) /\
  x_address_port (Some a) true = (0, Some 8080).
Proof.
  pose proof (x_address_from_string_roundtrip (os := calm_os) (str "127.0.0.1") 8080 4 st0) as H.
  destruct H as (a & bytes & af & Ha & _ & Hp & _); [lia|done|].
  exists a. split; [|done]. injection Ha as <-. by vm_compute.
Defined.

Lemma x_socket_receive_from_spec_witness :
  wp Total (x_socket_receive_from (os := calm_os) 1 true true 64 true)
    (fun r s' => hp s' = hp net_state /\ exists res data src,
       tr s' = Ev (Srecvfrom 5 (Z.min 64 INT_MAX)) (res, data, src) :: tr net_state /\
       ((res = -1 /\ 0 < errno s' /\ r = (errno s', None, Some 0, [])) \/
        (0 <= res <= 64 /\ strlen data = res /\ reported src res data r))) net_state.
Proof.
  by apply (x_socket_receive_from_spec (os := calm_os) 1 (XSocket 5 2 2) true 64 net_state).
Defined.

Lemma x_socket_set_timeout_exact_witness :
  wp Total (x_socket_set_timeout (os := calm_os) 1 SO_RCVTIMEO 1500)
    (fun rc s' => exists sec usec r,
       tr s' = Ev (Ssetsockopt 5 SOL_SOCKET SO_RCVTIMEO [sec; usec]) r :: tr net_state /\
       hp s' = hp net_state /\ 0 <= usec < 1000000 /\ 0 <= sec /\
       sec * 1000000 + usec = 1500 * 1000 /\ rc = (if r =? 0 then 0 else errno s')) net_state.
Proof.
  by apply (x_socket_set_timeout_exact (os := calm_os) 1 (XSocket 5 2 2) SO_RCVTIMEO 1500 net_state).
Defined.
