(* ===== verification/WinNetwork.v ===== *)
(** * Sockets on Windows (src/x_network.c, Windows build)

    The operations whose Windows code differs: the start-up of the socket
    library, which is done once, the error codes, the handles and the conversion
    of addresses.  The structure of an address is that of XNetwork.v. *)
From S2P Require Import Prelude Syscalls Structs Machine Contract DemoOS WinBase XNetwork.

Definition WSAEACCES : Z := 10013.
Definition WSAEINVAL : Z := 10022.
Definition WSAEWOULDBLOCK : Z := 10035.
Definition WSAEINPROGRESS : Z := 10036.
Definition WSAENOTSOCK : Z := 10038.
Definition WSAEPROTONOSUPPORT : Z := 10043.
Definition WSAEAFNOSUPPORT : Z := 10047.
Definition WSAEADDRINUSE : Z := 10048.
Definition WSAEADDRNOTAVAIL : Z := 10049.
Definition WSAECONNRESET : Z := 10054.
Definition WSAENOBUFS : Z := 10055.
Definition WSAETIMEDOUT : Z := 10060.
Definition WSAECONNREFUSED : Z := 10061.
Definition WSAHOST_NOT_FOUND : Z := 11001.
Definition WSANO_DATA : Z := 11004.

Definition EPROTONOSUPPORT : Z := 93.
Definition ENOTSOCK : Z := 88.
Definition EADDRINUSE : Z := 98.
Definition EADDRNOTAVAIL : Z := 99.
Definition ECONNRESET : Z := 104.
Definition ENOBUFS : Z := 105.
Definition ETIMEDOUT : Z := 110.
Definition ECONNREFUSED : Z := 111.
Definition EINPROGRESS : Z := 115.

(** The values of the Windows headers. *)
Definition AF_INET6 : Z := 23.
Definition SOL_SOCKET : Z := 65535.
Definition IP_ADD_MEMBERSHIP : Z := 12.
Definition IP_DROP_MEMBERSHIP : Z := 13.
Definition FIONBIO : Z := -2147195266.
Definition MAKEWORD (low high : Z) : Z := low + 256 * high.

Definition x_network_error_from_windows (error : Z) : Z :=
  if error =? 0 then 0
  else if error =? WSAEWOULDBLOCK then EWOULDBLOCK
  else if error =? WSAEINPROGRESS then EINPROGRESS
  else if error =? WSAECONNRESET then ECONNRESET
  else if error =? WSAECONNREFUSED then ECONNREFUSED
  else if error =? WSAEADDRINUSE then EADDRINUSE
  else if error =? WSAEADDRNOTAVAIL then EADDRNOTAVAIL
  else if error =? WSAETIMEDOUT then ETIMEDOUT
  else if error =? WSAENOTSOCK then ENOTSOCK
  else if error =? WSAEINVAL then EINVAL
  else if error =? WSAENOBUFS then ENOBUFS
  else if error =? WSAEAFNOSUPPORT then EAFNOSUPPORT
  else if error =? WSAEPROTONOSUPPORT then EPROTONOSUPPORT
  else if error =? WSAEACCES then EACCES
  else if (error =? WSAHOST_NOT_FOUND) || (error =? WSANO_DATA) then ENOENT
  else EIO.

Lemma x_network_error_pos e : e <> 0 -> 0 < x_network_error_from_windows e.
Proof.
  intros. unfold x_network_error_from_windows.
  destruct (Z.eqb_spec e 0); [lia|]. by repeat case_match.
Qed.

Lemma x_network_error_nonneg e : 0 <= x_network_error_from_windows e.
Proof. unfold x_network_error_from_windows. by repeat case_match. Qed.

(** [x_network_init_once], has the callback succeeded, and [x_network_startup_result]. *)
Record startup := Startup { st_initialised : bool; st_result : Z }.

Definition sockaddr_in6 (port : Z) (addr : list Z) : list Z :=
  family_bytes AF_INET6 ++ port_bytes port ++ replicate 4 0 ++ field 16 addr ++ replicate 4 0.

Section Network.
Context {os : OS}.

Definition x_network_do_startup (g : startup) : M (bool * startup) :=
  result ← win (WSAStartup (MAKEWORD 2 2));
  mret (result =? 0, Startup (st_initialised g) result).

(** [InitOnceExecuteOnce]: the callback runs unless it has succeeded before. *)
Definition init_once (g : startup) (callback : startup -> M (bool * startup)) : M (bool * startup) :=
  if st_initialised g then mret (true, g)
  else
    r ← callback g;
    mret (r.1, Startup r.1 (st_result r.2)).

Definition x_network_startup (g : startup) : M (Z * startup) :=
  r ← init_once g x_network_do_startup;
  if negb r.1 then
    mret (if negb (st_result r.2 =? 0) then x_network_error_from_windows (st_result r.2) else EIO, r.2)
  else mret (0, r.2).

Definition x_socket_error : M Z := e ← GetLastError; mret (x_network_error_from_windows e).

Definition x_socket_create (g : startup) (out_socket : bool) (type family : Z)
    : M (Z * option ptr * startup) :=
  if negb out_socket || (negb (type =? X_SOCKET_TCP) && negb (type =? X_SOCKET_UDP))
  then mret (EINVAL, None, g)
  else if negb (family =? AF_INET) && negb (family =? AF_INET6) then mret (EINVAL, None, g)
  else
    r ← x_network_startup g;
    let '(error, g) := r in
    if negb (error =? 0) then mret (error, Some NULL, g)
    else
      created ← calloc 16 (WinSocket 0 0 0);
      if created =? NULL then mret (ENOMEM, Some NULL, g)
      else
        let native_type := if type =? X_SOCKET_TCP then SOCK_STREAM else SOCK_DGRAM in
        let protocol := if type =? X_SOCKET_TCP then IPPROTO_TCP else IPPROTO_UDP in
        handle ← win (WSAsocket family native_type protocol);
        modify win_socket created (fun s => WinSocket handle (wo_type s) (wo_family s));;
        if handle =? INVALID_SOCKET then
          error ← x_socket_error;
          free created;; mret (error, Some NULL, g)
        else
          modify win_socket created (fun s => WinSocket (wo_handle s) type family);;
          mret (0, Some created, g).

Definition x_socket_accept (socket : ptr) (client : bool) : M (Z * option ptr) :=
  if (socket =? NULL) || negb client then mret (EINVAL, None)
  else
    accepted ← calloc 16 (WinSocket 0 0 0);
    if accepted =? NULL then mret (ENOMEM, Some NULL)
    else
      s ← load win_socket socket;
      handle ← win (WSAaccept (wo_handle s));
      if handle =? INVALID_SOCKET then
        error ← x_socket_error;
        free accepted;; mret (error, Some NULL)
      else
        modify win_socket accepted (fun s => WinSocket handle X_SOCKET_TCP (wo_family s));;
        mret (0, Some accepted).

Definition x_socket_set_nonblocking (socket : ptr) (enabled : bool) : M Z :=
  if socket =? NULL then mret EINVAL
  else
    s ← load win_socket socket;
    r ← win (ioctlsocket (wo_handle s) FIONBIO (if enabled then 1 else 0));
    if negb (r =? 0) then x_socket_error else mret 0.

Definition x_socket_close (socket : ptr) : M unit :=
  if socket =? NULL then mret tt
  else s ← load win_socket socket; win_ (closesocket (wo_handle s));; free socket.

(** Milliseconds are passed as they are. *)
Definition x_socket_set_timeout (socket : ptr) (optname milliseconds : Z) : M Z :=
  if socket =? NULL then mret EINVAL
  else
    s ← load win_socket socket;
    r ← win (WSAsetsockopt (wo_handle s) SOL_SOCKET optname [u32 milliseconds]);
    if negb (r =? 0) then x_socket_error else mret 0.

Definition x_address_to_string (address : option x_socket_address) (buffer : bool)
    (buffer_size : Z) : M (Z * cstr) :=
  match address with
  | Some a =>
      if negb buffer || (buffer_size =? 0) then mret (EINVAL, None)
      else
        let af := sa_family (sa_storage a) in
        let convert src :=
          r ← win (InetNtopA af src buffer_size);
          match r with
          | None => e ← x_socket_error; mret (e, None)
          | Some s => mret (0, Some s)
          end in
        if af =? AF_INET then convert (take 4 (drop 4 (sa_storage a)))
        else if af =? AF_INET6 then convert (take 16 (drop 8 (sa_storage a)))
        else mret (EAFNOSUPPORT, None)
  | None => mret (EINVAL, None)
  end.

Definition x_address_from_string (address : bool) (host : cstr) (port family : Z)
    : M (Z * option x_socket_address) :=
  if negb address || is_null host then mret (EINVAL, None)
  else if family =? X_ADDRESS_FAMILY_IPV4 then
    r ← win (InetPtonA AF_INET (txt host));
    if negb (r.1 =? 1) then e ← x_socket_error; mret (e, None)
    else mret (x_socket_copy_address true (Some (sockaddr_in port r.2)) sizeof_sockaddr_in)
  else if family =? X_ADDRESS_FAMILY_IPV6 then
    r ← win (InetPtonA AF_INET6 (txt host));
    if negb (r.1 =? 1) then e ← x_socket_error; mret (e, None)
    else mret (x_socket_copy_address true (Some (sockaddr_in6 port r.2)) sizeof_sockaddr_in6)
  else mret (EINVAL, None).

Definition x_socket_multicast_group (socket : ptr) (group_address interface_address : cstr)
    (join : bool) : M Z :=
  if (socket =? NULL) || is_null group_address then mret EINVAL
  else
    s ← load win_socket socket;
    if negb (wo_type s =? X_SOCKET_UDP) then mret EINVAL
    else
      g ← win (InetPtonA AF_INET (txt group_address));
      if negb (g.1 =? 1) then x_socket_error
      else
        let set interface :=
          r ← win (WSAsetsockopt (wo_handle s) IPPROTO_IP
            (if join then IP_ADD_MEMBERSHIP else IP_DROP_MEMBERSHIP)
            (field 4 g.2 ++ field 4 interface));
          if negb (r =? 0) then x_socket_error else mret 0 in
        match interface_address with
        | Some i =>
            r ← win (InetPtonA AF_INET i);
            if negb (r.1 =? 1) then x_socket_error else set r.2
        | None => set [0; 0; 0; 0]
        end.

(** ** Start-up *)

(** The state is sound: an initialised library started without an error. *)
Definition startup_ok (g : startup) : Prop := st_initialised g = true -> st_result g = 0.

Lemma wp_network_startup md g e h t Q :
  (st_initialised g = true -> Q (0, g) (St e h t)) ->
  (forall rc r e', st_initialised g = false -> (rc = 0 /\ r = 0 \/ 0 < rc /\ r <> 0) ->
     Q (rc, Startup (bool_decide (rc = 0)) r) (St e' h (Ev (W (WSAStartup (MAKEWORD 2 2))) r :: t))) ->
  wp md (x_network_startup g) Q (St e h t).
Proof.
  intros HQ1 HQ2. unfold x_network_startup, init_once, x_network_do_startup.
  destruct (st_initialised g) eqn:Hi.
  - apply wp_bind, wp_ret. cbn [fst snd negb]. apply wp_ret. by apply HQ1.
  - win_step. win_step. win_step. win_step. win_step. win_step. cbn [fst snd st_result].
    destruct (Z.eqb_spec r 0) as [->|Hr]; cbn [negb Z.eqb]; apply wp_ret.
    + by apply (HQ2 0 0); [|left].
    + pose proof (x_network_error_pos r Hr). destruct (Z.eqb_spec r 0); [done|]. cbn [negb].
      specialize (HQ2 (x_network_error_from_windows r) r e0).
      rewrite bool_decide_false in HQ2 by lia. apply HQ2; [done|by right].
Qed.

(** Any number of operations that start the library up first. *)
Fixpoint startups (n : nat) (g : startup) : M (list Z * startup) :=
  match n with
  | O => mret ([], g)
  | S n => r ← x_network_startup g; rs ← startups n r.2; mret (r.1 :: rs.1, rs.2)
  end.

(** The number of start-ups in a history. *)
Fixpoint startup_calls (t : list ev) : list Z :=
  match t with
  | Ev (W (WSAStartup _)) r :: t => r :: startup_calls t
  | _ :: t => startup_calls t
  | [] => []
  end.


(** ** Ownership *)

#[export] Program Instance win_socket_handle : Handle win_socket := {|
  h_res _ s := {[ (KSocket, wo_handle s) ]}; h_close := x_socket_close |}.
Next Obligation. done. Qed.
Next Obligation.
  intros md p [handle type family] e h t Q Hp Hn HQ. unfold x_socket_close.
  apply Z.eqb_neq in Hn as En. rewrite En. win_run. apply HQ. by held_simpl.
Qed.

Lemma x_network_error_failed e : 0 < e -> 0 < x_network_error_from_windows e.
Proof. intros. apply x_network_error_pos. lia. Qed.
#[local] Hint Resolve x_network_error_failed : xlib.

Lemma wp_win_socket_create g type family md e h t Q :
  (forall r s', constructor_post (fun s => wo_type s = type /\ wo_family s = family) (St e h t) r.1 s' -> Q r s') ->
  wp md (x_socket_create g true type family) Q (St e h t).
Proof.
  intros HQ. unfold x_socket_create, x_socket_error. win_step; [win_run; apply HQ; win_fail|].
  win_step; [win_run; apply HQ; win_fail|]. win_step. apply wp_network_startup.
  - intros _. win_run; apply HQ; cbn [fst snd]; try solve [win_fail]. by ctor_ok (WinSocket r type family).
  - intros rc r e' _ [[-> ->]|[Hrc _]].
    2: { win_run. apply HQ. cbn [fst]. apply constructor_fail; [done|by right|done|by held_simpl]. }
    win_run; apply HQ; cbn [fst snd]; try solve [win_fail]. by ctor_ok (WinSocket r type family).
Qed.

Lemma wp_win_socket_accept socket (s : win_socket) md e h t Q :
  h !! socket = Some (to_obj s) -> socket <> NULL ->
  (forall r s', constructor_post (fun c => wo_type c = X_SOCKET_TCP) (St e h t) r s' -> Q r s') ->
  wp md (x_socket_accept socket true) Q (St e h t).
Proof.
  intros Hs Hn HQ. unfold x_socket_accept, x_socket_error. apply Z.eqb_neq in Hn as ->.
  win_run; apply HQ; try solve [win_fail]. by ctor_ok (WinSocket r X_SOCKET_TCP 0).
Qed.

(** A socket made or accepted on Windows, with any start-up state, and closed
    when it was made: everything is given back, also when the start-up fails. *)
Theorem win_socket_lifecycle g type family socket (x : win_socket) s :
  hp s !! socket = Some (to_obj x) -> socket <> NULL ->
  let restored := fun (_ : Z) s' => hp s' = hp s /\ held (tr s') = held (tr s) in
  wp Total (bracket (T := win_socket) (r ← x_socket_create g true type family; mret r.1)) restored s /\
  wp Total (bracket (T := win_socket) (x_socket_accept socket true)) restored s.
Proof.
  destruct s as [e h t]. cbn [hp]. intros Hx Hn. split.
  - eapply bracket_restores. apply wp_bind, wp_win_socket_create. intros r s' Hr. by apply wp_ret.
  - eapply bracket_restores. by eapply wp_win_socket_accept.
Qed.

(** An address made from a string has the requested family, port and bytes; a
    string that is no address leaves the address alone, but the code is the last
    error, which a string that is merely malformed does not set. *)
Theorem win_address_from_string_spec host port s :
  0 <= port < 65536 ->
  wp Total (x_address_from_string true (Some host) port X_ADDRESS_FAMILY_IPV4)
    (fun r s' => hp s' = hp s /\
       (exists ok bytes, tr s' = Ev (W (InetPtonA AF_INET host)) (ok, bytes) :: tr s /\
        ((ok = 1 /\ exists a, r = (0, Some a) /\ x_address_port (Some a) true = (0, Some port) /\
            x_address_family (Some a) = X_ADDRESS_FAMILY_IPV4 /\ sa_length a = sizeof_sockaddr_in) \/
         (ok <> 1 /\ r = (x_network_error_from_windows (errno s'), None))))) s.
Proof.
  intros Hport. destruct s as [e h t]. unfold x_address_from_string, x_socket_error. cbn [is_null negb orb].
  change (X_ADDRESS_FAMILY_IPV4 =? X_ADDRESS_FAMILY_IPV4) with true. cbn iota. win_run.
  - split; [done|]. exists r.1, r.2. split; [by destruct r|]. by right.
  - split; [done|]. exists r.1, r.2. split; [by destruct r|]. left. split; [done|].
    destruct Hpost as [_ Hl]. specialize (Hl E). cbn in Hl. destruct r as [rc [|b0 [|b1 [|b2 [|b3 [|? ?]]]]]]; try done.
    eexists. split; [done|]. cbn. unfold sin_port, byte_at. cbn. split_and!; try done.
    do 2 f_equal. apply port_bytes_read.
Qed.
End Network.

(** ** Examples *)

Lemma win_socket_lifecycle_witness :
  wp Total (bracket (os := calm_os) (T := win_socket) (x_socket_accept (os := calm_os) 1 true))
    (fun _ s' => hp s' = hp (St 0 {[ 1 := to_obj (WinSocket 5 1 2) ]} []) /\ held (tr s') = ∅)
    (St 0 {[ 1 := to_obj (WinSocket 5 1 2) ]} []).
Proof.
  apply (win_socket_lifecycle (os := calm_os) (Startup false 0) X_SOCKET_TCP AF_INET 1 (WinSocket 5 1 2)); done.
Defined.


Example startups_fail :
  match startups (os := failing_os 5) 3 (Startup false 0) st0 with
  | Done r _ => r.1 = [EIO; EIO; EIO]
  | _ => False
  end.
Proof. by vm_compute. Qed.
