(* ===== verification/XThread.v ===== *)
(** * src/x_thread.c: threads, mutexes, conditions and thread-local keys

    The POSIX build.  A thread's function is named by a number; [call] runs it,
    so [x_thread_entry] is the code of the new thread, to be placed between the
    creator's steps by whoever composes them.  The counting semaphore, whose
    operations synchronise through memory, is in XSemaphore.v. *)
From S2P Require Import Prelude Syscalls Structs Machine Contract XTime DemoOS.

Definition PTHREAD_MUTEX_RECURSIVE : Z := 1.

Section Thread.
Context {os : OS}.

(** ** Threads *)

Definition x_thread_create (thread : bool) (function : Z) (data : ptr) : M (Z * option ptr) :=
  if negb thread || (function =? NULL) then mret (EINVAL, None)
  else
    created ← calloc 40 (XThread 0 NULL 0 false 0);
    if created =? NULL then mret (ENOMEM, Some NULL)
    else
      modify x_thread created (fun t => XThread function data (th_result t) (th_joined t) (th_handle t));;
      r ← sys (Spthread_create 1 created);
      if negb (r.1 =? 0) then free created;; mret (r.1, Some NULL)
      else
        modify x_thread created (fun t =>
          XThread (th_function t) (th_data t) (th_result t) (th_joined t) r.2);;
        mret (0, Some created).

(** The new thread: [call f d] is the body of the function named [f]. *)
Definition x_thread_entry (call : Z -> ptr -> M Z) (parameter : ptr) : M unit :=
  t ← load x_thread parameter;
  result ← call (th_function t) (th_data t);
  modify x_thread parameter (fun t =>
    XThread (th_function t) (th_data t) result (th_joined t) (th_handle t)).

Definition x_thread_join (thread : ptr) (result : bool) : M (Z * option Z) :=
  if thread =? NULL then mret (EINVAL, None)
  else
    t ← load x_thread thread;
    if th_joined t then mret (EINVAL, None)
    else
      error ← sys (Spthread_join (th_handle t));
      if negb (error =? 0) then mret (error, None)
      else
        modify x_thread thread (fun t =>
          XThread (th_function t) (th_data t) (th_result t) true (th_handle t));;
        t ← load x_thread thread;
        mret (0, if result then Some (th_result t) else None).

Definition x_thread_destroy (thread : ptr) : M unit :=
  if thread =? NULL then mret tt
  else
    t ← load x_thread thread;
    (if negb (th_joined t) then sys (Spthread_detach (th_handle t));; mret tt else mret tt);;
    free thread.

Definition x_thread_sleep_ms (fuel : nat) (milliseconds : Z) : M Z :=
  x_time_sleep_ms fuel milliseconds.

(** ** Mutexes *)

Definition x_mutex_create_with_type (mutex : bool) (recursive : bool) : M (Z * option ptr) :=
  if negb mutex then mret (EINVAL, None)
  else
    created ← calloc 48 (XMutex false);
    if created =? NULL then mret (ENOMEM, Some NULL)
    else
      store created (XMutex recursive);;
      error ← sys (Spthread PMutexattrInit);
      if negb (error =? 0) then free created;; mret (error, Some NULL)
      else
        error ← (if recursive then sys (Spthread (PMutexattrSettype PTHREAD_MUTEX_RECURSIVE))
                 else mret error);
        if negb (error =? 0) then
          sys (Spthread PMutexattrDestroy);; free created;; mret (error, Some NULL)
        else
          error ← sys (Spthread (PMutexInit created));
          sys (Spthread PMutexattrDestroy);;
          if negb (error =? 0) then free created;; mret (error, Some NULL)
          else mret (0, Some created).

Definition x_mutex_create (mutex : bool) := x_mutex_create_with_type mutex false.
Definition x_recursive_mutex_create (mutex : bool) := x_mutex_create_with_type mutex true.

(** The calls on a live object: NULL is EINVAL, else the pthread result. *)
Definition x_mutex_lock (mutex : ptr) : M Z :=
  if mutex =? NULL then mret EINVAL
  else load x_mutex mutex;; sys (Spthread (PMutexLock mutex)).
Definition x_mutex_try_lock (mutex : ptr) : M Z :=
  if mutex =? NULL then mret EINVAL
  else load x_mutex mutex;; sys (Spthread (PMutexTrylock mutex)).
Definition x_mutex_unlock (mutex : ptr) : M Z :=
  if mutex =? NULL then mret EINVAL
  else load x_mutex mutex;; sys (Spthread (PMutexUnlock mutex)).
Definition x_mutex_destroy (mutex : ptr) : M unit :=
  if mutex =? NULL then mret tt
  else load x_mutex mutex;; sys (Spthread (PMutexDestroy mutex));; free mutex.

(** ** Conditions *)

Definition x_condition_create (condition : bool) : M (Z * option ptr) :=
  if negb condition then mret (EINVAL, None)
  else
    created ← calloc 48 (XCondition tt);
    if created =? NULL then mret (ENOMEM, Some NULL)
    else
      error ← sys (Spthread (PCondInit created));
      if negb (error =? 0) then free created;; mret (error, Some NULL)
      else mret (0, Some created).

Definition x_condition_wait (condition mutex : ptr) : M Z :=
  if (condition =? NULL) || (mutex =? NULL) then mret EINVAL
  else load x_condition condition;; load x_mutex mutex;;
       sys (Spthread (PCondWait condition mutex)).
Definition x_condition_signal (condition : ptr) : M Z :=
  if condition =? NULL then mret EINVAL
  else load x_condition condition;; sys (Spthread (PCondSignal condition)).
Definition x_condition_broadcast (condition : ptr) : M Z :=
  if condition =? NULL then mret EINVAL
  else load x_condition condition;; sys (Spthread (PCondBroadcast condition)).
Definition x_condition_destroy (condition : ptr) : M unit :=
  if condition =? NULL then mret tt
  else load x_condition condition;; sys (Spthread (PCondDestroy condition));; free condition.

(** ** Semaphore objects (the waiting and posting are in XSemaphore.v) *)

Definition x_semaphore_create (semaphore : bool) (initial_count : Z) : M (Z * option ptr) :=
  if negb semaphore then mret (EINVAL, None)
  else
    created ← calloc 96 (XSemaphore 0);
    if created =? NULL then mret (ENOMEM, Some NULL)
    else
      store created (XSemaphore initial_count);;
      error ← sys (Spthread (PMutexInit created));
      if negb (error =? 0) then free created;; mret (error, Some NULL)
      else
        error ← sys (Spthread (PCondInit created));
        if negb (error =? 0) then
          sys (Spthread (PMutexDestroy created));; free created;; mret (error, Some NULL)
        else mret (0, Some created).

Definition x_semaphore_destroy (semaphore : ptr) : M unit :=
  if semaphore =? NULL then mret tt
  else
    load x_semaphore semaphore;;
    sys (Spthread (PCondDestroy semaphore));;
    sys (Spthread (PMutexDestroy semaphore));;
    free semaphore.

(** ** Thread-local keys *)

Definition x_tls_key_create (key : bool) : M (Z * option ptr) :=
  if negb key then mret (EINVAL, None)
  else
    created ← calloc 4 (XTlsKey 0);
    if created =? NULL then mret (ENOMEM, Some NULL)
    else
      r ← sys Spthread_key_create;
      if negb (r.1 =? 0) then free created;; mret (r.1, Some NULL)
      else store created (XTlsKey r.2);; mret (0, Some created).

Definition x_tls_set (key value : ptr) : M Z :=
  if key =? NULL then mret EINVAL
  else k ← load x_tls_key key; sys (Spthread (PSetspecific (tk_handle k) value)).
Definition x_tls_get (key : ptr) : M ptr :=
  if key =? NULL then mret NULL
  else k ← load x_tls_key key; sys (Spthread_getspecific (tk_handle k)).
Definition x_tls_key_destroy (key : ptr) : M unit :=
  if key =? NULL then mret tt
  else k ← load x_tls_key key; sys (Spthread (PKeyDelete (tk_handle k)));; free key.

End Thread.

(** ** Ownership *)

Section ThreadHandles.
Context {os : OS}.

Lemma wp_thread_destroy md p (x : x_thread) e h t Q :
  h !! p = Some (to_obj x) -> p <> NULL ->
  (forall e' t', held t' = held t ∖ (if th_joined x then ∅ else {[ (KThread, th_handle x) ]}) ->
     Q tt (St e' (delete p h) t')) ->
  wp md (x_thread_destroy p) Q (St e h t).
Proof. unfold x_thread_destroy. close_tac. Qed.
#[export] Program Instance thread_handle : Handle x_thread := {|
  h_res _ x := if th_joined x then ∅ else {[ (KThread, th_handle x) ]};
  h_close := x_thread_destroy |}.
Next Obligation. done. Qed.
Next Obligation. intros. by eapply wp_thread_destroy. Qed.

#[export] Program Instance mutex_handle : Handle x_mutex := {|
  h_res p _ := {[ (KMutex, p) ]}; h_close := x_mutex_destroy |}.
Next Obligation. done. Qed.
Next Obligation. unfold x_mutex_destroy. close_tac. Qed.

#[export] Program Instance condition_handle : Handle x_condition := {|
  h_res p _ := {[ (KCond, p) ]}; h_close := x_condition_destroy |}.
Next Obligation. done. Qed.
Next Obligation. unfold x_condition_destroy. close_tac. Qed.

#[export] Program Instance semaphore_handle : Handle x_semaphore := {|
  h_res p _ := {[ (KMutex, p); (KCond, p) ]}; h_close := x_semaphore_destroy |}.
Next Obligation. done. Qed.
Next Obligation. unfold x_semaphore_destroy. close_tac. Qed.

#[export] Program Instance tls_key_handle : Handle x_tls_key := {|
  h_res _ k := {[ (KKey, tk_handle k) ]}; h_close := x_tls_key_destroy |}.
Next Obligation. done. Qed.
Next Obligation. unfold x_tls_key_destroy. close_tac. Qed.
End ThreadHandles.

Section Contracts.
Context {os : OS}.

(** No synchronisation object lives in free memory and no attribute object is
    pending: the program's own invariant between calls. *)
Definition sync_clean (s : st) : Prop :=
  (KAttr, 0) ∉ held (tr s) /\
  forall p, hp s !! p = None -> (KMutex, p) ∉ held (tr s) /\ (KCond, p) ∉ held (tr s).

Lemma wp_thread_create function data md e h t Q :
  (forall r s', constructor_post (fun x => th_function x = function /\ th_data x = data /\
      th_joined x = false) (St e h t) r s' -> Q r s') ->
  wp md (x_thread_create true function data) Q (St e h t).
Proof.
  intros HQ. unfold x_thread_create. wp_run; apply HQ.
  all: first [ctor_fail; fail | by ctor_ok (XThread function data 0 false r.2)].
Qed.

(** Runs a constructor under [sync_clean]; [x] is the object it builds. *)
Ltac sync_ctor x :=
  match goal with s : st |- _ => destruct s as [e h t] end;
  let Ha := fresh in let Hs := fresh in intros [Ha Hs]; cbn [hp tr] in Ha, Hs;
  wp_run;
  try match goal with Hn : _ !! _ = None |- _ => destruct (Hs _ Hn) end;
  first [ctor_fail; fail | ctor_ok x; done].

Lemma mutex_create_post b s :
  sync_clean s ->
  wp Total (x_mutex_create_with_type true b)
    (constructor_post (fun x => mx_recursive x = b) s) s.
Proof. unfold x_mutex_create_with_type. destruct b; [sync_ctor (XMutex true)|sync_ctor (XMutex false)]. Qed.

Lemma condition_create_post s :
  sync_clean s ->
  wp Total (x_condition_create true) (constructor_post (fun _ : x_condition => True) s) s.
Proof. unfold x_condition_create. sync_ctor (XCondition tt). Qed.

Lemma semaphore_create_post n s :
  sync_clean s ->
  wp Total (x_semaphore_create true n) (constructor_post (fun x => sm_count x = n) s) s.
Proof. unfold x_semaphore_create. sync_ctor (XSemaphore n). Qed.

Lemma tls_key_create_post s :
  wp Total (x_tls_key_create true) (constructor_post (fun _ : x_tls_key => True) s) s.
Proof.
  destruct s as [e h t]. unfold x_tls_key_create. wp_run.
  all: first [ctor_fail; fail | by ctor_ok (XTlsKey r.2)].
Qed.
End Contracts.

(** ** Theorems *)

Section Theorems.
Context {os : OS}.

(** Making and destroying a mutex (of either kind), a condition, a
    semaphore or a thread-local key gives everything back, attribute objects
    included, whichever of the pthread calls of the constructor fails. *)
Theorem sync_objects_lifecycle recursive n s :
  sync_clean s ->
  let restored := fun (_ : Z) s' => hp s' = hp s /\ held (tr s') = held (tr s) in
  wp Total (bracket (T := x_mutex) (x_mutex_create_with_type true recursive)) restored s /\
  wp Total (bracket (T := x_condition) (x_condition_create true)) restored s /\
  wp Total (bracket (T := x_semaphore) (x_semaphore_create true n)) restored s /\
  wp Total (bracket (T := x_tls_key) (x_tls_key_create true)) restored s.
Proof.
  intros Hs. split_and!; eapply bracket_restores.
  - by apply mutex_create_post.
  - by apply condition_create_post.
  - by apply semaphore_create_post.
  - by apply tls_key_create_post.
Qed.

(** A thread from creation to destruction, in the order the join imposes. *)
Definition thread_run (call : Z -> ptr -> M Z) (function : Z) (data : ptr)
    : M (Z * option Z) :=
  r ← x_thread_create true function data;
  if negb (r.1 =? 0) then mret (r.1, None)
  else
    let thread := default NULL r.2 in
    x_thread_entry call thread;;
    j ← x_thread_join thread true;
    x_thread_destroy thread;;
    mret j.

(** A thread's result reaches the joiner: when the creation and the join
    succeed, [x_thread_join] hands out exactly the value the function returned
    on [data], and after [x_thread_destroy] neither memory nor a thread is left;
    when they fail the error is positive and nothing is left either. *)
Theorem thread_run_result call function data v s :
  (forall e h t Q, (forall s', keeps (St e h t) s' -> Q v s') ->
     wp Total (call function data) Q (St e h t)) ->
  wp Total (thread_run call function data)
    (fun r s' => hp s' = hp s /\ held (tr s') = held (tr s) /\
       (r = (0, Some v) \/ (0 < r.1 /\ r.2 = None))) s.
Proof.
  destruct s as [e h t]. intros Hcall. unfold thread_run. wp_step.
  apply wp_thread_create. intros [rc out] [e1 h1 t1]
    [(Hrc & p & x & Ho & Hpos & Hnew & Hh & Ht & Hd & Hf & Hda & Hj)|(Hrc & Ho & Hh & Ht)];
    proj_simpl; subst.
  2: { wp_run. split_and!; [done..|]. right. by split. }
  wp_run. unfold x_thread_entry. cbn [default from_option id]. wp_run.
  apply Hcall. intros [e2 h2 t2] [Hh2 Ht2]. proj_simpl. subst h2.
  apply inert_ext_held in Ht2. wp_run. unfold x_thread_join.
  destruct x as [f d r j hd]; cbn in *. subst j.
  assert (forall e' t' Q th, th_handle th = hd ->
    held t' ∖ (if th_joined th then ∅ else {[ (KThread, hd) ]}) = held t ->
    (forall e'' t'', held t'' = held t -> Q tt (St e'' h t'')) ->
    wp Total (x_thread_destroy p) Q (St e' (<[p := OThread th]> h) t')) as Hdestroy.
  { intros e' t' Q th Hhd Ht' HQ. eapply wp_thread_destroy; [by simplify_map_eq|unfold NULL; lia|].
    intros e'' t'' Ht''. heap_simpl. apply HQ. rewrite Ht''. by subst. }
  wp_run; heap_simpl; [discriminate|..]; cbn [th_handle].
  - apply Hdestroy; [done| |].
    { held_simpl. destruct (Z.eqb_spec r0 0); [lia|]. cbn. rewrite Ht2, Ht. apply set_eq. set_solver. }
    intros e'' t'' Ht''. wp_run. split_and!; [done..|]. right. cbn. split; [lia|done].
  - apply Hdestroy; [done| |].
    { held_simpl. subst r0. cbn. rewrite Ht2, Ht. apply set_eq. set_solver. }
    intros e'' t'' Ht''. wp_run. split_and!; [done..|]. by left.
Qed.

(** The detaching branch of [x_thread_destroy] is unsafe: when the creator
    destroys a thread that has not been joined while its function is running,
    [x_thread_entry] goes on to store the result into the freed structure. *)
Theorem thread_destroy_unjoined_dangling parameter (x : x_thread) call s :
  hp s !! parameter = Some (to_obj x) -> parameter <> NULL ->
  call (th_function x) (th_data x) = (x_thread_destroy parameter;; mret 0) ->
  x_thread_entry call parameter s = Undef UbDangling.
Proof.
  destruct s as [e h t]. cbn [hp]. intros Hp Hn Hcall. unfold x_thread_entry.
  assert (load x_thread parameter (St e h t) = Done x (St e h t)) as Hl.
  { unfold load. cbn. by rewrite Hp. }
  unfold mbind, M_bind. rewrite Hl, Hcall. unfold mbind, M_bind, x_thread_destroy.
  apply Z.eqb_neq in Hn as En. rewrite En. unfold mbind, M_bind. rewrite Hl.
  destruct (th_joined x); cbn.
  all: unfold free; rewrite En; cbn; rewrite Hp; cbn.
  all: unfold modify, mbind, M_bind, load; cbn; by rewrite lookup_delete_eq.
Qed.
End Theorems.

(** ** Examples *)

Lemma sync_objects_lifecycle_witness :
  let os := failing_os 12 in
  let restored := fun (_ : Z) s' => hp s' = hp st0 /\ held (tr s') = held (tr st0) in
  wp Total (bracket (T := x_mutex) (x_mutex_create_with_type true true)) restored st0 /\
  wp Total (bracket (T := x_condition) (x_condition_create true)) restored st0 /\
  wp Total (bracket (T := x_semaphore) (x_semaphore_create true 3)) restored st0 /\
  wp Total (bracket (T := x_tls_key) (x_tls_key_create true)) restored st0.
Proof.
  apply (sync_objects_lifecycle (os := failing_os 12) true 3 st0).
  split; [apply not_elem_of_empty|]. intros. split; apply not_elem_of_empty.
Defined.

Lemma thread_run_result_witness :
  wp Total (thread_run (os := calm_os) (fun _ data => mret (data + 1)) 7 41)
    (fun r s' => hp s' = hp st0 /\ held (tr s') = held (tr st0) /\
       (r = (0, Some 42) \/ (0 < r.1 /\ r.2 = None))) st0.
Proof.
  apply (thread_run_result (os := calm_os)). intros e h t Q HQ. apply HQ, keeps_refl.
Defined.

Lemma thread_destroy_unjoined_dangling_witness :
  x_thread_entry (fun _ _ => x_thread_destroy (os := calm_os) 5;; mret 0) 5
    (St 0 {[ 5 := OThread (XThread 7 41 0 false 3) ]} []) = Undef UbDangling.
Proof.
  by apply (thread_destroy_unjoined_dangling (os := calm_os) 5 (XThread 7 41 0 false 3)).
Defined.
