(* ===== verification/XSemaphore.v ===== *)
(** * src/x_thread.c: the counting semaphore under concurrency

    [x_semaphore_wait] and [x_semaphore_post] of the POSIX build as threads
    that interleave at the granularity of their pthread calls and their
    accesses to [count].  A thread is its program counter; a step picks a
    thread and an [action], the choice the environment makes for it: an
    uncontended call succeeds or fails, a sleeper wakes spuriously,
    [pthread_cond_signal] picks which sleeper it wakes. *)
From S2P Require Import Prelude.

Inductive pc :=
  | Idle                   (* no call in progress *)
  (* x_semaphore_wait *)
  | WLock                  (* at pthread_mutex_lock *)
  | WTest (woken : bool)   (* holds the mutex, at the test of the while loop *)
  | WSleep                 (* inside pthread_cond_wait, mutex released *)
  | WWake                  (* inside pthread_cond_wait, taking the mutex back *)
  | WFail (e : Z)          (* pthread_cond_wait failed: unlock and return it *)
  | WDec (woken : bool)    (* at the decrement of count *)
  | WUnlock                (* at the last pthread_mutex_unlock *)
  (* x_semaphore_post *)
  | PLock | PTest | POver  (* lock, overflow test, unlock and EOVERFLOW *)
  | PInc | PSignal         (* at the increment of count, pthread_cond_signal *)
  | PUnlock (e : Z)        (* at the unlock, then return e *)
  | Ret (rc : Z).          (* the call returned rc *)

Inductive action :=
  | AStart (post : bool)   (* the thread calls post or wait *)
  | AOk                    (* the pthread call succeeds, or plain code *)
  | AErr (e : Z)           (* the pthread call fails with e *)
  | ASpurious              (* the sleeper wakes without a signal *)
  | AWake (j : nat).       (* the signal wakes thread j *)

(** [taken] and [posted] count the decrements and increments (ghost state). *)
Record sem := Sem
  { count : Z; owner : option nat; pcs : list pc; taken : Z; posted : Z }.

Definition sem_init (initial_count : Z) (threads : nat) : sem :=
  Sem initial_count None (replicate threads Idle) 0 0.

Definition holds (p : pc) : bool :=
  match p with
  | WTest _ | WFail _ | WDec _ | WUnlock
  | PTest | POver | PInc | PSignal | PUnlock _ => true
  | _ => false
  end.

Definition is_sleeping (p : pc) : bool := match p with WSleep => true | _ => false end.

Definition goto (s : sem) (i : nat) (p : pc) : sem :=
  Sem (count s) (owner s) (<[i := p]> (pcs s)) (taken s) (posted s).
(** Takes the mutex when it is free. *)
Definition acquire (s : sem) (i : nat) (p : pc) : option sem :=
  match owner s with
  | None => Some (Sem (count s) (Some i) (<[i := p]> (pcs s)) (taken s) (posted s))
  | Some _ => None
  end.
Definition release (s : sem) (i : nat) (p : pc) : sem :=
  Sem (count s) None (<[i := p]> (pcs s)) (taken s) (posted s).

(** [pthread_mutex_lock] at [next], or its error returned. *)
Definition lock_step (s : sem) (i : nat) (a : action) (next : pc) : option sem :=
  match a with
  | AOk => acquire s i next
  | AErr e => if 0 <? e then Some (goto s i (Ret e)) else None
  | _ => None
  end.

(** One step of thread [i] inside [x_semaphore_wait]. *)
Definition x_semaphore_wait (s : sem) (i : nat) (p : pc) (a : action) : option sem :=
  match p, a with
  | WLock, _ => lock_step s i a (WTest false)
  | WTest b, AOk =>
      if count s =? 0 then Some (release s i WSleep) else Some (goto s i (WDec b))
  | WTest _, AErr e =>
      if (count s =? 0) && (0 <? e) then Some (goto s i (WFail e)) else None
  | WSleep, ASpurious => Some (goto s i WWake)
  | WWake, AOk => acquire s i (WTest true)
  | WFail e, AOk => Some (release s i (Ret e))
  | WDec _, AOk =>
      Some (Sem (u32 (count s - 1)) (owner s) (<[i := WUnlock]> (pcs s))
              (taken s + 1) (posted s))
  | WUnlock, AOk => Some (release s i (Ret 0))
  | _, _ => None
  end.

(** One step of thread [i] inside [x_semaphore_post]. *)
Definition x_semaphore_post (s : sem) (i : nat) (p : pc) (a : action) : option sem :=
  match p, a with
  | PLock, _ => lock_step s i a PTest
  | PTest, AOk =>
      if count s =? UINT_MAX then Some (goto s i POver) else Some (goto s i PInc)
  | POver, AOk => Some (release s i (Ret EOVERFLOW))
  | PInc, AOk =>
      Some (Sem (u32 (count s + 1)) (owner s) (<[i := PSignal]> (pcs s))
              (taken s) (posted s + 1))
  | PSignal, AOk =>
      if existsb is_sleeping (pcs s) then None else Some (goto s i (PUnlock 0))
  | PSignal, AWake j =>
      match pcs s !! j with
      | Some WSleep => Some (goto (goto s j WWake) i (PUnlock 0))
      | _ => None
      end
  | PSignal, AErr e => if 0 <? e then Some (goto s i (PUnlock e)) else None
  | PUnlock e, AOk => Some (release s i (Ret e))
  | _, _ => None
  end.

Definition sem_next (s : sem) (i : nat) (a : action) : option sem :=
  p ← pcs s !! i;
  match p, a with
  | (Idle | Ret _), AStart false => Some (goto s i WLock)
  | (Idle | Ret _), AStart true => Some (goto s i PLock)
  | (WLock | WTest _ | WSleep | WWake | WFail _ | WDec _ | WUnlock), _ =>
      x_semaphore_wait s i p a
  | (PLock | PTest | POver | PInc | PSignal | PUnlock _), _ =>
      x_semaphore_post s i p a
  | _, _ => None
  end.

(** [faults] says whether the pthread calls may fail. *)
Definition sem_step (faults : bool) (s s' : sem) : Prop :=
  exists i a, sem_next s i a = Some s' /\ (faults = false -> forall e, a <> AErr e).

Definition sem_reachable (faults : bool) (initial_count : Z) (threads : nat) : sem -> Prop :=
  rtc (sem_step faults) (sem_init initial_count threads).

(** ** Invariants *)

(** The mutex is held by exactly the thread whose program counter says so. *)
Definition exclusive (s : sem) : Prop :=
  (forall i p, pcs s !! i = Some p -> holds p = true -> owner s = Some i) /\
  (forall i, owner s = Some i -> exists p, pcs s !! i = Some p /\ holds p = true).

Definition in_range (init : Z) (s : sem) : Prop :=
  0 <= count s <= UINT_MAX /\ count s + taken s = init + posted s /\
  (forall i b, pcs s !! i = Some (WDec b) -> 0 < count s) /\
  (forall i, pcs s !! i = Some PInc -> count s < UINT_MAX).

(** Threads that will, without help, look at the count (or wake someone who
    will). *)
Definition credit (p : pc) : Z :=
  match p with WWake | WTest true | WDec true | PSignal => 1 | _ => 0 end.
Fixpoint credits (l : list pc) : Z :=
  match l with [] => 0 | p :: l' => credit p + credits l' end.

Definition no_stranded (s : sem) : Prop :=
  (exists i, pcs s !! i = Some WSleep) -> count s <= credits (pcs s).

Lemma credits_insert l i p q :
  l !! i = Some p -> credits (<[i := q]> l) = credits l - credit p + credit q.
Proof.
  revert i. induction l as [|x l IH]; intros [|i] H; cbn in *; [done..| |].
  - injection H as ->. lia.
  - rewrite IH by done. lia.
Qed.

Lemma credits_nonneg l : 0 <= credits l.
Proof. induction l as [|[]]; cbn in *; repeat case_match; lia. Qed.

Lemma credits_pos l : 0 < credits l -> exists i p, l !! i = Some p /\ credit p = 1.
Proof.
  induction l as [|x l IH]; cbn; [lia|]. intros H.
  destruct (decide (credit x = 0)) as [E|E].
  - destruct IH as (i & p & Hi & Hp); [lia|]. by exists (S i), p.
  - exists O, x. split; [done|]. destruct x as [| |[]| | | |[]| | | | | | | |]; done.
Qed.

(** ** One step, by cases *)

(** Turns [sem_next s i a = Some s'] into its cases, the thread's program
    counter and the new state explicit in each. *)
Ltac sem_cases H :=
  unfold sem_next in H;
  match type of H with
  | (?x ≫= _) = Some _ =>
      let p := fresh "p" in let Hp := fresh "Hp" in
      destruct x as [p|] eqn:Hp; [|discriminate H]; cbn in H;
      destruct p; try discriminate H
  end;
  unfold x_semaphore_wait, x_semaphore_post, lock_step, acquire in H;
  repeat match type of H with
  | context [match ?x with _ => _ end] => destruct x eqn:?; try discriminate H
  end;
  injection H as <-; zbool_sem
with zbool_sem :=
  repeat match goal with
  | E : (_ =? _) = true |- _ => apply Z.eqb_eq in E
  | E : (_ =? _) = false |- _ => apply Z.eqb_neq in E
  end.

Lemma pcs_insert (l : list pc) i p q j x :
  l !! i = Some p ->
  <[i := q]> l !! j = Some x <-> (i = j /\ x = q) \/ (i <> j /\ l !! j = Some x).
Proof.
  intros Hp. rewrite list_lookup_insert_Some. split.
  - intros [(-> & -> & _)|?]; auto.
  - intros [[-> ->]|?]; [left|by right]. split_and!; [done..|].
    by eapply lookup_lt_Some.
Qed.

Lemma exclusive_goto s i p q :
  pcs s !! i = Some p -> holds q = holds p -> exclusive s -> exclusive (goto s i q).
Proof.
  intros Hp Hq [H1 H2]. split; cbn.
  - intros j x. rewrite pcs_insert by done. intros [[-> ->]|[_ Hx]] Hh; [|by eauto].
    apply (H1 j p); congruence.
  - intros j Ho. destruct (H2 _ Ho) as (x & Hx & Hh). destruct (decide (i = j)) as [->|Hne].
    + exists q. rewrite pcs_insert by done. simplify_eq. split; [auto|congruence].
    + exists x. rewrite pcs_insert by done. auto.
Qed.

Lemma exclusive_release s i p q :
  pcs s !! i = Some p -> holds p = true -> holds q = false -> exclusive s ->
  exclusive (release s i q).
Proof.
  intros Hp Hhp Hhq [H1 H2]. split; cbn; [|done].
  intros j x. rewrite pcs_insert by done. intros [[-> ->]|[Hne Hx]] Hh; [congruence|].
  pose proof (H1 _ _ Hp Hhp). pose proof (H1 _ _ Hx Hh). congruence.
Qed.

Lemma exclusive_acquire s i p q :
  pcs s !! i = Some p -> owner s = None -> holds q = true -> exclusive s ->
  exclusive (Sem (count s) (Some i) (<[i := q]> (pcs s)) (taken s) (posted s)).
Proof.
  intros Hp Ho Hq [H1 H2]. split; cbn.
  - intros j x. rewrite pcs_insert by done. intros [[-> ->]|[Hne Hx]] Hh; [done|].
    rewrite (H1 _ _ Hx Hh) in Ho. done.
  - intros j [= <-]. exists q. rewrite pcs_insert by done. auto.
Qed.

Lemma exclusive_step s i a s' : sem_next s i a = Some s' -> exclusive s -> exclusive s'.
Proof.
  intros H Hx. sem_cases H.
  all: try (by eapply exclusive_goto).
  all: try (by eapply exclusive_release).
  all: try (by eapply exclusive_acquire).
  all: try (apply (exclusive_goto s i _ _ Hp eq_refl) in Hx; exact Hx).
  apply (exclusive_goto _ _ PSignal); [|done|by apply (exclusive_goto _ _ WSleep)].
  cbn. rewrite pcs_insert by done. right. split; [congruence|done].
Qed.

(** Two holders are the same thread. *)
Lemma exclusive_unique s i j p q :
  exclusive s -> pcs s !! i = Some p -> pcs s !! j = Some q ->
  holds p = true -> holds q = true -> i = j.
Proof.
  intros [H1 _] Hi Hj Hp Hq. pose proof (H1 _ _ Hi Hp). pose proof (H1 _ _ Hj Hq). congruence.
Qed.

(** Steps that leave the counters alone. *)
Lemma in_range_same init s s' :
  count s' = count s -> taken s' = taken s -> posted s' = posted s ->
  (forall j q, pcs s' !! j = Some q ->
     pcs s !! j = Some q \/ (holds q = false \/ match q with WDec _ => 0 < count s | PInc => count s < UINT_MAX | _ => True end)) ->
  in_range init s -> in_range init s'.
Proof.
  intros Hc Ht Hp Hq (H1 & H2 & H3 & H4). unfold in_range. rewrite Hc, Ht, Hp.
  split_and!; [lia..| |].
  - intros j b Hj. destruct (Hq _ _ Hj) as [?|[?|?]]; [by eapply H3|done|done].
  - intros j Hj. destruct (Hq _ _ Hj) as [?|[?|?]]; [by eapply H4|done|done].
Qed.

Lemma in_range_step init s i a s' :
  sem_next s i a = Some s' -> exclusive s -> in_range init s -> in_range init s'.
Proof.
  intros H Hx Hr. sem_cases H.
  all: try (eapply in_range_same; [..|exact Hr]; [done..|]; cbn [pcs goto release];
            intros j q; rewrite pcs_insert by done; intros [[<- ->]|[_ ?]]; [right|by left];
            first [by left | right]; destruct Hr as (? & ? & ? & ?); first [done|lia]).
  - pose proof Hr as (H1 & H2 & H3 & H4). pose proof (H3 _ _ Hp).
    unfold in_range; cbn. unfold u32, UINT_MAX in *. rewrite Z.mod_small by lia.
    split_and!; [lia..| |]; intros j; [intros b|]; rewrite pcs_insert by done;
      (intros [[_ ?]|[Hne Hj]]; [done|]); destruct Hne; by eapply exclusive_unique.
  - pose proof Hr as (H1 & H2 & H3 & H4). pose proof (H4 _ Hp).
    unfold in_range; cbn. unfold u32, UINT_MAX in *. rewrite Z.mod_small by lia.
    split_and!; [lia..| |]; intros j; [intros b|]; rewrite pcs_insert by done;
      (intros [[_ ?]|[Hne Hj]]; [done|]); destruct Hne; by eapply exclusive_unique.
  - eapply in_range_same; [..|exact Hr]; [done..|]. cbn. intros k q Hk.
    rewrite list_lookup_insert_Some in Hk. destruct Hk as [(_ & <- & _)|[_ Hk]]; [by right; right|].
    rewrite pcs_insert in Hk by done. destruct Hk as [[_ ->]|[_ ?]]; [by right; left|by left].
Qed.

Lemma no_stranded_insert s s' i p q :
  pcs s !! i = Some p -> pcs s' = <[i := q]> (pcs s) ->
  q <> WSleep \/ count s' <= 0 ->
  count s' - credit q <= count s - credit p \/ count s' <= 0 ->
  no_stranded s -> no_stranded s'.
Proof.
  intros Hp Hpcs Hq Hc Hn (j & Hj). rewrite Hpcs in Hj |- *.
  rewrite (credits_insert _ _ _ _ Hp).
  pose proof (credits_nonneg (<[i := q]> (pcs s))) as H0.
  rewrite (credits_insert _ _ _ _ Hp) in H0.
  destruct Hc as [Hc|Hc]; [|lia]. rewrite pcs_insert in Hj by done.
  destruct Hj as [[_ <-]|[_ Hj]].
  - destruct Hq; [done|]. lia.
  - assert (count s <= credits (pcs s)) by (apply Hn; eauto). lia.
Qed.

Lemma no_stranded_step init s i a s' :
  sem_next s i a = Some s' -> (forall e, a <> AErr e) -> in_range init s ->
  no_stranded s -> no_stranded s'.
Proof.
  intros H Hf Hr Hn. sem_cases H; try (by destruct (Hf e)).
  all: try (eapply no_stranded_insert; [exact Hp|reflexivity|cbn;by left..|exact Hn]; fail).
  - eapply no_stranded_insert; [exact Hp|reflexivity|right; cbn; lia..|exact Hn].
  - eapply no_stranded_insert; [exact Hp|reflexivity|by left|left; cbn; lia|exact Hn].
  - destruct Hr as (H1 & _ & H3 & _). pose proof (H3 _ _ Hp).
    eapply no_stranded_insert; [exact Hp|reflexivity|by left|left|exact Hn].
    cbn. unfold u32, UINT_MAX in *. rewrite Z.mod_small by lia. destruct woken; lia.
  - destruct Hr as (H1 & _ & _ & H4). pose proof (H4 _ Hp).
    eapply no_stranded_insert; [exact Hp|reflexivity|by left|left|exact Hn].
    cbn. unfold u32, UINT_MAX in *. rewrite Z.mod_small by lia. lia.
  - intros (j & Hj). cbn in Hj. rewrite pcs_insert in Hj by done.
    destruct Hj as [[_ ?]|[_ Hj]]; [done|]. exfalso.
    apply not_true_iff_false in Heqb. apply Heqb, existsb_exists. exists WSleep.
    split; [|done]. apply list_elem_of_In. by eapply list_elem_of_lookup_2.
  - intros _. cbn. assert (count s <= credits (pcs s)) by (apply Hn; eauto).
    rewrite (credits_insert _ _ PSignal) by (rewrite pcs_insert by done; right; split; [congruence|done]).
    rewrite (credits_insert _ _ WSleep) by done. cbn. lia.
Qed.

Lemma reachable_safe faults init threads s :
  0 <= init <= UINT_MAX -> sem_reachable faults init threads s ->
  exclusive s /\ in_range init s.
Proof.
  intros Hi Hr. apply (rtc_ind_r (R := sem_step faults) (fun s => exclusive s /\ in_range init s)
    (sem_init init threads)); [| |exact Hr].
  - assert (forall j q, replicate threads Idle !! j = Some q -> q = Idle) as Hidle.
    { intros j q Hq. by apply lookup_replicate in Hq as [? _]. }
    split; [split; cbn; [|done]|split_and!; cbn; [lia..| |]].
    + intros j q Hq. by rewrite (Hidle _ _ Hq).
    + intros j b Hq. by apply Hidle in Hq.
    + intros j Hq. by apply Hidle in Hq.
  - intros s1 s2 _ (i & a & Hs & _) [Hx Hin]. split.
    + by eapply exclusive_step.
    + by eapply in_range_step.
Qed.

Lemma reachable_no_stranded init threads s :
  0 <= init <= UINT_MAX -> sem_reachable false init threads s -> no_stranded s.
Proof.
  intros Hi Hr. apply (rtc_ind_r (R := sem_step false) no_stranded (sem_init init threads)); [| |exact Hr].
  - intros (j & Hj). apply lookup_replicate in Hj as [? _]. done.
  - intros s1 s2 H1 (i & a & Hs & Hf) Hn. eapply no_stranded_step; [done| | |done].
    + by apply Hf.
    + by eapply (reachable_safe false init threads).
Qed.

(** ** Theorems *)


(** What a thread can do without a new call and without a spurious wakeup. *)
Definition can_proceed (s : sem) : Prop :=
  exists i a s', sem_next s i a = Some s' /\ (forall b, a <> AStart b) /\
    (forall e, a <> AErr e) /\ a <> ASpurious.

(** The holder of the mutex can always go on. *)
Lemma holder_proceeds s i p : pcs s !! i = Some p -> holds p = true -> can_proceed s.
Proof.
  intros Hp Hh.
  assert (forall a s', sem_next s i a = Some s' ->
    (forall b, a <> AStart b) /\ (forall e, a <> AErr e) /\ a <> ASpurious ->
    can_proceed s) as Hgo by (intros a s' ? (? & ? & ?); by exists i, a, s').
  destruct p; try discriminate Hh;
    try (eapply (Hgo AOk); [unfold sem_next; rewrite Hp; reflexivity|done]).
  - destruct (count s =? 0) eqn:E;
      (eapply (Hgo AOk); [unfold sem_next; rewrite Hp; cbn; rewrite E; reflexivity|done]).
  - destruct (count s =? UINT_MAX) eqn:E;
      (eapply (Hgo AOk); [unfold sem_next; rewrite Hp; cbn; rewrite E; reflexivity|done]).
  - destruct (existsb is_sleeping (pcs s)) eqn:E.
    + apply existsb_exists in E as (q & Hq & Hs). destruct q; try discriminate Hs.
      apply list_elem_of_In, list_elem_of_lookup_1 in Hq as [j Hj].
      eapply (Hgo (AWake j)); [unfold sem_next; rewrite Hp; cbn; rewrite Hj; reflexivity|done].
    + eapply (Hgo AOk); [unfold sem_next; rewrite Hp; cbn; rewrite E; reflexivity|done].
Qed.


(** ** Examples: executions as schedules *)

Fixpoint sem_run (s : sem) (l : list (nat * action)) : option sem :=
  match l with
  | [] => Some s
  | (i, a) :: l' => s' ← sem_next s i a; sem_run s' l'
  end.

Definition fault_free (a : action) : bool := match a with AErr _ => false | _ => true end.

Lemma sem_run_rtc l s s' :
  forallb (fun x => fault_free x.2) l = true -> sem_run s l = Some s' ->
  rtc (sem_step false) s s'.
Proof.
  revert s. induction l as [|[i a] l IH]; cbn; intros s Hf H.
  - injection H as ->. apply rtc_refl.
  - apply andb_true_iff in Hf as [Ha Hf].
    destruct (sem_next s i a) as [s1|] eqn:E; [|done].
    eapply rtc_l; [|by apply IH]. exists i, a. split; [done|]. intros _ e ->. done.
Qed.

(** Thread 0 waits and sleeps, thread 1 has posted but not yet signalled. *)
Definition asleep_schedule : list (nat * action) :=
  [(0, AStart false); (0, AOk); (0, AOk); (1, AStart true); (1, AOk); (1, AOk); (1, AOk)]%nat.

Definition asleep : sem := Sem 1 (Some 1%nat) [WSleep; PSignal] 0 1.

Lemma asleep_reachable : sem_reachable false 0 2 asleep.
Proof. by apply (sem_run_rtc asleep_schedule). Qed.

(** The whole exchange: both calls return 0 and the count is back to 0. *)
Example handover :
  sem_run (sem_init 0 2)
    (asleep_schedule ++ [(1, AWake 0); (1, AOk); (0, AOk); (0, AOk); (0, AOk); (0, AOk)])%nat
  = Some (Sem 0 None [Ret 0; Ret 0] 1 1).
Proof. reflexivity. Qed.


