(* ===== verification/SemaphoreSpec.v ===== *)
(** * The counting semaphore against its specification

    What callers may rely on: each call of [x_semaphore_wait] and
    [x_semaphore_post] takes effect at one instant between its call and its
    return, on a number that is never negative and never above UINT_MAX.  The
    machine of XSemaphore.v, with its mutex and condition, refines it. *)
From S2P Require Import Prelude XSemaphore.

(** What a caller sees of its thread. *)
Inductive view :=
  | VIdle                 (* no call in progress *)
  | VPending (post : bool) (* called, without effect so far *)
  | VAdded                (* a post that added its permit, its result still open *)
  | VResult (rc : Z)      (* the call had its effect, or none, and will return rc *)
  | VReturned (rc : Z).

Record spec := Spec { value : Z; views : list view }.

(** One thread, the value before and after, its view before and after. *)
Inductive view_step (faults : bool) : Z -> Z -> view -> view -> Prop :=
  | view_call n v post : v = VIdle \/ (exists rc, v = VReturned rc) ->
      view_step faults n n v (VPending post)
  | view_take n : 0 < n -> view_step faults n (n - 1) (VPending false) (VResult 0)
  | view_add n : n < UINT_MAX -> view_step faults n (n + 1) (VPending true) VAdded
  | view_full : view_step faults UINT_MAX UINT_MAX (VPending true) (VResult EOVERFLOW)
  | view_added n : view_step faults n n VAdded (VResult 0)
  | view_fail n v e : faults = true -> 0 < e -> v = VAdded \/ (exists post, v = VPending post) ->
      view_step faults n n v (VResult e)
  | view_return n rc : view_step faults n n (VResult rc) (VReturned rc).

Definition spec_step (faults : bool) (S S' : spec) : Prop :=
  exists i v v', views S !! i = Some v /\ view_step faults (value S) (value S') v v' /\
    views S' = <[i := v']> (views S).

Definition spec_init (initial_count : Z) (threads : nat) : spec :=
  Spec initial_count (replicate threads VIdle).

(** The caller's view of a program counter and of a state. *)
Definition view_of (p : pc) : view :=
  match p with
  | Idle => VIdle
  | WLock | WTest _ | WSleep | WWake | WDec _ => VPending false
  | PLock | PTest | PInc => VPending true
  | WFail e => VResult e
  | WUnlock => VResult 0
  | POver => VResult EOVERFLOW
  | PSignal => VAdded
  | PUnlock e => VResult e
  | Ret rc => VReturned rc
  end.
Definition spec_of (s : sem) : spec := Spec (count s) (view_of <$> pcs s).

(** A step of thread [i] from [p] to [q] that is a step of the specification. *)
Lemma spec_of_step faults s i p q n s' :
  pcs s !! i = Some p -> count s' = n -> pcs s' = <[i := q]> (pcs s) ->
  view_step faults (count s) n (view_of p) (view_of q) ->
  rtc (spec_step faults) (spec_of s) (spec_of s').
Proof.
  intros Hp <- Hpcs Hv. apply rtc_once. exists i, (view_of p), (view_of q). cbn.
  rewrite list_lookup_fmap, Hp. split_and!; [done..|]. by rewrite Hpcs, list_fmap_insert.
Qed.

Lemma spec_of_stutter faults s s' :
  count s' = count s -> view_of <$> pcs s' = view_of <$> pcs s ->
  rtc (spec_step faults) (spec_of s) (spec_of s').
Proof. intros Hc Hv. unfold spec_of. by rewrite Hc, Hv. Qed.

Lemma views_same (l : list pc) i p q :
  l !! i = Some p -> view_of q = view_of p -> view_of <$> <[i := q]> l = view_of <$> l.
Proof.
  intros Hp Hq. rewrite list_fmap_insert, Hq. apply list_insert_id.
  by rewrite list_lookup_fmap, Hp.
Qed.

(** A lock that fails: the call fails and returns. *)
Lemma spec_of_refused s i p e s' :
  pcs s !! i = Some p -> count s' = count s -> pcs s' = <[i := Ret e]> (pcs s) ->
  0 < e -> (exists post, view_of p = VPending post) ->
  rtc (spec_step true) (spec_of s) (spec_of s').
Proof.
  intros Hp Hc Hpcs He Hv. apply (rtc_l _ _ (Spec (count s) (<[i := VResult e]> (view_of <$> pcs s)))).
  - exists i, (view_of p), (VResult e). cbn. rewrite list_lookup_fmap, Hp.
    split_and!; [done| |done]. apply view_fail; auto.
  - apply rtc_once. exists i, (VResult e), (VReturned e). cbn.
    rewrite list_lookup_insert_eq by (rewrite length_fmap; by eapply lookup_lt_Some).
    split_and!; [done|rewrite Hc; constructor|].
    by rewrite Hpcs, list_fmap_insert, list_insert_insert_eq.
Qed.

Lemma sem_next_refines faults init s i a s' :
  sem_next s i a = Some s' -> (faults = false -> forall e, a <> AErr e) ->
  in_range init s -> rtc (spec_step faults) (spec_of s) (spec_of s').
Proof.
  intros H Hf Hr.
  assert (forall e, a = AErr e -> faults = true) as Hfault.
  { intros e ->. destruct faults; [done|]. by destruct (Hf eq_refl e). }
  sem_cases H; try (rewrite (Hfault _ eq_refl); clear Hf Hfault).
  all: try (apply spec_of_stutter; [done|cbn; by eapply views_same]).
  all: try (by eapply spec_of_refused; [exact Hp|done|done|lia|eexists]).
  all: try (eapply spec_of_step; [exact Hp|reflexivity..|cbn; constructor; eauto; lia]; fail).
  - destruct Hr as (H1 & _ & H3 & _). pose proof (H3 _ _ Hp).
    eapply spec_of_step; [exact Hp|reflexivity..|]. cbn. unfold u32, UINT_MAX in *.
    rewrite Z.mod_small by lia. by constructor.
  - eapply spec_of_step; [exact Hp|reflexivity..|]. cbn. rewrite Heqb. constructor.
  - destruct Hr as (H1 & _ & _ & H4). pose proof (H4 _ Hp).
    eapply spec_of_step; [exact Hp|reflexivity..|]. cbn. unfold u32, UINT_MAX in *.
    rewrite Z.mod_small by lia. by constructor.
  - assert (i <> j) by congruence.
    assert (spec_of (goto s j WWake) = spec_of s) as <-.
    { unfold spec_of. cbn. f_equal. by eapply views_same. }
    apply (spec_of_step _ (goto s j WWake) i PSignal (PUnlock 0) (count s)); [|done|done|constructor].
    cbn. by rewrite list_lookup_insert_ne.
Qed.

Lemma spec_of_init initial_count threads : spec_of (sem_init initial_count threads) = spec_init initial_count threads.
Proof. unfold spec_of, sem_init, spec_init. cbn. by rewrite fmap_replicate. Qed.

(** A run of the machine is a run of the specification. *)
Lemma sem_step_refines faults init threads s s' :
  0 <= init <= UINT_MAX -> sem_reachable faults init threads s -> sem_step faults s s' ->
  rtc (spec_step faults) (spec_of s) (spec_of s').
Proof.
  intros Hi Hr (i & a & Ha & Hf). eapply sem_next_refines; [exact Ha|exact Hf|].
  by eapply reachable_safe.
Qed.

Lemma sem_run_refines faults init threads s :
  0 <= init <= UINT_MAX -> sem_reachable faults init threads s ->
  rtc (spec_step faults) (spec_init init threads) (spec_of s).
Proof.
  intros Hi Hr. rewrite <- spec_of_init.
  apply (rtc_ind_r (R := sem_step faults) (fun s => rtc (spec_step faults)
    (spec_of (sem_init init threads)) (spec_of s)) (sem_init init threads)); [constructor| |exact Hr].
  intros s1 s2 H1 Hs IH. etrans; [exact IH|by eapply sem_step_refines].
Qed.

(** C28. ** Theorems *)


(** The value of the specification stays in the range of an unsigned int. *)
Lemma spec_in_range faults init threads S :
  0 <= init <= UINT_MAX -> rtc (spec_step faults) (spec_init init threads) S -> 0 <= value S <= UINT_MAX.
Proof.
  intros Hi. apply (rtc_ind_r (R := spec_step faults) (fun S => 0 <= value S <= UINT_MAX)); [done|].
  intros S1 S2 _ (i & v & v' & _ & Hv & _) IH. destruct Hv; lia.
Qed.

