(* ===== verification/WinThread.v ===== *)
(** * Threads and synchronisation on Windows (src/x_thread.c, Windows build)

    A plain mutex is an SRW lock, which needs no destruction; a recursive mutex
    and a semaphore's mutex are critical sections, which do.  A thread's handle is
    owned by its structure whether or not it was joined.  The last section has the
    semaphore's operations as interleaved steps. *)
From S2P Require Import Prelude Syscalls Structs Machine Contract DemoOS WinBase.
From S2P Require XSemaphore SemaphoreSpec.

Definition x_thread_error_from_windows (error : Z) : Z :=
  if (error =? ERROR_NOT_ENOUGH_MEMORY) || (error =? ERROR_OUTOFMEMORY) then ENOMEM
  else if error =? ERROR_INVALID_PARAMETER then EINVAL
  else EAGAIN.

Definition x_thread_error_from_wait_result (result : bool) : Z := if result then 0 else EINVAL.

Lemma x_thread_error_pos e : 0 < x_thread_error_from_windows e.
Proof. unfold x_thread_error_from_windows. by repeat case_match. Qed.
#[export] Hint Resolve x_thread_error_pos : xlib.

Section Thread.
Context {os : OS}.

(** ** Threads *)

Definition x_thread_create (thread : bool) (function : Z) (data : ptr) : M (Z * option ptr) :=
  if negb thread || (function =? NULL) then mret (EINVAL, None)
  else
    created ← calloc 40 (WinThread 0 NULL 0 false 0 0);
    if created =? NULL then mret (ENOMEM, Some NULL)
    else
      modify win_thread created (fun t =>
        WinThread function data (wt_result t) (wt_joined t) (wt_handle t) (wt_id t));;
      r ← win (CreateThread created);
      modify win_thread created (fun t =>
        WinThread (wt_function t) (wt_data t) (wt_result t) (wt_joined t) r.1 r.2);;
      if r.1 =? NULL then
        error ← GetLastError; free created;; mret (x_thread_error_from_windows error, Some NULL)
      else mret (0, Some created).

(** The new thread, and the exit code Windows keeps for it. *)
Definition x_thread_entry (call : Z -> ptr -> M Z) (parameter : ptr) : M Z :=
  t ← load win_thread parameter;
  result ← call (wt_function t) (wt_data t);
  modify win_thread parameter (fun t =>
    WinThread (wt_function t) (wt_data t) result (wt_joined t) (wt_handle t) (wt_id t));;
  t ← load win_thread parameter;
  mret (u32 (wt_result t)).

Definition x_thread_join (thread : ptr) (result : bool) : M (Z * option Z) :=
  if thread =? NULL then mret (EINVAL, None)
  else
    t ← load win_thread thread;
    if wt_joined t then mret (EINVAL, None)
    else
      r ← win (WaitForSingleObject (wt_handle t) INFINITE);
      if negb (r =? WAIT_OBJECT_0) then mret (EINVAL, None)
      else
        modify win_thread thread (fun t =>
          WinThread (wt_function t) (wt_data t) (wt_result t) true (wt_handle t) (wt_id t));;
        t ← load win_thread thread;
        mret (0, if result then Some (wt_result t) else None).

Definition x_thread_destroy (thread : ptr) : M unit :=
  if thread =? NULL then mret tt
  else
    t ← load win_thread thread;
    win_ (CloseHandle (wt_handle t));;
    free thread.

(** ** Mutexes *)

Definition x_mutex_create_with_type (mutex : bool) (recursive : bool) : M (Z * option ptr) :=
  if negb mutex then mret (EINVAL, None)
  else
    created ← calloc 56 (WinMutex false);
    if created =? NULL then mret (ENOMEM, Some NULL)
    else
      store created (WinMutex recursive);;
      (if recursive then win_ (InitializeCriticalSection created)
       else win_ (InitializeSRWLock created));;
      mret (0, Some created).

Definition x_mutex_lock (mutex : ptr) : M Z :=
  if mutex =? NULL then mret EINVAL
  else
    m ← load win_mutex mutex;
    (if wm_recursive m then win_ (EnterCriticalSection mutex)
     else win_ (AcquireSRWLockExclusive mutex));;
    mret 0.

Definition x_mutex_try_lock (mutex : ptr) : M Z :=
  if mutex =? NULL then mret EINVAL
  else
    m ← load win_mutex mutex;
    r ← (if wm_recursive m then win (TryEnterCriticalSection mutex)
         else win (TryAcquireSRWLockExclusive mutex));
    mret (if r : bool then 0 else EBUSY).

Definition x_mutex_unlock (mutex : ptr) : M Z :=
  if mutex =? NULL then mret EINVAL
  else
    m ← load win_mutex mutex;
    (if wm_recursive m then win_ (LeaveCriticalSection mutex)
     else win_ (ReleaseSRWLockExclusive mutex));;
    mret 0.

Definition x_mutex_destroy (mutex : ptr) : M unit :=
  if mutex =? NULL then mret tt
  else
    m ← load win_mutex mutex;
    (if wm_recursive m then win_ (DeleteCriticalSection mutex) else mret tt);;
    free mutex.

(** ** Conditions *)

Definition x_condition_create (condition : bool) : M (Z * option ptr) :=
  if negb condition then mret (EINVAL, None)
  else
    created ← calloc 8 (WinCondition tt);
    if created =? NULL then mret (ENOMEM, Some NULL)
    else win_ (InitializeConditionVariable created);; mret (0, Some created).

Definition x_condition_wait (condition mutex : ptr) : M Z :=
  if (condition =? NULL) || (mutex =? NULL) then mret EINVAL
  else
    load win_condition condition;;
    m ← load win_mutex mutex;
    r ← (if wm_recursive m then win (SleepConditionVariableCS condition mutex INFINITE)
         else win (SleepConditionVariableSRW condition mutex INFINITE 0));
    mret (x_thread_error_from_wait_result r).

Definition x_condition_signal (condition : ptr) : M Z :=
  if condition =? NULL then mret EINVAL
  else load win_condition condition;; win_ (WakeConditionVariable condition);; mret 0.
Definition x_condition_broadcast (condition : ptr) : M Z :=
  if condition =? NULL then mret EINVAL
  else load win_condition condition;; win_ (WakeAllConditionVariable condition);; mret 0.
Definition x_condition_destroy (condition : ptr) : M unit :=
  if condition =? NULL then mret tt
  else load win_condition condition;; free condition.

(** ** Semaphore objects and thread-local keys *)

Definition x_semaphore_create (semaphore : bool) (initial_count : Z) : M (Z * option ptr) :=
  if negb semaphore then mret (EINVAL, None)
  else
    created ← calloc 56 (WinSemaphore 0);
    if created =? NULL then mret (ENOMEM, Some NULL)
    else
      store created (WinSemaphore initial_count);;
      win_ (InitializeCriticalSection created);;
      win_ (InitializeConditionVariable created);;
      mret (0, Some created).

Definition x_semaphore_destroy (semaphore : ptr) : M unit :=
  if semaphore =? NULL then mret tt
  else load win_semaphore semaphore;; win_ (DeleteCriticalSection semaphore);; free semaphore.

Definition x_tls_key_create (key : bool) : M (Z * option ptr) :=
  if negb key then mret (EINVAL, None)
  else
    created ← calloc 4 (WinTlsKey 0);
    if created =? NULL then mret (ENOMEM, Some NULL)
    else
      handle ← win TlsAlloc;
      store created (WinTlsKey handle);;
      if handle =? TLS_OUT_OF_INDEXES then free created;; mret (EAGAIN, Some NULL)
      else mret (0, Some created).

Definition x_tls_set (key value : ptr) : M Z :=
  if key =? NULL then mret EINVAL
  else
    k ← load win_tls_key key;
    r ← win (TlsSetValue (wk_handle k) value);
    mret (if r : bool then 0 else EINVAL).
Definition x_tls_get (key : ptr) : M ptr :=
  if key =? NULL then mret NULL
  else k ← load win_tls_key key; win (TlsGetValue (wk_handle k)).
Definition x_tls_key_destroy (key : ptr) : M unit :=
  if key =? NULL then mret tt
  else k ← load win_tls_key key; win_ (TlsFree (wk_handle k));; free key.
End Thread.

(** ** Ownership *)

Section Ownership.
Context {os : OS}.

(** A destructor's proof: run it, then compare what is held. *)
Ltac win_close :=
  intros; match goal with H : ?p <> NULL |- _ => rewrite (proj2 (Z.eqb_neq p NULL) H) end;
  win_run; match goal with H : forall e' t', _ -> _ |- _ => apply H end;
  cbn [held releases acquires win32_releases win32_acquires];
  by rewrite ?res_diff_empty, ?res_union_empty.

#[export] Program Instance win_thread_handle : Handle win_thread := {|
  h_res _ x := {[ (KHandle, wt_handle x) ]}; h_close := x_thread_destroy |}.
Next Obligation. done. Qed.
Next Obligation. unfold x_thread_destroy. win_close. Qed.

#[export] Program Instance win_mutex_handle : Handle win_mutex := {|
  h_res p x := if wm_recursive x then {[ (KCrit, p) ]} else ∅; h_close := x_mutex_destroy |}.
Next Obligation. done. Qed.
Next Obligation. intros md p [[]]; unfold x_mutex_destroy; cbn [wm_recursive]; win_close. Qed.

#[export] Program Instance win_condition_handle : Handle win_condition := {|
  h_res _ _ := ∅; h_close := x_condition_destroy |}.
Next Obligation. done. Qed.
Next Obligation. unfold x_condition_destroy. win_close. Qed.

#[export] Program Instance win_semaphore_handle : Handle win_semaphore := {|
  h_res p _ := {[ (KCrit, p) ]}; h_close := x_semaphore_destroy |}.
Next Obligation. done. Qed.
Next Obligation. unfold x_semaphore_destroy. win_close. Qed.

#[export] Program Instance win_tls_key_handle : Handle win_tls_key := {|
  h_res _ k := {[ (KTlsIndex, wk_handle k) ]}; h_close := x_tls_key_destroy |}.
Next Obligation. done. Qed.
Next Obligation. unfold x_tls_key_destroy. win_close. Qed.
End Ownership.

(** ** Contracts *)

Section Contracts.
Context {os : OS}.

(** No critical section lives in free memory: the program's own invariant
    between calls. *)
Definition sync_clean (s : st) : Prop :=
  forall p, hp s !! p = None -> (KCrit, p) ∉ held (tr s).

Lemma wp_win_thread_create function data md e h t Q :
  (forall r s', constructor_post (fun x => wt_function x = function /\ wt_data x = data /\
      wt_joined x = false) (St e h t) r s' -> Q r s') ->
  wp md (x_thread_create true function data) Q (St e h t).
Proof.
  intros HQ. unfold x_thread_create. win_run; apply HQ; try solve [win_fail].
  by ctor_ok (WinThread function data 0 false r.1 r.2).
Qed.

(** Runs a constructor under [sync_clean]; [x] is the object it builds. *)
Ltac sync_ctor x :=
  match goal with s : st |- _ => destruct s as [e h t] end;
  let Hs := fresh in intros Hs; unfold sync_clean in Hs; cbn [hp tr] in Hs;
  win_run;
  try match goal with Hn : _ !! _ = None |- _ => pose proof (Hs _ Hn) end;
  first [win_fail; fail | ctor_ok x; done].

Lemma win_mutex_create_post b s :
  sync_clean s ->
  wp Total (x_mutex_create_with_type true b)
    (constructor_post (fun x => wm_recursive x = b) s) s.
Proof. unfold x_mutex_create_with_type. destruct b; [sync_ctor (WinMutex true)|sync_ctor (WinMutex false)]. Qed.

Lemma win_condition_create_post s :
  sync_clean s ->
  wp Total (x_condition_create true) (constructor_post (fun _ : win_condition => True) s) s.
Proof. unfold x_condition_create. sync_ctor (WinCondition tt). Qed.

Lemma win_semaphore_create_post n s :
  sync_clean s ->
  wp Total (x_semaphore_create true n) (constructor_post (fun x => ws_count x = n) s) s.
Proof. unfold x_semaphore_create. sync_ctor (WinSemaphore n). Qed.

Lemma win_tls_key_create_post s :
  wp Total (x_tls_key_create true) (constructor_post (fun _ : win_tls_key => True) s) s.
Proof.
  destruct s as [e h t]. unfold x_tls_key_create. win_run; try solve [win_fail].
  destruct Hpost as [?|[? Hr]]; [done|].
  heap_simpl. eapply (constructor_ok _ _ _ _ _ (WinTlsKey r));
    [done|done|held_simpl; by rewrite got_ok|cbn in *; set_solver|done].
Qed.
End Contracts.

(** ** Theorems *)

Section Theorems.
Context {os : OS}.

(** Making and destroying a mutex of either kind, a condition, a semaphore or a
    thread-local key gives everything back: a critical section is deleted exactly
    when one was made. *)
Theorem win_sync_objects_lifecycle recursive n s :
  sync_clean s ->
  let restored := fun (_ : Z) s' => hp s' = hp s /\ held (tr s') = held (tr s) in
  wp Total (bracket (T := win_mutex) (x_mutex_create_with_type true recursive)) restored s /\
  wp Total (bracket (T := win_condition) (x_condition_create true)) restored s /\
  wp Total (bracket (T := win_semaphore) (x_semaphore_create true n)) restored s /\
  wp Total (bracket (T := win_tls_key) (x_tls_key_create true)) restored s.
Proof.
  intros Hs. split_and!; eapply bracket_restores.
  - by apply win_mutex_create_post.
  - by apply win_condition_create_post.
  - by apply win_semaphore_create_post.
  - by apply win_tls_key_create_post.
Qed.

(** A thread from creation to destruction, in the order the join imposes. *)
Definition thread_run (call : Z -> ptr -> M Z) (function : Z) (data : ptr)
    : M (Z * option Z) :=
  r ← x_thread_create true function data;
  if negb (r.1 =? 0) then mret (r.1, None)
  else
    let thread := default NULL r.2 in
    x_thread_entry call thread;;
    j ← x_thread_join thread true;
    x_thread_destroy thread;;
    mret j.

(** The result of the thread's function reaches the joiner, and neither memory
    nor the handle is left, also when creating or joining fails. *)
Theorem win_thread_run_result call function data v s :
  (forall e h t Q, (forall s', keeps (St e h t) s' -> Q v s') ->
     wp Total (call function data) Q (St e h t)) ->
  wp Total (thread_run call function data)
    (fun r s' => hp s' = hp s /\ held (tr s') = held (tr s) /\
       (r = (0, Some v) \/ (0 < r.1 /\ r.2 = None))) s.
Proof.
  destruct s as [e h t]. intros Hcall. unfold thread_run. wp_step.
  apply wp_win_thread_create. intros [rc out] [e1 h1 t1]
    [(Hrc & p & x & Ho & Hpos & Hnew & Hh & Ht & Hd & Hf & Hda & Hj)|(Hrc & Ho & Hh & Ht)];
    proj_simpl; subst.
  2: { wp_run. split_and!; [done..|]. right. by split. }
  wp_run. unfold x_thread_entry. cbn [default from_option id]. wp_run.
  apply Hcall. intros [e2 h2 t2] [Hh2 Ht2]. proj_simpl. subst h2.
  apply inert_ext_held in Ht2. wp_run. unfold x_thread_join, x_thread_destroy.
  destruct x as [f d r j hd id]; cbn in *. subst j.
  do 4 win_step; [done|]. win_step; cbn [wt_joined]. win_run; heap_simpl; cbn [wt_handle];
    (split; [done|split; [|first [right; by split | by left]]]);
    held_simpl; rewrite Ht2, Ht; apply held_undo; set_solver.
Qed.
End Theorems.

(** ** The counting semaphore

    The operations as interleaved steps, on the state of XSemaphore.v: entering a
    critical section cannot fail, and sleeping fails only with [EINVAL]. *)
Import XSemaphore SemaphoreSpec.

Definition enter_step (s : sem) (i : nat) (a : action) (next : pc) : option sem :=
  match a with AOk => acquire s i next | _ => None end.

Definition x_semaphore_wait (s : sem) (i : nat) (p : pc) (a : action) : option sem :=
  match p, a with
  | WLock, _ => enter_step s i a (WTest false)
  | WTest b, AOk =>
      if count s =? 0 then Some (release s i WSleep) else Some (goto s i (WDec b))
  | WTest _, AErr e =>
      if (count s =? 0) && (e =? EINVAL) then Some (goto s i (WFail EINVAL)) else None
  | WSleep, ASpurious => Some (goto s i WWake)
  | WWake, AOk => acquire s i (WTest true)
  | WFail e, AOk => Some (release s i (Ret e))
  | WDec _, AOk =>
      Some (Sem (u32 (count s - 1)) (owner s) (<[i := WUnlock]> (pcs s))
              (taken s + 1) (posted s))
  | WUnlock, AOk => Some (release s i (Ret 0))
  | _, _ => None
  end.

Definition x_semaphore_post (s : sem) (i : nat) (p : pc) (a : action) : option sem :=
  match p, a with
  | PLock, _ => enter_step s i a PTest
  | PTest, AOk =>
      if count s =? UINT_MAX then Some (goto s i POver) else Some (goto s i PInc)
  | POver, AOk => Some (release s i (Ret EOVERFLOW))
  | PInc, AOk =>
      Some (Sem (u32 (count s + 1)) (owner s) (<[i := PSignal]> (pcs s))
              (taken s) (posted s + 1))
  | PSignal, AOk =>
      if existsb is_sleeping (pcs s) then None else Some (goto s i (PUnlock 0))
  | PSignal, AWake j =>
      match pcs s !! j with
      | Some WSleep => Some (goto (goto s j WWake) i (PUnlock 0))
      | _ => None
      end
  | PUnlock e, AOk => Some (release s i (Ret e))
  | _, _ => None
  end.

Definition win_sem_next (s : sem) (i : nat) (a : action) : option sem :=
  p ← pcs s !! i;
  match p, a with
  | (Idle | Ret _), AStart false => Some (goto s i WLock)
  | (Idle | Ret _), AStart true => Some (goto s i PLock)
  | (WLock | WTest _ | WSleep | WWake | WFail _ | WDec _ | WUnlock), _ =>
      x_semaphore_wait s i p a
  | (PLock | PTest | POver | PInc | PSignal | PUnlock _), _ =>
      x_semaphore_post s i p a
  | _, _ => None
  end.

Definition win_sem_step (s s' : sem) : Prop := exists i a, win_sem_next s i a = Some s'.
Definition win_sem_reachable (init : Z) (threads : nat) : sem -> Prop :=
  rtc win_sem_step (sem_init init threads).

(** Every step of the Windows operations is a step of the POSIX ones. *)
Lemma win_sem_simulated s i a s' : win_sem_next s i a = Some s' -> sem_next s i a = Some s'.
Proof.
  unfold win_sem_next, sem_next. destruct (pcs s !! i) as [p|]; cbn; [|done].
  destruct p, a; try done; cbn.
  destruct ((count s =? 0)) eqn:Ec; cbn; [|done].
  destruct (Z.eqb_spec e EINVAL) as [->|]; [|done]. by intros [= <-].
Qed.

Lemma win_sem_reachable_sim init threads s :
  win_sem_reachable init threads s -> sem_reachable true init threads s.
Proof.
  apply (rtc_congruence (R := win_sem_step) id). intros x y (i & a & Hn). exists i, a.
  split; [by apply win_sem_simulated|done].
Qed.

(** The codes a thread has returned, or is about to. *)
Definition win_code (p : pc) : Prop :=
  match p with
  | Ret rc => rc = 0 \/ rc = EINVAL \/ rc = EOVERFLOW
  | WFail e => e = EINVAL
  | PUnlock e => e = 0
  | _ => True
  end.

Lemma win_step_codes s s' :
  win_sem_step s s' -> (forall i p, pcs s !! i = Some p -> win_code p) ->
  forall i p, pcs s' !! i = Some p -> win_code p.
Proof.
  intros (i & a & Hn) H0. unfold win_sem_next in Hn.
  destruct (pcs s !! i) as [q|] eqn:Hq; [|done].
  pose proof (H0 _ _ Hq) as Hcode. cbn in Hn.
  assert (forall (l : list pc) k r, (forall m u, l !! m = Some u -> win_code u) -> win_code r ->
            forall m u, <[k := r]> l !! m = Some u -> win_code u) as Hins.
  { intros l k r Hl Hr m u [(-> & <- & _)|[_ ?]]%list_lookup_insert_Some; eauto. }
  destruct q, a; try done; cbn in Hn; unfold acquire in Hn;
    repeat case_match; simplify_eq; cbn [pcs goto release]; repeat apply Hins; try done;
    cbn in *; subst; auto.
Qed.

(** The semaphore on Windows, under every interleaving: at most one thread is in
    a critical section, the count stays an unsigned int and is the initial count
    plus the posts minus the takes, and a call returns 0, [EINVAL] or [EOVERFLOW]. *)
Theorem win_semaphore_safe init threads s :
  0 <= init <= UINT_MAX -> win_sem_reachable init threads s ->
  (forall i j p q, pcs s !! i = Some p -> pcs s !! j = Some q ->
     holds p = true -> holds q = true -> i = j) /\
  0 <= count s <= UINT_MAX /\ count s = init + posted s - taken s /\
  (forall i rc, pcs s !! i = Some (Ret rc) -> rc = 0 \/ rc = EINVAL \/ rc = EOVERFLOW).
Proof.
  intros Hi Hr.
  destruct (reachable_safe _ _ _ _ Hi (win_sem_reachable_sim _ _ _ Hr)) as [Hx (H1 & H2 & _)].
  split_and!; [|lia..|].
  - intros i j p q Hp Hq Hhp Hhq. by eapply exclusive_unique.
  - assert (forall i p, pcs s !! i = Some p -> win_code p) as Hc; [|intros i rc Hp; exact (Hc _ _ Hp)].
    apply (rtc_ind_r (R := win_sem_step) (fun s => forall i p, pcs s !! i = Some p -> win_code p)
             (sem_init init threads)); [|intros y z _ Hyz IH; by eapply win_step_codes|done].
    cbn. intros i p Hp. by apply lookup_replicate in Hp as [-> _].
Qed.

(** The Windows semaphore refines the specification of the POSIX one. *)
Theorem win_semaphore_refines init threads s :
  0 <= init <= UINT_MAX -> win_sem_reachable init threads s ->
  rtc (spec_step true) (spec_init init threads) (spec_of s).
Proof. intros Hi Hr. by eapply sem_run_refines, win_sem_reachable_sim. Qed.

(** ** Examples *)

Lemma win_sync_objects_lifecycle_witness :
  let os := nomem_os in
  let restored := fun (_ : Z) s' => hp s' = hp st0 /\ held (tr s') = held (tr st0) in
  wp Total (bracket (T := win_mutex) (x_mutex_create_with_type true true)) restored st0 /\
  wp Total (bracket (T := win_condition) (x_condition_create true)) restored st0 /\
  wp Total (bracket (T := win_semaphore) (x_semaphore_create true 3)) restored st0 /\
  wp Total (bracket (T := win_tls_key) (x_tls_key_create true)) restored st0.
Proof.
  apply (win_sync_objects_lifecycle (os := nomem_os) true 3 st0).
  intros ? _. apply not_elem_of_empty.
Defined.

Lemma win_thread_run_result_witness :
  wp Total (thread_run (os := calm_os) (fun _ data => mret (data + 1)) 7 41)
    (fun r s' => hp s' = hp st0 /\ held (tr s') = held (tr st0) /\
       (r = (0, Some 42) \/ (0 < r.1 /\ r.2 = None))) st0.
Proof.
  apply (win_thread_run_result (os := calm_os)). intros e h t Q HQ. apply HQ, keeps_refl.
Defined.

(** Two threads: one waits and sleeps, the other posts. *)
Definition one_post : option sem :=
  let steps := [(0%nat, AStart false); (0%nat, AOk); (0%nat, AOk); (1%nat, AStart true); (1%nat, AOk);
                (1%nat, AOk); (1%nat, AOk); (1%nat, AWake 0); (1%nat, AOk)] in
  foldl (fun s '(i, a) => s ← s; win_sem_next s i a) (Some (sem_init 0 2)) steps.

Lemma foldl_reachable init threads steps s0 s :
  win_sem_reachable init threads s0 ->
  foldl (fun s '(i, a) => s ← s; win_sem_next s i a) (Some s0) steps = Some s ->
  win_sem_reachable init threads s.
Proof.
  revert s0. induction steps as [|[i a] steps IH]; intros s0 H0 H; cbn in H; [by simplify_eq|].
  destruct (win_sem_next s0 i a) as [s1|] eqn:E.
  - eapply IH; [|exact H]. eapply rtc_r; [exact H0|]. by exists i, a.
  - exfalso. clear -H. induction steps as [|[? ?] steps IH]; cbn in H; [done|auto].
Qed.

Lemma win_semaphore_safe_witness :
  exists s, one_post = Some s /\
  (forall i j p q, pcs s !! i = Some p -> pcs s !! j = Some q ->
     holds p = true -> holds q = true -> i = j) /\
  0 <= count s <= UINT_MAX /\ count s = 0 + posted s - taken s /\
  (forall i rc, pcs s !! i = Some (Ret rc) -> rc = 0 \/ rc = EINVAL \/ rc = EOVERFLOW).
Proof.
  destruct one_post as [s|] eqn:E; [|by vm_compute in E]. exists s. split; [done|].
  apply (win_semaphore_safe 0 2); [unfold UINT_MAX; lia|].
  eapply foldl_reachable; [apply rtc_refl|exact E].
Defined.
