(* ===== verification/XFile.v ===== *)
(** * src/x_filesystem.c: files and directories (POSIX build)

    Handles are pointers to heap structures; [const char *] arguments are
    nullable texts; an out-parameter is a [bool] (is the pointer non-NULL) and
    its new value a component of the result. *)
From S2P Require Import Prelude Syscalls Structs Machine Contract XPath DemoOS.

Definition X_FILE_READ : Z := 1.
Definition X_FILE_WRITE : Z := 2.
Definition X_FILE_CREATE : Z := 4.
Definition X_FILE_TRUNCATE : Z := 8.
Definition X_FILE_APPEND : Z := 16.
Definition X_FILE_SEEK_SET : Z := 0.
Definition X_FILE_SEEK_CURRENT : Z := 1.
Definition X_FILE_SEEK_END : Z := 2.

Definition O_RDONLY : Z := 0.
Definition O_WRONLY : Z := 1.
Definition O_RDWR : Z := 2.
Definition O_CREAT : Z := 64.
Definition O_EXCL : Z := 128.
Definition O_TRUNC : Z := 512.
Definition O_APPEND : Z := 1024.
Definition O_CLOEXEC : Z := 524288.
Definition SEEK_SET : Z := 0.
Definition SEEK_CUR : Z := 1.
Definition SEEK_END : Z := 2.

Section File.
Context {os : OS}.

(** ** Files *)

(** The [open] flags of a mode. *)
Definition posix_open_flags (mode : Z) : Z :=
  let flags :=
    if flag mode X_FILE_READ && flag mode (Z.lor X_FILE_WRITE X_FILE_APPEND) then O_RDWR
    else if flag mode (Z.lor X_FILE_WRITE X_FILE_APPEND) then O_WRONLY
    else O_RDONLY in
  let flags := if flag mode X_FILE_CREATE then Z.lor flags O_CREAT else flags in
  let flags := if flag mode X_FILE_TRUNCATE then Z.lor flags O_TRUNC else flags in
  if flag mode X_FILE_APPEND then Z.lor flags O_APPEND else flags.

Definition x_file_open (file : bool) (path : cstr) (mode : Z) : M (Z * option ptr) :=
  if negb file || is_null path
     || negb (flag mode (Z.lor (Z.lor X_FILE_READ X_FILE_WRITE) X_FILE_APPEND))
  then mret (EINVAL, None)
  else
    created ← calloc 4 (XFile 0);
    if created =? NULL then mret (ENOMEM, Some NULL)
    else
      fd ← sys (Sopen (txt path) (Z.lor (posix_open_flags mode) O_CLOEXEC) 438);
      store created (XFile fd);;
      if fd <? 0 then
        error ← get_errno;
        free created;; mret (error, Some NULL)
      else mret (0, Some created).

Definition ssize_chunk (size : Z) : Z := if SSIZE_MAX <? size then SSIZE_MAX else size.

(** The last component is what [read] stored at the start of the buffer. *)
Definition x_file_read (file : ptr) (buffer : bool) (size : Z) (bytes_read : bool)
    : M (Z * option Z * text) :=
  if (file =? NULL) || negb buffer then mret (EINVAL, None, [])
  else
    f ← load x_file file;
    result ← sys (Sread (file_fd f) (ssize_chunk size));
    if result.1 <? 0 then e ← get_errno; mret (e, if bytes_read then Some 0 else None, [])
    else mret (0, if bytes_read then Some result.1 else None, result.2).

Definition x_file_write (file : ptr) (buffer : cstr) (size : Z) (bytes_written : bool)
    : M (Z * option Z) :=
  if (file =? NULL) || is_null buffer then mret (EINVAL, None)
  else
    f ← load x_file file;
    result ← sys (Swrite (file_fd f) (txt buffer) (ssize_chunk size));
    if result <? 0 then e ← get_errno; mret (e, if bytes_written then Some 0 else None)
    else mret (0, if bytes_written then Some result else None).

Definition x_file_seek (file : ptr) (offset origin : Z) : M Z :=
  if file =? NULL then mret EINVAL
  else
    let seek whence :=
      f ← load x_file file;
      r ← sys (Slseek (file_fd f) offset whence);
      if r =? -1 then get_errno else mret 0 in
    if origin =? X_FILE_SEEK_SET then seek SEEK_SET
    else if origin =? X_FILE_SEEK_CURRENT then seek SEEK_CUR
    else if origin =? X_FILE_SEEK_END then seek SEEK_END
    else mret EINVAL.

Definition x_file_size (file : ptr) (size : bool) : M (Z * option Z) :=
  if (file =? NULL) || negb size then mret (EINVAL, None)
  else
    f ← load x_file file;
    r ← sys (Sfstat (file_fd f));
    if negb (r.1 =? 0) then e ← get_errno; mret (e, None)
    else mret (0, Some (u64 (st_size r.2))).

Definition x_file_close (file : ptr) : M unit :=
  if file =? NULL then mret tt
  else f ← load x_file file; sys (Sclose (file_fd f));; free file.

Definition x_file_remove (path : cstr) : M Z :=
  if is_null path then mret EINVAL
  else r ← sys (Sunlink (txt path)); if negb (r =? 0) then get_errno else mret 0.

(** ** Directories *)

Definition x_directory_create (path : cstr) : M Z :=
  if is_null path then mret EINVAL
  else
    r ← sys (Smkdir (txt path) 511);
    e ← get_errno;
    if negb (r =? 0) && negb (e =? EEXIST) then mret e else mret 0.

Definition x_directory_remove (path : cstr) : M Z :=
  if is_null path then mret EINVAL
  else r ← sys (Srmdir (txt path)); if negb (r =? 0) then get_errno else mret 0.

Definition x_directory_open (directory : bool) (path : cstr) : M (Z * option ptr) :=
  if negb directory || is_null path then mret (EINVAL, None)
  else
    created ← calloc 4104 (XDirectory NULL []);
    if created =? NULL then mret (ENOMEM, Some NULL)
    else
      handle ← sys (Sopendir (txt path));
      store created (XDirectory handle []);;
      if handle =? NULL then
        error ← get_errno;
        free created;; mret (error, Some NULL)
      else if XLIB_PATH_MAX <=? strlen (txt path) then
        sys (Sclosedir handle);; free created;; mret (ENAMETOOLONG, Some NULL)
      else
        store created (XDirectory handle (txt path));;
        mret (0, Some created).

Definition empty_entry : x_directory_entry := XDirectoryEntry [] false 0.

(** [full_path], as [x_path_join] leaves it in a buffer of [XLIB_PATH_MAX]
    bytes; the inner [None] is a write past its end. *)
Definition full_path_of (dir name : text) : option (Z * text) :=
  r ← x_path_join false (Some (replicate (Z.to_nat XLIB_PATH_MAX) NUL)) XLIB_PATH_MAX
        (Some dir) (Some name);
  Some (r.1, cstring (default [] r.2)).

(** One round of the loop: the entry and [*has_entry] are written in place. *)
Definition x_directory_next_step (directory : ptr) (_ : unit)
    : M (unit + Z * x_directory_entry * bool) :=
  set_errno 0;;
  d ← load x_directory directory;
  r ← sys (Sreaddir (dir_handle d));
  match r with
  | None => e ← get_errno; mret (inr (if e =? 0 then 0 else e, empty_entry, false))
  | Some d_name =>
      if x_filesystem_is_dot_entry d_name then mret (inl tt)
      else if XLIB_NAME_MAX <=? strlen d_name
      then mret (inr (ENAMETOOLONG, empty_entry, false))
      else
        let entry := XDirectoryEntry d_name false 0 in
        match full_path_of (dir_path d) d_name with
        | None => undef UbBounds
        | Some (error, full_path) =>
            if negb (error =? 0) then mret (inr (error, entry, false))
            else
              s ← sys (Sstat full_path);
              if negb (s.1 =? 0) then e ← get_errno; mret (inr (e, entry, false))
              else
                let is_directory := S_ISDIR (st_mode s.2) in
                mret (inr (0, XDirectoryEntry d_name is_directory
                                (if is_directory then 0 else u64 (st_size s.2)), true))
        end
  end.

Definition x_directory_next (fuel : nat) (directory : ptr) (entry has_entry : bool)
    : M (Z * x_directory_entry * bool) :=
  if (directory =? NULL) || negb entry || negb has_entry
  then mret (EINVAL, empty_entry, false)
  else iterM fuel (x_directory_next_step directory) tt.

Definition x_directory_close (directory : ptr) : M unit :=
  if directory =? NULL then mret tt
  else
    d ← load x_directory directory;
    (if negb (dir_handle d =? NULL) then sys (Sclosedir (dir_handle d));; mret tt else mret tt);;
    free directory.

(** ** Copies of strings *)

Definition x_filesystem_strdup (value : cstr) : M ptr :=
  match value with
  | None => mret NULL
  | Some v =>
      let length := strlen v in
      copy ← malloc (u64 (length + 1));
      if copy =? NULL then mret NULL
      else write_bytes copy 0 (v ++ [NUL]);; mret copy
  end.

End File.

(** ** Ownership and contracts *)

Section FileHandles.
Context {os : OS}.

Lemma wp_file_close md p (x : x_file) e h t Q :
  h !! p = Some (to_obj x) -> p <> NULL ->
  (forall e' t', held t' = held t ∖ {[ (KFd, file_fd x) ]} -> Q tt (St e' (delete p h) t')) ->
  wp md (x_file_close p) Q (St e h t).
Proof. unfold x_file_close. close_tac. Qed.
#[export] Program Instance file_handle : Handle x_file := {|
  h_res _ x := {[ (KFd, file_fd x) ]}; h_close := x_file_close |}.
Next Obligation. done. Qed.
Next Obligation. intros. by eapply wp_file_close. Qed.

#[export] Program Instance directory_handle : Handle x_directory := {|
  h_res _ x := got KDir NULL (dir_handle x); h_close := x_directory_close |}.
Next Obligation. done. Qed.
Next Obligation.
  intros md p [hd path] e h t Q Hp Hn HQ. unfold x_directory_close. apply Z.eqb_neq in Hn as En.
  rewrite En. wp_run; cbn [dir_handle] in *; apply HQ; held_simpl; unfold got.
  - apply Z.eqb_neq in E. by rewrite E.
  - by rewrite E, Z.eqb_refl, res_diff_empty.
Qed.

Lemma wp_file_open path mode md e h t Q :
  (forall r s', constructor_post (fun _ : x_file => True) (St e h t) r s' -> Q r s') ->
  wp md (x_file_open true path mode) Q (St e h t).
Proof.
  intros HQ. unfold x_file_open. wp_run; apply HQ.
  all: first [ctor_fail; fail | by ctor_ok (XFile r)].
Qed.

Lemma wp_directory_open path md e h t Q :
  (forall r s', constructor_post (fun d => dir_handle d <> NULL /\ path = Some (dir_path d) /\
      (length (dir_path d) < 4096)%nat) (St e h t) r s' -> Q r s') ->
  wp md (x_directory_open true path) Q (St e h t).
Proof.
  intros HQ. unfold x_directory_open. destruct path as [path|]; cbn [is_null txt default from_option id].
  2: { wp_run. apply HQ. ctor_fail. }
  wp_run; apply HQ; posts; try contradiction.
  all: try (ctor_fail; fail).
  ctor_ok (XDirectory r path). unfold strlen, XLIB_PATH_MAX in *. cbn. split_and!; done || lia.
Qed.
End FileHandles.

(** ** Theorems *)

Lemma flag_testbit m k : 0 <= k -> flag m (2 ^ k) = Z.testbit m k.
Proof.
  intros Hk. unfold flag. destruct (Z.testbit m k) eqn:E.
  - apply negb_true_iff, Z.eqb_neq. intros H.
    assert (Z.testbit (Z.land m (2 ^ k)) k = false) as Hb by by rewrite H, Z.bits_0.
    rewrite Z.land_spec, E, Z.pow2_bits_true in Hb by done. done.
  - apply negb_false_iff, Z.eqb_eq. apply Z.bits_inj'. intros n Hn.
    rewrite Z.land_spec, Z.bits_0, Z.pow2_bits_eqb by done.
    destruct (Z.eqb_spec k n) as [<-|]; [by rewrite E|by rewrite andb_false_r].
Qed.

Lemma flag_lor m a b : flag m (Z.lor a b) = flag m a || flag m b.
Proof.
  unfold flag. rewrite Z.land_lor_distr_r.
  destruct (Z.eqb_spec (Z.land m a) 0) as [->|Ha]; cbn; [by rewrite Z.lor_0_l|].
  apply negb_true_iff, Z.eqb_neq. intros H. apply Z.lor_eq_0_iff in H as [? _]. done.
Qed.

(** [x_file_open] asks the kernel for exactly what the mode says, for every
    combination of its bits: the access is read-write, write-only or read-only
    according to READ and (WRITE or APPEND), O_CREAT, O_TRUNC and O_APPEND are
    set exactly by CREATE, TRUNCATE and APPEND, and no other flag is. *)
Theorem posix_open_flags_spec mode :
  let r := Z.testbit mode 0 in let w := Z.testbit mode 1 || Z.testbit mode 4 in
  posix_open_flags mode =
    (if w then if r then O_RDWR else O_WRONLY else O_RDONLY)
    + (if Z.testbit mode 2 then O_CREAT else 0)
    + (if Z.testbit mode 3 then O_TRUNC else 0)
    + (if Z.testbit mode 4 then O_APPEND else 0).
Proof.
  intros r w. unfold posix_open_flags, r, w. rewrite flag_lor.
  change X_FILE_READ with (2 ^ 0). change X_FILE_WRITE with (2 ^ 1).
  change X_FILE_CREATE with (2 ^ 2). change X_FILE_TRUNCATE with (2 ^ 3).
  change X_FILE_APPEND with (2 ^ 4). rewrite !flag_testbit by lia.
  by destruct (Z.testbit mode 0), (Z.testbit mode 1), (Z.testbit mode 2),
    (Z.testbit mode 3), (Z.testbit mode 4).
Qed.

Section Theorems.
Context {os : OS}.

(** Opening a file or a directory and closing it when it was opened gives
    everything back, on every error path (no memory, the kernel's refusal, a
    path too long for the directory's own copy). *)
Theorem file_lifecycle path mode s :
  let restored := fun (_ : Z) s' => hp s' = hp s /\ held (tr s') = held (tr s) in
  wp Total (bracket (T := x_file) (x_file_open true path mode)) restored s /\
  wp Total (bracket (T := x_directory) (x_directory_open true path)) restored s.
Proof.
  destruct s as [e h t]. split; eapply bracket_restores.
  - by apply wp_file_open.
  - by apply wp_directory_open.
Qed.

(** From the [n]th call on, [readdir] delivers no dot entry. *)
Definition dots_end (n : nat) : Prop :=
  forall t dir name, (n <= length t)%nat -> (os_call t (Sreaddir dir)).1 = Some name ->
    x_filesystem_is_dot_entry name = false.

(** What [x_directory_next] may answer for directory [d], given the history. *)
Definition entry_post (d : x_directory) (r : Z * x_directory_entry * bool) (t : list ev) : Prop :=
  let '(rc, entry, has_entry) := r in
  (has_entry = false /\ 0 <= rc) \/
  (has_entry = true /\ rc = 0 /\
   x_filesystem_is_dot_entry (ent_name entry) = false /\ strlen (ent_name entry) < XLIB_NAME_MAX /\
   exists st t', t = Ev (Sstat (join false (dir_path d) (ent_name entry))) (0, st)
                     :: Ev (Sreaddir (dir_handle d)) (Some (ent_name entry)) :: t' /\
     (os_call t' (Sreaddir (dir_handle d))).1 = Some (ent_name entry) /\
     strlen (join false (dir_path d) (ent_name entry)) < XLIB_PATH_MAX /\
     ent_is_directory entry = S_ISDIR (st_mode st) /\
     ent_size entry = if S_ISDIR (st_mode st) then 0 else st_size st).

Lemma full_path_of_spec dir name :
  nul_free dir -> nul_free name -> strlen dir < 4096 -> strlen name < 1024 ->
  full_path_of dir name =
    Some (if decide (strlen (join false dir name) < XLIB_PATH_MAX)
          then (0, join false dir name) else (ENAMETOOLONG, [])).
Proof.
  intros Hd Hn Hld Hln. unfold full_path_of.
  set (buf := replicate (Z.to_nat XLIB_PATH_MAX) NUL).
  assert (Z.of_nat (length buf) = XLIB_PATH_MAX) as Hbuf by by vm_compute.
  generalize dependent buf. intros buf Hbuf.
  pose proof (join_nul_free false dir name Hd Hn) as Hj.
  rewrite (path_join_eq false buf XLIB_PATH_MAX dir name); [|done..| |].
  - cbn. case_decide as E.
    + rewrite decide_True by lia. cbn. by rewrite cstring_terminated.
    + rewrite decide_False by lia. done.
  - unfold XLIB_PATH_MAX in *. lia.
  - lia.
Qed.

Lemma wp_directory_next fuel n directory (d : x_directory) s :
  hp s !! directory = Some (to_obj d) -> directory <> NULL ->
  nul_free (dir_path d) -> strlen (dir_path d) < XLIB_PATH_MAX ->
  dots_end n -> (n < fuel)%nat ->
  wp Total (x_directory_next fuel directory true true)
    (fun r s' => (keeps s s' /\ (length (tr s) < length (tr s'))%nat) /\ entry_post d r (tr s')) s.
Proof.
  destruct s as [e h t]. intros Hp Hn Hnul Hlen Hdots Hfuel. unfold x_directory_next.
  apply Z.eqb_neq in Hn as ->. cbn [negb orb].
  apply (wp_iter _ (fun _ s' => keeps (St e h t) s') (fun _ s' => n - length (tr s'))%nat);
    [|apply keeps_refl|cbn; lia].
  intros [] [e1 h1 t1] [Hh Ht]; proj_simpl; subst h1. unfold x_directory_next_step.
  wp_step. wp_step. wp_step. wp_step. wp_step.
  apply wp_sys_eq. intros r e' Hc Hpost.
  assert (forall e'' u, inert_ext t1 u -> keeps (St e h t) (St e'' h u)) as Hk.
  { intros e'' u Hu. split; [done|]. by eapply inert_ext_trans. }
  apply inert_ext_length in Ht as Hlt.
  assert (forall e'' u, inert_ext t1 u -> (length t1 < length u)%nat ->
    keeps (St e h t) (St e'' h u) /\ (length t < length u)%nat) as Hk2 by (intros; split; [auto|lia]).
  destruct r as [d_name|]; wp_run.
  - split; [apply Hk; auto with xlib|]. cbn [tr].
    destruct (decide (n <= length t1)%nat) as [Hle|]; [|cbn; lia].
    specialize (Hdots t1 (dir_handle d) d_name Hle). rewrite Hc in Hdots.
    by rewrite Hdots in E.
  - split; [apply Hk2; cbn; [auto with xlib|lia]|]. by left.
  - cbn [sys_post] in Hpost. rewrite full_path_of_spec; [|done|tauto|done|done].
    case_decide as Hj; cbn [fst snd].
    + wp_run; [split; [apply Hk2; cbn; [auto with xlib|lia]|]..].
      * left. split; [done|]. posts; lia.
      * right. unfold XLIB_NAME_MAX in *. cbn [ent_name]. split_and!; [done..|lia|].
        exists r.2, t1. cbn. destruct r as [rc st]. cbn in *. subst rc.
        split; [done|]. split; [by rewrite Hc|]. split_and!; [done..|]. destruct (S_ISDIR (st_mode st)); [done|].
        apply u64_small. destruct Hpost0 as [_ Hs]. unfold stat_ok, is_u64 in *. cbn in *. lia.
    + change (negb (ENAMETOOLONG =? 0)) with true. wp_run. split; [apply Hk2; cbn; [auto with xlib|lia]|]. by left.
  - split; [apply Hk2; cbn; [auto with xlib|lia]|]. left. split; [done|].
    pose proof (os_call_errno t1 (Sreaddir (dir_handle d))) as H0. rewrite Hc in H0. cbn in H0.
    repeat case_match; zbool; lia.
Qed.

End Theorems.

(** ** Examples *)

Lemma calm_os_dots_end : dots_end (os := calm_os) 0.
Proof. intros t dir name _ H. discriminate H. Qed.

Definition dir_state : st := St 0 {[ 1 := to_obj (XDirectory 9 (str "/tmp")) ]} [].

