(* ===== verification/XWatcher.v ===== *)
(** * src/x_filesystem.c: file watchers (POSIX build)

    A watcher remembers the last [stat] of its path; polling compares it with a
    new one.  The callback's [void *user_data] is the accumulator the caller
    threads through it. *)
From S2P Require Import Prelude Syscalls Structs Machine Contract DemoOS.

Definition X_FILE_WATCH_CREATED : Z := 1.
Definition X_FILE_WATCH_MODIFIED : Z := 2.
Definition X_FILE_WATCH_DELETED : Z := 4.

Definition no_file : x_file_watcher_state := XFileWatcherState false false 0 0.

Section Watcher.
Context {os : OS}.

Definition x_file_watcher_snapshot (path : cstr) (state : bool)
    : M (Z * x_file_watcher_state) :=
  if is_null path || negb state then mret (EINVAL, no_file)
  else
    r ← sys (Sstat (txt path));
    if negb (r.1 =? 0) then
      e ← get_errno; mret (if e =? ENOENT then 0 else e, no_file)
    else
      let is_directory := S_ISDIR (st_mode r.2) in
      mret (0, XFileWatcherState true is_directory
                 (if is_directory then 0 else u64 (st_size r.2)) (u64 (st_mtime r.2))).

Definition x_file_watcher_create (watcher : bool) (path : cstr) : M (Z * option ptr) :=
  if negb watcher || is_null path then mret (EINVAL, None)
  else if XLIB_PATH_MAX <=? strlen (txt path) then mret (ENAMETOOLONG, None)
  else
    created ← calloc 4128 (XFileWatcher [] no_file);
    if created =? NULL then mret (ENOMEM, Some NULL)
    else
      modify x_file_watcher created (fun w => XFileWatcher (txt path) (fw_state w));;
      r ← x_file_watcher_snapshot path true;
      modify x_file_watcher created (fun w => XFileWatcher (fw_path w) r.2);;
      if negb (r.1 =? 0) then free created;; mret (r.1, Some NULL)
      else mret (0, Some created).

(** The comparison of [x_file_watcher_poll]. *)
Definition watch_events (old current : x_file_watcher_state) : Z :=
  if negb (ws_exists old) && ws_exists current then X_FILE_WATCH_CREATED
  else if ws_exists old && negb (ws_exists current) then X_FILE_WATCH_DELETED
  else if ws_exists old && ws_exists current
          && (negb (Bool.eqb (ws_is_directory old) (ws_is_directory current))
              || negb (ws_size old =? ws_size current)
              || negb (ws_modified old =? ws_modified current))
  then X_FILE_WATCH_MODIFIED
  else 0.

Definition x_file_watcher_poll {A} (watcher : ptr)
    (callback : option (text -> Z -> A -> M A)) (user_data : A) : M (Z * A) :=
  if watcher =? NULL then mret (EINVAL, user_data)
  else
    w ← load x_file_watcher watcher;
    r ← x_file_watcher_snapshot (Some (fw_path w)) true;
    if negb (r.1 =? 0) then mret (r.1, user_data)
    else
      let events := watch_events (fw_state w) r.2 in
      modify x_file_watcher watcher (fun w => XFileWatcher (fw_path w) r.2);;
      match callback with
      | Some call =>
          if negb (events =? 0)
          then user_data ← call (fw_path w) events user_data; mret (0, user_data)
          else mret (0, user_data)
      | None => mret (0, user_data)
      end.

Definition x_file_watcher_destroy (watcher : ptr) : M unit := free watcher.

(** ** Well-formed states: a missing file has no other attribute *)

Definition state_ok (s : x_file_watcher_state) : Prop :=
  ws_exists s = true \/ s = no_file.

Lemma wp_file_watcher_snapshot path md e h t Q :
  (forall rc st e' t', 0 <= rc -> inert_ext t t' -> (0 <= e -> 0 <= e') ->
     (rc = 0 -> state_ok st) -> Q (rc, st) (St e' h t')) ->
  wp md (x_file_watcher_snapshot (Some path) true) Q (St e h t).
Proof.
  intros HQ. unfold x_file_watcher_snapshot. wp_run.
  - apply HQ; [|auto with xlib|lia|by right]. posts; repeat case_match; lia.
  - apply HQ; [done|auto with xlib|lia|by left].
Qed.

(** A poll keeps everything but the watcher's own record. *)
Lemma wp_file_watcher_poll {A} watcher (w : x_file_watcher) (f : text -> Z -> A -> A) (a : A) md e h t Q :
  h !! watcher = Some (to_obj w) -> watcher <> NULL ->
  (forall rc a' w' e' t', 0 <= rc -> inert_ext t t' ->
     (rc = 0 -> state_ok (fw_state w') /\ fw_path w' = fw_path w /\
        a' = if watch_events (fw_state w) (fw_state w') =? 0 then a
             else f (fw_path w) (watch_events (fw_state w) (fw_state w')) a) ->
     (rc <> 0 -> w' = w /\ a' = a) ->
     Q (rc, a') (St e' (<[watcher := to_obj w']> h) t')) ->
  wp md (x_file_watcher_poll watcher (Some (fun p ev u => mret (f p ev u))) a) Q (St e h t).
Proof.
  intros Hw Hn HQ. unfold x_file_watcher_poll. wp_run.
  apply wp_file_watcher_snapshot. intros rc st e' t' Hrc Ht _ Hst.
  cbn [fst snd]. wp_run.
  - rewrite <- (insert_id h watcher (to_obj w) Hw). by apply HQ.
  - apply HQ; [done|done| |done]. intros _. cbn. apply Z.eqb_neq in E1. rewrite E1. auto.
  - apply HQ; [done|done| |done]. intros _. cbn. rewrite E1. auto.
Qed.

#[export] Program Instance watcher_handle : Handle x_file_watcher := {|
  h_res _ _ := ∅; h_close := x_file_watcher_destroy |}.
Next Obligation. done. Qed.
Next Obligation.
  intros md p x e h t Q Hp Hn HQ. eapply wp_free; [done..|]. apply HQ. held_simpl.
  apply set_eq. set_solver.
Qed.

(** ** Theorems *)

(** A watcher's events are exactly the changes between two snapshots of a
    well-formed history: none when nothing changed, CREATED when the file
    appeared, DELETED when it went, MODIFIED when it stayed and its type, size
    or time changed; and one at most. *)
Theorem watch_events_spec old current :
  state_ok old -> state_ok current ->
  (watch_events old current = 0 <-> old = current) /\
  (watch_events old current = X_FILE_WATCH_CREATED <->
     ws_exists old = false /\ ws_exists current = true) /\
  (watch_events old current = X_FILE_WATCH_DELETED <->
     ws_exists old = true /\ ws_exists current = false) /\
  (watch_events old current = X_FILE_WATCH_MODIFIED <->
     ws_exists old = true /\ ws_exists current = true /\ old <> current).
Proof.
  intros Ho Hc. destruct old as [[] d1 s1 m1], current as [[] d2 s2 m2];
    unfold watch_events, state_ok, no_file, X_FILE_WATCH_MODIFIED,
      X_FILE_WATCH_CREATED, X_FILE_WATCH_DELETED in *; cbn in *.
  - assert (XFileWatcherState true d1 s1 m1 = XFileWatcherState true d2 s2 m2 <->
            d1 = d2 /\ s1 = s2 /\ m1 = m2) as Heq.
    { split; [by intros [= -> -> ->]|by intros (-> & -> & ->)]. }
    rewrite Heq. destruct (Bool.eqb d1 d2) eqn:Ed; cbn;
      [apply Bool.eqb_prop in Ed|apply Bool.eqb_false_iff in Ed].
    + destruct (Z.eqb_spec s1 s2); cbn; [|intuition congruence].
      destruct (Z.eqb_spec m1 m2); cbn; intuition congruence.
    + intuition congruence.
  - intuition congruence.
  - intuition congruence.
  - destruct Ho, Hc; [done..|]. intuition congruence.
Qed.

(** Polling [n] times, the callback appending each event to a list. *)
Fixpoint watch_log (n : nat) (watcher : ptr) (log : list Z) : M (Z * list Z) :=
  match n with
  | O => mret (0, log)
  | S n' => r ← x_file_watcher_poll watcher (Some (fun _ ev l => mret (l ++ [ev]))) log;
            if negb (r.1 =? 0) then mret r else watch_log n' watcher r.2
  end.

(** A client that only listens to the events: does the file exist? *)
Definition track (exists_ : bool) (ev : Z) : bool :=
  if ev =? X_FILE_WATCH_CREATED then true
  else if ev =? X_FILE_WATCH_DELETED then false else exists_.


(** Creating a watcher and destroying it when it was created gives the
    memory back, also when the first [stat] fails. *)
Theorem file_watcher_lifecycle path s :
  wp Total (bracket (T := x_file_watcher) (x_file_watcher_create true path))
    (fun _ s' => hp s' = hp s /\ held (tr s') = held (tr s)) s.
Proof.
  apply (bracket_restores (fun w => state_ok (fw_state w) /\ path = Some (fw_path w))).
  destruct s as [e h t]. unfold x_file_watcher_create.
  destruct path as [path|]; cbn [is_null txt default from_option id].
  2: { wp_run. ctor_fail. }
  wp_run; try (ctor_fail; fail).
  apply wp_file_watcher_snapshot. intros rc st e' t' Hrc Ht _ Hst.
  apply inert_ext_held in Ht. cbn [held releases acquires] in Ht.
  rewrite res_diff_empty, res_union_empty in Ht.
  cbn [fst snd]. wp_run; heap_simpl.
  - apply constructor_fail; [lia|by right|done|]. held_simpl. done.
  - apply (constructor_ok _ _ _ _ _ (XFileWatcher path st)); [done|done| |cbn; set_solver|auto].
    rewrite Ht. cbn. by rewrite res_union_empty.
Qed.
End Watcher.

(** ** Examples *)

Lemma watch_events_spec_witness :
  watch_events no_file (XFileWatcherState true false 3 7) = X_FILE_WATCH_CREATED /\
  watch_events (XFileWatcherState true false 3 7) no_file <> X_FILE_WATCH_MODIFIED.
Proof.
  split.
  - apply (watch_events_spec no_file (XFileWatcherState true false 3 7)); [by right|by left|done].
  - done.
Defined.

Definition watcher_state : st := St 0 {[ 1 := to_obj (XFileWatcher (str "f") no_file) ]} [].


(** The file appears at the first poll and stays. *)
Example watch_log_run :
  match watch_log (os := calm_os) 2 1 [] watcher_state with
  | Done r _ => r = (0, [X_FILE_WATCH_CREATED])
  | _ => False
  end.
Proof. by vm_compute. Qed.
