(* ===== verification/WinFile.v ===== *)
(** * Files and directories on Windows (src/x_filesystem.c, Windows build)

    Paths are converted to UTF-16 for the calls and names found are converted
    back.  A directory handle keeps the entry found last, one ahead of the
    caller. *)
From S2P Require Import Prelude Syscalls Structs Machine Contract DemoOS WinBase WinTime XPath XFile XWatcher.

Definition FILE_ATTRIBUTE_DIRECTORY : Z := 16.

Definition x_filesystem_error_from_windows (error : Z) : Z :=
  if error =? ERROR_SUCCESS then 0
  else if (error =? ERROR_FILE_NOT_FOUND) || (error =? ERROR_PATH_NOT_FOUND) then ENOENT
  else if (error =? ERROR_ALREADY_EXISTS) || (error =? ERROR_FILE_EXISTS) then EEXIST
  else if error =? ERROR_ACCESS_DENIED then EACCES
  else if (error =? ERROR_INVALID_PARAMETER) || (error =? ERROR_INVALID_NAME) then EINVAL
  else if (error =? ERROR_NOT_ENOUGH_MEMORY) || (error =? ERROR_OUTOFMEMORY) then ENOMEM
  else EIO.

Lemma x_filesystem_error_pos e : 0 < e -> 0 < x_filesystem_error_from_windows e.
Proof.
  intros. unfold x_filesystem_error_from_windows, ERROR_SUCCESS.
  destruct (Z.eqb_spec e 0); [lia|]. by repeat case_match.
Qed.
#[export] Hint Resolve x_filesystem_error_pos : xlib.

(** [GENERIC_READ] and [GENERIC_WRITE] of a mode. *)
Definition windows_access (mode : Z) : Z :=
  let access := if flag mode X_FILE_READ then Z.lor 0 GENERIC_READ else 0 in
  if flag mode (Z.lor X_FILE_WRITE X_FILE_APPEND) then Z.lor access GENERIC_WRITE else access.

(** What to do about a file that exists, or does not. *)
Definition windows_disposition (mode : Z) : Z :=
  if flag mode X_FILE_TRUNCATE
  then if flag mode X_FILE_CREATE then CREATE_ALWAYS else TRUNCATE_EXISTING
  else if flag mode X_FILE_CREATE then OPEN_ALWAYS
  else OPEN_EXISTING.

(** Buffer sizes are passed as [DWORD]s. *)
Definition dword_chunk (size : Z) : Z :=
  let XLIB_DWORD_MAX_VALUE := 4294967295 in
  if XLIB_DWORD_MAX_VALUE <? size then u32 XLIB_DWORD_MAX_VALUE else u32 size.

Lemma dword_chunk_exact size : 0 <= size -> dword_chunk size = Z.min size 4294967295.
Proof.
  intros H. unfold dword_chunk, u32. destruct (Z.ltb_spec 4294967295 size).
  - change (4294967295 mod 2 ^ 32) with 4294967295. lia.
  - rewrite Z.mod_small; lia.
Qed.

Section File.
Context {os : OS}.

(** The code of the last error. *)
Definition file_error : M Z := e ← GetLastError; mret (x_filesystem_error_from_windows e).

Definition x_filesystem_utf8_to_wide (value : cstr) (wide : bool) : M (Z * option ptr) :=
  c ← utf8_to_wide value wide;
  mret (conversion_code x_filesystem_error_from_windows c).

(** The second component is what the call left at the start of the buffer. *)
Definition x_filesystem_wide_to_utf8 (value : option wtext) (buffer : bool) (buffer_size : Z)
    : M (Z * text) :=
  if is_null value || negb buffer || (buffer_size =? 0) then mret (EINVAL, [])
  else if INT_MAX <? buffer_size then mret (EOVERFLOW, [])
  else
    r ← win (WideCharToMultiByte (default [] value) (int_of buffer_size));
    if r.1 =? 0 then
      error ← GetLastError;
      mret (if error =? ERROR_INSUFFICIENT_BUFFER then ENAMETOOLONG
            else x_filesystem_error_from_windows error, r.2)
    else mret (0, r.2).

Definition x_filesystem_make_search_pattern (path : cstr) (pattern : bool) : M (Z * option ptr) :=
  match x_path_join true (Some (replicate (Z.to_nat XLIB_PATH_MAX) NUL)) XLIB_PATH_MAX
          path (Some (str "*")) with
  | None => undef UbBounds
  | Some (error, joined) =>
      if negb (error =? 0) then mret (error, None)
      else x_filesystem_utf8_to_wide (Some (cstring (default [] joined))) pattern
  end.

(** ** Files *)

Definition x_file_open (file : bool) (path : cstr) (mode : Z) : M (Z * option ptr) :=
  if negb file || is_null path
     || negb (flag mode (Z.lor (Z.lor X_FILE_READ X_FILE_WRITE) X_FILE_APPEND))
  then mret (EINVAL, None)
  else
    created ← calloc 8 (WinFile NULL);
    if created =? NULL then mret (ENOMEM, Some NULL)
    else
      converted ← x_filesystem_utf8_to_wide path true;
      if negb (converted.1 =? 0) then free created;; mret (converted.1, Some NULL)
      else
        let wide_path := default NULL converted.2 in
        path ← load_wide wide_path;
        handle ← win (CreateFileW path (windows_access mode) FILE_SHARE_READ false
                        (windows_disposition mode));
        modify win_file created (fun _ => WinFile handle);;
        free wide_path;;
        if handle =? INVALID_HANDLE_VALUE then
          error ← file_error; free created;; mret (error, Some NULL)
        else if flag mode X_FILE_APPEND then
          moved ← win (SetFilePointerEx handle 0 FILE_END);
          if negb moved then
            error ← file_error; win_ (CloseHandle handle);; free created;; mret (error, Some NULL)
          else mret (0, Some created)
        else mret (0, Some created).

(** The last component is what [ReadFile] stored at the start of the buffer. *)
Definition x_file_read (file : ptr) (buffer : bool) (size : Z) (bytes_read : bool)
    : M (Z * option Z * text) :=
  if (file =? NULL) || negb buffer then mret (EINVAL, None, [])
  else
    f ← load win_file file;
    r ← win (ReadFile (wf_handle f) (dword_chunk size));
    if negb r.1 then error ← file_error; mret (error, if bytes_read then Some 0 else None, r.2)
    else mret (0, if bytes_read then Some (Z.of_nat (length r.2)) else None, r.2).

Definition x_file_write (file : ptr) (buffer : cstr) (size : Z) (bytes_written : bool)
    : M (Z * option Z) :=
  if (file =? NULL) || is_null buffer then mret (EINVAL, None)
  else
    f ← load win_file file;
    r ← win (WriteFile (wf_handle f) (txt buffer) (dword_chunk size));
    if negb r.1 then error ← file_error; mret (error, if bytes_written then Some 0 else None)
    else mret (0, if bytes_written then Some r.2 else None).

Definition x_file_seek (file : ptr) (offset origin : Z) : M Z :=
  if file =? NULL then mret EINVAL
  else
    let seek method :=
      f ← load win_file file;
      moved ← win (SetFilePointerEx (wf_handle f) offset method);
      if negb moved then file_error else mret 0 in
    if origin =? X_FILE_SEEK_SET then seek FILE_BEGIN
    else if origin =? X_FILE_SEEK_CURRENT then seek FILE_CURRENT
    else if origin =? X_FILE_SEEK_END then seek FILE_END
    else mret EINVAL.

Definition x_file_size (file : ptr) (size : bool) : M (Z * option Z) :=
  if (file =? NULL) || negb size then mret (EINVAL, None)
  else
    f ← load win_file file;
    r ← win (GetFileSizeEx (wf_handle f));
    if negb r.1 then error ← file_error; mret (error, None)
    else mret (0, Some (u64 r.2)).

Definition x_file_close (file : ptr) : M unit :=
  if file =? NULL then mret tt
  else f ← load win_file file; win_ (CloseHandle (wf_handle f));; free file.

Definition x_file_remove (path : cstr) : M Z :=
  if is_null path then mret EINVAL
  else
    converted ← x_filesystem_utf8_to_wide path true;
    if negb (converted.1 =? 0) then mret converted.1
    else
      let wide_path := default NULL converted.2 in
      path ← load_wide wide_path;
      removed ← win (DeleteFileW path);
      if negb removed then error ← file_error; free wide_path;; mret error
      else free wide_path;; mret 0.

(** ** Directories *)

Definition x_directory_create (path : cstr) : M Z :=
  if is_null path then mret EINVAL
  else
    converted ← x_filesystem_utf8_to_wide path true;
    if negb (converted.1 =? 0) then mret converted.1
    else
      let wide_path := default NULL converted.2 in
      path ← load_wide wide_path;
      made ← win (CreateDirectoryW path);
      if negb made then
        win_error ← GetLastError;
        free wide_path;;
        mret (if win_error =? ERROR_ALREADY_EXISTS then 0
              else x_filesystem_error_from_windows win_error)
      else free wide_path;; mret 0.

Definition x_directory_remove (path : cstr) : M Z :=
  if is_null path then mret EINVAL
  else
    converted ← x_filesystem_utf8_to_wide path true;
    if negb (converted.1 =? 0) then mret converted.1
    else
      let wide_path := default NULL converted.2 in
      path ← load_wide wide_path;
      removed ← win (RemoveDirectoryW path);
      if negb removed then error ← file_error; free wide_path;; mret error
      else free wide_path;; mret 0.

Definition no_data : find_data := FindData 0 0 0 [].

Definition x_directory_open (directory : bool) (path : cstr) : M (Z * option ptr) :=
  if negb directory || is_null path then mret (EINVAL, None)
  else
    created ← calloc 616 (WinDirectory NULL no_data false 0);
    if created =? NULL then mret (ENOMEM, Some NULL)
    else
      r ← x_filesystem_make_search_pattern path true;
      if negb (r.1 =? 0) then free created;; mret (r.1, Some NULL)
      else
        let pattern := default NULL r.2 in
        text ← load_wide pattern;
        found ← win (FindFirstFileW text);
        modify win_directory created (fun d => WinDirectory found.1 found.2 (wd_pending d) (wd_error d));;
        free pattern;;
        if found.1 =? INVALID_HANDLE_VALUE then
          error ← file_error; free created;; mret (error, Some NULL)
        else
          modify win_directory created (fun d => WinDirectory (wd_handle d) (wd_data d) true (wd_error d));;
          mret (0, Some created).

(** The search moves to the next file. *)
Definition find_next (directory : ptr) : M unit :=
  d ← load win_directory directory;
  r ← win (FindNextFileW (wd_handle d));
  if (r.1 : bool)
  then modify win_directory directory (fun d => WinDirectory (wd_handle d) r.2 true (wd_error d))
  else
    find_error ← GetLastError;
    modify win_directory directory (fun d => WinDirectory (wd_handle d) r.2 false
      (if negb (find_error =? ERROR_NO_MORE_FILES)
       then x_filesystem_error_from_windows find_error else wd_error d)).

(** One round of the loop. *)
Definition x_directory_next_step (directory : ptr) (entry : x_directory_entry)
    : M (x_directory_entry + Z * x_directory_entry * bool) :=
  d ← load win_directory directory;
  if negb (wd_pending d) then mret (inr (0, entry, false))
  else
    let data := wd_data d in
    r ← x_filesystem_wide_to_utf8 (Some (fd_name data)) true XLIB_NAME_MAX;
    let name := cstring r.2 in
    find_next directory;;
    if negb (r.1 =? 0) then mret (inr (r.1, XDirectoryEntry name false 0, false))
    else if x_filesystem_is_dot_entry name then mret (inl (XDirectoryEntry name false 0))
    else
      mret (inr (0, XDirectoryEntry name (flag (fd_attributes data) FILE_ATTRIBUTE_DIRECTORY)
                      (quad_part (fd_size_low data) (fd_size_high data)), true)).

Definition x_directory_next (fuel : nat) (directory : ptr) (entry has_entry : bool)
    : M (Z * x_directory_entry * bool) :=
  if (directory =? NULL) || negb entry || negb has_entry
  then mret (EINVAL, empty_entry, false)
  else
    d ← load win_directory directory;
    if negb (wd_pending d) && negb (wd_error d =? 0) then
      modify win_directory directory (fun d => WinDirectory (wd_handle d) (wd_data d) (wd_pending d) 0);;
      mret (wd_error d, empty_entry, false)
    else iterM fuel (x_directory_next_step directory) empty_entry.

Definition x_directory_close (directory : ptr) : M unit :=
  if directory =? NULL then mret tt
  else
    d ← load win_directory directory;
    (if negb (wd_handle d =? NULL) && negb (wd_handle d =? INVALID_HANDLE_VALUE)
     then win_ (FindClose (wd_handle d)) else mret tt);;
    free directory.

(** ** File watchers *)

Definition x_file_watcher_snapshot (path : cstr) (state : bool)
    : M (Z * x_file_watcher_state) :=
  if is_null path || negb state then mret (EINVAL, no_file)
  else
    converted ← x_filesystem_utf8_to_wide path true;
    if negb (converted.1 =? 0) then mret (converted.1, no_file)
    else
      let wide_path := default NULL converted.2 in
      path ← load_wide wide_path;
      r ← win (GetFileAttributesExW path);
      if negb r.1 then
        win_error ← GetLastError;
        free wide_path;;
        mret (if (win_error =? ERROR_FILE_NOT_FOUND) || (win_error =? ERROR_PATH_NOT_FOUND) then 0
              else x_filesystem_error_from_windows win_error, no_file)
      else
        free wide_path;;
        let data := r.2 in
        let is_directory := flag (ad_attributes data) FILE_ATTRIBUTE_DIRECTORY in
        mret (0, XFileWatcherState true is_directory
                   (if is_directory then 0 else quad_part (ad_size_low data) (ad_size_high data))
                   (quad_part (ad_write_low data) (ad_write_high data))).
End File.

(** ** Specifications *)

Section FileSpecs.
Context {os : OS}.
Implicit Types (h : gmap ptr obj) (t : list ev).

Lemma wp_filesystem_utf8_to_wide md v e h t Q :
  (forall r s', wide_made v h t r s' -> Q r s') ->
  wp md (x_filesystem_utf8_to_wide (Some v) true) Q (St e h t).
Proof. apply wp_conversion_code. auto with xlib. Qed.

(** The name a buffer of [size] bytes takes: all of it, or an error. *)
Lemma wp_filesystem_wide_to_utf8 md w size e h t Q :
  0 < size <= INT_MAX ->
  (forall rc text e' t', inert_ext t t' ->
     (rc = 0 /\ (exists s, utf8 w = Some s /\ text = s ++ [NUL] /\ strlen s < size) \/ 0 < rc) ->
     Q (rc, text) (St e' h t')) ->
  wp md (x_filesystem_wide_to_utf8 (Some w) true size) Q (St e h t).
Proof.
  intros Hs HQ. unfold x_filesystem_wide_to_utf8, INT_MAX in *. cbn [is_null negb orb default from_option]. change (id w) with w.
  rewrite (proj2 (Z.eqb_neq size 0)), (proj2 (Z.ltb_ge _ _)) by lia.
  assert (int_of size = size) as -> by (unfold int_of; rewrite Z.mod_small; lia).
  win_run.
  - apply HQ; [auto with xlib|right]. destruct Hpost as [[_ He]|(u & _ & Hl & _)]; [|lia].
    destruct (_ =? ERROR_INSUFFICIENT_BUFFER); [done|auto with xlib].
  - apply HQ; [auto with xlib|left]. destruct Hpost as [[? _]|(u & Hu & Hl & _ & Hr)]; [done|].
    split; [done|]. destruct (Z.eqb_spec size 0); [lia|]. destruct Hr as [Hle ->].
    exists u. split; [done|]. split; [done|]. unfold strlen. lia.
Qed.

(** The search pattern of a directory of reasonable length. *)
Lemma wp_make_search_pattern md path e h t Q :
  nul_free path -> strlen path < 2 ^ 63 ->
  (forall r s', wide_made (join true path (str "*")) h t r s' \/ (0 < r.1 /\ s' = St e h t) -> Q r s') ->
  wp md (x_filesystem_make_search_pattern (Some path) true) Q (St e h t).
Proof.
  intros Hp Hl HQ. unfold x_filesystem_make_search_pattern.
  set (buf := replicate (Z.to_nat XLIB_PATH_MAX) NUL).
  assert (Z.of_nat (length buf) = XLIB_PATH_MAX) as Hbuf by by vm_compute.
  generalize dependent buf. intros buf Hbuf.
  rewrite (path_join_eq true buf XLIB_PATH_MAX path (str "*")); [|done| | |].
  2: { by apply (bool_decide_unpack _); vm_compute. }
  2: { rewrite Hbuf. unfold XLIB_PATH_MAX. lia. }
  2: { unfold strlen in *. cbn. lia. }
  case_decide; cbn [Z.eqb negb default from_option id].
  - rewrite cstring_terminated; [|apply join_nul_free; [done|by apply (bool_decide_unpack _); vm_compute]]. apply wp_filesystem_utf8_to_wide. auto.
  - change (ENAMETOOLONG =? 0) with false. wp_run. apply HQ. by right.
Qed.

(** ** Ownership *)

#[export] Program Instance win_file_handle : Handle win_file := {|
  h_res _ f := {[ (KHandle, wf_handle f) ]}; h_close := x_file_close |}.
Next Obligation. done. Qed.
Next Obligation.
  intros md p [handle] e h t Q Hp Hn HQ. unfold x_file_close. apply Z.eqb_neq in Hn as En. rewrite En.
  win_run. apply HQ. by held_simpl.
Qed.

Definition dir_res (d : win_directory) : resources :=
  if negb (wd_handle d =? NULL) && negb (wd_handle d =? INVALID_HANDLE_VALUE)
  then {[ (KFind, wd_handle d) ]} else ∅.

Lemma dir_res_ok d : 0 < wd_handle d -> dir_res d = {[ (KFind, wd_handle d) ]}.
Proof.
  intros H. unfold dir_res, NULL, INVALID_HANDLE_VALUE.
  by rewrite (proj2 (Z.eqb_neq (wd_handle d) 0)), (proj2 (Z.eqb_neq (wd_handle d) (-1))) by lia.
Qed.

#[export] Program Instance win_directory_handle : Handle win_directory := {|
  h_res _ := dir_res;
  h_close := x_directory_close |}.
Next Obligation. done. Qed.
Next Obligation.
  intros md p [handle data pending error] e h t Q Hp Hn HQ. unfold x_directory_close, dir_res in *.
  apply Z.eqb_neq in Hn as En. rewrite En. cbn [wd_handle] in *. win_step. win_step. cbn [wd_handle].
  destruct (negb (handle =? NULL) && negb (handle =? INVALID_HANDLE_VALUE)); win_run; apply HQ;
    by held_simpl.
Qed.

(** The converted path comes between the structure and the call. *)
Lemma wide_made_after v p o h t r s :
  wide_made v (<[p := o]> h) t r s -> h !! p = None ->
  held (tr s) = held t /\
  ((r.1 = 0 /\ exists q w, r.2 = Some q /\ utf16 v = Some w /\ 0 ∉ w /\ 0 < q /\ q <> p /\ h !! q = None /\
      hp s = <[q := to_obj (Wide (w ++ [0]))]> (<[p := o]> h)) \/
   (0 < r.1 /\ hp s = <[p := o]> h)).
Proof.
  intros [Ht Hr] Hp. apply inert_ext_held in Ht. split; [done|].
  destruct Hr as [(H1 & q & w & H2 & H3 & H4 & H5 & H6 & H7)|?]; [left|by right].
  apply lookup_insert_None in H6 as [H6 H6']. split; [done|]. exists q, w. by split_and!.
Qed.

(** Freeing the path gives back the heap with the structure alone. *)
Lemma wide_freed h p q (a b w : obj) :
  h !! p = None -> h !! q = None -> q <> p ->
  delete q (<[p := a]> (<[q := w]> (<[p := b]> h))) = <[p := a]> h.
Proof. intros. map_solve. Qed.

Lemma wp_win_file_open path mode md e h t Q :
  (forall r s', constructor_post (fun _ : win_file => True) (St e h t) r s' -> Q r s') ->
  wp md (x_file_open true path mode) Q (St e h t).
Proof.
  intros HQ. unfold x_file_open, file_error.
  destruct path as [path|]; cbn [is_null]; [|win_run; apply HQ; win_fail].
  cbn [negb orb]. win_step; [win_run; apply HQ; win_fail|]. win_step. win_step.
  { win_run. apply HQ. win_fail. }
  win_step. win_step. apply wp_filesystem_utf8_to_wide. intros [rc out] [e1 h1 t1] Hw.
  apply wide_made_after in Hw as (Ht & Hr); [|done]. cbn [fst snd hp tr] in *. held_hyps.
  destruct Hr as [(-> & q & w & -> & _ & Hw & Hq & Hqp & Hqn & ->)|[Hrc ->]].
  2: { win_run. apply HQ. apply constructor_fail; [done|by right|by heap_simpl|].
       held_simpl. by rewrite Ht. }
  cbn [Z.eqb negb default from_option id].
  win_step. eapply wp_load_wide; [by rewrite lookup_insert_eq|done|].
  win_run; rewrite wide_freed by done; apply HQ; held_hyps; rewrite ?Ht in *; try solve [win_fail].
  - by ctor_ok (WinFile r).
  - by ctor_ok (WinFile r).
Qed.

(** The converted path in the state, for a structure at [p]. *)
Ltac path_made Hw :=
  let Hr := fresh "Hr" in
  apply wide_made_after in Hw as (Ht & Hr); [|done]; cbn [fst snd hp tr] in *; held_hyps;
  destruct Hr as [(-> & q & w & -> & _ & Hw & Hq & Hqp & Hqn & ->)|[Hrc ->]].

Lemma wp_win_directory_open path md e h t Q :
  match path with Some p => nul_free p /\ strlen p < 2 ^ 63 | None => True end ->
  (forall r s', constructor_post (fun d => wd_pending d = true /\ wd_error d = 0 /\ 0 < wd_handle d)
     (St e h t) r s' -> Q r s') ->
  wp md (x_directory_open true path) Q (St e h t).
Proof.
  intros Hpath HQ. unfold x_directory_open, file_error.
  destruct path as [path|]; cbn [is_null]; [|win_run; apply HQ; win_fail].
  destruct Hpath as [Hnul Hlen]. cbn [negb orb]. win_step. win_step.
  { win_run. apply HQ. win_fail. }
  win_step. win_step. apply wp_make_search_pattern; [done..|].
  intros [rc out] [e1 h1 t1] [Hw|[Hrc [= -> -> ->]]]; [|win_run; apply HQ; win_fail].
  path_made Hw.
  2: { win_run. apply HQ. apply constructor_fail; [done|by right|by heap_simpl|].
       held_simpl. by rewrite Ht. }
  cbn [Z.eqb negb default from_option id].
  win_step. eapply wp_load_wide; [by rewrite lookup_insert_eq|done|].
  win_run; rewrite wide_freed by done; apply HQ; held_hyps; rewrite ?Ht in *; try solve [win_fail].
  destruct Hpost as [[? _]|(_ & Hr & Hf)]; [done|].
  rewrite insert_insert_eq. apply (constructor_ok _ _ _ _ _ (WinDirectory r.1 r.2 true 0));
    cbn [h_res win_directory_handle]; rewrite ?dir_res_ok by done; [done|done| | |done].
  - cbn [held acquires releases win32_acquires win32_releases]. rewrite Ht.
    by rewrite got_ok, !res_diff_empty, res_union_empty by done.
  - by apply disjoint_singleton_l.
Qed.

(** Removing a file, making and removing a directory: nothing is left behind,
    and a success means that the call was made on the UTF-16 form of the path
    and succeeded, or for [allowed] failed because there is one already. *)
Definition path_call_post (call : wtext -> win32 bool) (allowed : bool) (path : text) (s : st)
    (rc : Z) (s' : st) : Prop :=
  0 <= rc /\ keeps s s' /\
  (rc = 0 -> exists w r, utf16 path = Some w /\ Ev (W (call w)) r ∈ tr s' /\
     (r = true \/ allowed = true /\ errno s' = ERROR_ALREADY_EXISTS)).

Lemma path_call_done call allowed path s rc e q w r t :
  inert_ext (tr s) t -> inert (Ev (W (call w)) r) = true -> utf16 path = Some w -> 0 <= rc ->
  (rc = 0 -> r = true \/ allowed = true /\ e = ERROR_ALREADY_EXISTS) ->
  path_call_post call allowed path s rc (St e (hp s) (EvFree q :: Ev (W (call w)) r :: t)).
Proof.
  intros Ht Hi Hw Hrc H. split; [done|]. split.
  - split; [done|]. cbn [tr]. apply inert_ext_cons; [done|]. by apply inert_ext_cons.
  - intros H0. exists w, r. split_and!; [done| |by apply H]. cbn [tr]. rewrite !elem_of_cons. auto.
Qed.

Lemma path_call_refused call allowed path s rc e t :
  0 < rc -> inert_ext (tr s) t -> path_call_post call allowed path s rc (St e (hp s) t).
Proof. intros. split; [lia|]. split; [done|lia]. Qed.

(** Failures of a call: the code is that of the last error, unless it says that
    there is one already. *)
Lemma path_call_error e :
  0 < e -> 0 <= x_filesystem_error_from_windows e /\ x_filesystem_error_from_windows e <> 0.
Proof. intros H. pose proof (x_filesystem_error_pos e H). lia. Qed.

Ltac path_call_tac :=
  win_step; apply wp_filesystem_utf8_to_wide; intros [rc out] [e1 h1 t1] [Ht Hr];
  cbn [fst snd hp tr] in *;
  destruct Hr as [(-> & q & w & -> & Hu & Hw & Hq & Hqn & ->)|[Hrc ->]];
  [ cbn [Z.eqb negb default from_option id]; win_step;
    eapply wp_load_wide; [by rewrite lookup_insert_eq|done|];
    win_run; rewrite delete_insert_id by done
  | win_run; try (exfalso; lia) ].

(** Deleting a file and making or removing a directory on Windows: the
    converted path is given back on every path, and success means what it says. *)
Theorem win_path_calls_spec path s :
  wp Total (x_file_remove (Some path)) (path_call_post DeleteFileW false path s) s /\
  wp Total (x_directory_remove (Some path)) (path_call_post RemoveDirectoryW false path s) s /\
  wp Total (x_directory_create (Some path)) (path_call_post CreateDirectoryW true path s) s.
Proof.
  destruct s as [e h t].
  unfold x_file_remove, x_directory_remove, x_directory_create, file_error. cbn [is_null].
  split_and!; path_call_tac; try (by apply (path_call_refused _ _ _ (St e h t)));
    apply (path_call_done _ _ _ (St e h t)); try done; posts; try congruence; try (by left);
    match goal with H : 0 < _ |- _ => apply path_call_error in H as [? ?] end; try done;
    destruct (Z.eqb_spec e0 ERROR_ALREADY_EXISTS); [done|tauto|by right|tauto].
Qed.

(** ** Theorems *)

(** On Windows too, opening a file or a directory and closing it when it was
    opened gives everything back: the structure, the converted path or search
    pattern, and the handle, also when moving to the end of a file opened for
    appending fails. *)
Theorem win_file_lifecycle path mode s :
  match path with Some p => nul_free p /\ strlen p < 2 ^ 63 | None => True end ->
  let restored := fun (_ : Z) s' => hp s' = hp s /\ held (tr s') = held (tr s) in
  wp Total (bracket (T := win_file) (x_file_open true path mode)) restored s /\
  wp Total (bracket (T := win_directory) (x_directory_open true path)) restored s.
Proof.
  intros Hp. destruct s as [e h t]. split; eapply bracket_restores.
  - by apply wp_win_file_open.
  - by apply wp_win_directory_open.
Qed.

(** From the [n]th call on, the search finds no dot entry. *)
Definition find_dots_end (n : nat) : Prop :=
  forall t handle data name, (n <= length t)%nat ->
    (os_call t (W (FindNextFileW handle))).1 = (true, data) -> utf8 (fd_name data) = Some name ->
    x_filesystem_is_dot_entry name = false.

(** The entry [x_directory_next] makes of what the search found. *)
Definition entry_of (data : find_data) (entry : x_directory_entry) : Prop :=
  utf8 (fd_name data) = Some (ent_name entry) /\ strlen (ent_name entry) < XLIB_NAME_MAX /\
  x_filesystem_is_dot_entry (ent_name entry) = false /\
  ent_is_directory entry = flag (fd_attributes data) FILE_ATTRIBUTE_DIRECTORY /\
  ent_size entry = quad_part (fd_size_low data) (fd_size_high data).

Lemma wp_find_next md p (d : win_directory) e h t Q :
  h !! p = Some (to_obj d) ->
  (forall data more err e', (os_call t (W (FindNextFileW (wd_handle d)))).1 = (more, data) ->
     0 <= err \/ err = wd_error d ->
     Q tt (St e' (<[p := to_obj (WinDirectory (wd_handle d) data more err)]> h)
             (Ev (W (FindNextFileW (wd_handle d))) (more, data) :: t))) ->
  wp md (find_next p) Q (St e h t).
Proof.
  intros Hp HQ. unfold find_next. wp_step. wp_step. wp_step. apply wp_sys_eq.
  intros [more data] e' Hc Hpost. cbn [fst snd]. pose proof (f_equal fst Hc) as Hc1. cbn in Hc1.
  destruct more.
  - win_run. cbn. by apply HQ; [|right].
  - destruct Hpost as [?|[_ He]]; [done|]. rewrite (proj2 (Z.eqb_neq e' 0)) by (cbn in He; lia).
    win_run. cbn [wd_handle wd_data wd_error]. apply HQ; [done|].
    destruct (e' =? ERROR_NO_MORE_FILES); cbn; [by right|left]. cbn in He.
    pose proof (x_filesystem_error_pos e' He). lia.
Qed.

(** The state of a search in progress: the directory keeps its handle and a
    nonnegative error, and what is pending was found by the search. *)
Definition searching (p : ptr) (d0 : win_directory) (s0 s : st) : Prop :=
  exists d, hp s = <[p := to_obj d]> (hp s0) /\ wd_handle d = wd_handle d0 /\ 0 <= wd_error d /\
    inert_ext (tr s0) (tr s) /\
    (wd_pending d = true -> wd_data d = wd_data d0 \/
       Ev (W (FindNextFileW (wd_handle d0))) (true, wd_data d) ∈ tr s).

Definition next_post (p : ptr) (d : win_directory) (s : st) (r : Z * x_directory_entry * bool) (s' : st) : Prop :=
  searching p d s s' /\
  ((r.2 = false /\ 0 <= r.1.1) \/
   (r.2 = true /\ r.1.1 = 0 /\ exists data, entry_of data r.1.2 /\
      (data = wd_data d \/ Ev (W (FindNextFileW (wd_handle d))) (true, data) ∈ tr s'))).

(** Rounds still possible when dot entries end at the [n]th call. *)
Definition pending_dot (d : win_directory) : bool :=
  wd_pending d &&
  match utf8 (fd_name (wd_data d)) with Some name => x_filesystem_is_dot_entry name | None => false end.

Definition rounds_left (n : nat) (p : ptr) (s : st) : nat :=
  match hp s !! p with
  | Some (OWin (WODirectory d)) => if pending_dot d then S (n - length (tr s)) else 0
  | _ => 0
  end.

Lemma rounds_left_eq n p d e h t :
  rounds_left n p (St e (<[p := to_obj d]> h) t) = if pending_dot d then S (n - length t) else 0%nat.
Proof. unfold rounds_left. cbn [hp tr]. by rewrite lookup_insert_eq. Qed.

Lemma rounds_left_dots n p d e h t data err more :
  find_dots_end n -> (os_call t (W (FindNextFileW (wd_handle d)))).1 = (more, data) ->
  (rounds_left n p (St e (<[p := to_obj (WinDirectory (wd_handle d) data more err)]> h)
     (Ev (W (FindNextFileW (wd_handle d))) (more, data) :: t)) <= n - length t)%nat.
Proof.
  intros Hdots Hc. rewrite rounds_left_eq. unfold pending_dot. cbn [wd_pending wd_data length].
  destruct more; cbn [andb]; [|lia].
  destruct (utf8 (fd_name data)) as [name|] eqn:Hu; [|lia].
  destruct (decide (n <= length t)%nat) as [Hle|]; [rewrite (Hdots t _ data name Hle Hc Hu); lia|].
  destruct (x_filesystem_is_dot_entry name); lia.
Qed.

Lemma wp_directory_next_step n p d s0 entry s :
  find_dots_end n -> searching p d s0 s ->
  wp Total (x_directory_next_step p entry)
    (fun r s' => match r with
                 | inl _ => searching p d s0 s' /\ (rounds_left n p s' < rounds_left n p s)%nat
                 | inr r => next_post p d s0 r s'
                 end) s.
Proof.
  intros Hdots Hs. pose proof Hs as (d1 & Hh & Hhd & He & Ht & Hp). destruct s as [e h t].
  cbn [hp tr] in *. subst h. unfold x_directory_next_step.
  wp_step. eapply (wp_load _ _ d1); [by rewrite lookup_insert_eq|].
  destruct (wd_pending d1) eqn:Epend; cbn [negb].
  2: { wp_run. split; [done|]. by left. }
  win_step. apply wp_filesystem_wide_to_utf8; [done|]. intros rc text e1 t1 Ht1 Hn.
  cbn [fst snd]. win_step. apply (wp_find_next _ _ d1); [by rewrite lookup_insert_eq|].
  intros data more err e2 Hc Herr. rewrite insert_insert_eq.
  assert (searching p d s0 (St e2 (<[p := to_obj (WinDirectory (wd_handle d1) data more err)]> (hp s0))
            (Ev (W (FindNextFileW (wd_handle d1))) (more, data) :: t1))) as Hs'.
  { exists (WinDirectory (wd_handle d1) data more err). cbn [hp tr wd_handle wd_error wd_pending wd_data]. split; [done|]. split; [done|].
    split; [destruct Herr; lia|]. split; [apply inert_ext_cons; [done|exact (inert_ext_trans _ _ _ Ht Ht1)]|].
    intros ->. right. rewrite Hhd. apply list_elem_of_here. }
  destruct Hn as [(-> & name & Hu & -> & Hl)|Hrc].
  2: { wp_run. split; [done|]. left. cbn. split; [done|lia]. }
  rewrite cstring_terminated by by eapply utf8_nul.
  wp_run.
  - split; [done|].
    eapply Nat.le_lt_trans; [by apply (rounds_left_dots n p d1)|]. rewrite rounds_left_eq.
    unfold pending_dot. rewrite Epend, Hu, E0. cbn [andb].
    pose proof (inert_ext_length _ _ Ht1). lia.
  - split; [done|]. right. cbn [fst snd]. split; [done|]. split; [done|]. exists (wd_data d1).
    split; [by split_and!|]. destruct (Hp eq_refl) as [->|Hin]; [by left|right].
    cbn [tr]. apply list_elem_of_further. destruct Ht1 as (u & -> & _). apply elem_of_app. by right.
Qed.

(** [x_directory_next] on Windows: it returns, skipping dot entries, once the
    search stops finding them.  An entry it reports was found by the search, with
    its name in UTF-8, its kind and its size; otherwise there is no entry.  Only the
    directory's own record changes and no resource does. *)
Theorem win_directory_next_spec fuel n p (d : win_directory) s :
  hp s !! p = Some (to_obj d) -> p <> NULL -> 0 <= wd_error d ->
  find_dots_end n -> (n + 1 < fuel)%nat ->
  wp Total (x_directory_next fuel p true true)
    (next_post p d s) s.
Proof.
  intros Hd Hn He Hdots Hfuel. destruct s as [e h t]. cbn [hp] in Hd. unfold x_directory_next.
  apply Z.eqb_neq in Hn as ->. cbn [negb orb].
  assert (forall err, 0 <= err ->
    searching p d (St e h t)
      (St e (<[p := to_obj (WinDirectory (wd_handle d) (wd_data d) (wd_pending d) err)]> h) t)) as Hs.
  { intros err Herr. exists (WinDirectory (wd_handle d) (wd_data d) (wd_pending d) err).
    split; [done|]. split; [done|]. split; [done|].
    split; [apply inert_ext_refl|]. by left. }
  wp_step. wp_step. wp_step.
  - wp_run. split; [by apply Hs|]. left. done.
  - apply (wp_iter _ (fun _ s' => searching p d (St e h t) s') (fun _ s' => rounds_left n p s')).
    + intros entry s1 Hs1. by apply wp_directory_next_step.
    + specialize (Hs (wd_error d) He). destruct d. cbn in Hs. by rewrite insert_id in Hs.
    + unfold rounds_left. cbn [hp tr]. rewrite Hd. cbn. destruct (pending_dot d); lia.
Qed.

(** A Windows snapshot gives a well-formed state: a missing file has no other
    attribute, and looking at one leaves nothing behind. *)
Theorem win_file_watcher_snapshot_spec path s :
  wp Total (x_file_watcher_snapshot (Some path) true)
    (fun r s' => 0 <= r.1 /\ keeps s s' /\ (r.1 = 0 -> state_ok r.2) /\
       (r.1 = 0 -> ws_is_directory r.2 = true -> ws_size r.2 = 0)) s.
Proof.
  destruct s as [e h t]. unfold x_file_watcher_snapshot. cbn [is_null negb orb].
  path_call_tac.
  - assert (0 < e0) as He by (posts; congruence || lia). pose proof (x_filesystem_error_pos e0 He).
    split; [cbn; case_match; lia|].
    split; [split; [done|cbn; eauto with xlib]|].
    split; [by right|done].
  - split; [done|]. split; [split; [done|cbn; eauto with xlib]|]. cbn. split; [by left|].
    by intros _ ->.
  - split; [cbn; lia|]. split; [done|]. cbn. split; intros; lia.
Qed.
End FileSpecs.

(** ** What opening does to the file *)

(** The effect of opening on a file that is there, or is not. *)
Inductive open_effect := OpenFails | OpenKeeps | OpenEmpties | OpenMakes.

Definition disposition_effect (disposition : Z) (exists_ : bool) : open_effect :=
  if disposition =? CREATE_ALWAYS then if exists_ then OpenEmpties else OpenMakes
  else if disposition =? OPEN_EXISTING then if exists_ then OpenKeeps else OpenFails
  else if disposition =? OPEN_ALWAYS then if exists_ then OpenKeeps else OpenMakes
  else if disposition =? TRUNCATE_EXISTING then if exists_ then OpenEmpties else OpenFails
  else OpenFails.

Definition flags_effect (flags : Z) (exists_ : bool) : open_effect :=
  if exists_ then if flag flags O_TRUNC then OpenEmpties else OpenKeeps
  else if flag flags O_CREAT then OpenMakes else OpenFails.



(** ** Examples *)

(** A directory whose pending entry is [name]. *)
Definition search_state (name : text) : st :=
  St 0 {[ 1 := to_obj (WinDirectory 9 (FindData 16 0 0 (Z.of_nat ∘ nat_of_ascii <$> name)) true 0) ]} [].

(** The calls succeed until the second, the search, which fails with
    ERROR_ACCESS_DENIED. *)
Definition denied_os : OS :=
  demo_os (Demo (fun t => if decide (length t = 1)%nat then Some 5%positive else None)
                (fun _ => []) (fun _ => 0%N) (fun _ => []) (fun _ => false)).

(** The error of a search that fails right after a dot entry is reported as the
    end of the directory; only a further call returns it. *)
Example win_directory_error_deferred :
  match (first ← x_directory_next (os := denied_os) 4 1 true true;
         second ← x_directory_next (os := denied_os) 4 1 true true;
         mret (first, second)) (search_state (str ".")) with
  | Done (first, second) _ => first.2 = false /\ first.1.1 = 0 /\ second.1.1 = EACCES
  | _ => False
  end.
Proof. by vm_compute. Qed.

Lemma calm_os_find_dots_end : find_dots_end (os := calm_os) 0.
Proof. intros t handle data name _ [= <-] [= <-]. by vm_compute. Qed.

Lemma win_directory_next_spec_witness :
  wp Total (x_directory_next (os := calm_os) 2 1 true true)
    (next_post (os := calm_os) 1 (WinDirectory 9 (FindData 16 0 0 [97]) true 0) (search_state (str "a"))) (search_state (str "a")).
Proof.
  apply (win_directory_next_spec (os := calm_os) 2 0 1).
  - done.
  - done.
  - done.
  - apply calm_os_find_dots_end.
  - lia.
Defined.

Lemma win_file_lifecycle_witness :
  wp Total (bracket (os := calm_os) (T := win_file) (x_file_open (os := calm_os) true (Some (str "a.txt")) X_FILE_READ))
    (fun _ s' => hp s' = hp st0 /\ held (tr s') = held (tr st0)) st0.
Proof.
  apply (win_file_lifecycle (os := calm_os) (Some (str "a.txt")) X_FILE_READ st0).
  split; [by apply (bool_decide_unpack _); vm_compute|by vm_compute].
Defined.
