(* ===== verification/XAsync.v ===== *)
(** * src/x_filesystem.c: asynchronous whole-file reads

    The worker runs on its own thread ([x_thread_entry] with
    [x_async_file_read_worker] as the function); the user's callback is a
    parameter.  Pointers into the operation's buffer are offsets. *)
From S2P Require Import Prelude Syscalls Structs Machine Contract XThread XFile DemoOS.

(** The name of [x_async_file_read_worker] as a thread function. *)
Definition x_async_file_read_worker_fn : Z := 1001.

Section Async.
Context {os : OS}.

(** [operation->callback (error, data, size, user_data)]; the first argument
    names the function. *)
Context (user_callback : Z -> Z -> ptr -> Z -> ptr -> M unit).

Definition set_ar_result (size error : Z) (a : x_async_file_read) : x_async_file_read :=
  XAsyncFileRead (ar_thread a) (ar_path a) (ar_data a) size error (ar_joined a)
    (ar_callback a) (ar_user_data a).
Definition set_ar_data (data : ptr) (a : x_async_file_read) : x_async_file_read :=
  XAsyncFileRead (ar_thread a) (ar_path a) data (ar_size a) (ar_error a) (ar_joined a)
    (ar_callback a) (ar_user_data a).
Definition set_ar_thread (thread : ptr) (a : x_async_file_read) : x_async_file_read :=
  XAsyncFileRead thread (ar_path a) (ar_data a) (ar_size a) (ar_error a) (ar_joined a)
    (ar_callback a) (ar_user_data a).
Definition set_ar_joined (a : x_async_file_read) : x_async_file_read :=
  XAsyncFileRead (ar_thread a) (ar_path a) (ar_data a) (ar_size a) (ar_error a) true
    (ar_callback a) (ar_user_data a).

(** One iteration of the reading loop; the loop state is [(error, total)] and
    [inr] leaves the loop. *)
Definition read_step (operation file : ptr) (file_size : Z) (a : Z * Z) : M (Z * Z + Z * Z) :=
  let '(error, total) := a in
  if (error =? 0) && (total <? file_size) then
    op ← load x_async_file_read operation;
    r ← x_file_read file true (file_size - total) true;
    write_bytes (ar_data op) total r.2;;
    let error := r.1.1 in
    let bytes_read := default 0 r.1.2 in
    if negb (error =? 0) then mret (inr (error, total))
    else if bytes_read =? 0 then mret (inr (error, total))
    else mret (inl (error, u64 (total + bytes_read)))
  else mret (inr (error, total)).

(** The end of the worker: close, terminate the data, publish, call back. *)
Definition worker_finish (operation file : ptr) (error total : Z) : M Z :=
  (if negb (file =? NULL) then x_file_close file else mret tt);;
  op ← load x_async_file_read operation;
  (if negb (ar_data op =? NULL) then write_bytes (ar_data op) total [NUL] else mret tt);;
  modify x_async_file_read operation (set_ar_result total error);;
  op ← load x_async_file_read operation;
  (if negb (ar_callback op =? NULL)
   then user_callback (ar_callback op) (ar_error op) (ar_data op) (ar_size op) (ar_user_data op)
   else mret tt);;
  mret error.

Definition x_async_file_read_worker (fuel : nat) (operation : ptr) : M Z :=
  op ← load x_async_file_read operation;
  path ← load text (ar_path op);
  o ← x_file_open true (Some (cstring path)) X_FILE_READ;
  let file := default NULL o.2 in
  z ← (if o.1 =? 0 then x_file_size file true else mret (o.1, None));
  let file_size := default 0 z.2 in
  let error := if (z.1 =? 0) && (SIZE_MAX - 1 <? file_size) then EOVERFLOW else z.1 in
  error ← (if error =? 0 then
             data ← malloc (u64 (file_size + 1));
             modify x_async_file_read operation (set_ar_data data);;
             mret (if data =? NULL then ENOMEM else error)
           else mret error);
  r ← iterM fuel (read_step operation file file_size) (error, 0);
  worker_finish operation file r.1 r.2.

Definition x_async_file_read_all (operation : bool) (path : cstr) (callback : Z)
    (user_data : ptr) : M (Z * option ptr) :=
  if negb operation || is_null path then mret (EINVAL, None)
  else
    created ← calloc 64 zero_async_file_read;
    if created =? NULL then mret (ENOMEM, Some NULL)
    else
      p ← x_filesystem_strdup path;
      modify x_async_file_read created (fun a =>
        XAsyncFileRead (ar_thread a) p (ar_data a) (ar_size a) (ar_error a) (ar_joined a)
          (ar_callback a) (ar_user_data a));;
      if p =? NULL then free created;; mret (ENOMEM, Some NULL)
      else
        modify x_async_file_read created (fun a =>
          XAsyncFileRead (ar_thread a) (ar_path a) (ar_data a) (ar_size a) (ar_error a)
            (ar_joined a) callback user_data);;
        t ← x_thread_create true x_async_file_read_worker_fn created;
        modify x_async_file_read created (set_ar_thread (default NULL t.2));;
        if negb (t.1 =? 0) then free p;; free created;; mret (t.1, Some NULL)
        else mret (0, Some created).

Definition x_async_file_read_wait (operation : ptr) : M Z :=
  if operation =? NULL then mret EINVAL
  else
    op ← load x_async_file_read operation;
    error ← (if negb (ar_joined op) then
               j ← x_thread_join (ar_thread op) true;
               if negb (j.1 =? 0) then mret j.1
               else modify x_async_file_read operation set_ar_joined;; mret 0
             else mret 0);
    if negb (error =? 0) then mret error
    else op ← load x_async_file_read operation; mret (ar_error op).

Definition x_async_file_read_destroy (operation : ptr) : M unit :=
  if operation =? NULL then mret tt
  else
    op ← load x_async_file_read operation;
    (if negb (ar_joined op) then x_async_file_read_wait operation;; mret tt else mret tt);;
    op ← load x_async_file_read operation;
    (if negb (ar_thread op =? NULL) then x_thread_destroy (ar_thread op) else mret tt);;
    free (ar_data op);;
    free (ar_path op);;
    free operation.

End Async.

(** ** The reading loop *)

(** What successful [read] calls delivered, in order. *)
Fixpoint read_data (t : list ev) : text :=
  match t with
  | [] => []
  | Ev (Sread _ _) r :: t' => read_data t' ++ (if r.1 <? 0 then [] else r.2)
  | _ :: t' => read_data t'
  end.

Section Loop.
Context {os : OS}.

Lemma wp_file_read file (f : x_file) size md e h t Q :
  h !! file = Some (to_obj f) -> file <> NULL -> 0 <= size ->
  (forall rc n data e' t', inert_ext t t' -> read_data t' = read_data t ++ data ->
     (rc = 0 /\ n = strlen data /\ n <= size \/ 0 < rc /\ n = 0 /\ data = []) ->
     Q (rc, Some n, data) (St e' h t')) ->
  wp md (x_file_read file true size true) Q (St e h t).
Proof.
  intros Hf Hn Hs HQ. unfold x_file_read.
  assert (ssize_chunk size <= size) by (unfold ssize_chunk; case_match; zbool; lia).
  wp_run; destruct Hpost as [Hc Hd]; destruct r as [r data]; cbn [fst snd] in *.
  - apply HQ; [auto with xlib| |right; posts; [done|lia]].
    cbn [read_data]. apply Z.ltb_lt in E. cbn [fst]. by rewrite E.
  - apply HQ; [auto with xlib| |left; unfold strlen; posts; lia].
    cbn [read_data fst snd]. apply Z.ltb_ge in E. by rewrite E.
Qed.

(** The state of the loop: [total] bytes of [b] are what was read since [t]. *)
Definition loop_inv (operation file d : ptr) (size : Z) (h : gmap ptr obj) (t : list ev)
    (a : Z * Z) (s : st) : Prop :=
  exists b, hp s = <[d := OBytes b]> h /\ Z.of_nat (length b) = size + 1 /\
    0 <= a.1 /\ 0 <= a.2 <= size /\ inert_ext t (tr s) /\
    read_data (tr s) = read_data t ++ take (Z.to_nat a.2) b.

Lemma take_write total b data :
  0 <= total -> (Z.to_nat total + length data <= length b)%nat ->
  take (Z.to_nat (total + strlen data))
    (take (Z.to_nat total) b ++ data ++ drop (Z.to_nat total + length data) b) =
  take (Z.to_nat total) b ++ data.
Proof.
  intros Ht Hl. unfold strlen. rewrite (assoc_L (++)).
  rewrite take_app_le by (rewrite length_app, length_take; lia).
  apply take_ge. rewrite length_app, length_take. lia.
Qed.

Lemma wp_read_loop operation file d (op : x_async_file_read) (f : x_file) size b fuel md e h t Q :
  h !! operation = Some (to_obj op) -> ar_data op = d -> operation <> d -> d <> NULL ->
  h !! file = Some (to_obj f) -> file <> NULL -> file <> d ->
  Z.of_nat (length b) = size + 1 -> 0 <= size < 2 ^ 63 -> (Z.to_nat size < fuel)%nat ->
  (forall a s', loop_inv operation file d size h t a s' -> Q a s') ->
  wp md (iterM fuel (read_step operation file size) (0, 0)) Q (St e (<[d := OBytes b]> h) t).
Proof.
  intros Hop Hd Hne Hdn Hf Hfn Hfd Hb Hsize Hfuel HQ. apply wp_total_any.
  apply (wp_iter _ (fun a s' => loop_inv operation file d size h t a s')
           (fun a _ => Z.to_nat (size - a.2))); [| |cbn; lia].
  2: { exists b. cbn. split_and!; try done || lia; [apply inert_ext_refl|].
       by rewrite take_0, app_nil_r. }
  intros [error total] [e1 h1 t1] (b1 & Hh & Hb1 & He & Htot & Ht & Hr); proj_simpl; subst h1.
  unfold read_step. wp_run; [|apply HQ; by exists b1].
  eapply wp_file_read; [by simplify_map_eq|done|lia|].
  intros rc n data e' t' Ht' Hr' Hcase. cbn [fst snd default from_option id].
  assert (strlen data <= size - total) as Hlen
    by (destruct Hcase as [(? & ? & ?)|(? & ? & ->)]; unfold strlen in *; cbn; lia).
  wp_step. rewrite Hd. eapply (wp_write_bytes _ _ b1); [by simplify_map_eq|lia|lia|].
  rewrite insert_insert_eq.
  set (b2 := _ ++ data ++ _).
  assert (length b2 = length b1) as Hb2.
  { unfold b2, strlen in *. rewrite !length_app, length_take, length_drop. lia. }
  assert (forall error', 0 <= error' -> loop_inv operation file d size h t
    (error', total + strlen data) (St e' (<[d := OBytes b2]> h) t')) as Hinv.
  { intros error' He'. exists b2. unfold strlen in *. cbn [fst snd hp tr]. split_and!; try done || lia.
    - by eapply inert_ext_trans.
    - rewrite Hr', Hr, <- (assoc_L (++) (read_data t)). f_equal. symmetry.
      apply take_write; unfold strlen in *; lia. }
  destruct Hcase as [(-> & -> & Hle)|(Hrc & -> & ->)]; wp_run; try lia.
  - apply HQ. specialize (Hinv 0). rewrite E0, Z.add_0_r in Hinv. by apply Hinv.
  - unfold strlen in *. rewrite u64_small by (unfold is_u64; lia).
    split; [by apply Hinv|]. cbn. lia.
  - apply HQ. specialize (Hinv rc). cbn in Hinv. rewrite Z.add_0_r in Hinv. apply Hinv. lia.
Qed.
End Loop.

(** ** The worker *)

Section Worker.
Context {os : OS}.
Context (user_callback : Z -> Z -> ptr -> Z -> ptr -> M unit).

(** [fstat] reports sizes below [n]. *)
Definition sizes_below (n : Z) : Prop :=
  forall t fd, st_size (os_call t (Sfstat fd)).1.2 < n.

(** The heap and history a finished worker leaves: the file is closed again,
    [content] is what was read, and the buffer, when there is one, is the
    content followed by a NUL. *)
Definition worker_post (operation : ptr) (op : x_async_file_read) (s : st) (rc : Z) (s' : st)
    : Prop :=
  0 <= rc /\ held (tr s') = held (tr s) /\ exists d content tail,
    read_data (tr s') = read_data (tr s) ++ content /\
    hp s' = <[operation := to_obj (set_ar_result (strlen content) rc (set_ar_data d op))]>
              (if d =? NULL then hp s else <[d := OBytes (content ++ NUL :: tail)]> (hp s)) /\
    ((d = NULL /\ content = [] /\ 0 < rc) \/ (0 < d /\ hp s !! d = None)).

(** Without a buffer. *)
Lemma wp_finish_empty operation file (op : x_async_file_read) error md e h t Q :
  h !! operation = Some (to_obj op) -> ar_callback op = NULL -> ar_data op = NULL ->
  (file = NULL \/ exists f : x_file, file <> NULL /\ h !! file = Some (to_obj f)) ->
  (forall e' t',
     held t' = held t ∖ (match h !! file with
                         | Some (OFile f) => if file =? NULL then ∅ else {[ (KFd, file_fd f) ]}
                         | _ => ∅ end) ->
     read_data t' = read_data t ->
     Q error (St e' (<[operation := to_obj (set_ar_result 0 error op)]>
                (if file =? NULL then h else delete file h)) t')) ->
  wp md (worker_finish user_callback operation file error 0) Q (St e h t).
Proof.
  intros Hop Hcb Hd Hfile HQ. unfold worker_finish, x_file_close.
  destruct Hfile as [->|(f & Hf & Hfl)].
  - wp_run; try congruence. apply HQ; [|done]. cbn. repeat case_match; by rewrite res_diff_empty.
  - assert (operation <> file) by (intros E0; rewrite E0 in Hop; simplify_eq/=). apply Z.eqb_neq in Hf as E. rewrite E, Hfl in HQ.
    wp_run; try congruence. apply HQ; [by held_simpl|done].
Qed.

Lemma wp_finish_data operation file (f : x_file) (op : x_async_file_read) b error total md e h t Q :
  h !! operation = Some (to_obj op) -> ar_callback op = NULL -> file <> NULL ->
  h !! file = Some (to_obj f) -> ar_data op <> NULL -> h !! ar_data op = Some (OBytes b) ->
  0 <= total < Z.of_nat (length b) ->
  (forall e' t', held t' = held t ∖ {[ (KFd, file_fd f) ]} -> read_data t' = read_data t ->
     Q error (St e' (<[operation := to_obj (set_ar_result total error op)]>
       (<[ar_data op := OBytes (take (Z.to_nat total) b ++ NUL :: drop (Z.to_nat total + 1) b)]>
          (delete file h))) t')) ->
  wp md (worker_finish user_callback operation file error total) Q (St e h t).
Proof.
  intros Hop Hcb Hf Hfl Hd Hb Htot HQ. unfold worker_finish, x_file_close.
  assert (operation <> file) by (intros E0; rewrite E0 in Hop; simplify_eq/=).
  assert (operation <> ar_data op) by (intros E; rewrite <- E in *; simplify_eq/=).
  assert (ar_data op <> file) by (intros E; rewrite <- E in *; simplify_eq/=).
  wp_run; try congruence.
  eapply (wp_write_bytes _ _ b); [by simplify_map_eq|lia|unfold strlen; cbn; lia|].
  wp_run; try congruence. apply HQ; [by held_simpl|done].
Qed.

Lemma wp_file_open_read path mode md e h t Q :
  (forall rc out e' t', 0 < rc -> default NULL out = NULL -> held t' = held t ->
     read_data t' = read_data t -> Q (rc, out) (St e' h t')) ->
  (forall p (f : x_file) e' t', 0 < p -> h !! p = None ->
     held t' = held t ∪ {[ (KFd, file_fd f) ]} -> (KFd, file_fd f) ∉ held t ->
     read_data t' = read_data t -> Q (0, Some p) (St e' (<[p := to_obj f]> h) t')) ->
  wp md (x_file_open true path mode) Q (St e h t).
Proof.
  intros H1 H2. unfold x_file_open. wp_run; heap_simpl; posts; try lia; subst.
  all: first [apply H1; solve [done | lia | by held_simpl]
             |apply (H2 p (XFile r)); solve [done | held_solve | held_hyps; done]].
Qed.

Lemma wp_file_size_below n file (f : x_file) md e h t Q :
  h !! file = Some (to_obj f) -> file <> NULL -> sizes_below n ->
  (forall rc v e' t', inert_ext t t' -> read_data t' = read_data t ->
     (rc = 0 /\ (exists z, v = Some z /\ 0 <= z < n /\ z < 2 ^ 63) \/ 0 < rc /\ v = None) ->
     Q (rc, v) (St e' h t')) ->
  wp md (x_file_size file true) Q (St e h t).
Proof.
  intros Hf Hn Hsz HQ. unfold x_file_size. do 4 wp_step.
  apply wp_sys_eq. intros r e' Hc [Hp Hst]. specialize (Hsz t (file_fd f)). rewrite Hc in Hsz.
  cbn [fst] in Hsz. unfold stat_ok in Hst. wp_run.
  - apply HQ; [auto with xlib|done|right]. split; [|done]. case_match; zbool; posts; lia.
  - apply HQ; [auto with xlib|done|left]. split; [done|]. eexists. split; [done|].
    rewrite u64_small by (unfold is_u64; lia). lia.
Qed.

(** An operation that ends without a buffer. *)
Lemma worker_empty_post operation (op : x_async_file_read) rc e h t e' t' :
  ar_data op = NULL -> 0 < rc -> held t' = held t -> read_data t' = read_data t ->
  worker_post operation op (St e h t) rc
    (St e' (<[operation := to_obj (set_ar_result 0 rc op)]> h) t').
Proof.
  intros Hd Hrc Ht Hr. split; [lia|]. split; [done|]. exists NULL, [], []. cbn [tr hp].
  rewrite app_nil_r. split_and!; [done| |by left].
  cbn. destruct op; cbn in *. by subst.
Qed.

Lemma sizes_below_pos n : sizes_below n -> 0 < n.
Proof.
  intros H. specialize (H [] 0). pose proof (os_call_post [] (Sfstat 0)) as [_ Hs].
  unfold stat_ok in Hs. lia.
Qed.

Lemma wp_read_loop_error operation file size error fuel md Q s :
  error <> 0 -> (0 < fuel)%nat -> Q (error, 0) s ->
  wp md (iterM fuel (read_step operation file size) (error, 0)) Q s.
Proof.
  intros He Hf HQ. destruct fuel as [|fuel]; [lia|]. apply wp_iter_S. unfold read_step.
  apply Z.eqb_neq in He. rewrite He. cbn [andb]. by apply wp_ret.
Qed.

(** With the file open and an error, whatever the buffer would have been. *)
Lemma wp_open_error operation (op : x_async_file_read) fp (f : x_file) error size fuel e h t e1 t1 :
  h !! operation = Some (to_obj op) -> ar_data op = NULL -> ar_callback op = NULL ->
  0 < fp -> h !! fp = None -> 0 < error -> (0 < fuel)%nat ->
  held t1 = held t ∪ {[ (KFd, file_fd f) ]} -> (KFd, file_fd f) ∉ held t ->
  read_data t1 = read_data t ->
  wp Total (r ← iterM fuel (read_step operation fp size) (error, 0);
            worker_finish user_callback operation fp r.1 r.2)
    (worker_post operation op (St e h t)) (St e1 (<[fp := to_obj f]> h) t1).
Proof.
  intros Hop Hd Hcb Hfp Hnew Herr Hfuel Ht1 Hfd Hr1. wp_step.
  apply wp_read_loop_error; [lia|done|]. cbn [fst snd].
  eapply wp_finish_empty; [by simplify_map_eq|done|done| |].
  { right. exists f. split; [unfold NULL; lia|by simplify_map_eq]. }
  intros e2 t2 Ht2 Hr2. destruct (Z.eqb_spec fp NULL); [unfold NULL in *; lia|].
  rewrite lookup_insert_eq in Ht2. cbn in Ht2. heap_simpl.
  apply worker_empty_post; [done..| |congruence].
  rewrite Ht2, Ht1. apply held_undo. done.
Qed.

Lemma loop_inv_zero operation file d size h t a s :
  loop_inv operation file d size h t a s -> 0 <= a.1 /\ 0 <= a.2 <= size.
Proof. intros (b & _ & _ & ? & ? & _). done. Qed.

(** With the file and the buffer: read, then finish. *)
Lemma wp_read_and_finish operation (op : x_async_file_read) fp (f : x_file) d b size fuel e h t e1 t1 :
  h !! operation = Some (to_obj op) -> ar_callback op = NULL ->
  0 < fp -> h !! fp = None -> 0 < d -> <[fp := to_obj f]> h !! d = None ->
  Z.of_nat (length b) = size + 1 -> 0 <= size < 2 ^ 63 -> (Z.to_nat size < fuel)%nat ->
  held t1 = held t ∪ {[ (KFd, file_fd f) ]} -> (KFd, file_fd f) ∉ held t ->
  read_data t1 = read_data t ->
  wp Total (r ← iterM fuel (read_step operation fp size) (0, 0);
            worker_finish user_callback operation fp r.1 r.2)
    (worker_post operation op (St e h t))
    (St e1 (<[operation := to_obj (set_ar_data d op)]> (<[d := OBytes b]> (<[fp := to_obj f]> h))) t1).
Proof.
  intros Hop Hcb Hfp Hnew Hd Hdn Hb Hsize Hfuel Ht1 Hfd Hr1.
  apply lookup_insert_None in Hdn as [Hdn Hne].
  assert (operation <> fp) by congruence. assert (operation <> d) by congruence.
  rewrite insert_insert_ne by done. wp_step.
  eapply (wp_read_loop _ _ d (set_ar_data d op) f); [by simplify_map_eq|done|done|
    unfold NULL; lia|by simplify_map_eq|unfold NULL; lia|done|done|done|done|].
  intros [error total] [e2 h2 t2] (b2 & Hh2 & Hb2 & He & Htot & Ht2 & Hr2); proj_simpl; subst h2.
  apply inert_ext_held in Ht2.
  eapply (wp_finish_data _ _ f (set_ar_data d op) b2); cbn [ar_data ar_callback set_ar_data];
    [by simplify_map_eq|done|unfold NULL; lia|by simplify_map_eq|unfold NULL; lia|by simplify_map_eq|lia|].
  intros e3 t3 Ht3 Hr3.
  set (content := take (Z.to_nat total) b2) in *.
  assert (strlen content = total) as Hlen by (unfold content, strlen; rewrite length_take; lia).
  split; [done|]. cbn [tr hp]. split.
  { rewrite Ht3, Ht2, Ht1. by apply held_undo. }
  exists d, content, (drop (Z.to_nat total + 1) b2). split_and!.
  - congruence.
  - rewrite Hlen. destruct (Z.eqb_spec d NULL); [unfold NULL in *; lia|].
    apply map_eq. intros k.
    rewrite !lookup_insert, !lookup_delete, !lookup_insert. repeat case_decide; congruence.
  - by right.
Qed.

End Worker.

(** ** Examples *)

Definition async_op : x_async_file_read := XAsyncFileRead NULL 2 NULL 0 0 false NULL NULL.
Definition async_state : st :=
  St 0 (<[1 := to_obj async_op]> {[ 2 := OBytes (str "f" ++ [NUL]) ]}) [].

Lemma calm_os_sizes_below : sizes_below (os := calm_os) 1.
Proof. intros t fd. done. Qed.

