(* ===== verification/XProcess.v ===== *)
(** * src/x_process.c: processes, pipes and the environment (POSIX build)

    [fork] answers 0 in the child: a run that continues with 0 is a run of the
    child, which leaves the program by [_exit] or a successful exec ([Halt]).
    Argument and environment vectors are lists of texts; [environ] is the
    process's own environment. *)
From S2P Require Import Prelude Syscalls Structs Machine Contract XFile DemoOS.

Definition WNOHANG : Z := 1.
Definition SIGTERM : Z := 15.
Definition STDIN_FILENO : Z := 0.
Definition STDOUT_FILENO : Z := 1.
Definition STDERR_FILENO : Z := 2.
Definition F_SETFD : Z := 2.
Definition FD_CLOEXEC : Z := 1.

(** The status word of [waitpid] ([WIFEXITED] and the like). *)
Definition WTERMSIG (status : Z) : Z := Z.land status 127.
Definition WIFEXITED (status : Z) : bool := WTERMSIG status =? 0.
Definition WEXITSTATUS (status : Z) : Z := Z.shiftr (Z.land status 65280) 8.
(** [((signed char) ((status & 0x7f) + 1) >> 1) > 0]. *)
Definition WIFSIGNALED (status : Z) : bool :=
  let c := (WTERMSIG status + 1 + 128) mod 256 - 128 in 0 <? Z.shiftr c 1.

Section Process.
Context {os : OS} (environ : list text).

(** A successful exec does not return. *)
Definition exec (c : syscall Z) (path : text) (args env : list text) : M unit :=
  r ← sys c;
  if r =? -1 then mret tt else halt (HExec path args env).

Definition x_process_argument_count (arguments : option (list text)) : Z :=
  match arguments with None => 0 | Some l => Z.of_nat (length l) end.

Definition x_process_redirect_fd (path : cstr) (target_fd flags : Z) : M Z :=
  if is_null path then mret 0
  else
    fd ← sys (Sopen (txt path) (Z.lor flags O_CLOEXEC) 438);
    if fd <? 0 then get_errno
    else
      r ← sys (Sdup2 fd target_fd);
      if r <? 0 then error ← get_errno; sys (Sclose fd);; mret error
      else sys (Sclose fd);; mret 0.

Definition x_process_redirect_pipe (pipe : ptr) (target_fd : Z) : M Z :=
  if pipe =? NULL then mret 0
  else
    p ← load x_pipe pipe;
    r ← sys (Sdup2 (pi_fd p) target_fd);
    if r <? 0 then get_errno else mret 0.

(** The scan of an explicit environment. *)
Fixpoint environment_lookup (environment : list text) (name : text) : cstr :=
  match environment with
  | [] => None
  | e :: rest =>
      if strncmp_eq e name (length name) && Ascii.eqb (char_at e (length name)) "="%char
      then Some (drop (length name + 1) e)
      else environment_lookup rest name
  end.

Definition x_process_environment_value (environment : option (list text)) (name : text) : M cstr :=
  match environment with
  | None => sys (Sgetenv name)
  | Some env => mret (environment_lookup env name)
  end.

(** One candidate of the PATH search. *)
Definition exec_candidate_step (path : text) (arguments environment : list text) (start : text)
    : M (text + unit) :=
  let end_ := strchr start ":"%char in
  let directory_length := default (length start) end_ in
  let directory := take directory_length start in
  let needs_separator := if (0 <? directory_length)%nat then 1 else 0 in
  candidate ← malloc (u64 (Z.of_nat directory_length + needs_separator + strlen path + 1));
  (if negb (candidate =? NULL) then
     write_bytes candidate 0 directory;;
     (if negb (needs_separator =? 0)
      then write_bytes candidate (Z.of_nat directory_length) ["/"%char] else mret tt);;
     write_bytes candidate (Z.of_nat directory_length + needs_separator) (path ++ [NUL]);;
     b ← load text candidate;
     exec (Sexecve (cstring b) arguments environment) (cstring b) arguments environment;;
     free candidate
   else mret tt);;
  match end_ with
  | None => mret (inr tt)
  | Some i => mret (inl (drop (i + 1) start))
  end.

Definition x_process_exec_environment (path : text) (arguments : list text)
    (environment : option (list text)) : M unit :=
  match environment with
  | None =>
      if negb (is_null (strchr path "/"%char))
      then exec (Sexecv path arguments) path arguments environ
      else exec (Sexecvp path arguments) path arguments environ
  | Some env =>
      if negb (is_null (strchr path "/"%char))
      then exec (Sexecve path arguments env) path arguments env
      else
        v ← x_process_environment_value environment (str "PATH");
        let path_value :=
          match v with
          | Some w => if Ascii.eqb (char_at w 0) NUL then str "/bin:/usr/bin" else w
          | None => str "/bin:/usr/bin"
          end in
        iterM (S (length path_value)) (exec_candidate_step path arguments env) path_value
  end.

Definition x_process_set_exit_status (status : Z) (p : x_process) : x_process :=
  XProcess (pr_waited p)
    (if WIFEXITED status then WEXITSTATUS status
     else if WIFSIGNALED status then 128 + WTERMSIG status
     else -1) (pr_pid p).

(** [a != 0 || b != 0 || ...]: the first error, the rest not run. *)
Fixpoint until_error (l : list (M Z)) : M Z :=
  match l with
  | [] => mret 0
  | m :: rest => error ← m; if negb (error =? 0) then mret error else until_error rest
  end.

(** The redirections of the child, in order, up to the first failure. *)
Definition child_redirect (o : x_process_options) : M Z :=
  let write := Z.lor (Z.lor O_WRONLY O_CREAT) O_TRUNC in
  until_error
      [ x_process_redirect_fd (op_stdin_path o) STDIN_FILENO O_RDONLY;
        x_process_redirect_fd (op_stdout_path o) STDOUT_FILENO write;
        x_process_redirect_fd (op_stderr_path o) STDERR_FILENO write;
        x_process_redirect_pipe (op_stdin_pipe o) STDIN_FILENO;
        x_process_redirect_pipe (op_stdout_pipe o) STDOUT_FILENO;
        x_process_redirect_pipe (op_stderr_pipe o) STDERR_FILENO ].

(** What the child does after [fork]; it never returns. *)
Definition child_main {A} (path : text) (child_arguments : list text)
    (options : option x_process_options) : M A :=
  (match options with
   | Some o =>
       match op_working_directory o with
       | Some dir => r ← sys (Schdir dir);
                     if negb (r =? 0) then halt (HExit 127) else mret tt
       | None => mret tt
       end;;
       error ← child_redirect o;
       if negb (error =? 0) then halt (HExit 127) else mret tt
   | None => mret tt
   end);;
  x_process_exec_environment path child_arguments
    (match options with Some o => op_environment o | None => Some environ end);;
  halt (HExit 127).

(** A path and a pipe for the same stream. *)
Definition conflicting (o : x_process_options) : bool :=
  let both (path : cstr) pipe := negb (is_null path) && negb (pipe =? NULL) in
  both (op_stdin_path o) (op_stdin_pipe o)
  || both (op_stdout_path o) (op_stdout_pipe o)
  || both (op_stderr_path o) (op_stderr_pipe o).

Definition x_process_start (process : bool) (path : cstr) (arguments : option (list text))
    (options : option x_process_options) : M (Z * option ptr) :=
  if negb process || is_null path then mret (EINVAL, None)
  else if match options with Some o => conflicting o | None => false end
  then mret (EINVAL, None)
  else
    created ← calloc 12 (XProcess false 0 0);
    if created =? NULL then mret (ENOMEM, Some NULL)
    else
      let argument_count := x_process_argument_count arguments in
      child_arguments ← calloc (8 * (argument_count + 2))
                          (replicate (Z.to_nat (argument_count + 2)) NULL);
      if child_arguments =? NULL then free created;; mret (ENOMEM, Some NULL)
      else
        pid ← sys Sfork;
        if pid <? 0 then
          error ← get_errno;
          free child_arguments;; free created;; mret (error, Some NULL)
        else if pid =? 0 then
          child_main (txt path) (txt path :: default [] arguments) options
        else
          modify x_process created (fun p => XProcess (pr_waited p) (pr_exit_code p) pid);;
          free child_arguments;;
          mret (0, Some created).

(** [do result = waitpid (...); while (result < 0 && errno == EINTR)]. *)
Definition waitpid_step (pid options : Z) (_ : unit) : M (unit + Z * Z) :=
  r ← sys (Swaitpid pid options);
  e ← get_errno;
  if (r.1 <? 0) && (e =? EINTR) then mret (inl tt) else mret (inr r).
Definition waitpid_loop (fuel : nat) (pid options : Z) : M (Z * Z) :=
  iterM fuel (waitpid_step pid options) tt.

(** [process->exit_code] after the status is known, [process->waited] set. *)
Definition x_process_wait (fuel : nat) (process : ptr) (exit_code : bool) : M (Z * option Z) :=
  if process =? NULL then mret (EINVAL, None)
  else
    p ← load x_process process;
    error ← (if negb (pr_waited p) then
               r ← waitpid_loop fuel (pr_pid p) 0;
               if r.1 <? 0 then get_errno
               else
                 modify x_process process (x_process_set_exit_status r.2);;
                 modify x_process process (fun p => XProcess true (pr_exit_code p) (pr_pid p));;
                 mret 0
             else mret 0);
    if negb (error =? 0) then mret (error, None)
    else
      p ← load x_process process;
      mret (0, if exit_code then Some (pr_exit_code p) else None).

(** Returns [(rc, *completed, *exit_code)], [None] where nothing is written. *)
Definition x_process_poll (fuel : nat) (process : ptr) (completed exit_code : bool)
    : M (Z * option bool * option Z) :=
  if (process =? NULL) || negb completed then mret (EINVAL, None, None)
  else
    p ← load x_process process;
    if pr_waited p then
      mret (0, Some true, if exit_code then Some (pr_exit_code p) else None)
    else
      r ← waitpid_loop fuel (pr_pid p) WNOHANG;
      if r.1 <? 0 then e ← get_errno; mret (e, None, None)
      else if r.1 =? 0 then mret (0, Some false, None)
      else
        modify x_process process (x_process_set_exit_status r.2);;
        modify x_process process (fun p => XProcess true (pr_exit_code p) (pr_pid p));;
        p ← load x_process process;
        mret (0, Some true, if exit_code then Some (pr_exit_code p) else None).

Definition x_process_terminate (process : ptr) : M Z :=
  if process =? NULL then mret EINVAL
  else
    p ← load x_process process;
    r ← sys (Skill (pr_pid p) SIGTERM);
    if negb (r =? 0) then get_errno else mret 0.

Definition x_process_destroy (process : ptr) : M unit :=
  if process =? NULL then mret tt else free process.

(** ** Pipes *)

(** Returns the code and the two out-parameters. *)
Definition x_pipe_create (read_pipe write_pipe : bool) : M (Z * option (ptr * ptr)) :=
  if negb read_pipe || negb write_pipe then mret (EINVAL, None)
  else
    created_read ← calloc 4 (XPipe 0);
    created_write ← calloc 4 (XPipe 0);
    if (created_read =? NULL) || (created_write =? NULL) then
      free created_read;; free created_write;; mret (ENOMEM, Some (NULL, NULL))
    else
      r ← sys Spipe;
      if negb (r.1 =? 0) then
        error ← get_errno;
        free created_read;; free created_write;; mret (error, Some (NULL, NULL))
      else
        sys (Sfcntl r.2.1 F_SETFD FD_CLOEXEC);;
        sys (Sfcntl r.2.2 F_SETFD FD_CLOEXEC);;
        store created_read (XPipe r.2.1);;
        store created_write (XPipe r.2.2);;
        mret (0, Some (created_read, created_write)).

Definition x_pipe_read (pipe : ptr) (buffer : bool) (size : Z) (bytes_read : bool)
    : M (Z * option Z * text) :=
  if (pipe =? NULL) || negb buffer then mret (EINVAL, None, [])
  else
    p ← load x_pipe pipe;
    result ← sys (Sread (pi_fd p) (ssize_chunk size));
    if result.1 <? 0 then e ← get_errno; mret (e, if bytes_read then Some 0 else None, [])
    else mret (0, if bytes_read then Some result.1 else None, result.2).

Definition x_pipe_write (pipe : ptr) (buffer : cstr) (size : Z) (bytes_written : bool)
    : M (Z * option Z) :=
  if (pipe =? NULL) || is_null buffer then mret (EINVAL, None)
  else
    p ← load x_pipe pipe;
    result ← sys (Swrite (pi_fd p) (txt buffer) (ssize_chunk size));
    if result <? 0 then e ← get_errno; mret (e, if bytes_written then Some 0 else None)
    else mret (0, if bytes_written then Some result else None).

Definition x_pipe_close (pipe : ptr) : M unit :=
  if pipe =? NULL then mret tt
  else
    p ← load x_pipe pipe;
    (if 0 <=? pi_fd p then sys (Sclose (pi_fd p));; mret tt else mret tt);;
    free pipe.

(** ** Two processes joined by a pipe *)

Definition first_options (options : option x_process_options) (pipe_write : ptr)
    : x_process_options :=
  match options with
  | Some o => XProcessOptions (op_working_directory o) (op_stdin_path o) None (op_stderr_path o)
                (op_environment o) (op_stdin_pipe o) pipe_write (op_stderr_pipe o)
  | None => XProcessOptions None None None None None NULL pipe_write NULL
  end.
Definition second_options (options : option x_process_options) (pipe_read : ptr)
    : x_process_options :=
  match options with
  | Some o => XProcessOptions (op_working_directory o) None (op_stdout_path o) (op_stderr_path o)
                (op_environment o) pipe_read (op_stdout_pipe o) (op_stderr_pipe o)
  | None => XProcessOptions None None None None None pipe_read NULL NULL
  end.

Definition x_process_run_pipeline (fuel : nat) (first_path : cstr)
    (first_arguments : option (list text)) (second_path : cstr)
    (second_arguments : option (list text)) (options : option x_process_options)
    (exit_code : bool) : M (Z * option Z) :=
  if is_null first_path || is_null second_path then mret (EINVAL, None)
  else
    c ← x_pipe_create true true;
    if negb (c.1 =? 0) then mret (c.1, None)
    else
      let '(pipe_read, pipe_write) := default (NULL, NULL) c.2 in
      f ← x_process_start true first_path first_arguments
            (Some (first_options options pipe_write));
      let first := default NULL f.2 in
      s ← (if f.1 =? 0
           then x_process_start true second_path second_arguments
                  (Some (second_options options pipe_read))
           else mret (f.1, None));
      let error := s.1 in
      let second := default NULL s.2 in
      x_pipe_close pipe_write;;
      x_pipe_close pipe_read;;
      if negb (error =? 0) then
        (if negb (first =? NULL) then
           x_process_terminate first;;
           x_process_wait fuel first false;;
           x_process_destroy first
         else mret tt);;
        mret (error, None)
      else
        w1 ← x_process_wait fuel first true;
        w2 ← x_process_wait fuel second true;
        let error := if w1.1 =? 0 then w2.1 else w1.1 in
        x_process_destroy first;;
        x_process_destroy second;;
        if negb (error =? 0) then mret (error, None)
        else
          let first_exit := default 0 w1.2 in
          let second_exit := default 0 w2.2 in
          mret (0, if exit_code
                   then Some (if negb (second_exit =? 0) then second_exit else first_exit)
                   else None).

(** ** The environment of this process *)

(** Returns the code and the string stored in the buffer. *)
Definition x_environment_get (name : cstr) (buffer : bool) (buffer_size : Z) : M (Z * cstr) :=
  if is_null name || negb buffer || (buffer_size =? 0) then mret (EINVAL, None)
  else
    value ← sys (Sgetenv (txt name));
    match value with
    | None => mret (ENOENT, None)
    | Some v =>
        if buffer_size <? u64 (strlen v + 1) then mret (ENAMETOOLONG, None)
        else mret (0, Some v)
    end.

Definition x_environment_set (name value : cstr) : M Z :=
  if is_null name || is_null value then mret EINVAL
  else
    r ← sys (Ssetenv (txt name) (txt value) 1);
    if negb (r =? 0) then get_errno else mret 0.

Definition x_environment_unset (name : cstr) : M Z :=
  if is_null name then mret EINVAL
  else
    r ← sys (Sunsetenv (txt name));
    if negb (r =? 0) then get_errno else mret 0.

End Process.

(** ** Waiting *)

Section Wait.
Context {os : OS}.

(** Either starving is allowed, or signals stop within the fuel. *)
Definition may_wait (md : wpmode) (fuel : nat) : Prop :=
  may_starve md \/ exists n, quiet_after n /\ (n < fuel)%nat.

Lemma wp_waitpid_loop fuel pid options md e h t Q :
  may_wait md fuel -> 0 < pid ->
  (forall r e' t', inert_ext t t' ->
     (r.1 = -1 /\ 0 < e' /\ e' <> EINTR) \/ r.1 = 0 \/ r.1 = pid ->
     Q r (St e' h t')) ->
  wp md (waitpid_loop fuel pid options) Q (St e h t).
Proof.
  intros Hw Hpid HQ. unfold waitpid_loop.
  assert (forall s, hp s = h /\ inert_ext t (tr s) ->
    wp md (waitpid_step pid options tt) (fun r s' => match r with
      | inl _ => (hp s' = h /\ inert_ext t (tr s')) /\
                 (forall n, quiet_after n -> n - length (tr s') < n - length (tr s))%nat
      | inr b => Q b s' end) s) as Hstep.
  { intros [e1 h1 t1] [Hh Ht]. cbn [hp tr] in *. subst h1. unfold waitpid_step.
    apply wp_bind, wp_sys_eq. intros r e' Hc Hpost. cbn [sys_post] in Hpost. wp_run.
    - split; [split; [done|]; cbn [tr]; apply inert_ext_cons; done|].
      intros n Hn. cbn [tr length].
      destruct (decide (n <= length t1)%nat) as [Hle|]; [|lia].
      destruct (Hn _ _ (Swaitpid pid options) Hle). rewrite Hc. cbn.
      destruct (Z.eqb_spec e' 0); lia.
    - apply HQ; [by apply inert_ext_cons|].
      destruct Hpost as [[Hr He]|?]; [left|by right]. split; [done|].
      destruct (Z.eqb_spec e' 0); [lia|]. split; [done|]. intros ->.
      by rewrite Hr in E. }
  destruct Hw as [Hs|(n & Hq & Hf)].
  - apply (wp_iter_partial _ (fun _ s => hp s = h /\ inert_ext t (tr s))); [done| |].
    + intros [] s HI. eapply wp_mono; [by apply Hstep|]. intros [[]|b] s'; [by intros [? _]|done].
    + split; [done|apply inert_ext_refl].
  - apply (wp_iter _ (fun _ s => hp s = h /\ inert_ext t (tr s))
             (fun _ s => n - length (tr s))%nat).
    + intros [] s HI. eapply wp_mono; [by apply Hstep|].
      intros [[]|b] s'; [intros [? Hv]|done]. split; [done|]. by apply Hv.
    + split; [done|apply inert_ext_refl].
    + lia.
Qed.

(** The record a wait or a poll leaves behind. *)
Definition reaped (status : Z) (p : x_process) : x_process :=
  XProcess true (pr_exit_code (x_process_set_exit_status status p)) (pr_pid p).

Lemma wp_process_wait fuel process (p : x_process) (b : bool) md e h t Q :
  h !! process = Some (to_obj p) -> process <> NULL -> may_wait md fuel -> 0 < pr_pid p ->
  (forall rc e' t', 0 < rc -> inert_ext t t' -> Q (rc, None) (St e' h t')) ->
  (forall p' e' t', inert_ext t t' ->
     (pr_waited p = true /\ p' = p /\ t' = t \/
      pr_waited p = false /\ exists status, p' = reaped status p) ->
     Q (0, if b then Some (pr_exit_code p') else None)
       (St e' (<[process := to_obj p']> h) t')) ->
  wp md (x_process_wait fuel process b) Q (St e h t).
Proof.
  intros Hp Hn Hw Hpid H1 H2. unfold x_process_wait. wp_run.
  - eapply wp_waitpid_loop; [done|done|]. intros r e' t' Ht Hr. wp_run; try lia.
    + apply H1; [lia|done].
    + rewrite insert_insert_eq. apply (H2 (reaped r.2 p)); [done|].
      right. split; [done|]. by exists r.2.
  - rewrite <- (insert_id h process (to_obj p) Hp). apply H2; [apply inert_ext_refl|by left].
Qed.

Lemma wp_process_poll fuel process (p : x_process) (b : bool) md e h t Q :
  h !! process = Some (to_obj p) -> process <> NULL -> may_wait md fuel -> 0 < pr_pid p ->
  (forall rc e' t', 0 < rc -> inert_ext t t' -> Q (rc, None, None) (St e' h t')) ->
  (forall e' t', pr_waited p = false -> inert_ext t t' -> Q (0, Some false, None) (St e' h t')) ->
  (forall p' e' t', inert_ext t t' ->
     (pr_waited p = true /\ p' = p /\ t' = t \/
      pr_waited p = false /\ exists status, p' = reaped status p) ->
     Q (0, Some true, if b then Some (pr_exit_code p') else None)
       (St e' (<[process := to_obj p']> h) t')) ->
  wp md (x_process_poll fuel process true b) Q (St e h t).
Proof.
  intros Hp Hn Hw Hpid H1 H2 H3. unfold x_process_poll. wp_run.
  - rewrite <- (insert_id h process (to_obj p) Hp). apply H3; [apply inert_ext_refl|by left].
  - eapply wp_waitpid_loop; [done|done|]. intros r e' t' Ht Hr. wp_run; try lia.
    + apply H1; [lia|done].
    + by apply H2.
    + rewrite insert_insert_eq. apply (H3 (reaped r.2 p)); [done|].
      right. split; [done|]. by exists r.2.
Qed.
End Wait.

(** ** The child *)

Section Child.
Context {os : OS} (environ : list text).

(** The paths the child may try for [path]. *)
Definition candidate_of (path p : text) : Prop :=
  p = path \/ ("/"%char ∉ path /\ exists dir, p = dir ++ "/"%char :: path).

(** How a child may end: [_exit (127)], or an exec of a candidate with the
    arguments and the environment the caller gave. *)
Definition child_end (path : text) (arguments : list text)
    (options : option x_process_options) (h : halted) : Prop :=
  h = HExit 127 \/
  exists p, candidate_of path p /\
    h = HExec p (path :: arguments)
          (match options with
           | Some o => default environ (op_environment o) | None => environ end).

(** The size limits under which no length computation wraps. *)
Definition small_text (t : text) : Prop := strlen t < 2 ^ 62.

Definition pipe_ok (h : gmap ptr obj) (p : ptr) : Prop :=
  p = NULL \/ exists x : x_pipe, h !! p = Some (to_obj x).
Definition options_ok (h : gmap ptr obj) (options : option x_process_options) : Prop :=
  match options with
  | None => True
  | Some o => pipe_ok h (op_stdin_pipe o) /\ pipe_ok h (op_stdout_pipe o) /\
              pipe_ok h (op_stderr_pipe o)
  end.

(** The child's running condition: the heap of the fork, any history. *)
Definition same_heap (h : gmap ptr obj) (s : st) : Prop := hp s = h.

Lemma wp_until_error md h l :
  (forall m, m ∈ l -> forall s, hp s = h -> wp md m (fun _ s' => hp s' = h) s) ->
  forall s, hp s = h -> wp md (until_error l) (fun _ s' => hp s' = h) s.
Proof.
  intros Hl. induction l as [|m l IH]; intros s Hs; cbn [until_error]; [by apply wp_ret|].
  apply wp_bind. eapply wp_mono; [apply Hl; [by left|done]|].
  intros rc s' Hs'. case_match; [by apply wp_ret|].
  apply IH; [|done]. intros m' Hm'. apply Hl. by right.
Qed.

Lemma wp_redirect_fd md h path target flags s :
  hp s = h -> wp md (x_process_redirect_fd path target flags) (fun _ s' => hp s' = h) s.
Proof.
  destruct s as [e h1 t]. cbn. intros ->. unfold x_process_redirect_fd. wp_run; done.
Qed.

Lemma wp_redirect_pipe md h pipe target s :
  hp s = h -> pipe_ok h pipe ->
  wp md (x_process_redirect_pipe pipe target) (fun _ s' => hp s' = h) s.
Proof.
  destruct s as [e h1 t]. cbn. intros -> Hp. unfold x_process_redirect_pipe.
  destruct Hp as [->|[x Hx]]; [done|]. wp_run; done.
Qed.

Lemma wp_exec md c path args env (Q : unit -> st -> Prop) e h t :
  (forall s', halt_post md (HExec path args env) s') ->
  (forall e' t', Q tt (St e' h t')) -> wp md (exec c path args env) Q (St e h t).
Proof.
  intros H1 H2. unfold exec. wp_run; [apply H2|]. unfold wp, halt. apply H1.
Qed.
(** [write_bytes] right after what the block already holds. *)
Lemma wp_write_next md p w rest data (Q : unit -> st -> Prop) e h t off :
  h !! p = Some (OBytes (w ++ rest)) -> off = strlen w -> (length data <= length rest)%nat ->
  Q tt (St e (<[p := OBytes ((w ++ data) ++ drop (length data) rest)]> h) t) ->
  wp md (write_bytes p off data) Q (St e h t).
Proof.
  intros Hp -> Hl HQ. unfold strlen. eapply wp_write_bytes; [done|lia| |].
  - rewrite length_app. unfold strlen. lia.
  - by rewrite Nat2Z.id, write_at_end.
Qed.

(** What one candidate leaves of the search path. *)
Definition search_rest (h : gmap ptr obj) (start : text) (r : text + unit) (s' : st) : Prop :=
  hp s' = h /\ match r with
               | inl start' => (length start' < length start)%nat /\
                               start' = drop (length start - length start') start
               | inr _ => True end.

Lemma wp_search_next md h start s :
  hp s = h ->
  wp md (match strchr start ":"%char with
         | None => mret (inr tt) | Some i => mret (inl (drop (i + 1) start)) end) (search_rest h start) s.
Proof.
  intros Hh. destruct (strchr start _) as [i|] eqn:E; apply wp_ret; [|done]. split; [done|].
  apply strchr_lt in E. rewrite length_drop. split; [lia|]. f_equal. lia.
Qed.

(** Executing the candidate [w] that the block at [p] holds. *)
Lemma wp_exec_candidate md path arguments env w p h e t (Q : unit -> st -> Prop) :
  (forall p s', candidate_of path p -> halt_post md (HExec p arguments env) s') ->
  candidate_of path w -> NUL ∉ w -> p <> NULL -> h !! p = None ->
  (forall e' t', Q tt (St e' h t')) ->
  wp md (b ← load text p;
         exec (Sexecve (cstring b) arguments env) (cstring b) arguments env;; free p) Q
    (St e (<[p := OBytes (w ++ [NUL])]> h) t).
Proof.
  intros Hhalt Hw Hnw Hp Hfree HQ. wp_step. eapply (wp_load _ _ (w ++ [NUL])); [by simplify_map_eq|].
  rewrite cstring_terminated by done. wp_step.
  apply wp_exec; [by intros; apply Hhalt|]. intros e2 t2. wp_step. heap_simpl. apply HQ.
Qed.

(** Writing the name behind the prefix [w], then executing it. *)
Lemma wp_candidate_name md path arguments env w b p sp h e t (Q : unit -> st -> Prop) :
  (forall p s', candidate_of path p -> halt_post md (HExec p arguments env) s') ->
  NUL ∉ w -> NUL ∉ path -> candidate_of path (w ++ path) -> p <> NULL -> h !! p = None ->
  (length w + length path + 1 = length b)%nat -> sp = strlen w ->
  (forall e' t', Q tt (St e' h t')) ->
  wp md (write_bytes p sp (path ++ [NUL]);;
         b0 ← load text p;
         exec (Sexecve (cstring b0) arguments env) (cstring b0) arguments env;; free p) Q
    (St e (<[p := OBytes (w ++ drop (length w) b)]> h) t).
Proof.
  intros Hhalt Hnw Hnp Hcand Hp Hfree Hlen -> HQ. wp_step.
  eapply wp_write_next; [by simplify_map_eq|done|rewrite length_drop, length_app; cbn; lia|].
  rewrite insert_insert_eq, drop_drop, (drop_ge b) by (rewrite length_app; cbn; lia).
  rewrite app_nil_r, (assoc_L (++)). eapply wp_exec_candidate; try done.
  intros Hin. apply elem_of_app in Hin as [?|?]; auto.
Qed.

Lemma wp_candidate_step md path arguments env h start s :
  hp s = h -> small_text path -> small_text start -> "/"%char ∉ path ->
  NUL ∉ path -> NUL ∉ start ->
  (forall p s', candidate_of path p -> halt_post md (HExec p arguments env) s') ->
  wp md (exec_candidate_step path arguments env start) (search_rest h start) s.
Proof.
  destruct s as [e h1 t]. cbn [hp]. intros -> Hp Hs Hslash Hnp Hns Hhalt.
  unfold exec_candidate_step, small_text, strlen in *.
  set (dl := default (length start) (strchr start ":"%char)) in *.
  assert (dl <= length start)%nat as Hle.
  { unfold dl. destruct (strchr start _) eqn:E; cbn; [|lia]. apply strchr_lt in E. lia. }
  set (sep := if (0 <? dl)%nat then 1 else 0).
  assert (0 <= sep <= 1) as Hsep by (unfold sep; clear; by destruct (0 <? dl)%nat).
  wp_step. rewrite u64_small by (unfold is_u64; lia). wp_step.
  { wp_run. by apply wp_search_next. }
  assert (p <> NULL) as Hpn by (unfold NULL; lia).
  wp_step. wp_step.
  wp_step. eapply (wp_write_next _ _ [] b); [by simplify_map_eq|done|rewrite length_take; lia|].
  rewrite insert_insert_eq. cbn [app]. set (dir := take dl start).
  assert (length dir = dl) as Hdir by (unfold dir; rewrite length_take; lia).
  assert (NUL ∉ dir) as Hnd.
  { intros Hin. apply Hns. rewrite <- (take_drop dl start). apply elem_of_app. by left. }
  wp_step. unfold sep in *. destruct (Nat.ltb_spec 0 dl) as [Hdl|Hdl]; cbn [Z.eqb negb].
  - eapply wp_write_next; [by simplify_map_eq|unfold strlen; by rewrite Hdir|
      rewrite length_drop; cbn; lia|].
    rewrite insert_insert_eq, drop_drop, <- length_app.
    apply (wp_candidate_name _ _ _ _ (dir ++ ["/"%char])); try done.
    + rewrite elem_of_app, list_elem_of_singleton. by intros [?|?].
    + right. split; [done|]. exists dir. by rewrite <- (assoc_L (++)).
    + rewrite length_app. cbn. lia.
    + unfold strlen. rewrite length_app. cbn. lia.
    + intros e2 t2. by apply wp_search_next.
  - wp_step. assert (dir = []) as Hd by (apply length_zero_iff_nil; lia).
    rewrite Hd. apply (wp_candidate_name _ _ _ _ []); try done; [apply not_elem_of_nil|by left|cbn; lia|
      unfold strlen; cbn; lia|]. intros e2 t2. by apply wp_search_next.
Qed.

Lemma slash_spec path : is_null (strchr path "/"%char) = true <-> "/"%char ∉ path.
Proof.
  split.
  - destruct (strchr path _) eqn:E; [done|]. intros _. by apply strchr_None.
  - intros H. by rewrite strchr_none.
Qed.

Definition text_ok (t : text) : Prop := small_text t /\ NUL ∉ t.
Definition env_ok (env : list text) : Prop := Forall text_ok env.

Lemma environment_lookup_ok env name v :
  env_ok env -> environment_lookup env name = Some v -> text_ok v.
Proof.
  intros Henv. induction Henv as [|e env [Hs Hn] _ IH]; cbn; [done|].
  case_match; [|done]. intros [= <-]. split.
  - unfold small_text, strlen in *. rewrite length_drop. lia.
  - intros Hin. apply Hn. rewrite <- (take_drop (length name + 1) e). apply elem_of_app. by right.
Qed.

Lemma wp_exec_environment md path arguments environment h s (Q : unit -> st -> Prop) :
  hp s = h -> text_ok path ->
  (forall env, environment = Some env -> env_ok env) ->
  (forall p s', candidate_of path p ->
     halt_post md (HExec p arguments (default environ environment)) s') ->
  (forall s', hp s' = h -> Q tt s') ->
  wp md (x_process_exec_environment environ path arguments environment) Q s.
Proof.
  destruct s as [e h1 t]. cbn [hp]. intros -> [Hps Hpn] Henv Hhalt HQ.
  unfold x_process_exec_environment. destruct environment as [env|]; cbn [default from_option id] in *.
  - specialize (Henv _ eq_refl). wp_step.
    { apply wp_exec; [intros; apply Hhalt; by left|]. intros. by apply HQ. }
    wp_step. cbn [x_process_environment_value]. wp_step.
    set (v := match environment_lookup env (str "PATH") with
              | Some w => _ | None => _ end).
    assert (text_ok v) as [Hvs Hvn].
    { assert (text_ok (str "/bin:/usr/bin")) as Hd.
      { split; [done|]. apply (bool_decide_unpack _). by vm_compute. }
      unfold v. destruct (environment_lookup _ _) eqn:El; [|done].
      case_match; [done|]. by eapply environment_lookup_ok. }
    apply slash_spec in E.
    apply (wp_iter _ (fun start s => hp s = h /\ text_ok start /\ (length start <= length v)%nat)
             (fun start _ => length start)).
    + intros start s1 (Hh & [Hss Hsn] & Hl).
      eapply wp_mono; [apply wp_candidate_step; try done|].
      intros [start'|[]] s' [Hh' Hr]; [|by apply HQ]. destruct Hr as [Hlt Heq].
      split; [|done]. split; [done|]. split; [split|lia].
      * unfold small_text, strlen in *. lia.
      * intros Hin. apply Hsn. rewrite <- (take_drop (length start - length start') start).
        apply elem_of_app. right. by rewrite <- Heq.
    + by split_and!.
    + lia.
  - wp_step; (apply wp_exec; [intros; apply Hhalt; by left|]; intros; by apply HQ).
Qed.

(** A run that only ends as the child may. *)
Definition ends_as_child (md : wpmode) (path : text) (arguments : list text)
    (options : option x_process_options) : Prop :=
  forall h s, child_end path arguments options h -> halt_post md h s.

Definition options_env_ok (options : option x_process_options) : Prop :=
  match options with
  | Some o => match op_environment o with Some env => env_ok env | None => True end
  | None => True
  end.

Lemma wp_child_main md {A} path arguments options h s (Q : A -> st -> Prop) :
  hp s = h -> text_ok path -> env_ok environ -> options_env_ok options ->
  options_ok h options -> ends_as_child md path arguments options ->
  wp md (child_main environ path (path :: arguments) options) Q s.
Proof.
  intros Hh Hp Henv Hoe Hop Hend. unfold child_main.
  assert (forall s A (Q : A -> st -> Prop), wp md (halt (HExit 127)) Q s) as Hexit.
  { intros. apply Hend. by left. }
  assert (forall s, hp s = h -> wp md
    (x_process_exec_environment environ path (path :: arguments)
       (match options with Some o => op_environment o | None => Some environ end);;
     halt (HExit 127)) Q s) as Hexec.
  { intros s1 Hs1. apply wp_bind. eapply wp_exec_environment; [done|done| | |].
    - intros env' Henv'. destruct options as [o|]; [|by injection Henv' as <-].
      unfold options_env_ok in Hoe. by rewrite Henv' in Hoe.
    - intros p s' Hc. apply Hend. right. exists p. split; [done|]. by destruct options.
    - intros s' _. apply Hexit. }
  destruct options as [o|]; [|by do 2 wp_step; apply Hexec].
  apply wp_bind, wp_bind. apply wp_mono with (fun _ s' => hp s' = h).
  { destruct s as [e h1 t]. cbn [hp] in Hh. subst h1.
    destruct (op_working_directory o); wp_run; done. }
  intros [] s1 Hs1. wp_step. destruct Hop as (H1 & H2 & H3).
  eapply wp_mono; [apply (wp_until_error _ h); [|done]|].
  - intros m Hm s2 Hs2. repeat (apply elem_of_cons in Hm as [->|Hm];
      [first [by apply wp_redirect_fd | by apply wp_redirect_pipe]|]).
    by apply elem_of_nil in Hm.
  - intros rc s2 Hs2. cbn beta. case_match; [apply Hexit|]. apply wp_ret. by apply Hexec.
Qed.
End Child.

(** ** Ownership *)

Section ProcessHandles.
Context {os : OS} (environ : list text).

Lemma wp_process_destroy md p (x : x_process) e h t Q :
  h !! p = Some (to_obj x) -> p <> NULL ->
  (forall e' t', held t' = held t -> Q tt (St e' (delete p h) t')) ->
  wp md (x_process_destroy p) Q (St e h t).
Proof. unfold x_process_destroy. close_tac. Qed.
#[export] Program Instance process_handle : Handle x_process := {|
  h_res _ _ := ∅; h_close := x_process_destroy |}.
Next Obligation. done. Qed.
Next Obligation.
  intros md p x e h t Q Hp Hn HQ. eapply wp_process_destroy; [done..|]. intros.
  apply HQ. by rewrite res_diff_empty.
Qed.

Lemma wp_pipe_close md p (x : x_pipe) e h t Q :
  h !! p = Some (to_obj x) -> p <> NULL -> 0 <= pi_fd x ->
  (forall e' t', held t' = held t ∖ {[ (KFd, pi_fd x) ]} -> Q tt (St e' (delete p h) t')) ->
  wp md (x_pipe_close p) Q (St e h t).
Proof. unfold x_pipe_close. intros Hp Hn Hfd HQ. apply Z.leb_le in Hfd. 
  apply Z.eqb_neq in Hn as En. rewrite En. wp_step. wp_step. rewrite Hfd. wp_run.
  apply HQ. by held_simpl.
Qed.

(** The two ends of a new pipe, or nothing. *)
Definition pipe_post (s : st) (r : Z * option (ptr * ptr)) (s' : st) : Prop :=
  (r.1 = 0 /\ exists pr pw (xr xw : x_pipe),
     r.2 = Some (pr, pw) /\ 0 < pr /\ 0 < pw /\ pr <> pw /\
     hp s !! pr = None /\ hp s !! pw = None /\
     hp s' = <[pw := to_obj xw]> (<[pr := to_obj xr]> (hp s)) /\
     0 <= pi_fd xr /\ 0 <= pi_fd xw /\ pi_fd xr <> pi_fd xw /\
     (KFd, pi_fd xr) ∉ held (tr s) /\ (KFd, pi_fd xw) ∉ held (tr s) /\
     held (tr s') = held (tr s) ∪ {[ (KFd, pi_fd xr) ]} ∪ {[ (KFd, pi_fd xw) ]}) \/
  (0 < r.1 /\ hp s' = hp s /\ held (tr s') = held (tr s)).

Lemma wp_pipe_create md e h t Q :
  (forall r s', pipe_post (St e h t) r s' -> Q r s') ->
  wp md (x_pipe_create true true) Q (St e h t).
Proof.
  intros HQ. unfold x_pipe_create. do 3 wp_step. 
  { (* no memory for the read end *)
    wp_step. wp_step; wp_run; apply HQ; right; split; try done; split; try by heap_simpl.
    all: by held_simpl. }
  wp_step. wp_step.
  { rewrite orb_true_r. wp_run. apply HQ. right. split; [done|]. split; [by heap_simpl|].
    by held_simpl. }
  apply lookup_insert_None in Hnew0 as [Hn1 Hn2].
  assert ((p =? NULL) || (p0 =? NULL) = false) as ->
    by (apply orb_false_iff; unfold NULL; rewrite !Z.eqb_neq; lia).
  wp_run.
  - apply HQ. right. posts; [|lia]. split; [done|].
    split; [cbn; map_solve|]. held_simpl.
    apply Z.eqb_neq in E. rewrite E. by rewrite res_union_empty.
  - apply HQ. left. split; [done|]. destruct r as [rc [fr fw]]. cbn [fst snd] in *.
    destruct Hpost as [?|(Hr & H1 & H2 & H3 & H4 & H5)]; [lia|].
    exists p, p0, (XPipe fr), (XPipe fw). held_hyps. cbn [pi_fd hp tr].
    split_and!; try done.
    + map_solve.
    + held_simpl. subst rc. cbn. by rewrite (assoc_L (∪)).
Qed.

Lemma wp_process_start md path arguments options e h t Q :
  text_ok path -> env_ok environ -> options_env_ok options -> options_ok h options ->
  ends_as_child environ md path (default [] arguments) options ->
  (forall r s', constructor_post (fun p => pr_waited p = false /\ 0 < pr_pid p) (St e h t) r s' ->
     Q r s') ->
  wp md (x_process_start environ true (Some path) arguments options) Q (St e h t).
Proof.
  intros Hp Henv Hoe Hop Hend HQ. unfold x_process_start. cbn [is_null txt default from_option id].
  wp_step. wp_step; [apply HQ; ctor_fail|]. wp_step. wp_step.
  { wp_run. apply HQ. ctor_fail. }
  wp_step. wp_step. wp_step.
  { wp_run. apply HQ. ctor_fail. }
  apply lookup_insert_None in Hnew0 as [Hn1 Hn2].
  wp_step. wp_step. wp_step. wp_step.
  { wp_run. apply HQ. apply constructor_fail; [posts; lia|by right|map_solve|by held_simpl]. }
  wp_step.
  - eapply wp_child_main; [reflexivity|done..| |done].
    unfold options_ok, pipe_ok in *. destruct options as [o|]; [|done].
    cbn [hp]. destruct Hop as (H1 & H2 & H3). split_and!.
    + destruct H1 as [?|[x Hx]]; [by left|right; exists x]. 
      rewrite !lookup_insert_ne by congruence. done.
    + destruct H2 as [?|[x Hx]]; [by left|right; exists x]. 
      rewrite !lookup_insert_ne by congruence. done.
    + destruct H3 as [?|[x Hx]]; [by left|right; exists x]. 
      rewrite !lookup_insert_ne by congruence. done.
  - wp_run. apply HQ.
    match goal with |- constructor_post _ _ _ (St _ ?m _) =>
      replace m with (<[p := to_obj (XProcess false 0 r)]> h) by map_solve end.
    apply (constructor_ok _ _ _ _ _ (XProcess false 0 r)); [done|done|held_simpl|cbn; set_solver|].
    + apply set_eq. set_solver.
    + cbn. split; [done|lia].
Qed.
End ProcessHandles.

(** ** Pipelines *)

Section Pipeline.
Context {os : OS} (environ : list text).

Lemma wp_process_terminate md p (x : x_process) e h t (Q : Z -> st -> Prop) :
  h !! p = Some (to_obj x) -> p <> NULL ->
  (forall rc s', 0 <= rc -> keeps (St e h t) s' -> Q rc s') ->
  wp md (x_process_terminate p) Q (St e h t).
Proof.
  intros Hp Hn HQ. unfold x_process_terminate. wp_run.
  all: apply HQ; [posts; lia|keeps_solve].
Qed.

(** A process that was started: live, not yet waited for. *)
Definition started (h : gmap ptr obj) (p : ptr) (x : x_process) : Prop :=
  0 < p /\ h !! p = None /\ 0 < pr_pid x.

Lemma wp_wait_started fuel md p (x : x_process) (b : bool) e h t (Q : Z * option Z -> st -> Prop) :
  started h p x -> may_wait md fuel ->
  (forall rc v x' e' t', 0 <= rc -> 0 < pr_pid x' -> held t' = held t ->
     Q (rc, v) (St e' (<[p := to_obj x']> h) t')) ->
  wp md (x_process_wait fuel p b) Q (St e (<[p := to_obj x]> h) t).
Proof.
  intros (Hp & Hn & Hpid) Hw HQ.
  eapply wp_process_wait; [by simplify_map_eq|unfold NULL; lia|done|done|..].
  - intros rc e' t' Hrc Ht. apply HQ; [lia|done|by apply inert_ext_held].
  - intros p' e' t' Ht Hp'. rewrite insert_insert_eq.
    apply HQ; [done| |by apply inert_ext_held].
    destruct Hp' as [(_ & -> & _)|(_ & status & ->)]; done.
Qed.

Lemma wp_abandon fuel md p (x : x_process) e h t (Q : unit -> st -> Prop) :
  started h p x -> may_wait md fuel ->
  (forall e' t', held t' = held t -> Q tt (St e' h t')) ->
  wp md (x_process_terminate p;; x_process_wait fuel p false;; x_process_destroy p) Q
    (St e (<[p := to_obj x]> h) t).
Proof.
  intros Hst Hw HQ. wp_step. pose proof Hst as (Hp & Hn & Hpid).
  eapply wp_process_terminate; [by simplify_map_eq|unfold NULL; lia|].
  intros rc [e1 h1 t1] _ [Hh1 Ht1]. proj_simpl. subst h1. apply inert_ext_held in Ht1.
  wp_step. eapply wp_wait_started; [done|done|]. intros rc2 v x' e2 t2 _ _ Ht2.
  eapply wp_process_destroy; [by simplify_map_eq|unfold NULL; lia|].
  intros e3 t3 Ht3. heap_simpl. apply HQ. congruence.
Qed.

(** Closing the two ends of the pipe with up to two processes on the heap. *)
Lemma wp_close_both md pr pw (xr xw : x_pipe) e h h0 t t0 (Q : unit -> st -> Prop) :
  h = <[pw := to_obj xw]> (<[pr := to_obj xr]> h0) ->
  0 < pr -> 0 < pw -> pr <> pw -> h0 !! pr = None -> h0 !! pw = None ->
  0 <= pi_fd xr -> 0 <= pi_fd xw ->
  (KFd, pi_fd xr) ∉ held t0 -> (KFd, pi_fd xw) ∉ held t0 ->
  held t = held t0 ∪ {[ (KFd, pi_fd xr) ]} ∪ {[ (KFd, pi_fd xw) ]} ->
  (forall e' t', held t' = held t0 -> Q tt (St e' h0 t')) ->
  wp md (x_pipe_close pw;; x_pipe_close pr) Q (St e h t).
Proof.
  intros -> H1 H2 H3 H4 H5 H6 H7 H8 H9 Ht HQ. wp_step.
  eapply wp_pipe_close; [by simplify_map_eq|unfold NULL; lia|done|]. intros e1 t1 Ht1.
  eapply wp_pipe_close; [by simplify_map_eq|unfold NULL; lia|done|]. intros e2 t2 Ht2.
  replace (delete pr _) with h0 by map_solve. apply HQ. rewrite Ht2, Ht1, Ht.
  apply set_eq. set_solver.
Qed.

(** How either child of a pipeline may end. *)
Definition pipeline_child (first_path : text) (first_arguments : option (list text))
    (second_path : text) (second_arguments : option (list text))
    (options : option x_process_options) (h : halted) : Prop :=
  exists pipe,
    child_end environ first_path (default [] first_arguments)
      (Some (first_options options pipe)) h \/
    child_end environ second_path (default [] second_arguments)
      (Some (second_options options pipe)) h.

Lemma pipe_ok_insert h p q o : h !! q = None -> pipe_ok h p -> pipe_ok (<[q := o]> h) p.
Proof.
  intros Hq [->|[x Hx]]; [by left|]. right. exists x. rewrite lookup_insert_ne; congruence.
Qed.

Lemma pipe_ok_here h p (x : x_pipe) : h !! p = Some (to_obj x) -> pipe_ok h p.
Proof. right. by exists x. Qed.

Lemma pipeline_options_ok h options pr pw (xr xw : x_pipe) :
  options_ok h options -> pr <> pw -> h !! pr = None -> h !! pw = None ->
  let h' := <[pw := to_obj xw]> (<[pr := to_obj xr]> h) in
  options_ok h' (Some (first_options options pw)) /\
  options_ok h' (Some (second_options options pr)).
Proof.
  intros Ho Hne Hr Hw h'.
  assert (forall p, pipe_ok h p -> pipe_ok h' p) as Hext.
  { intros p Hp. apply pipe_ok_insert; [by rewrite lookup_insert_ne|]. by apply pipe_ok_insert. }
  assert (pipe_ok h' pw) as Hpw by (eapply pipe_ok_here; unfold h'; by simplify_map_eq).
  assert (pipe_ok h' pr) as Hpr by (eapply pipe_ok_here; unfold h'; by simplify_map_eq).
  assert (pipe_ok h' NULL) as H0 by by left.
  destruct options as [o|]; cbn; [|by split_and!].
  destruct Ho as (H1 & H2 & H3). by split_and!; auto.
Qed.

Lemma options_ok_insert h options q o :
  h !! q = None -> options_ok h options -> options_ok (<[q := o]> h) options.
Proof.
  intros Hq Ho. destruct options as [op|]; [|done].
  destruct Ho as (H1 & H2 & H3). by split_and!; apply pipe_ok_insert.
Qed.

(** Both processes run: they are waited for and released. *)
Lemma wp_finish_pipeline fuel md f g (xf xg : x_process) (b : bool) h e t (Q : Z * option Z -> st -> Prop) :
  started h f xf -> started h g xg -> f <> g -> may_wait md fuel ->
  (forall r e' t', 0 <= r.1 -> held t' = held t -> Q r (St e' h t')) ->
  wp md (w1 ← x_process_wait fuel f true;
         w2 ← x_process_wait fuel g true;
         let error := if w1.1 =? 0 then w2.1 else w1.1 in
         x_process_destroy f;; x_process_destroy g;;
         if negb (error =? 0) then mret (error, None)
         else
           let first_exit := default 0 w1.2 in
           let second_exit := default 0 w2.2 in
           mret (0, if b then Some (if negb (second_exit =? 0) then second_exit else first_exit) else None)) Q
    (St e (<[g := to_obj xg]> (<[f := to_obj xf]> h)) t).
Proof.
  intros Hf Hg Hne Hw HQ. pose proof Hf as (Hf0 & Hfh & Hfp). pose proof Hg as (Hg0 & Hgh & Hgp).
  rewrite insert_insert_ne by done. wp_step. apply wp_wait_started; [|done|].
  { split_and!; [done| |done]. by rewrite lookup_insert_ne. }
  intros rc1 v1 xf' e1 t1 Hrc1 Hpf' Ht1. rewrite insert_insert_ne by done.
  wp_step. apply wp_wait_started; [|done|].
  { split_and!; [done| |done]. by rewrite lookup_insert_ne. }
  intros rc2 v2 xg' e2 t2 Hrc2 _ Ht2. cbv zeta. wp_step.
  eapply (wp_process_destroy _ _ xf'); [by simplify_map_eq|unfold NULL; lia|].
  intros e3 t3 Ht3. wp_step.
  eapply (wp_process_destroy _ _ xg'); [by simplify_map_eq|unfold NULL; lia|].
  intros e4 t4 Ht4. replace (delete g _) with h by map_solve.
  assert (held t4 = held t) by congruence. wp_run; (apply HQ; [|done]); cbn; [|lia]. by destruct (rc1 =? 0).
Qed.

(** C16. [x_process_run_pipeline] leaves nothing behind: whatever fails (the pipe,
    either start, either wait), the parent's heap and descriptors are those
    from before the call, both ends of the pipe closed, a first process whose
    partner could not be started terminated, waited for and released.  A child
    never returns into the caller: it ends by [_exit (127)] or by executing a
    candidate for its path with exactly its arguments. *)
Theorem x_process_run_pipeline_restores fuel n first_path first_arguments
    second_path second_arguments options b s :
  text_ok first_path -> text_ok second_path -> env_ok environ ->
  options_env_ok options -> options_ok (hp s) options ->
  quiet_after n -> (n < fuel)%nat ->
  wp {| may_starve := False;
        halt_post := fun h _ => pipeline_child first_path first_arguments second_path
                                  second_arguments options h |}
    (x_process_run_pipeline environ fuel (Some first_path) first_arguments
       (Some second_path) second_arguments options b)
    (fun r s' => 0 <= r.1 /\ hp s' = hp s /\ held (tr s') = held (tr s)) s.
Proof.
  destruct s as [e h t]. cbn [hp tr]. intros Hp1 Hp2 Henv Hoe Hop Hq Hf.
  set (md := {| may_starve := False; halt_post := _ |}).
  assert (may_wait md fuel) as Hw by (right; eauto).
  unfold x_process_run_pipeline. cbn [is_null orb]. wp_step. apply wp_pipe_create.
  intros [rc out] [e1 h1 t1] [(Hrc & pr & pw & xr & xw & Ho & Hpr & Hpw & Hne & Hn1 & Hn2 &
     Hh1 & Hf1 & Hf2 & Hfne & Hd1 & Hd2 & Ht1)|(Hrc & Hh1 & Ht1)]; proj_simpl; subst.
  2: { do 2 wp_step. cbn. split; [lia|done]. }
  wp_step. cbn [default from_option id].
  assert (options_env_ok (Some (first_options options pw))) as Hoe1 by (by destruct options).
  assert (options_env_ok (Some (second_options options pr))) as Hoe2 by (by destruct options).
  destruct (pipeline_options_ok h options pr pw xr xw) as [Ho1 Ho2]; [done..|].
  set (h1 := <[pw := to_obj xw]> (<[pr := to_obj xr]> h)) in *.
  wp_step. apply wp_process_start; [done..| |].
  { intros hh ss Hc. exists pw. by left. }
  intros [rc1 out1] [e2 h2 t2] [(Hrc1 & f & xf & Ho & Hf0 & Hfn & Hh2 & Ht2 & _ & _ & Hpid)|
    (Hrc1 & Hout & Hh2 & Ht2)]; proj_simpl; subst.
  2: { (* the first process did not start *)
    do 3 wp_step. apply wp_assoc2. wp_step. eapply (wp_close_both _ pr pw xr xw _ _ h _ t); try done.
    { congruence. }
    intros e3 t3 Ht3. replace (default NULL out1) with NULL by (by destruct Hout as [->| ->]).
    wp_run. cbn. split; [lia|done]. }
  assert (held t2 = held t1) as Ht21 by (rewrite Ht2; cbn; apply set_eq; set_solver).
  pose proof Hfn as Hfn'. unfold h1 in Hfn'.
  apply lookup_insert_None in Hfn' as [Hfn' Hfpw]. apply lookup_insert_None in Hfn' as [Hfh Hfpr].
  assert (started h f xf) as Hsf by by split_and!.
  cbn [Z.eqb default from_option id]. wp_step.
  apply wp_process_start; [done..|by apply options_ok_insert| |].
  { intros hh ss Hc. exists pr. by right. }
  intros [rc2 out2] [e3 h3 t3] [(Hrc2 & g & xg & Ho & Hg0 & Hgn & Hh3 & Ht3 & _ & _ & Hgpid)|
    (Hrc2 & Hout & Hh3 & Ht3)]; proj_simpl; subst; apply wp_assoc2; wp_step.
  - (* both started *)
    apply lookup_insert_None in Hgn as [Hgn Hgf]. unfold h1 in Hgn.
    apply lookup_insert_None in Hgn as [Hgn Hgpw]. apply lookup_insert_None in Hgn as [Hgh Hgpr].
    eapply (wp_close_both _ pr pw xr xw _ _ (<[g := to_obj xg]> (<[f := to_obj xf]> h)) _ t);
      try done; [unfold h1; map_solve|by rewrite !lookup_insert_ne..| |].
    { rewrite Ht3, Ht21, Ht1. cbn. by rewrite res_union_empty. }
    intros e4 t4 Ht4. cbn [Z.eqb negb default from_option id].
    eapply wp_finish_pipeline; [done|by split_and!|done|done|]. intros r e5 t5 Hr Ht5. cbn. split_and!; [done|done|congruence].
  - (* only the first started *)
    eapply (wp_close_both _ pr pw xr xw _ _ (<[f := to_obj xf]> h) _ t);
      try done; [unfold h1; map_solve|by rewrite lookup_insert_ne..|congruence|].
    intros e4 t4 Ht4. cbn [fst default from_option id]. wp_step. wp_step. wp_step.
    apply wp_abandon; [done|done|]. intros e5 t5 Ht5. wp_run. cbn.
    split_and!; [lia|done|congruence].
Qed.
End Pipeline.

(** ** Theorems about single processes and the environment *)

Section Theorems.
Context {os : OS} (environ : list text).

(** C17. [x_process_start] in the parent: a fresh process record with a positive
    pid, or a positive error and nothing left behind; the argument array is
    freed on every path.  In the child the call never returns: the child ends by
    [_exit (127)] or by executing a candidate for [path] with [path :: arguments]
    and the requested environment, no block being overrun or freed twice during
    the PATH search. *)
Theorem x_process_start_contract path arguments options s :
  text_ok path -> env_ok environ -> options_env_ok options -> options_ok (hp s) options ->
  wp {| may_starve := False;
        halt_post := fun h _ => child_end environ path (default [] arguments) options h |}
    (x_process_start environ true (Some path) arguments options)
    (constructor_post (fun p => pr_waited p = false /\ 0 < pr_pid p) s) s.
Proof.
  destruct s as [e h t]. cbn [hp]. intros Hp Henv Hoe Hop.
  apply wp_process_start; try done. by intros h0 s0 H0.
Qed.

(** Exit statuses are decoded as the kernel encodes them: a normal exit with
    code [c] gives [c], death by signal [n] (with or without a core dump) gives
    [128 + n], and no other status gives either. *)
Theorem exit_status_decodes p :
  (forall c, 0 <= c < 256 -> pr_exit_code (x_process_set_exit_status (c * 256) p) = c) /\
  (forall n core, 1 <= n <= 126 -> core = 0 \/ core = 128 ->
     pr_exit_code (x_process_set_exit_status (core + n) p) = 128 + n) /\
  (forall c, 0 <= c < 256 -> pr_exit_code (x_process_set_exit_status (c * 256 + 127) p) = -1).
Proof.
  assert (forall P : Z -> Prop, (forall k, (k < 256)%nat -> P (Z.of_nat k)) ->
    forall c, 0 <= c < 256 -> P c) as Hnat.
  { intros P HP c Hc. rewrite <- (Z2Nat.id c) by lia. apply HP. lia. }
  assert (forall P : Z -> bool, forallb P (Z.of_nat <$> seq 0 256) = true ->
    forall c, 0 <= c < 256 -> P c = true) as Hall.
  { intros P HP c Hc. rewrite forallb_forall in HP. apply HP, list_elem_of_In, list_elem_of_fmap.
    exists (Z.to_nat c). rewrite elem_of_seq. lia. }
  unfold x_process_set_exit_status. cbn [pr_exit_code]. split_and!.
  - intros c Hc. apply Z.eqb_eq. revert c Hc. apply (Hall (fun c => _ =? _)). by vm_compute.
  - intros n core Hn Hcore.
    assert (forall n, 0 <= n < 256 -> ((n =? 0) || (126 <? n) ||
      ((if WIFEXITED (core + n) then WEXITSTATUS (core + n)
        else if WIFSIGNALED (core + n) then 128 + WTERMSIG (core + n) else -1) =? 128 + n)) = true) as H.
    { apply (Hall (fun n => _)). destruct Hcore as [->| ->]; by vm_compute. }
    specialize (H n ltac:(lia)). apply orb_true_iff in H as [H|H]; [|by apply Z.eqb_eq].
    apply orb_true_iff in H as [H|H]; zbool; lia.
  - intros c Hc. apply Z.eqb_eq. revert c Hc. apply (Hall (fun c => _ =? _)). by vm_compute.
Qed.

(** Waiting ends and is idempotent: once signals stop, [x_process_wait]
    returns; when it succeeds the process is marked waited, and a second wait
    or a poll answers the same exit code without any system call. *)
Theorem x_process_wait_idempotent fuel n process (p : x_process) s :
  hp s !! process = Some (to_obj p) -> process <> NULL -> 0 < pr_pid p ->
  quiet_after n -> (n < fuel)%nat ->
  wp Total (x_process_wait fuel process true)
    (fun r s' => (0 < r.1 /\ r.2 = None /\ hp s' = hp s) \/
       (r.1 = 0 /\ exists code, r.2 = Some code /\
        x_process_wait fuel process true s' = Done (0, Some code) s' /\
        x_process_poll fuel process true true s' = Done (0, Some true, Some code) s')) s.
Proof.
  destruct s as [e h t]. cbn [hp]. intros Hp Hn Hpid Hq Hf.
  eapply wp_process_wait; [done|done|right; eauto|done|..].
  - intros rc e' t' Hrc _. left. by split_and!.
  - intros p' e' t' _ Hp'. right. split; [done|]. exists (pr_exit_code p'). split; [done|].
    assert (pr_waited p' = true) as Hw.
    { destruct Hp' as [(Hw & -> & _)|(_ & st & ->)]; done. }
    unfold x_process_wait, x_process_poll. apply Z.eqb_neq in Hn as ->.
    unfold mbind, M_bind, load. cbn. rewrite lookup_insert_eq. cbn. rewrite Hw. cbn.
    rewrite lookup_insert_eq. done.
Qed.

(** The lookup in an explicit environment finds the first entry
    [name=value] and returns its value; it fails exactly when no entry starts
    with [name=]. *)
Theorem environment_lookup_spec env name :
  NUL ∉ name -> Forall (fun e => NUL ∉ e) env ->
  match environment_lookup env name with
  | Some v => exists before after, env = before ++ (name ++ "="%char :: v) :: after /\
                forall e, e ∈ before -> forall w, e <> name ++ "="%char :: w
  | None => forall w, name ++ "="%char :: w ∉ env
  end.
Proof.
  intros Hn Henv.
  assert (forall e, NUL ∉ e ->
    strncmp_eq e name (length name) && Ascii.eqb (char_at e (length name)) "="%char = true <->
    e = name ++ "="%char :: drop (length name + 1) e) as Hspec.
  { intros e He. unfold strncmp_eq, char_at. rewrite take_app_length. split.
    - intros H. apply andb_true_iff in H as [H1 H2]. apply bool_decide_eq_true in H1.
      apply Ascii.eqb_eq in H2. destruct (e !! length name) as [c|] eqn:Ec; [|done].
      cbn in H2. subst c. pose proof (lookup_lt_Some _ _ _ Ec).
      rewrite take_app_le in H1 by lia.
      rewrite <- (take_drop_middle e (length name) "="%char) at 1 by done.
      rewrite H1, Nat.add_1_r. done.
    - intros ->. apply andb_true_iff. split.
      + apply bool_decide_eq_true. rewrite <- (assoc_L (++)). by rewrite take_app_length.
      + rewrite lookup_app_r, Nat.sub_diag by lia. done. }
  induction Henv as [|e env He Henv IH]; cbn [environment_lookup].
  - intros w. apply not_elem_of_nil.
  - specialize (Hspec e He).
    destruct (strncmp_eq e name (length name) && Ascii.eqb (char_at e (length name)) "="%char) eqn:E.
    + exists [], env. split; [by rewrite <- (proj1 Hspec eq_refl)|].
      intros e' He'. by apply elem_of_nil in He'.
    + assert (forall w, e <> name ++ "="%char :: w) as Hne.
      { intros w Hw. assert (false = true) as [=]. apply Hspec. rewrite Hw at 1.
        do 2 f_equal. rewrite Hw. rewrite drop_app_ge by lia.
        by replace (length name + 1 - length name)%nat with 1%nat by lia. }
      destruct (environment_lookup env name) as [v|].
      * destruct IH as (b & a & -> & Hb). exists (e :: b), a. split; [done|].
        intros e' He'. apply elem_of_cons in He' as [->|He']; [done|auto].
      * intros w Hw. apply elem_of_cons in Hw as [Hw|Hw]; [by apply (Hne w)|by apply (IH w)].
Qed.

(** [x_process_terminate] does not look at [waited]: on a process that has
    already been waited for, whose pid the kernel may have given to another
    process, it still sends SIGTERM to that pid. *)
Theorem x_process_terminate_after_wait process (p : x_process) s :
  hp s !! process = Some (to_obj p) -> process <> NULL -> pr_waited p = true ->
  exists rc r s', x_process_terminate process s = Done rc s' /\
    tr s' = Ev (Skill (pr_pid p) SIGTERM) r :: tr s.
Proof.
  destruct s as [e h t]. cbn [hp]. intros Hp Hn _. unfold x_process_terminate.
  apply Z.eqb_neq in Hn as ->. unfold mbind, M_bind, load. cbn. rewrite Hp. cbn.
  destruct (os_call t (Skill (pr_pid p) SIGTERM)) as [r e'] eqn:Ec. cbn.
  destruct (r =? 0); cbn; by eexists _, r, _.
Qed.

(** A redirection whose [open] returns the target descriptor itself (the
    parent had closed it) reports success but leaves the target closed: [dup2]
    of a descriptor onto itself does nothing and the descriptor is then closed. *)
Theorem redirect_onto_itself_closes path target flags s :
  0 <= target -> (os_call (tr s) (Sopen path (Z.lor flags O_CLOEXEC) 438)).1 = target ->
  (forall t, (os_call t (Sdup2 target target)).1 = target) ->
  exists s', x_process_redirect_fd (Some path) target flags s = Done 0 s' /\
    (KFd, target) ∉ held (tr s').
Proof.
  destruct s as [e h t]. cbn [tr]. intros Ht Ho Hd. unfold x_process_redirect_fd.
  cbn [is_null txt default from_option id]. unfold mbind, M_bind, sys. cbn [tr]. rewrite Ho.
  destruct (Z.ltb_spec target 0) as [?|_]; [lia|]. cbn [tr]. rewrite Hd.
  destruct (Z.ltb_spec target 0) as [?|_]; [lia|]. eexists. split; [reflexivity|].
  cbn [held tr]. cbn [releases acquires]. rewrite res_union_empty. set_solver.
Qed.
End Theorems.

(** ** Examples *)

Definition example_env : list text := [str "HOME=/root"; str "PATH=/bin:/usr/bin"].

(** [text_ok] as a computation. *)
Definition text_okb (t : text) : bool :=
  (strlen t <? 2 ^ 62) && bool_decide (NUL ∉ t).

Lemma text_okb_ok t : text_okb t = true -> text_ok t.
Proof.
  unfold text_okb, text_ok, small_text. intros H. apply andb_true_iff in H as [H1 H2].
  apply Z.ltb_lt in H1. by apply bool_decide_eq_true in H2.
Qed.

Lemma env_okb_ok env : forallb text_okb env = true -> env_ok env.
Proof.
  intros H. apply Forall_forall. intros t Ht. rewrite forallb_forall in H.
  by apply text_okb_ok, H, list_elem_of_In.
Qed.

Definition ls : text := str "ls".
Definition wc : text := str "wc".

Lemma x_process_run_pipeline_restores_witness :
  wp {| may_starve := False;
        halt_post := fun h _ => pipeline_child example_env ls (Some [str "-l"]) wc None
                                  None h |}
    (x_process_run_pipeline (os := parent_os) example_env 1 (Some ls) (Some [str "-l"])
       (Some wc) None None true)
    (fun r s' => 0 <= r.1 /\ hp s' = hp st0 /\ held (tr s') = held (tr st0)) st0.
Proof.
  apply (x_process_run_pipeline_restores (os := parent_os) _ 1 0); try done.
  - by apply text_okb_ok.
  - by apply text_okb_ok.
  - by apply env_okb_ok.
  - by apply demo_quiet.
  - lia.
Defined.

(** The pipeline runs to its end there. *)
Example pipeline_runs :
  match x_process_run_pipeline (os := parent_os) example_env 1 (Some ls) (Some [str "-l"])
          (Some wc) None None true st0 with
  | Done (0, Some 135) s => (map_to_list (hp s), elements (held (tr s))) = ([], [])
  | _ => False
  end.
Proof. by vm_compute. Qed.

Lemma x_process_start_contract_witness :
  wp {| may_starve := False;
        halt_post := fun h _ => child_end example_env ls [str "-l"] None h |}
    (x_process_start (os := calm_os) example_env true (Some ls) (Some [str "-l"]) None)
    (constructor_post (os := calm_os) (fun p => pr_waited p = false /\ 0 < pr_pid p) st0) st0.
Proof.
  apply (x_process_start_contract (os := calm_os) example_env ls (Some [str "-l"]) None st0); try done.
  - by apply text_okb_ok.
  - by apply env_okb_ok.
Defined.

(** A child with an environment of its own ends in the first candidate of its PATH. *)
Example child_executes :
  match x_process_start (os := calm_os) [] true (Some ls) (Some [str "-l"])
          (Some (XProcessOptions None None None None (Some example_env) NULL NULL NULL)) st0 with
  | Halt (HExec path args env) _ =>
      path = str "/bin/ls" /\ args = [ls; str "-l"] /\ env = example_env
  | _ => False
  end.
Proof. by vm_compute. Qed.

(** A running process 7 at address 100. *)
Definition running_st (waited : bool) : st :=
  St 0 {[ 100 := to_obj (XProcess waited 0 7) ]} [].

Lemma x_process_wait_idempotent_witness :
  wp Total (x_process_wait (os := parent_os) 1 100 true)
    (fun r s' => (0 < r.1 /\ r.2 = None /\ hp s' = hp (running_st false)) \/
       (r.1 = 0 /\ exists code, r.2 = Some code /\
        x_process_wait (os := parent_os) 1 100 true s' = Done (0, Some code) s' /\
        x_process_poll (os := parent_os) 1 100 true true s' = Done (0, Some true, Some code) s'))
    (running_st false).
Proof.
  apply (x_process_wait_idempotent (os := parent_os) 1 0 100 (XProcess false 0 7));
    [by vm_compute|done|done|by apply demo_quiet|lia].
Defined.

Lemma environment_lookup_spec_witness :
  environment_lookup example_env (str "PATH") = Some (str "/bin:/usr/bin") /\
  match environment_lookup example_env (str "PATH") with
  | Some v => exists before after,
      example_env = before ++ (str "PATH" ++ "="%char :: v) :: after /\
      forall e, e ∈ before -> forall w, e <> str "PATH" ++ "="%char :: w
  | None => forall w, str "PATH" ++ "="%char :: w ∉ example_env
  end.
Proof.
  split; [by vm_compute|]. apply (environment_lookup_spec example_env (str "PATH")).
  - by apply (bool_decide_unpack _); vm_compute.
  - by apply (bool_decide_unpack _); vm_compute.
Defined.

Lemma x_process_terminate_after_wait_witness :
  exists rc r s', x_process_terminate (os := parent_os) 100 (running_st true) = Done rc s' /\
    tr s' = Ev (Skill 7 SIGTERM) r :: tr (running_st true).
Proof.
  apply (x_process_terminate_after_wait (os := parent_os) 100 (XProcess true 0 7));
    [by vm_compute|done|done].
Defined.

Lemma redirect_onto_itself_closes_witness :
  exists s', x_process_redirect_fd (os := calm_os) (Some (str "log")) 3 O_WRONLY st0 = Done 0 s' /\
    (KFd, 3) ∉ held (tr s').
Proof.
  apply (redirect_onto_itself_closes (os := calm_os)); [lia|by vm_compute|done].
Defined.
