(* ===== verification/XQuote.v ===== *)
(** * Command lines on Windows (src/x_process.c, Windows build)

    A Windows process gets one command line instead of an argument vector.  This
    file models how the vector is quoted into a buffer whose size is computed
    beforehand, and relates it to the rules by which a program reads it back. *)
From S2P Require Import Prelude Syscalls Structs Machine Contract XPath DemoOS.

Definition backslash : ascii := "\"%char.
Definition quote_mark : ascii := Ascii.ascii_of_nat 34.

(** ** The size *)

Fixpoint quoted_length_loop (value : text) (length backslashes : Z) : Z :=
  match value with
  | [] => u64 (u64 (length + backslashes) + 1)
  | c :: value =>
      if Ascii.eqb c backslash then quoted_length_loop value (u64 (length + 1)) (u64 (backslashes + 1))
      else if Ascii.eqb c quote_mark
      then quoted_length_loop value (u64 (length + u64 (backslashes + 2))) 0
      else quoted_length_loop value (u64 (length + 1)) 0
  end.
Definition x_process_quoted_length (value : text) : Z := quoted_length_loop value 2 0.

Fixpoint arguments_length (arguments : list text) (length : Z) : Z :=
  match arguments with
  | [] => length
  | a :: arguments =>
      arguments_length arguments (u64 (length + u64 (1 + x_process_quoted_length a)))
  end.

Section Build.
Context {os : OS}.

(** ** Writing *)

(** Store [c] at the offset and advance it. *)
Definition put (target : ptr) (offset : Z) (c : ascii) : M Z :=
  write_bytes target offset [c];; mret (u64 (offset + 1)).

Fixpoint put_backslashes (n : nat) (target : ptr) (offset : Z) : M Z :=
  match n with
  | O => mret offset
  | S n => offset ← put target offset backslash; put_backslashes n target offset
  end.

Fixpoint append_loop (value : text) (target : ptr) (offset : Z) (backslashes : nat) : M (Z * nat) :=
  match value with
  | [] => mret (offset, backslashes)
  | c :: value =>
      if Ascii.eqb c backslash then
        offset ← put target offset c; append_loop value target offset (S backslashes)
      else if Ascii.eqb c quote_mark then
        offset ← put_backslashes backslashes target offset;
        offset ← put target offset backslash;
        offset ← put target offset quote_mark;
        append_loop value target offset 0
      else
        offset ← put target offset c; append_loop value target offset 0
  end.

Definition x_process_append_quoted (target : ptr) (offset : Z) (value : text) : M Z :=
  offset ← put target offset quote_mark;
  r ← append_loop value target offset 0;
  offset ← put_backslashes r.2 target r.1;
  put target offset quote_mark.

Fixpoint append_arguments (arguments : list text) (target : ptr) (offset : Z) : M Z :=
  match arguments with
  | [] => mret offset
  | a :: arguments =>
      offset ← put target offset " "%char;
      offset ← x_process_append_quoted target offset a;
      append_arguments arguments target offset
  end.

(** [calloc (n, 1)] *)
Definition calloc_bytes (n : Z) : M ptr :=
  p ← malloc n;
  if p =? NULL then mret NULL else store p (replicate (Z.to_nat n) NUL);; mret p.

(** The conversion to wide characters, [x_process_utf8_to_wide] of WinProcess.v:
    the code and the converted string. *)
Variable utf8_to_wide : text -> M (Z * option ptr).

Definition x_process_build_command_line (path : cstr) (arguments : option (list text))
    (command_line : bool) : M (Z * option ptr) :=
  match path with
  | None => mret (EINVAL, None)
  | Some path =>
      if negb command_line then mret (EINVAL, None)
      else
        let length := arguments_length (default [] arguments) (x_process_quoted_length path) in
        utf8_command ← calloc_bytes (u64 (length + 1));
        if utf8_command =? NULL then mret (ENOMEM, Some NULL)
        else
          offset ← x_process_append_quoted utf8_command 0 path;
          offset ← append_arguments (default [] arguments) utf8_command offset;
          write_bytes utf8_command offset [NUL];;
          content ← load text utf8_command;
          r ← utf8_to_wide (cstring content);
          free utf8_command;;
          mret r
  end.

(** ** What is written *)

(** The text for the rest of a value after [b] backslashes, and its end. *)
Fixpoint quoted_rest (v : text) (b : nat) : text :=
  match v with
  | [] => replicate b backslash ++ [quote_mark]
  | c :: v =>
      if Ascii.eqb c backslash then c :: quoted_rest v (S b)
      else if Ascii.eqb c quote_mark
      then replicate b backslash ++ backslash :: quote_mark :: quoted_rest v 0
      else c :: quoted_rest v 0
  end.
Definition quoted (v : text) : text := quote_mark :: quoted_rest v 0.

Fixpoint quoted_arguments (arguments : list text) : text :=
  match arguments with
  | [] => []
  | a :: arguments => " "%char :: quoted a ++ quoted_arguments arguments
  end.
Definition command_line (path : text) (arguments : list text) : text :=
  quoted path ++ quoted_arguments arguments.

(** ** How a program reads it back

    The documented rules of the Microsoft C runtime for a command line: outside
    quotes blanks separate arguments; 2n backslashes before a quote are n
    backslashes and a delimiter, 2n+1 are n backslashes and the character itself;
    other backslashes stand for themselves; a doubled quote within a quoted part
    is the character.  [s] is what is left, [started] whether an argument is
    being read, [q] whether within quotes, after [bs] backslashes, with [cur]
    already read. *)
Definition is_blank (c : ascii) : bool := Ascii.eqb c " "%char || Ascii.eqb c (Ascii.ascii_of_nat 9).

Fixpoint read_arguments (s : text) (started q : bool) (bs : nat) (cur : text) : list text :=
  match s with
  | [] => if started then [cur ++ replicate bs backslash] else []
  | c :: s' =>
      if Ascii.eqb c backslash then read_arguments s' true q (S bs) cur
      else if Ascii.eqb c quote_mark then
        let cur' := cur ++ replicate (bs / 2) backslash in
        if Nat.odd bs then read_arguments s' true q 0 (cur' ++ [quote_mark])
        else if q then
          match s' with
          | d :: s'' =>
              if Ascii.eqb d quote_mark then read_arguments s'' true true 0 (cur' ++ [quote_mark])
              else read_arguments s' true false 0 cur'
          | [] => read_arguments s' true false 0 cur'
          end
        else read_arguments s' true true 0 cur'
      else if is_blank c && negb q then
        if started then (cur ++ replicate bs backslash) :: read_arguments s' false false 0 []
        else read_arguments s' false false 0 []
      else read_arguments s' true q 0 (cur ++ replicate bs backslash ++ [c])
  end.
Definition argv (s : text) : list text := read_arguments s false false 0 [].
End Build.

(** ** The buffer *)

Section Proofs.
Context {os : OS}.
Implicit Types (h : gmap ptr obj) (t : list ev).

(** From any offset that the text already written ends at, [m] appends [d]. *)
Definition writes (m : Z -> M Z) (p : ptr) (d : text) : Prop :=
  forall md w rest e h t (Q : Z -> st -> Prop),
    h !! p = Some (OBytes (w ++ rest)) -> (length d <= length rest)%nat ->
    strlen (w ++ rest) < 2 ^ 64 ->
    Q (strlen (w ++ d)) (St e (<[p := OBytes ((w ++ d) ++ drop (length d) rest)]> h) t) ->
    wp md (m (strlen w)) Q (St e h t).

Lemma writes_ext m m' p d : (forall o s, m o s = m' o s) -> writes m p d -> writes m' p d.
Proof.
  intros Hm H md w rest e h t Q H1 H2 H3 H4. specialize (H md w rest e h t Q H1 H2 H3 H4).
  unfold wp in *. by rewrite <- Hm.
Qed.

Lemma writes_nil p : writes (fun o => mret o) p [].
Proof.
  intros md w rest e h t Q H1 H2 H3 H4. wp_step. rewrite app_nil_r, drop_0 in H4.
  by rewrite insert_id in H4.
Qed.

Lemma writes_bind m1 m2 p d1 d2 :
  writes m1 p d1 -> writes m2 p d2 -> writes (fun o => o' ← m1 o; m2 o') p (d1 ++ d2).
Proof.
  intros Hm1 Hm2 md w rest e h t Q H1 H2 H3 H4. rewrite length_app in H2. wp_step.
  eapply Hm1; [done|lia|done|].
  eapply Hm2; [by rewrite lookup_insert_eq|rewrite length_drop; lia| |].
  - unfold strlen in *. rewrite !length_app, length_drop in *. lia.
  - rewrite insert_insert_eq, drop_drop, <- (assoc_L (++) w), <- length_app. done.
Qed.

Lemma writes_put p c : writes (fun o => put p o c) p [c].
Proof.
  intros md w rest e h t Q H1 H2 H3 H4. unfold put. wp_step. cbn [length] in H2.
  eapply wp_write_bytes; [done|unfold strlen; lia| |].
  - unfold strlen. rewrite length_app. cbn. lia.
  - wp_step. unfold strlen in *. rewrite Nat2Z.id, write_at_end.
    rewrite u64_small; [|unfold is_u64; rewrite length_app in H3; lia].
    replace (Z.of_nat (length w) + 1) with (Z.of_nat (length (w ++ [c]))) by (rewrite length_app; cbn; lia).
    exact H4.
Qed.

Lemma writes_backslashes n p : writes (put_backslashes n p) p (replicate n backslash).
Proof.
  induction n as [|n IH]; [apply writes_nil|].
  apply (writes_bind (fun o => put p o backslash) (put_backslashes n p) p [backslash]);
    [apply writes_put|done].
Qed.

Lemma bind_assoc {A B C} (m : M A) (k : A -> M B) (k' : B -> M C) s :
  ((m ≫= k) ≫= k') s = (m ≫= (fun a => k a ≫= k')) s.
Proof. unfold mbind, M_bind. by destruct (m s). Qed.

Lemma writes_rest v b p :
  writes (fun o => r ← append_loop v p o b; o' ← put_backslashes r.2 p r.1; put p o' quote_mark)
    p (quoted_rest v b).
Proof.
  revert b. induction v as [|c v IH]; intros b; cbn [append_loop quoted_rest].
  - eapply writes_ext; [|apply (writes_bind (put_backslashes b p) (fun o => put p o quote_mark));
      [apply writes_backslashes|apply writes_put]]. done.
  - destruct (Ascii.eqb c backslash); [|destruct (Ascii.eqb c quote_mark)].
    + eapply writes_ext; [|exact (writes_bind _ _ _ [c] _ (writes_put p c) (IH (S b)))].
      intros o s. by rewrite bind_assoc.
    + eapply writes_ext; [|exact (writes_bind _ _ _ _ _ (writes_backslashes b p)
        (writes_bind _ _ _ [backslash] _ (writes_put p backslash)
          (writes_bind _ _ _ [quote_mark] _ (writes_put p quote_mark) (IH 0%nat))))].
      intros o s. rewrite bind_assoc. unfold mbind, M_bind.
      destruct (put_backslashes b p o s) as [o1 s1| | |]; [|done..].
      destruct (put p o1 backslash s1) as [o2 s2| | |]; [|done..].
      by destruct (put p o2 quote_mark s2).
    + eapply writes_ext; [|exact (writes_bind _ _ _ [c] _ (writes_put p c) (IH 0%nat))].
      intros o s. by rewrite bind_assoc.
Qed.

Lemma writes_quoted v p : writes (fun o => x_process_append_quoted p o v) p (quoted v).
Proof.
  exact (writes_bind _ _ _ [quote_mark] _ (writes_put p quote_mark) (writes_rest v 0 p)).
Qed.

Lemma writes_arguments args p : writes (append_arguments args p) p (quoted_arguments args).
Proof.
  induction args as [|a args IH]; [apply writes_nil|].
  exact (writes_bind _ _ _ [" "%char] _ (writes_put p " "%char)
    (writes_bind _ _ _ _ _ (writes_quoted a p) IH)).
Qed.

(** ** The size *)

Lemma u64_add_l x y : u64 (u64 x + y) = u64 (x + y).
Proof. unfold u64. by rewrite Zplus_mod_idemp_l. Qed.
Lemma u64_add_r x y : u64 (x + u64 y) = u64 (x + y).
Proof. unfold u64. by rewrite Zplus_mod_idemp_r. Qed.

Lemma quoted_length_loop_eq v L b :
  quoted_length_loop v (u64 L) (u64 (Z.of_nat b)) = u64 (L + strlen (quoted_rest v b)).
Proof.
  revert L b. induction v as [|c v IH]; intros L b; cbn [quoted_length_loop quoted_rest].
  - unfold strlen. rewrite length_app, length_replicate. cbn [length].
    rewrite (u64_add_l L), u64_add_r, u64_add_l. f_equal. lia.
  - destruct (Ascii.eqb c backslash); [|destruct (Ascii.eqb c quote_mark)].
    + rewrite !u64_add_l. replace (Z.of_nat b + 1) with (Z.of_nat (S b)) by lia. rewrite IH.
      f_equal. unfold strlen. cbn [length]. lia.
    + rewrite (u64_add_l (Z.of_nat b)), u64_add_r, u64_add_l. change 0 with (u64 (Z.of_nat 0)). rewrite IH.
      f_equal. unfold strlen. rewrite length_app, length_replicate. cbn [length]. lia.
    + rewrite !u64_add_l. change 0 with (u64 (Z.of_nat 0)). rewrite IH.
      f_equal. unfold strlen. cbn [length]. lia.
Qed.

Lemma quoted_length_eq v : x_process_quoted_length v = u64 (strlen (quoted v) + 1).
Proof.
  unfold x_process_quoted_length. change (quoted_length_loop v 2 0) with
    (quoted_length_loop v (u64 2) (u64 (Z.of_nat 0))). rewrite quoted_length_loop_eq. f_equal. unfold strlen, quoted. cbn [length]. lia.
Qed.

Lemma arguments_length_eq args L :
  arguments_length args (u64 L) = u64 (L + strlen (quoted_arguments args) + Z.of_nat (length args)).
Proof.
  revert L. induction args as [|a args IH]; intros L; cbn [arguments_length quoted_arguments].
  - f_equal. unfold strlen. cbn [length]. lia.
  - rewrite quoted_length_eq.
    assert (u64 (u64 L + u64 (1 + u64 (strlen (quoted a) + 1))) = u64 (L + (strlen (quoted a) + 2))) as ->.
    { rewrite (u64_add_r 1), u64_add_l, u64_add_r. f_equal. lia. }
    rewrite IH. f_equal. unfold strlen. cbn [length]. rewrite length_app. lia.
Qed.

Lemma quoted_rest_nul_free v b : nul_free v -> nul_free (quoted_rest v b).
Proof.
  revert b. induction v as [|c v IH]; intros b Hv; cbn [quoted_rest]; unfold nul_free in *.
  - intros H. apply elem_of_app in H as [H|H]; [by apply elem_of_replicate_inv in H|].
    by apply list_elem_of_singleton in H.
  - apply not_elem_of_cons in Hv as [Hc Hv].
    destruct (Ascii.eqb c backslash); [|destruct (Ascii.eqb c quote_mark)].
    + apply not_elem_of_cons. split; [done|by apply IH].
    + intros H. apply elem_of_app in H as [H|H]; [by apply elem_of_replicate_inv in H|].
      rewrite !elem_of_cons in H. destruct H as [H|[H|H]]; [done..|by apply (IH 0%nat)].
    + apply not_elem_of_cons. split; [done|by apply IH].
Qed.

Lemma command_line_nul_free path args :
  nul_free path -> Forall nul_free args -> nul_free (command_line path args).
Proof.
  intros Hp Ha. unfold command_line, nul_free in *. intros H. apply elem_of_app in H as [H|H].
  - apply elem_of_cons in H as [H|H]; [done|]. by apply (quoted_rest_nul_free path 0).
  - induction Ha as [|a args Ha _ IH]; cbn [quoted_arguments] in H; [by apply elem_of_nil in H|].
    apply elem_of_cons in H as [H|H]; [done|]. apply elem_of_app in H as [H|H]; [|by apply IH].
    apply elem_of_cons in H as [H|H]; [done|]. by apply (quoted_rest_nul_free a 0).
Qed.

(** The conversion is called with exactly [command_line], while the buffer is
    still allocated. *)
Lemma wp_build_command_line md to_wide path arguments e h t Q :
  nul_free path -> Forall nul_free (default [] arguments) ->
  strlen (command_line path (default [] arguments)) + Z.of_nat (length (default [] arguments)) < 2 ^ 63 ->
  (forall e' t', inert_ext t t' -> Q (ENOMEM, Some NULL) (St e' h t')) ->
  (forall p o e' t', 0 < p -> h !! p = None -> inert_ext t t' ->
     wp md (r ← to_wide (command_line path (default [] arguments)); free p;; mret r) Q (St e' (<[p := o]> h) t')) ->
  wp md (x_process_build_command_line to_wide (Some path) arguments true) Q (St e h t).
Proof.
  set (args := default [] arguments). intros Hp Ha Hlen Hnomem HQ.
  unfold x_process_build_command_line. cbn [negb]. fold args.
  assert (u64 (arguments_length args (x_process_quoted_length path) + 1) =
    strlen (command_line path args) + Z.of_nat (length args) + 2) as ->.
  { rewrite quoted_length_eq, arguments_length_eq. unfold command_line, strlen in *.
    rewrite length_app in *. rewrite !u64_small; unfold is_u64; [lia|..];
      try lia; rewrite ?u64_small by (unfold is_u64; lia); lia. }
  set (n := strlen _ + _ + 2).
  assert (0 <= strlen (command_line path args)) as H0 by (unfold strlen; lia).
  unfold calloc_bytes. wp_step. wp_step. wp_step; [wp_run; apply Hnomem; auto with xlib|].
  wp_step. assert (p <> NULL) as Hpn by (unfold NULL; lia). wp_step. wp_step.
  rewrite insert_insert_eq. wp_step. wp_step.
  set (z := replicate (Z.to_nat n) NUL).
  assert (length z = S (S (length args)) + length (command_line path args))%nat as Hz.
  { unfold z. rewrite length_replicate. unfold n, strlen. lia. }
  clearbody z. unfold command_line in Hz. rewrite length_app in Hz.
  wp_step. change 0 with (strlen []).
  eapply (writes_quoted path p _ [] z); [by rewrite lookup_insert_eq|lia| |].
  { unfold strlen, command_line in *. cbn [app]. rewrite length_app in *. lia. }
  rewrite insert_insert_eq. cbn [app]. wp_step.
  eapply (writes_arguments args p _ (quoted path)); [by rewrite lookup_insert_eq|..].
  { rewrite length_drop. lia. }
  { unfold strlen, command_line in *. rewrite !length_app, length_drop in *. lia. }
  rewrite insert_insert_eq, drop_drop. fold (command_line path args).
  set (k := (_ + _)%nat). wp_step.
  eapply wp_write_bytes; [by rewrite lookup_insert_eq|done| |].
  { unfold strlen, command_line. rewrite !length_app, length_drop. cbn [length]. unfold k. lia. }
  rewrite insert_insert_eq. unfold strlen at 1 2. rewrite Nat2Z.id, write_at_end. wp_step.
  eapply (wp_load _ _ ((command_line path args ++ [NUL]) ++ drop 1 (drop k z)));
    [by rewrite lookup_insert_eq|].
  rewrite <- (assoc_L (++)). cbn [app]. rewrite cstring_terminated by by apply command_line_nul_free.
  apply HQ; [done|done|]. auto with xlib.
Qed.

(** C31. The command line is built within the buffer that was sized for it, for any
    path and arguments; the conversion gets exactly [command_line], and the
    buffer is released.  Without memory the answer is ENOMEM. *)
Theorem build_command_line_spec to_wide path arguments s :
  nul_free path -> Forall nul_free (default [] arguments) ->
  strlen (command_line path (default [] arguments)) + Z.of_nat (length (default [] arguments)) < 2 ^ 63 ->
  wp Total (x_process_build_command_line (fun line => mret (to_wide line)) (Some path) arguments true)
    (fun r s' => hp s' = hp s /\ held (tr s') = held (tr s) /\
       (r = (ENOMEM, Some NULL) \/ r = to_wide (command_line path (default [] arguments)))) s.
Proof.
  intros Hp Ha Hlen. destruct s as [e h t]. apply wp_build_command_line; [done..| |].
  - intros e' t' Ht. cbn [hp tr]. rewrite (inert_ext_held _ _ Ht). auto.
  - intros p o e' t' Hpp Hn Ht. wp_step. wp_step. wp_step.
    eapply wp_free; [by rewrite lookup_insert_eq|unfold NULL; lia|]. wp_step. cbn [hp tr].
    rewrite delete_insert_id by done. split; [done|]. split; [|by right].
    cbn [held acquires releases]. by rewrite (inert_ext_held _ _ Ht), res_diff_empty, res_union_empty.
Qed.

(** ** Reading back *)

Lemma read_backslashes n s q bs cur :
  read_arguments (replicate n backslash ++ s) true q bs cur =
  read_arguments s true q (bs + n) cur.
Proof.
  revert bs. induction n as [|n IH]; intros bs; [by rewrite Nat.add_0_r|].
  cbn [replicate app read_arguments]. rewrite Ascii.eqb_refl, IH. f_equal. lia.
Qed.

(** The part of the line after an argument. *)
Definition line_end (rest : text) : Prop := rest = [] \/ exists rest', rest = " "%char :: rest'.

Lemma read_quoted_rest v b cur rest :
  line_end rest ->
  read_arguments (quoted_rest v b ++ rest) true true b cur =
  (cur ++ replicate b backslash ++ v) :: argv rest.
Proof.
  intros Hrest. revert b cur. induction v as [|c v IH]; intros b cur; cbn [quoted_rest].
  - rewrite <- (assoc_L (++)), read_backslashes. cbn [app read_arguments].
    change (Ascii.eqb quote_mark backslash) with false. rewrite Ascii.eqb_refl.
    replace (b + b)%nat with (2 * b)%nat by lia. rewrite Nat.odd_mul, Nat.mul_comm, Nat.div_mul by lia.
    cbn [Nat.odd Nat.even negb andb]. rewrite app_nil_r.
    destruct Hrest as [->|[rest' ->]]; cbn; by rewrite ?app_nil_r.
  - destruct (Ascii.eqb_spec c backslash) as [->|Hb]; [|destruct (Ascii.eqb_spec c quote_mark) as [->|Hq]].
    + cbn [app read_arguments]. rewrite Ascii.eqb_refl, IH.
      by rewrite replicate_S_end, <- !(assoc_L (++)).
    + rewrite <- (assoc_L (++)), read_backslashes. cbn [app read_arguments].
      rewrite Ascii.eqb_refl. change (Ascii.eqb quote_mark backslash) with false. rewrite Ascii.eqb_refl.
      replace (S (b + b))%nat with (1 + 2 * b)%nat by lia.
      rewrite Nat.odd_add_mul_2, (Nat.mul_comm 2). cbn [Nat.odd Nat.even negb].
      rewrite Nat.div_add by lia. change (1 / 2)%nat with 0%nat. cbn [Nat.add].
      rewrite IH. cbn [replicate app]. by rewrite <- !(assoc_L (++)).
    + cbn [app read_arguments]. apply Ascii.eqb_neq in Hb as ->. apply Ascii.eqb_neq in Hq as ->.
      rewrite andb_false_r, IH. cbn [replicate app]. by rewrite <- !(assoc_L (++)).
Qed.

Lemma argv_quoted v rest : line_end rest -> argv (quoted v ++ rest) = v :: argv rest.
Proof.
  intros H. unfold argv at 1, quoted. cbn [app read_arguments].
  change (Ascii.eqb quote_mark backslash) with false. rewrite Ascii.eqb_refl. cbn [Nat.odd Nat.even negb].
  change (0 / 2)%nat with 0%nat. cbn [replicate app]. by rewrite read_quoted_rest.
Qed.

Lemma argv_quoted_arguments args : argv (quoted_arguments args) = args.
Proof.
  induction args as [|a args IH]; [done|]. cbn [quoted_arguments].
  change (argv (" "%char :: quoted a ++ quoted_arguments args)) with (argv (quoted a ++ quoted_arguments args)).
  rewrite argv_quoted, IH; [done|]. destruct args; [by left|right]. by eexists.
Qed.

End Proofs.

Example quoting : command_line (str "a b") [str "c\"; [quote_mark]] =
  quote_mark :: str "a b" ++ [quote_mark; " "%char; quote_mark] ++ str "c\\" ++
  [quote_mark; " "%char; quote_mark; backslash; quote_mark; quote_mark].
Proof. by vm_compute. Qed.

Lemma build_command_line_spec_witness :
  wp Total (x_process_build_command_line (os := parent_os) (fun line => mret (strlen line, None))
              (Some (str "C:\tool.exe")) (Some [str "a b"; str "c\"]) true)
    (fun r s' => hp s' = hp st0 /\ held (tr s') = held (tr st0) /\
       (r = (ENOMEM, Some NULL) \/ r = (25, None))) st0.
Proof.
  apply (build_command_line_spec (os := parent_os) (fun line => (strlen line, None))
           (str "C:\tool.exe") (Some [str "a b"; str "c\"]) st0);
    [by apply (bool_decide_unpack _); vm_compute|by apply (bool_decide_unpack _); vm_compute|by vm_compute].
Defined.

Example line_built :
  x_process_build_command_line (os := parent_os) (fun line => mret (strlen line, None))
    (Some (str "C:\tool.exe")) (Some [str "a b"; str "c\"]) true st0 =
  Done (25, None) (St 0 ∅ [EvFree 3; EvMalloc 29 3]).
Proof. by vm_compute. Qed.
