(* ===== verification/WinProcess.v ===== *)
(** * Processes, pipes and the environment on Windows (src/x_process.c, Windows build)

    A child is started with a command line (XQuote.v), an environment block, a
    directory and, when a stream is redirected, inheritable handles. *)
From S2P Require Import Prelude Syscalls Structs Machine Contract DemoOS WinBase Temporaries XPath XFile XProcess XQuote WinFile.

Definition CREATE_UNICODE_ENVIRONMENT : Z := 1024.

Definition x_process_error_from_windows (error : Z) : Z :=
  if error =? ERROR_SUCCESS then 0
  else if (error =? ERROR_FILE_NOT_FOUND) || (error =? ERROR_PATH_NOT_FOUND) then ENOENT
  else if error =? ERROR_ACCESS_DENIED then EACCES
  else if (error =? ERROR_INVALID_PARAMETER) || (error =? ERROR_INVALID_NAME) then EINVAL
  else if (error =? ERROR_NOT_ENOUGH_MEMORY) || (error =? ERROR_OUTOFMEMORY) then ENOMEM
  else EIO.

Lemma x_process_error_pos e : 0 < e -> 0 < x_process_error_from_windows e.
Proof.
  intros. unfold x_process_error_from_windows, ERROR_SUCCESS.
  destruct (Z.eqb_spec e 0); [lia|]. by repeat case_match.
Qed.
#[export] Hint Resolve x_process_error_pos : xlib.

Lemma x_process_error_nonneg e : 0 <= x_process_error_from_windows e.
Proof. unfold x_process_error_from_windows. by repeat case_match. Qed.

Section Process.
Context {os : OS}.

(** The code of the last error. *)
Definition process_error : M Z := e ← GetLastError; mret (x_process_error_from_windows e).

Definition x_process_utf8_to_wide (value : cstr) (wide : bool) : M (Z * option ptr) :=
  c ← utf8_to_wide value wide;
  mret (conversion_code x_process_error_from_windows c).

(** ** What a child is started with *)

Definition x_process_open_redirect (path : cstr) (access disposition : Z) (handle : bool)
    : M (Z * option Z) :=
  if is_null path || negb handle then mret (EINVAL, None)
  else
    converted ← x_process_utf8_to_wide path true;
    if negb (converted.1 =? 0) then mret (converted.1, Some NULL)
    else
      let wide_path := default NULL converted.2 in
      path ← load_wide wide_path;
      opened ← win (CreateFileW path access (Z.lor FILE_SHARE_READ FILE_SHARE_WRITE) true disposition);
      free wide_path;;
      if opened =? INVALID_HANDLE_VALUE then error ← process_error; mret (error, Some NULL)
      else mret (0, Some opened).

Definition x_process_duplicate_pipe_for_child (pipe : ptr) (handle : bool) : M (Z * option Z) :=
  if (pipe =? NULL) || negb handle then mret (EINVAL, None)
  else
    p ← load win_pipe pipe;
    r ← win (DuplicateHandle (wpi_handle p) true);
    if negb r.1 then error ← process_error; mret (error, Some NULL)
    else mret (0, Some r.2).

(** The first loop: the size of the block, or the code of an error. *)
Fixpoint block_total (environment : list text) (total : Z) : M (Z + Z) :=
  match environment with
  | [] => mret (inl total)
  | v :: environment =>
      count ← win (MultiByteToWideChar v 0);
      if count.1 =? 0 then error ← process_error; mret (inr error)
      else block_total environment (u64 (total + count.1))
  end.

(** The second loop: the strings one after the other; [offset] is
    [cursor - created]. *)
Fixpoint block_fill (environment : list text) (created : ptr) (total offset : Z) : M (Z + Z) :=
  match environment with
  | [] => mret (inl offset)
  | v :: environment =>
      count ← win (MultiByteToWideChar v (int_of (u64 (total - offset))));
      if count.1 =? 0 then error ← process_error; free created;; mret (inr error)
      else
        write_wide created offset count.2;;
        block_fill environment created total (offset + count.1)
  end.

Definition x_process_build_environment_block (environment : option (list text)) (block : bool)
    : M (Z * option ptr) :=
  if negb block then mret (EINVAL, None)
  else
    match environment with
    | None => mret (0, Some NULL)
    | Some environment =>
        total ← block_total environment 1;
        match total with
        | inr error => mret (error, Some NULL)
        | inl total =>
            created ← calloc_wide total;
            if created =? NULL then mret (ENOMEM, Some NULL)
            else
              offset ← block_fill environment created total 0;
              match offset with
              | inr error => mret (error, Some NULL)
              | inl offset => write_wide created offset [0];; mret (0, Some created)
              end
        end
    end.

(** A stream redirected to a file or to a pipe, or left alone. *)
Definition redirect_stream (path : cstr) (pipe : ptr) (access disposition : Z) : M (Z * option Z) :=
  if negb (is_null path) then x_process_open_redirect path access disposition true
  else if negb (pipe =? NULL) then x_process_duplicate_pipe_for_child pipe true
  else mret (0, Some NULL).

Definition redirected (path : cstr) (pipe : ptr) : bool := negb (is_null path) || negb (pipe =? NULL).

Definition std_handle (handle number : Z) : M Z :=
  if negb (handle =? NULL) then mret handle else win (GetStdHandle number).

(** The wide string, or nothing for a NULL pointer. *)
Definition load_optional (p : ptr) : M (option wtext) :=
  if p =? NULL then mret None else w ← load_wide p; mret (Some w).
Definition load_block (p : ptr) : M (option wtext) :=
  if p =? NULL then mret None else b ← load wide p; mret (Some (units b)).

(** Creating the process, from the prepared arguments on. *)
Definition create_process (created command_line working_directory environment_block : ptr)
    (inherit_handles : bool) (stdin_handle stdout_handle stderr_handle : Z) : M (Z * option ptr) :=
  startup ← (if inherit_handles then
               input ← std_handle stdin_handle STD_INPUT_HANDLE;
               output ← std_handle stdout_handle STD_OUTPUT_HANDLE;
               error ← std_handle stderr_handle STD_ERROR_HANDLE;
               mret (StartupInfo true input output error)
             else mret (StartupInfo false NULL NULL NULL));
  line ← load_wide command_line;
  block ← load_block environment_block;
  directory ← load_optional working_directory;
  r ← win (CreateProcessW line inherit_handles
             (if negb (environment_block =? NULL) then CREATE_UNICODE_ENVIRONMENT else 0)
             block directory startup);
  if negb r.1 then
    error ← process_error;
    close_handle stdin_handle;; close_handle stdout_handle;; close_handle stderr_handle;;
    free environment_block;; free working_directory;; free command_line;; free created;;
    mret (error, Some NULL)
  else
    modify win_process created (fun p => WinProcess (wpr_waited p) (wpr_exit_code p) r.2.1 r.2.2);;
    close_handle stdin_handle;; close_handle stdout_handle;; close_handle stderr_handle;;
    free environment_block;; free working_directory;; free command_line;;
    mret (0, Some created).

(** Opening the three streams; each failure closes the ones before it. *)
Definition redirect_and_create (created command_line working_directory environment_block : ptr)
    (o : x_process_options) : M (Z * option ptr) :=
  let release := free environment_block;; free working_directory;; free command_line;; free created in
  r ← redirect_stream (op_stdin_path o) (op_stdin_pipe o) GENERIC_READ OPEN_EXISTING;
  if negb (r.1 =? 0) then release;; mret (r.1, Some NULL)
  else
    let stdin_handle := default NULL r.2 in
    r ← redirect_stream (op_stdout_path o) (op_stdout_pipe o) GENERIC_WRITE CREATE_ALWAYS;
    if negb (r.1 =? 0) then close_handle stdin_handle;; release;; mret (r.1, Some NULL)
    else
      let stdout_handle := default NULL r.2 in
      r ← redirect_stream (op_stderr_path o) (op_stderr_pipe o) GENERIC_WRITE CREATE_ALWAYS;
      if negb (r.1 =? 0)
      then close_handle stdin_handle;; close_handle stdout_handle;; release;; mret (r.1, Some NULL)
      else
        create_process created command_line working_directory environment_block
          (redirected (op_stdin_path o) (op_stdin_pipe o)
           || redirected (op_stdout_path o) (op_stdout_pipe o)
           || redirected (op_stderr_path o) (op_stderr_pipe o))
          stdin_handle stdout_handle (default NULL r.2).

Definition x_process_start (process : bool) (path : cstr) (arguments : option (list text))
    (options : option x_process_options) : M (Z * option ptr) :=
  if negb process || is_null path then mret (EINVAL, None)
  else if match options with Some o => conflicting o | None => false end then mret (EINVAL, None)
  else
    let o := default zero_process_options options in
    created ← calloc 32 (WinProcess false 0 NULL NULL);
    if created =? NULL then mret (ENOMEM, Some NULL)
    else
      r ← x_process_build_command_line (fun line => x_process_utf8_to_wide (Some line) true)
            path arguments true;
      if negb (r.1 =? 0) then free created;; mret (r.1, Some NULL)
      else
        let command_line := default NULL r.2 in
        r ← (if negb (is_null (op_working_directory o))
             then x_process_utf8_to_wide (op_working_directory o) true else mret (0, Some NULL));
        if negb (r.1 =? 0) then free command_line;; free created;; mret (r.1, Some NULL)
        else
          let working_directory := default NULL r.2 in
          r ← x_process_build_environment_block (op_environment o) true;
          if negb (r.1 =? 0)
          then free working_directory;; free command_line;; free created;; mret (r.1, Some NULL)
          else redirect_and_create created command_line working_directory (default NULL r.2) o.

(** ** A started child *)

Definition x_process_wait (process : ptr) (exit_code : bool) : M (Z * option Z) :=
  if process =? NULL then mret (EINVAL, None)
  else
    p ← load win_process process;
    error ← (if negb (wpr_waited p) then
               waited ← win (WaitForSingleObject (wpr_process p) INFINITE);
               if negb (waited =? WAIT_OBJECT_0) then process_error
               else
                 code ← win (GetExitCodeProcess (wpr_process p));
                 if negb code.1 then process_error
                 else
                   modify win_process process (fun p =>
                     WinProcess (wpr_waited p) (int_of code.2) (wpr_process p) (wpr_thread p));;
                   modify win_process process (fun p =>
                     WinProcess true (wpr_exit_code p) (wpr_process p) (wpr_thread p));;
                   mret 0
             else mret 0);
    if negb (error =? 0) then mret (error, None)
    else
      p ← load win_process process;
      mret (0, if exit_code then Some (wpr_exit_code p) else None).

(** Returns [(rc, *completed, *exit_code)], [None] where nothing is written. *)
Definition x_process_poll (process : ptr) (completed exit_code : bool)
    : M (Z * option bool * option Z) :=
  if (process =? NULL) || negb completed then mret (EINVAL, None, None)
  else
    p ← load win_process process;
    if wpr_waited p then
      mret (0, Some true, if exit_code then Some (wpr_exit_code p) else None)
    else
      result ← win (WaitForSingleObject (wpr_process p) 0);
      if result =? WAIT_TIMEOUT then mret (0, Some false, None)
      else if negb (result =? WAIT_OBJECT_0) then error ← process_error; mret (error, None, None)
      else
        code ← win (GetExitCodeProcess (wpr_process p));
        if negb code.1 then error ← process_error; mret (error, None, None)
        else
          modify win_process process (fun p =>
            WinProcess (wpr_waited p) (int_of code.2) (wpr_process p) (wpr_thread p));;
          modify win_process process (fun p =>
            WinProcess true (wpr_exit_code p) (wpr_process p) (wpr_thread p));;
          p ← load win_process process;
          mret (0, Some true, if exit_code then Some (wpr_exit_code p) else None).

Definition x_process_terminate (process : ptr) : M Z :=
  if process =? NULL then mret EINVAL
  else
    p ← load win_process process;
    r ← win (TerminateProcess (wpr_process p) 1);
    if negb r then process_error else mret 0.

Definition x_process_destroy (process : ptr) : M unit :=
  if process =? NULL then mret tt
  else
    p ← load win_process process;
    close_handle (wpr_thread p);; close_handle (wpr_process p);; free process.

(** ** Pipes *)

Definition x_pipe_create (read_pipe write_pipe : bool) : M (Z * option (ptr * ptr)) :=
  if negb read_pipe || negb write_pipe then mret (EINVAL, None)
  else
    created_read ← calloc 8 (WinPipe NULL);
    created_write ← calloc 8 (WinPipe NULL);
    if (created_read =? NULL) || (created_write =? NULL) then
      free created_read;; free created_write;; mret (ENOMEM, Some (NULL, NULL))
    else
      r ← win (CreatePipe false);
      if negb r.1 then
        error ← process_error;
        free created_read;; free created_write;; mret (error, Some (NULL, NULL))
      else
        store created_read (WinPipe r.2.1);;
        store created_write (WinPipe r.2.2);;
        mret (0, Some (created_read, created_write)).

Definition x_pipe_read (pipe : ptr) (buffer : bool) (size : Z) (bytes_read : bool)
    : M (Z * option Z * text) :=
  if (pipe =? NULL) || negb buffer then mret (EINVAL, None, [])
  else
    p ← load win_pipe pipe;
    r ← win (ReadFile (wpi_handle p) (dword_chunk size));
    if negb r.1 then
      error ← GetLastError;
      mret (if error =? ERROR_BROKEN_PIPE then 0 else x_process_error_from_windows error,
            if bytes_read then Some 0 else None, r.2)
    else mret (0, if bytes_read then Some (Z.of_nat (length r.2)) else None, r.2).

Definition x_pipe_write (pipe : ptr) (buffer : cstr) (size : Z) (bytes_written : bool)
    : M (Z * option Z) :=
  if (pipe =? NULL) || is_null buffer then mret (EINVAL, None)
  else
    p ← load win_pipe pipe;
    r ← win (WriteFile (wpi_handle p) (txt buffer) (dword_chunk size));
    if negb r.1 then error ← process_error; mret (error, if bytes_written then Some 0 else None)
    else mret (0, if bytes_written then Some r.2 else None).

Definition x_pipe_close (pipe : ptr) : M unit :=
  if pipe =? NULL then mret tt
  else p ← load win_pipe pipe; close_handle (wpi_handle p);; free pipe.

(** ** The environment *)

(** The second component is what was stored in the buffer, if anything. *)
Definition x_environment_get (name : cstr) (buffer : bool) (buffer_size : Z) : M (Z * cstr) :=
  if is_null name || negb buffer || (buffer_size =? 0) then mret (EINVAL, None)
  else
    converted ← x_process_utf8_to_wide name true;
    if negb (converted.1 =? 0) then mret (converted.1, None)
    else
      let wide_name := default NULL converted.2 in
      name ← load_wide wide_name;
      required ← win (GetEnvironmentVariableW name 0);
      if required.1 =? 0 then
        last ← GetLastError;
        free wide_name;;
        mret (if last =? ERROR_ENVVAR_NOT_FOUND then ENOENT else x_process_error_from_windows last, None)
      else
        wide_value ← calloc_wide required.1;
        if wide_value =? NULL then free wide_name;; mret (ENOMEM, None)
        else
          stored ← win (GetEnvironmentVariableW name required.1);
          write_wide wide_value 0 (take (Z.to_nat (required.1 - 1)) stored.2);;
          if stored.1 =? 0 then
            error ← process_error;
            free wide_value;; free wide_name;; mret (error, None)
          else
            value ← load_wide wide_value;
            r ← win (WideCharToMultiByte value (int_of buffer_size));
            free wide_value;; free wide_name;;
            if r.1 =? 0 then
              last ← GetLastError;
              mret (if last =? ERROR_INSUFFICIENT_BUFFER then ENAMETOOLONG
                    else x_process_error_from_windows last, None)
            else mret (0, if bool_decide (r.2 = []) then None else Some (cstring r.2)).

Definition x_environment_set (name value : cstr) : M Z :=
  if is_null name || is_null value then mret EINVAL
  else
    converted ← x_process_utf8_to_wide name true;
    if negb (converted.1 =? 0) then mret converted.1
    else
      let wide_name := default NULL converted.2 in
      converted ← x_process_utf8_to_wide value true;
      if negb (converted.1 =? 0) then free wide_name;; mret converted.1
      else
        let wide_value := default NULL converted.2 in
        name ← load_wide wide_name;
        value ← load_wide wide_value;
        set ← win (SetEnvironmentVariableW name (Some value));
        if negb set then
          error ← process_error; free wide_value;; free wide_name;; mret error
        else free wide_value;; free wide_name;; mret 0.

Definition x_environment_unset (name : cstr) : M Z :=
  if is_null name then mret EINVAL
  else
    converted ← x_process_utf8_to_wide name true;
    if negb (converted.1 =? 0) then mret converted.1
    else
      let wide_name := default NULL converted.2 in
      name ← load_wide wide_name;
      unset ← win (SetEnvironmentVariableW name None);
      if negb unset then
        last ← GetLastError;
        free wide_name;;
        mret (if last =? ERROR_ENVVAR_NOT_FOUND then 0 else x_process_error_from_windows last)
      else free wide_name;; mret 0.
End Process.

(** ** The environment block *)

(** Each string with its terminator, and one more terminator. *)
Definition wide_strings (ws : list wtext) : wtext := concat ((fun w => w ++ [0]) <$> ws).
Definition block_of (ws : list wtext) : wtext := wide_strings ws ++ [0].

(** How a block is read: strings up to an empty one. *)
Fixpoint read_block (b cur : wtext) : list wtext :=
  match b with
  | [] => []
  | x :: b =>
      if x =? 0 then if decide (cur = []) then [] else cur :: read_block b []
      else read_block b (cur ++ [x])
  end.

Lemma read_block_string w b cur : 0 ∉ w ->
  read_block (w ++ 0 :: b) cur = if decide (cur ++ w = []) then [] else (cur ++ w) :: read_block b [].
Proof.
  intros Hw. revert cur. induction w as [|x w IH]; intros cur.
  - rewrite app_nil_r. done.
  - apply not_elem_of_cons in Hw as [Hx Hw]. cbn. destruct (Z.eqb_spec x 0); [done|].
    rewrite IH by done. by rewrite <- (assoc_L (++)).
Qed.

Lemma read_block_of ws :
  Forall (fun w => 0 ∉ w /\ w <> []) ws -> read_block (block_of ws) [] = ws.
Proof.
  unfold block_of. induction 1 as [|w ws [Hw Hne] _ IH]; [done|].
  cbn. rewrite <- !(assoc_L (++)). cbn [app]. rewrite read_block_string by done.
  cbn [app]. rewrite decide_False by done. f_equal. exact IH.
Qed.

Section Specs.
Context {os : OS}.
Implicit Types (h : gmap ptr obj) (t : list ev) (ps : list block) (hs : list Z).

Definition converted (environment : list text) (ws : list wtext) : Prop :=
  Forall2 (fun v w => utf16 v = Some w) environment ws.

Lemma wp_block_total md environment total s0 ps hs s Q :
  holding s0 ps hs s -> 0 <= total -> total + 2 ^ 31 * Z.of_nat (length environment) < 2 ^ 63 ->
  (forall s', holding s0 ps hs s' ->
     (forall ws, converted environment ws -> Q (inl (total + Z.of_nat (length (wide_strings ws)))) s') /\
     (forall error, 0 < error -> Q (inr error) s')) ->
  wp md (block_total environment total) Q s.
Proof.
  intros Hs H0 Hmax HQ. revert total s Hs H0 Hmax Q HQ.
  induction environment as [|v environment IH]; intros total s Hs H0 Hmax Q HQ; cbn [block_total].
  - apply wp_ret. destruct (HQ s Hs) as [HQ1 _]. specialize (HQ1 []). cbn in HQ1.
    rewrite Z.add_0_r in HQ1. by apply HQ1, Forall2_nil.
  - cbn [length] in Hmax. apply wp_bind. eapply wp_holding_win; [done|exact Hs|].
    intros r e [e' h' t'] He Hp _ _ Hs'. cbn [win32_post errno] in *. subst e'. unfold process_error.
    destruct Hp as [[Hr He]|(w & Hw & Hr & Hmax' & _)].
    + rewrite Hr. cbn [Z.eqb]. win_run. apply HQ; auto with xlib.
    + destruct (Z.eqb_spec r.1 0); [lia|]. rewrite u64_small by (unfold is_u64; lia).
      apply (IH _ _ Hs'); [lia|lia|]. intros s'' Hs''. destruct (HQ s'' Hs'') as [HQ1 HQ2].
      split; [|done]. intros ws Hws. specialize (HQ1 (w :: ws)). cbn in HQ1.
      rewrite !length_app in HQ1. cbn [length] in HQ1.
      replace (total + r.1 + _) with (total + Z.of_nat (length w + 1 + length (wide_strings ws))) by lia.
      apply HQ1. by constructor.
Qed.

Lemma holding_write s0 p (pre data : wtext) n ps hs s md Q :
  holding s0 ((p, to_obj (Wide (pre ++ replicate n 0))) :: ps) hs s -> 0 < p ->
  (length data <= n)%nat ->
  (forall s', errno s' = errno s -> tr s ⊆ tr s' ->
     holding s0 ((p, to_obj (Wide ((pre ++ data) ++ replicate (n - length data) 0))) :: ps) hs s' -> Q tt s') ->
  wp md (write_wide p (Z.of_nat (length pre)) data) Q s.
Proof.
  intros Hs Hp Hn HQ. destruct s as [e h t].
  destruct (holding_update s0 [] p _ (to_obj (Wide ((pre ++ data) ++ replicate (n - length data) 0))) ps hs _ Hs Hp)
    as [Hl Hu]. cbn [app hp tr] in *.
  eapply wp_write_wide; [exact Hl|lia| |].
  - rewrite length_app, length_replicate. lia.
  - rewrite Nat2Z.id, write_at_end, drop_replicate. apply HQ; [done|done|]. apply Hu, inert_ext_refl.
Qed.

Lemma wp_block_fill md environment ws created total s0 pre n ps hs s Q :
  converted environment ws -> n = S (length (wide_strings ws)) ->
  total = Z.of_nat (length pre + n) -> total < 2 ^ 31 -> 0 < created ->
  holding s0 ((created, to_obj (Wide (pre ++ replicate n 0))) :: ps) hs s ->
  (forall s', holding s0 ((created, to_obj (Wide ((pre ++ wide_strings ws) ++ [0]))) :: ps) hs s' ->
     Q (inl (Z.of_nat (length (pre ++ wide_strings ws)))) s') ->
  (forall s' error, 0 < error -> holding s0 ps hs s' -> Q (inr error) s') ->
  wp md (block_fill environment created total (Z.of_nat (length pre))) Q s.
Proof.
  intros Hc. revert pre n s. induction Hc as [|v w environment ws Hv Hc IH];
    intros pre n s Hn Ht Hmax Hp Hs HQ1 HQ2; cbn [block_fill].
  - apply wp_ret. cbn in *. subst n. rewrite app_nil_r in HQ1. by apply HQ1.
  - cbn in Hn. rewrite !length_app in Hn. cbn [length] in Hn.
    apply wp_bind. eapply wp_holding_win; [done|exact Hs|].
    intros r e s1 He Hpost _ _ Hs1. cbn [win32_post] in *. unfold process_error.
    assert (int_of (u64 (total - Z.of_nat (length pre))) = Z.of_nat n) as Hi.
    { rewrite u64_small by (unfold is_u64; lia). unfold int_of. rewrite Z.mod_small; lia. }
    rewrite Hi in Hpost. destruct Hpost as [[Hr Hpos]|(w' & Hw' & Hr & _ & Hbuf)].
    + rewrite Hr. cbn [Z.eqb]. apply wp_bind, wp_bind. destruct s1 as [e1 h1 t1]. cbn in He. subst e1.
      apply wp_get_errno, wp_ret. apply wp_bind. eapply wp_holding_free; [exact Hs1|].
        intros s' _ _ Hs'. apply wp_ret. apply HQ2; auto with xlib.
    + assert (w' = w) as -> by congruence. destruct (Z.eqb_spec r.1 0); [lia|].
      destruct (Z.eqb_spec (Z.of_nat n) 0); [lia|]. destruct Hbuf as [Hle Hbuf].
      apply wp_bind. rewrite Hbuf. eapply holding_write; [exact Hs1|done|rewrite length_app; cbn; lia|].
      intros s2 _ _ Hs2. rewrite Hr. rewrite length_app in Hs2. cbn [length] in Hs2.
      replace (Z.of_nat (length pre) + _) with (Z.of_nat (length (pre ++ w ++ [0])))
        by (rewrite !length_app; cbn; lia).
      change (concat _) with (wide_strings ws) in Hn.
      eapply (IH (pre ++ w ++ [0]) (n - (length w + 1))%nat); [lia| |done..|exact Hs2| |done].
      * rewrite !length_app. cbn [length]. lia.
      * intros s' Hs'. cbn in HQ1. rewrite <- !(assoc_L (++)) in *. by apply HQ1.
Qed.

(** The block holds the converted strings; an error leaves nothing. *)
Definition block_held (environment : option (list text)) s0 ps hs (r : Z * option ptr) (s : st) : Prop :=
  (r.1 = 0 /\ exists p ws, r.2 = Some p /\ (environment = None -> p = NULL) /\
     (forall env, environment = Some env -> 0 < p /\ converted env ws) /\
     holding s0 ((p, to_obj (Wide (block_of ws))) :: ps) hs s) \/
  (0 < r.1 /\ holding s0 ps hs s).

(** An environment that fits the sizes of the conversion functions. *)
Definition environment_small (environment : list text) : Prop :=
  Z.of_nat (length environment) < 2 ^ 31 /\
  forall ws, converted environment ws -> Z.of_nat (length (block_of ws)) < 2 ^ 31.

Lemma wp_build_environment_block md environment s0 ps hs s Q :
  holding s0 ps hs s ->
  match environment with Some env => environment_small env | None => True end ->
  (forall r s', block_held environment s0 ps hs r s' -> Q r s') ->
  wp md (x_process_build_environment_block environment true) Q s.
Proof.
  intros Hs Hsmall HQ. unfold x_process_build_environment_block. cbn [negb].
  destruct environment as [environment|].
  2: { apply wp_ret, HQ. left. split; [done|]. exists NULL, []. split; [done|]. split; [done|].
       split; [done|]. by apply holding_null_block. }
  destruct Hsmall as [Hlen Hsmall]. apply wp_bind.
  eapply wp_block_total; [exact Hs|done|lia|]. intros s1 Hs1. split.
  2: { intros error He. apply wp_ret, HQ. by right. }
  intros ws Hws. specialize (Hsmall ws Hws). unfold block_of in Hsmall. rewrite length_app in Hsmall.
  cbn [length] in Hsmall. set (total := 1 + _). apply wp_bind.
  eapply wp_holding_calloc; [exact Hs1|..].
  { intros s' Hs'. rewrite Z.eqb_refl. apply wp_ret, HQ. by right. }
  intros p s2 Hp Hs2. destruct (Z.eqb_spec p NULL); [unfold NULL in *; lia|].
  apply wp_bind. change 0 with (Z.of_nat (length (@nil Z))) at 1.
  eapply (wp_block_fill _ _ ws _ _ _ [] (Z.to_nat total)); [done|unfold total; lia|unfold total; cbn; lia|
    unfold total; lia|done|exact Hs2|..].
  2: { intros s' error He Hs'. apply wp_ret, HQ. by right. }
  intros s3 Hs3. cbn [app] in Hs3 |- *. apply wp_bind. 
  eapply (holding_write _ _ (wide_strings ws) [0] 1); [exact Hs3|done|cbn; lia|].
  intros s' _ _ Hs'. apply wp_ret, HQ. left. split; [done|]. exists p, ws. split; [done|]. split; [done|].
  cbn in Hs'. rewrite app_nil_r in Hs'. split; [|done]. intros env [= <-]. by split.
Qed.

(** C22. The environment block a child gets says what the caller asked for: for any
    list of strings whose conversions are not empty, [x_process_build_environment_block]
    stores a fresh block that a reader splits into exactly the converted strings,
    in order, and nothing else is allocated; or it fails and leaves nothing behind. *)
Theorem environment_block_roundtrip environment s :
  environment_small environment -> (forall ws, converted environment ws -> [] ∉ ws) ->
  wp Total (x_process_build_environment_block (Some environment) true)
    (fun r s' => held (tr s') = held (tr s) /\
       ((r.1 = 0 /\ exists p b ws,
           r.2 = Some p /\ hp s !! p = None /\ hp s' = <[p := to_obj (Wide b)]> (hp s) /\
           converted environment ws /\ read_block b [] = ws) \/
        (0 < r.1 /\ hp s' = hp s))) s.
Proof.
  intros Hsmall Hne. eapply wp_build_environment_block; [apply holding_refl|done|].
  intros r s' [(Hr & p & ws & Hp & _ & Hws & Hs')|[Hr Hs']].
  - destruct (Hws environment eq_refl) as [Hpos Hc]. destruct Hs' as [Hh [_ Hb] Ht _]. cbn in Hh, Hb, Ht.
    rewrite (proj2 (Z.eqb_neq p NULL)) in * by (unfold NULL; lia).
    split; [rewrite Ht; apply set_eq; set_solver|]. left. split; [done|].
    exists p, (block_of ws), ws. destruct Hb as [?|[_ Hb]]; [unfold NULL in *; lia|]. split_and!; [done..|]. apply read_block_of. specialize (Hne ws Hc).
    apply Forall_forall. intros w Hw. split; [|by intros ->].
    destruct (list_elem_of_lookup_1 ws w Hw) as [n Hn].
    destruct (Forall2_lookup_r _ _ _ _ _ Hc Hn) as (v & _ & Hv).
    by eapply utf16_nul.
  - apply holding_done in Hs' as [Hh Ht]. split; [done|]. by right.
Qed.

(** ** Redirections *)

Definition win_pipe_ok h (p : ptr) : Prop := p = NULL \/ exists x : win_pipe, h !! p = Some (to_obj x).

Definition stream_held s0 ps hs (r : Z * option Z) (s : st) : Prop :=
  (r.1 = 0 /\ exists x, r.2 = Some x /\ holding s0 ps (hs ++ [x]) s) \/
  (0 < r.1 /\ holding s0 ps hs s).

Lemma wp_open_redirect md path access disposition s0 ps hs s Q :
  holding s0 ps hs s -> (forall r s', stream_held s0 ps hs r s' -> Q r s') ->
  wp md (x_process_open_redirect (Some path) access disposition true) Q s.
Proof.
  intros Hs HQ. unfold x_process_open_redirect, process_error. cbn [is_null negb orb].
  apply wp_bind. eapply wp_holding_convert; [exact x_process_error_pos|exact Hs|].
  intros r s1 [(Hr & p & w & Ho & _ & Hw & Hp & Hs1)|[Hr Hs1]].
  2: { destruct (Z.eqb_spec r.1 0); [lia|]. apply wp_ret, HQ. by right. }
  rewrite Hr, Ho. cbn [Z.eqb negb default from_option id].
  apply wp_bind. eapply (wp_holding_load_wide _ _ []); [exact Hs1|done|done|].
  destruct s1 as [e h t]. apply wp_bind, wp_win. intros x e' Hpost _. cbn [win32_post] in Hpost.
  apply wp_bind. destruct Hpost as [[-> He]|(Hne & Hx & Hf)].
  - eapply (wp_holding_free _ _ p).
    { eapply (holding_event _ _ _ e); [exact Hs1|]. by held_simpl. }
    intros [e2 h2 t2] He2 _ Hs2. cbn [errno] in He2. subst e2. rewrite Z.eqb_refl. win_run. apply HQ. right.
    split; [by apply x_process_error_pos|done].
  - eapply (wp_holding_free _ _ p).
    { eapply holding_handle; [exact Hs1|done|done|exact Hf|]. held_simpl.
      by rewrite !got_ok by (unfold NULL; lia). }
    intros [e2 h2 t2] _ _ Hs2. win_run. apply HQ. left. split; [done|]. by exists x.
Qed.

Lemma wp_duplicate_pipe md pipe s0 ps hs s Q :
  win_pipe_ok (hp s0) pipe -> pipe <> NULL ->
  holding s0 ps hs s -> (forall r s', stream_held s0 ps hs r s' -> Q r s') ->
  wp md (x_process_duplicate_pipe_for_child pipe true) Q s.
Proof.
  intros [?|[x Hx]] Hn Hs HQ; [done|]. unfold x_process_duplicate_pipe_for_child, process_error.
  apply Z.eqb_neq in Hn as ->. cbn [negb orb].
  destruct s as [e h t]. pose proof (holding_lookup _ _ _ _ _ _ Hs Hx) as Hl. cbn [hp] in Hl.
  win_step. eapply wp_load; [exact Hl|]. win_step. win_step.
  destruct r as [ok y]. cbn [fst snd] in *. destruct Hpost as [[-> He]|(-> & Hy & Hf)]; win_run.
  - apply HQ. right. split; [by apply x_process_error_pos|]. eapply (holding_event _ _ _ e); [exact Hs|]. by held_simpl.
  - apply HQ. left. split; [done|]. exists y. split; [done|].
    eapply holding_handle; [exact Hs|done|done|exact Hf|]. held_simpl.
    by rewrite !got_ok by (unfold NULL; lia).
Qed.

Lemma wp_redirect_stream md path pipe access disposition s0 ps hs s Q :
  win_pipe_ok (hp s0) pipe ->
  holding s0 ps hs s -> (forall r s', stream_held s0 ps hs r s' -> Q r s') ->
  wp md (redirect_stream path pipe access disposition) Q s.
Proof.
  intros Hp Hs HQ. unfold redirect_stream. destruct path as [path|]; cbn [is_null negb].
  - by eapply wp_open_redirect.
  - destruct (Z.eqb_spec pipe NULL); cbn [negb]; [|by eapply wp_duplicate_pipe].
    apply wp_ret, HQ. left. split; [done|]. exists NULL. split; [done|]. by apply holding_null_handle.
Qed.

(** ** Processes *)

#[export] Program Instance win_process_handle : Handle win_process := {|
  h_res _ p := got KHandle NULL (wpr_process p) ∪ got KHandle NULL (wpr_thread p);
  h_close := x_process_destroy |}.
Next Obligation. done. Qed.
Next Obligation.
  intros md p [waited code process thread] e h t Q Hp Hn HQ. unfold x_process_destroy, close_handle in *.
  apply Z.eqb_neq in Hn as En. rewrite En. cbn [wpr_process wpr_thread] in *. win_step. win_step.
  cbn [wpr_process wpr_thread]. destruct (Z.eqb_spec process NULL), (Z.eqb_spec thread NULL);
    cbn [negb]; win_run; apply HQ; cbn [held acquires releases win32_acquires win32_releases];
    subst; rewrite ?got_bad, ?got_ok, ?res_diff_empty, ?res_union_empty by done;
    apply set_eq; clear; set_solver.
Qed.

(** What the child was started with. *)
Definition child_started (path : text) (arguments : option (list text)) (o : x_process_options)
    (t : list ev) : Prop :=
  exists line block directory startup process,
    Ev (W (CreateProcessW line (redirected (op_stdin_path o) (op_stdin_pipe o)
             || redirected (op_stdout_path o) (op_stdout_pipe o)
             || redirected (op_stderr_path o) (op_stderr_pipe o))
             (if op_environment o then CREATE_UNICODE_ENVIRONMENT else 0) block directory startup))
       (true, process) ∈ t /\
    utf16 (command_line path (default [] arguments)) = Some line /\
    match op_environment o with
    | Some env => exists ws, converted env ws /\ block = Some (block_of ws)
    | None => block = None
    end /\
    match op_working_directory o with
    | Some d => exists w, utf16 d = Some w /\ directory = Some w
    | None => directory = None
    end.

Lemma wp_std_handle md x number s0 ps hs s Q :
  holding s0 ps hs s -> (forall r s', holding s0 ps hs s' -> Q r s') -> wp md (std_handle x number) Q s.
Proof.
  intros Hs HQ. unfold std_handle. destruct (x =? NULL); cbn [negb]; [|by apply wp_ret, HQ].
  eapply wp_holding_win; [done|exact Hs|]. intros. by apply HQ.
Qed.

Ltac give_back :=
  lazymatch goal with
  | Hs : holding _ ((?p, _) :: _) _ ?s |- wp _ (free ?p) _ ?s =>
      eapply wp_holding_free; [exact Hs|]; clear Hs; intros ? _ ? Hs
  | Hs : holding _ _ (?x :: _) ?s |- wp _ (close_handle ?x) _ ?s =>
      eapply wp_holding_close; [exact Hs|]; clear Hs; intros ? ? Hs
  | |- wp _ (mbind _ _) _ _ => apply wp_bind
  | |- wp _ (mret _) _ _ => apply wp_ret
  end; cbn beta iota.

Section Create.
Variables (path : text) (arguments : option (list text)) (o : x_process_options) (md : wpmode) (s0 : st).
Variables (created command working environment : ptr) (line directory : wtext) (ws : list wtext).
Variables (hin hout herr : Z).

(** The prepared arguments. *)
Definition prepared : list block :=
  [(environment, to_obj (Wide (block_of ws))); (working, to_obj (Wide (directory ++ [0])));
   (command, to_obj (Wide (line ++ [0]))); (created, to_obj (WinProcess false 0 NULL NULL))].

Record prepared_ok := PreparedOk {
  pp_created : 0 < created;
  pp_command : 0 < command /\ 0 ∉ line /\ utf16 (command_line path (default [] arguments)) = Some line;
  pp_working : match op_working_directory o with
               | Some d => 0 < working /\ 0 ∉ directory /\ utf16 d = Some directory
               | None => working = NULL end;
  pp_environment : match op_environment o with
                   | Some env => 0 < environment /\ converted env ws
                   | None => environment = NULL end
}.

Definition start_post (r : Z * option ptr) (s : st) : Prop :=
  constructor_post (fun p : win_process => wpr_waited p = false /\ 0 < wpr_process p /\ 0 < wpr_thread p) s0 r s /\
  (r.1 = 0 -> child_started path arguments o (tr s)).

Lemma start_post_failed rc s : holding s0 [] [] s -> 0 < rc -> start_post (rc, Some NULL) s.
Proof. intros Hs Hrc. split; [apply holding_failed; auto|]. cbn. lia. Qed.

Lemma wp_load_block md' hs s Q :
  prepared_ok -> holding s0 prepared hs s ->
  (forall block, match op_environment o with
                 | Some env => exists ws, converted env ws /\ block = Some (block_of ws)
                 | None => block = None end -> Q block s) ->
  wp md' (load_block environment) Q s.
Proof.
  intros [_ _ _ He] Hs HQ. unfold load_block. destruct (op_environment o) as [env|].
  - destruct He as [Hp Hc]. destruct (Z.eqb_spec environment NULL); [unfold NULL in *; lia|].
    destruct s as [e h t]. apply wp_bind. eapply wp_load.
    { exact (proj1 (holding_update _ [] _ _ (to_obj (Wide [])) _ _ _ Hs Hp)). }
    apply wp_ret, HQ. by exists ws.
  - rewrite He. by apply wp_ret, HQ.
Qed.

Lemma wp_load_directory md' hs s Q :
  prepared_ok -> holding s0 prepared hs s ->
  (forall dir, match op_working_directory o with
               | Some d => exists w, utf16 d = Some w /\ dir = Some w
               | None => dir = None end -> Q dir s) ->
  wp md' (load_optional working) Q s.
Proof.
  intros [_ _ Hw _] Hs HQ. unfold load_optional. destruct (op_working_directory o) as [d|].
  - destruct Hw as (Hp & Hn & Hu). destruct (Z.eqb_spec working NULL); [unfold NULL in *; lia|].
    apply wp_bind. eapply (wp_holding_load_wide _ _ [_]); [exact Hs|done|done|].
    apply wp_ret, HQ. by exists directory.
  - rewrite Hw. by apply wp_ret, HQ.
Qed.

(** The startup information, with the standard handle for each stream left alone. *)
Lemma wp_startup (inherit : bool) (K : startup_info -> st -> Prop) s :
  holding s0 prepared [hin; hout; herr] s ->
  (forall su s', holding s0 prepared [hin; hout; herr] s' -> K su s') ->
  wp md (if inherit then
            input ← std_handle hin STD_INPUT_HANDLE;
            output ← std_handle hout STD_OUTPUT_HANDLE;
            error ← std_handle herr STD_ERROR_HANDLE;
            mret (StartupInfo true input output error)
          else mret (StartupInfo false NULL NULL NULL)) K s.
Proof.
  intros Hs HK. destruct inherit; [|by apply wp_ret, HK].
  apply wp_bind. eapply wp_std_handle; [exact Hs|]. intros x1 s1 Hs1.
  apply wp_bind. eapply wp_std_handle; [exact Hs1|]. intros x2 s2 Hs2.
  apply wp_bind. eapply wp_std_handle; [exact Hs2|]. intros x3 s3 Hs3. by apply wp_ret, HK.
Qed.

Lemma wp_create_process s :
  prepared_ok -> holding s0 prepared [hin; hout; herr] s ->
  wp md (create_process created command working environment
           (redirected (op_stdin_path o) (op_stdin_pipe o)
            || redirected (op_stdout_path o) (op_stdout_pipe o)
            || redirected (op_stderr_path o) (op_stderr_pipe o)) hin hout herr) start_post s.
Proof.
  intros Hpre Hs. unfold create_process. set (inherit := (_ || _)). apply wp_bind.
  apply (wp_startup inherit); [exact Hs|]. clear s Hs. intros startup s Hs.
  pose proof (pp_command Hpre) as (Hc & Hl & Hu). apply wp_bind.
  eapply (wp_holding_load_wide _ _ [_; _]); [exact Hs|done|done|].
  apply wp_bind. eapply wp_load_block; [done|exact Hs|]. intros block Hblock.
  apply wp_bind. eapply wp_load_directory; [done|exact Hs|]. intros dir Hdir.
  assert ((if negb (environment =? NULL) then CREATE_UNICODE_ENVIRONMENT else 0) =
    if op_environment o then CREATE_UNICODE_ENVIRONMENT else 0) as ->.
  { pose proof (pp_environment Hpre) as He. destruct (op_environment o); [|by rewrite He].
    destruct He as [He _]. destruct (Z.eqb_spec environment NULL); [unfold NULL in *; lia|done]. }
  destruct s as [e h t]. apply wp_bind, wp_win. intros [ok [hpr hth]] e' Hpost _.
  cbn [win32_post fst snd] in *. destruct Hpost as [[-> He]|(-> & Hpr & Hth & Hne & Hf1 & Hf2)]; cbn [negb].
  - unfold process_error. win_step. win_step. win_step. win_step.
    assert (holding s0 prepared [hin; hout; herr] (St e' h (Ev (W (CreateProcessW line inherit
      (if op_environment o then CREATE_UNICODE_ENVIRONMENT else 0) block dir startup)) (false, (hpr, hth)) :: t))) as Hs'.
    { eapply (holding_event _ _ _ e); [exact Hs|]. by held_simpl. }
    clear Hs. unfold prepared in Hs'. rename Hs' into Hs. repeat give_back.
    apply start_post_failed; [done|by apply x_process_error_pos].
  - win_step.
    assert (holding s0 prepared ([hin; hout; herr] ++ [hpr; hth]) (St e' h (Ev (W (CreateProcessW line inherit
      (if op_environment o then CREATE_UNICODE_ENVIRONMENT else 0) block dir startup)) (true, (hpr, hth)) :: t))) as Hs'.
    { eapply holding_two_handles; [exact Hs|done..|]. held_simpl. done. }
    destruct (holding_update _ [_; _; _] created _ (to_obj (WinProcess false 0 hpr hth)) [] _ _ Hs' (pp_created Hpre))
      as [Hl2 Hupd]. eapply (wp_modify _ _ (WinProcess false 0 NULL NULL)); [exact Hl2|].
    specialize (Hupd e' _ (inert_ext_refl _)). cbn [app hp tr fst snd wpr_waited wpr_exit_code] in *.
    clear Hs Hs' Hl2. rename Hupd into Hs.
    assert (child_started path arguments o (Ev (W (CreateProcessW line inherit
      (if op_environment o then CREATE_UNICODE_ENVIRONMENT else 0) block dir startup)) (true, (hpr, hth)) :: t)) as Hch.
    { exists line, block, dir, startup, (hpr, hth). split; [apply list_elem_of_here|]. by split_and!. }
    repeat give_back. split.
    + eapply holding_made; [exact Hs|exact (pp_created Hpre)| |by split_and!].
      cbn. apply set_eq. set_solver.
    + intros _. destruct Hch as (l & b & d & su & pr & Hin & Hrest). exists l, b, d, su, pr.
      split; [|done]. cbn [tr] in *. by repeat match goal with H : _ ⊆ tr ?s |- _ ∈ tr ?s => apply H end.
Qed.
End Create.

(** ** Starting *)

Definition win_options_ok h (o : x_process_options) : Prop :=
  win_pipe_ok h (op_stdin_pipe o) /\ win_pipe_ok h (op_stdout_pipe o) /\ win_pipe_ok h (op_stderr_pipe o) /\
  match op_environment o with Some env => environment_small env | None => True end.

Lemma wp_redirect_and_create md path arguments o s0 created command working environment line directory ws s :
  win_options_ok (hp s0) o ->
  prepared_ok path arguments o created command working environment line directory ws ->
  holding s0 (prepared created command working environment line directory ws) [] s ->
  wp md (redirect_and_create created command working environment o) (start_post path arguments o s0) s.
Proof.
  intros (Hp1 & Hp2 & Hp3 & _) Hpre Hs. unfold redirect_and_create.
  apply wp_bind. eapply wp_redirect_stream; [done|exact Hs|]. clear s Hs.
  intros [rc1 out1] s [(-> & x & -> & Hs)|[Hrc Hs]]; cbn [fst snd] in *.
  2: { destruct (Z.eqb_spec rc1 0); [lia|]. cbn [negb]. unfold prepared in Hs.
       repeat give_back. by apply start_post_failed. }
  cbn [Z.eqb negb default from_option id app] in *.
  apply wp_bind. eapply wp_redirect_stream; [done|exact Hs|]. clear s Hs.
  intros [rc2 out2] s [(-> & y & -> & Hs)|[Hrc Hs]]; cbn [fst snd] in *.
  2: { destruct (Z.eqb_spec rc2 0); [lia|]. cbn [negb]. unfold prepared in Hs.
       repeat give_back. by apply start_post_failed. }
  cbn [Z.eqb negb default from_option id app] in *.
  apply wp_bind. eapply wp_redirect_stream; [done|exact Hs|]. clear s Hs.
  intros [rc3 out3] s [(-> & z & -> & Hs)|[Hrc Hs]]; cbn [fst snd] in *.
  2: { destruct (Z.eqb_spec rc3 0); [lia|]. cbn [negb]. unfold prepared in Hs.
       repeat give_back. by apply start_post_failed. }
  cbn [Z.eqb negb default from_option id app] in *. by eapply wp_create_process.
Qed.

Definition line_fits (path : text) (arguments : option (list text)) : Prop :=
  nul_free path /\ Forall nul_free (default [] arguments) /\
  strlen (command_line path (default [] arguments)) + Z.of_nat (length (default [] arguments)) < 2 ^ 63.

(** The command line, with its own buffer gone. *)
Lemma wp_command_line md path arguments s0 ps hs s Q :
  line_fits path arguments -> holding s0 ps hs s ->
  (forall r s', wide_held (command_line path (default [] arguments)) s0 ps hs r s' -> Q r s') ->
  wp md (x_process_build_command_line (fun line => x_process_utf8_to_wide (Some line) true)
           (Some path) arguments true) Q s.
Proof.
  intros (H1 & H2 & H3) Hs HQ. destruct s as [e h t].
  apply wp_build_command_line; [done..| |].
  - intros e' t' Ht. apply HQ. right. split; [done|]. by apply (holding_inert _ _ _ _ _ _ Hs).
  - intros p o e' t' Hp Hn Ht.
    pose proof (holding_block _ _ _ _ p o e' t' Hs Ht Hp Hn) as Hs1. cbn [hp] in Hs1.
    apply wp_bind. unfold x_process_utf8_to_wide.
    eapply wp_holding_convert; [exact x_process_error_pos|exact Hs1|]. clear Hs Hs1.
    intros r s [(Hr & q & w & Ho & Hu & Hw & Hq & Hs)|[Hr Hs]]; apply wp_bind.
    + apply holding_swap in Hs; [|done..]. eapply wp_holding_free; [exact Hs|]. intros s' _ _ Hs'.
      apply wp_ret, HQ. left. split; [done|]. exists q, w. by split_and!.
    + eapply wp_holding_free; [exact Hs|]. intros s' _ _ Hs'. apply wp_ret, HQ. by right.
Qed.

Lemma start_refused path arguments o s0 rc out :
  0 < rc -> out = None \/ out = Some NULL -> start_post path arguments o s0 (rc, out) s0.
Proof. intros. split; [by apply holding_failed; [apply holding_refl|..]|cbn; lia]. Qed.

Lemma wp_win_process_start md path arguments options s :
  let o := default zero_process_options options in
  line_fits path arguments -> win_options_ok (hp s) o ->
  wp md (x_process_start true (Some path) arguments options) (start_post path arguments o s) s.
Proof.
  intros o Hfit Hopt. unfold x_process_start. cbn [negb is_null orb].
  match goal with |- wp _ (if ?b then _ else _) _ _ => destruct b end.
  { apply wp_ret. by apply start_refused; [|left]. }
  fold o. apply wp_bind. eapply wp_holding_calloc; [apply holding_refl|..].
  { intros s1 Hs. cbn [Z.eqb]. apply wp_ret. by apply start_post_failed. }
  intros created s1 Hcr Hs. destruct (Z.eqb_spec created NULL); [unfold NULL in *; lia|].
  apply wp_bind. eapply wp_command_line; [done|exact Hs|]. clear s1 Hs.
  intros [rc out] s1 [(Hr & command & line & Ho & Hu & Hl & Hc & Hs)|[Hr Hs]]; cbn [fst snd] in *.
  2: { destruct (Z.eqb_spec rc 0); [lia|]. cbn [negb]. repeat give_back. by apply start_post_failed. }
  rewrite Hr, Ho. cbn [Z.eqb negb default from_option id]. clear rc out Hr Ho.
  assert (forall K : Z * option ptr -> st -> Prop,
    (forall working directory s', 
       match op_working_directory o with
       | Some d => 0 < working /\ 0 ∉ directory /\ utf16 d = Some directory
       | None => working = NULL end ->
       holding s [(working, to_obj (Wide (directory ++ [0]))); (command, to_obj (Wide (line ++ [0])));
          (created, to_obj (WinProcess false 0 NULL NULL))] [] s' -> K (0, Some working) s') ->
    (forall rc out s', 0 < rc -> holding s [(command, to_obj (Wide (line ++ [0])));
          (created, to_obj (WinProcess false 0 NULL NULL))] [] s' -> K (rc, out) s') ->
    wp md (if negb (is_null (op_working_directory o))
           then x_process_utf8_to_wide (op_working_directory o) true else mret (0, Some NULL)) K s1) as Hdir.
  { intros K HK HK'. destruct (op_working_directory o) as [d|]; cbn [is_null negb].
    - eapply wp_holding_convert; [exact x_process_error_pos|exact Hs|].
      intros [rc out] s2 [(Hr & q & w & Ho & Hu2 & Hw & Hq & Hs2)|[Hr Hs2]]; [|by apply HK'].
      cbn [fst snd] in *. subst rc out. eapply HK; [|exact Hs2]. by split_and!.
    - apply wp_ret. eapply (HK NULL []); [done|]. by apply holding_null_block. }
  apply wp_bind, Hdir; clear Hdir.
  2: { intros rc out s2 Hrc Hs2. cbn [fst snd]. destruct (Z.eqb_spec rc 0); [lia|]. cbn [negb]. clear Hs.
       repeat give_back. by apply start_post_failed. }
  clear s1 Hs. intros working directory s1 Hdir Hs. cbn [fst snd Z.eqb negb default from_option id].
  apply wp_bind. eapply wp_build_environment_block; [exact Hs|apply Hopt|]. clear s1 Hs.
  intros [rc out] s1 [(Hr & environment & ws & Ho & Hnone & Hsome & Hs)|[Hr Hs]]; cbn [fst snd] in *.
  2: { destruct (Z.eqb_spec rc 0); [lia|]. cbn [negb]. repeat give_back. by apply start_post_failed. }
  subst rc out. cbn [Z.eqb negb default from_option id].
  eapply wp_redirect_and_create; [done| |exact Hs]. split; [done|by split_and!|done|].
  destruct (op_environment o) as [env|]; [by apply Hsome|by apply Hnone].
Qed.

(** ** Theorems *)


(** ** Waiting *)

(** The process of a [win_process] after its exit code arrived. *)
Definition exited (code : Z) (p : win_process) : win_process :=
  WinProcess true (int_of code) (wpr_process p) (wpr_thread p).

Lemma wp_win_process_wait md process (p : win_process) e h t Q :
  h !! process = Some (to_obj p) -> process <> NULL ->
  (forall rc e' t', 0 < rc -> wpr_waited p = false -> Q (rc, None) (St e' h t')) ->
  (forall p' e' t', p' = p /\ wpr_waited p = true \/ (wpr_waited p = false /\ exists code, p' = exited code p) ->
     Q (0, Some (wpr_exit_code p')) (St e' (<[process := to_obj p']> h) t')) ->
  wp md (x_process_wait process true) Q (St e h t).
Proof.
  intros Hp Hn HQ1 HQ2. unfold x_process_wait, process_error. apply Z.eqb_neq in Hn as ->.
  win_step. win_step. win_step. destruct (wpr_waited p) eqn:Hw; cbn [negb].
  - win_run. rewrite <- (insert_id h process (to_obj p) Hp). by apply HQ2; left.
  - win_step. win_step. win_step.
    { assert (0 < e0) as He by (unfold WAIT_OBJECT_0, WAIT_TIMEOUT in *; intuition congruence).
      pose proof (x_process_error_pos _ He). win_run; by apply HQ1. }
    win_step. win_step. destruct Hpost0 as [Hok _]. win_step.
    { assert (0 < e1) as He by (posts; congruence || lia). pose proof (x_process_error_pos _ He).
      win_run; by apply HQ1. }
    win_run. rewrite insert_insert_eq. apply HQ2. right. split; [done|]. by exists r0.2.
Qed.

(** Waiting on Windows: once a wait has succeeded, waiting and polling again
    return the same code, and make no call; a failed wait changes nothing. *)
Theorem win_process_wait_idempotent process (p : win_process) s :
  hp s !! process = Some (to_obj p) -> process <> NULL ->
  wp Total (x_process_wait process true)
    (fun r s' => (0 < r.1 /\ r.2 = None /\ hp s' = hp s) \/
       (r.1 = 0 /\ exists code, r.2 = Some code /\ (wpr_waited p = true -> code = wpr_exit_code p) /\
        x_process_wait process true s' = Done (0, Some code) s' /\
        x_process_poll process true true s' = Done (0, Some true, Some code) s')) s.
Proof.
  destruct s as [e h t]. cbn [hp]. intros Hp Hn. eapply wp_win_process_wait; [done|done|..].
  - intros rc e' t' Hrc _. by left.
  - intros p' e' t' Hp'. right. split; [done|]. exists (wpr_exit_code p'). split; [done|].
    assert (wpr_waited p' = true) as Hw by (destruct Hp' as [[-> ?]|(_ & code & ->)]; done).
    split; [intros Hw'; destruct Hp' as [[-> ?]|(? & _)]; congruence|].
    unfold x_process_wait, x_process_poll. apply Z.eqb_neq in Hn as ->. cbn [negb orb].
    split; (erewrite bind_done by (apply load_done; cbn [hp]; apply lookup_insert_eq)); rewrite Hw; [|done].
    cbn [negb]. erewrite bind_done by done. cbn [negb Z.eqb].
    by erewrite bind_done by (apply load_done; cbn [hp]; apply lookup_insert_eq).
Qed.

(** ** Pipes *)

Lemma wp_win_pipe_create md s Q :
  (forall rc s', 0 < rc -> holding s [] [] s' -> Q (rc, Some (NULL, NULL)) s') ->
  (forall pr pw hr hw s', 0 < pr -> 0 < pw -> 0 < hr -> 0 < hw ->
     holding s [(pw, to_obj (WinPipe hw)); (pr, to_obj (WinPipe hr))] [hr; hw] s' ->
     Q (0, Some (pr, pw)) s') ->
  wp md (x_pipe_create true true) Q s.
Proof.
  intros HQ1 HQ2. unfold x_pipe_create, process_error. cbn [negb orb].
  apply wp_bind. eapply wp_holding_calloc; [apply holding_refl|..].
  { intros s1 Hs. apply wp_bind. eapply wp_holding_calloc; [exact Hs|..]; clear s1 Hs.
    - intros s1 Hs. cbn [Z.eqb orb]. apply wp_bind, wp_free_null, wp_bind, wp_free_null. by apply wp_ret, HQ1.
    - intros p s1 _ Hs. cbn [Z.eqb orb]. apply wp_bind, wp_free_null. repeat give_back. by apply HQ1. }
  intros pr s1 Hpr Hs. apply wp_bind. eapply wp_holding_calloc; [exact Hs|..]; clear s1 Hs.
  { intros s1 Hs. rewrite orb_true_r. repeat give_back. apply wp_free_null. apply wp_ret. by apply HQ1. }
  intros pw s1 Hpw Hs.
  rewrite (proj2 (Z.eqb_neq pr NULL)), (proj2 (Z.eqb_neq pw NULL)) by (unfold NULL; lia). cbn [orb].
  destruct s1 as [e h t]. apply wp_bind, wp_win. intros [ok [hr hw]] e' Hpost _.
  cbn [win32_post fst snd] in *. destruct Hpost as [[-> He]|(-> & Hr & Hw & Hne & Hf1 & Hf2)]; cbn [negb].
  - win_step. win_step. win_step. win_step.
    apply holding_swap in Hs; [|done..].
    assert (holding s [(pr, to_obj (WinPipe NULL)); (pw, to_obj (WinPipe NULL))] []
      (St e' h (Ev (W (CreatePipe false)) (false, (hr, hw)) :: t))) as Hs'.
    { eapply (holding_event _ _ _ e); [exact Hs|]. by held_simpl. }
    clear Hs. rename Hs' into Hs. repeat give_back. apply HQ1; [by apply x_process_error_pos|done].
  - assert (holding s [(pw, to_obj (WinPipe NULL)); (pr, to_obj (WinPipe NULL))] ([] ++ [hr; hw])
      (St e' h (Ev (W (CreatePipe false)) (true, (hr, hw)) :: t))) as Hs'.
    { eapply holding_two_handles; [exact Hs|done..|]. by held_simpl. }
    destruct (holding_update _ [_] pr _ (to_obj (WinPipe hr)) [] _ _ Hs' Hpr) as [Hl Hu].
    specialize (Hu e' _ (inert_ext_refl _)). cbn [app hp tr] in *.
    apply wp_bind. eapply (wp_store _ _ (WinPipe NULL)); [exact Hl|].
    destruct (holding_update _ [] pw _ (to_obj (WinPipe hw)) _ _ _ Hu Hpw) as [Hl2 Hu2].
    specialize (Hu2 e' _ (inert_ext_refl _)). cbn [app hp tr] in *.
    apply wp_bind. eapply (wp_store _ _ (WinPipe NULL)); [exact Hl2|]. apply wp_ret. by apply (HQ2 pr pw hr hw).
Qed.

Lemma wp_win_pipe_close md p x ps hs s0 s (Q : unit -> st -> Prop) :
  0 < p -> holding s0 ((p, to_obj (WinPipe x)) :: ps) (x :: hs) s ->
  (forall s', holding s0 ps hs s' -> Q tt s') -> wp md (x_pipe_close p) Q s.
Proof.
  intros Hp Hs HQ. unfold x_pipe_close. destruct (Z.eqb_spec p NULL); [unfold NULL in *; lia|].
  destruct s as [e h t]. apply wp_bind. eapply wp_load.
  { exact (proj1 (holding_update _ [] _ _ (to_obj (WinPipe 0)) _ _ _ Hs Hp)). }
  cbn [wpi_handle]. repeat give_back. by apply HQ.
Qed.

(** Making a pipe and closing both ends when it was made. *)
Definition pipe_bracket : M Z :=
  r ← x_pipe_create true true;
  let ends := default (NULL, NULL) r.2 in
  (if r.1 =? 0 then x_pipe_close ends.1;; x_pipe_close ends.2 else mret tt);;
  mret r.1.

(** Making a pipe and closing its ends gives everything back, also when memory
    for only one of the two structures is left. *)
Theorem win_pipe_lifecycle s :
  wp Total pipe_bracket (fun _ s' => hp s' = hp s /\ held (tr s') = held (tr s)) s.
Proof.
  unfold pipe_bracket. apply wp_bind, wp_win_pipe_create.
  - intros rc s' Hrc Hs. cbn [fst snd]. destruct (Z.eqb_spec rc 0); [lia|].
    apply wp_bind, wp_ret, wp_ret. by apply holding_done.
  - intros pr pw hr hw s' Hpr Hpw Hhr Hhw Hs. cbn [fst snd Z.eqb default from_option id].
    apply holding_swap in Hs; [|done..]. apply wp_bind, wp_bind.
    eapply wp_win_pipe_close; [done|exact Hs|]. clear s' Hs. intros s' Hs.
    eapply wp_win_pipe_close; [done|exact Hs|]. clear s' Hs. intros s' Hs.
    apply wp_ret. by apply holding_done.
Qed.

(** ** The environment *)

Ltac in_trace :=
  cbn [tr] in *; repeat match goal with H : _ ⊆ tr ?s |- _ ∈ tr ?s => apply H end; first [assumption|apply list_elem_of_here].

Definition set_post (name value : text) (s : st) (rc : Z) (s' : st) : Prop :=
  0 <= rc /\ hp s' = hp s /\ held (tr s') = held (tr s) /\
  (rc = 0 -> exists wn wv, utf16 name = Some wn /\ utf16 value = Some wv /\
     Ev (W (SetEnvironmentVariableW wn (Some wv))) true ∈ tr s').

Definition unset_post (name : text) (s : st) (rc : Z) (s' : st) : Prop :=
  0 <= rc /\ hp s' = hp s /\ held (tr s') = held (tr s) /\
  (rc = 0 -> exists wn ok, utf16 name = Some wn /\
     Ev (W (SetEnvironmentVariableW wn None)) ok ∈ tr s' /\
     (ok = true \/ errno s' = ERROR_ENVVAR_NOT_FOUND)).

Lemma wp_environment_set name value s :
  wp Total (x_environment_set (Some name) (Some value)) (set_post name value s) s.
Proof.
  unfold x_environment_set, process_error. cbn [is_null orb].
  apply wp_bind. eapply wp_holding_convert; [exact x_process_error_pos|apply holding_refl|].
  intros [rc1 out1] s1 [(Hr & q & wn & Ho & Hu & Hw & Hq & Hs)|[Hr Hs]]; cbn [fst snd] in *.
  2: { destruct (Z.eqb_spec rc1 0); [lia|]. apply wp_ret. pose proof (holding_done _ _ Hs). unfold set_post, unset_post. intuition lia. }
  subst rc1 out1. cbn [Z.eqb negb default from_option id].
  apply wp_bind. eapply wp_holding_convert; [exact x_process_error_pos|exact Hs|]. clear s1 Hs.
  intros [rc2 out2] s1 [(Hr & q2 & wv & Ho & Hu2 & Hw2 & Hq2 & Hs)|[Hr Hs]]; cbn [fst snd] in *.
  2: { destruct (Z.eqb_spec rc2 0); [lia|]. cbn [negb]. repeat give_back. 
       pose proof (holding_done _ _ Hs). unfold set_post, unset_post. intuition lia. }
  subst rc2 out2. cbn [Z.eqb negb default from_option id].
  apply wp_bind. eapply (wp_holding_load_wide _ _ [_]); [exact Hs|done|done|].
  apply wp_bind. eapply (wp_holding_load_wide _ _ []); [exact Hs|done|done|].
  apply wp_bind. eapply wp_holding_win; [done|exact Hs|]. intros ok e' s2 He Hpost Hin _ Hs2.
  clear Hs. rename Hs2 into Hs. cbn [win32_post] in Hpost. destruct ok; cbn [negb].
  + repeat give_back. apply holding_done in Hs as [Hh Ht]. split; [done|]. split_and!; [done..|].
    intros _. exists wn, wv. split_and!; [done..|]. in_trace.
  + destruct s2 as [e1 h1 t1]. cbn [errno] in He. subst e1. win_step. win_step. win_step. win_step.
    repeat give_back. apply holding_done in Hs as [Hh Ht]. destruct Hpost as [?|[_ He]]; [done|].
    pose proof (x_process_error_pos _ He). split_and!; [lia|done..|lia].
Qed.

Lemma wp_environment_unset name s :
  wp Total (x_environment_unset (Some name)) (unset_post name s) s.
Proof.
  unfold x_environment_unset. cbn [is_null].
  apply wp_bind. eapply wp_holding_convert; [exact x_process_error_pos|apply holding_refl|].
  intros [rc1 out1] s1 [(Hr & q & wn & Ho & Hu & Hw & Hq & Hs)|[Hr Hs]]; cbn [fst snd] in *.
  2: { destruct (Z.eqb_spec rc1 0); [lia|]. apply wp_ret. pose proof (holding_done _ _ Hs). unfold set_post, unset_post. intuition lia. }
  subst rc1 out1. cbn [Z.eqb negb default from_option id].
  apply wp_bind. eapply (wp_holding_load_wide _ _ []); [exact Hs|done|done|].
  apply wp_bind. eapply wp_holding_win; [done|exact Hs|]. intros ok e' s2 He Hpost Hin _ Hs2.
  clear Hs. rename Hs2 into Hs. cbn [win32_post] in Hpost. destruct ok; cbn [negb].
  + repeat give_back. apply holding_done in Hs as [Hh Ht]. split; [done|]. split_and!; [done..|].
    intros _. exists wn, true. split_and!; [done| |by left]. in_trace.
  + destruct s2 as [e1 h1 t1]. cbn [errno] in He. subst e1. win_step. win_step. apply wp_bind.
    eapply wp_holding_free; [exact Hs|]. clear Hs. intros s3 He2 Hsub Hs. apply wp_ret.
    cbn [errno] in He2.
    apply holding_done in Hs as [Hh Ht]. destruct Hpost as [?|[_ He]]; [done|].
    pose proof (x_process_error_pos _ He). destruct (Z.eqb_spec e' ERROR_ENVVAR_NOT_FOUND); (split; [lia|]).
    * split_and!; [done..|]. intros _. exists wn, false. split_and!; [done| |right; congruence]. in_trace.
    * split_and!; [done..|lia].
Qed.

(** Setting and removing a variable on Windows: the converted strings are given
    back on every path, and a success means that the variable was set to the
    converted value, or was removed, or was not there. *)
Theorem win_environment_set_spec name value s :
  wp Total (x_environment_set (Some name) (Some value)) (set_post name value s) s /\
  wp Total (x_environment_unset (Some name)) (unset_post name s) s.
Proof. split; [apply wp_environment_set|apply wp_environment_unset]. Qed.

(** What reading a variable may answer. *)
Definition get_post (name : text) (buffer_size : Z) (s : st) (r : Z * cstr) (s' : st) : Prop :=
  0 <= r.1 /\ hp s' = hp s /\ held (tr s') = held (tr s) /\
  (forall v, r.2 = Some v -> r.1 = 0 /\ strlen v < buffer_size /\ NUL ∉ v /\
     exists wn n stored w, utf16 name = Some wn /\
       Ev (W (GetEnvironmentVariableW wn n)) (stored, w) ∈ tr s' /\
       (stored < n -> utf8 w = Some v)) /\
  (r.1 = 0 -> r.2 = None -> exists wn n w, 0 < n /\
     Ev (W (GetEnvironmentVariableW wn n)) (0, w) ∈ tr s').

Lemma get_failed name buffer_size s rc s' :
  0 < rc -> holding s [] [] s' -> get_post name buffer_size s (rc, None) s'.
Proof. intros Hrc Hs. apply holding_done in Hs as [? ?]. split; cbn; [lia|]. split_and!; try done; lia. Qed.

(** The last part: the value converted into the caller's buffer. *)
Lemma wp_store_value md buffer_size p b q o s0 s Q :
  0 < buffer_size <= INT_MAX -> 0 < p -> holding s0 [(p, to_obj (Wide b)); (q, o)] [] s ->
  (forall rc s', 0 < rc -> holding s0 [] [] s' -> Q (rc, None) s') ->
  (forall u s', utf8 (wcs b) = Some u -> strlen u < buffer_size -> tr s ⊆ tr s' -> holding s0 [] [] s' ->
     Q (0, Some u) s') ->
  wp md (value ← load_wide p;
         r ← win (WideCharToMultiByte value (int_of buffer_size));
         free p;; free q;;
         if r.1 =? 0 then
           last ← GetLastError;
           mret (if last =? ERROR_INSUFFICIENT_BUFFER then ENAMETOOLONG
                 else x_process_error_from_windows last, None)
         else mret (0, if bool_decide (r.2 = []) then None else Some (cstring r.2))) Q s.
Proof.
  intros Hsize Hp Hs HQ1 HQ2. destruct s as [e h t]. unfold load_wide. apply wp_bind, wp_bind.
  eapply wp_load; [exact (proj1 (holding_update _ [] _ _ (to_obj (Wide [])) _ _ _ Hs Hp))|].
  apply wp_ret. cbn [units].
  assert (int_of buffer_size = buffer_size) as ->
    by (unfold int_of, INT_MAX in *; rewrite Z.mod_small; lia).
  apply wp_bind. eapply wp_holding_win; [done|exact Hs|]. clear Hs. intros r e4 s4 He4 Hpost _ Hs4 Hs.
  cbn [win32_post] in Hpost. apply wp_bind. eapply wp_holding_free; [exact Hs|]. clear Hs. intros s5 He5 Hs5 Hs.
  apply wp_bind. eapply wp_holding_free; [exact Hs|]. clear Hs. intros s6 He6 Hs6 Hs.
  destruct (Z.eqb_spec r.1 0) as [Hr|Hr].
  - destruct Hpost as [[_ He]|(u & _ & Hl & _)]; [|lia]. destruct s6 as [e6 h6 t6]. win_step. win_step. win_step.
    apply HQ1; [|done]. cbn [errno] in *. pose proof (x_process_error_pos e4 He).
    destruct (_ =? ERROR_INSUFFICIENT_BUFFER); [done|congruence].
  - destruct Hpost as [[? _]|(u & Hu & Hl & _ & Hbuf)]; [done|].
    destruct (Z.eqb_spec buffer_size 0); [lia|]. destruct Hbuf as [Hle Hbuf]. apply wp_ret.
    rewrite Hbuf, bool_decide_eq_false_2 by by destruct u.
    rewrite cstring_terminated by by eapply utf8_nul.
    apply HQ2; [done|unfold strlen; lia| |done]. by etrans; [|etrans; [exact Hs5|exact Hs6]].
Qed.

(** C23. Reading a variable on Windows: nothing is left behind; what is stored fits
    the buffer and is the value in UTF-8.  A success that stores nothing is
    possible only for a variable whose value is empty. *)
Theorem win_environment_get_spec name buffer_size s :
  0 < buffer_size <= INT_MAX ->
  wp Total (x_environment_get (Some name) true buffer_size)
    (get_post name buffer_size s) s.
Proof.
  intros Hsize. unfold x_environment_get, process_error. cbn [is_null negb orb].
  destruct (Z.eqb_spec buffer_size 0); [lia|].
  apply wp_bind. eapply wp_holding_convert; [exact x_process_error_pos|apply holding_refl|].
  intros [rc1 out1] s1 [(Hr & q & wn & Ho & Hu & Hw & Hq & Hs)|[Hr Hs]]; cbn [fst snd] in *.
  2: { destruct (Z.eqb_spec rc1 0); [lia|]. apply wp_ret. by apply get_failed. }
  subst rc1 out1. cbn [Z.eqb negb default from_option id].
  apply wp_bind. eapply (wp_holding_load_wide _ _ []); [exact Hs|done|done|].
  apply wp_bind. eapply wp_holding_win; [done|exact Hs|]. intros required e' s2 He Hpost Hin _ Hs2.
  clear Hs. cbn [win32_post] in Hpost. destruct Hpost as (Hreq & Herr & _).
  destruct (Z.eqb_spec required.1 0) as [Hz|Hnz].
  { destruct s2 as [e1 h1 t1]. cbn [errno] in He. subst e1. win_step. win_step. rename Hs2 into Hs.
    repeat give_back. pose proof (x_process_error_pos e' (Herr eq_refl Hz)).
    apply get_failed; [destruct (_ =? ERROR_ENVVAR_NOT_FOUND); [done|lia]|done]. }
  apply wp_bind. eapply wp_holding_calloc; [exact Hs2|..]; clear s1 s2 Hin Hs2 He.
  { intros s1 Hs. rewrite Z.eqb_refl. repeat give_back. by apply get_failed. }
  intros p s1 Hp Hs. destruct (Z.eqb_spec p NULL); [unfold NULL in *; lia|].
  apply wp_bind. eapply wp_holding_win; [done|exact Hs|]. intros [stored w] e2 s2 He2 Hpost Hin _ Hs2.
  clear Hs. cbn [win32_post fst snd] in *. destruct Hpost as (Hst0 & _ & Hok).
  set (cap := required.1) in *. set (data := take (Z.to_nat (cap - 1)) w).
  assert (length data < Z.to_nat cap)%nat as Hdata by (unfold data; rewrite length_take; lia).
  apply wp_bind. eapply (holding_write _ _ [] data (Z.to_nat cap)); [exact Hs2|done|lia|].
  cbn [app]. intros s3 He3 Hsub Hs. specialize (Hsub _ Hin). clear Hin Hs2.
  destruct (Z.eqb_spec stored 0) as [->|Hst].
  { destruct s3 as [e1 h1 t1]. cbn [errno] in He3. rewrite He2 in He3. subst e1.
    win_step. win_step. win_step. win_step. repeat give_back. apply holding_done in Hs as [Hh Ht].
    split; [apply x_process_error_nonneg|]. split_and!; [done..|].
    intros _ _. exists wn, cap, w. split; [lia|]. in_trace. }
  eapply wp_store_value; [done|done|exact Hs|by apply get_failed|].
  intros u s' Hu' Hl Hs' Hdone. apply holding_done in Hdone as [Hh Ht].
  split; [done|]. split_and!; [done..| |done]. intros v [= <-]. split; [done|]. split; [done|].
  split; [by eapply utf8_nul|]. exists wn, cap, stored, w. split; [done|]. split; [by apply Hs'|].
  intros Hlt. destruct Hok as [Hlw H0]; [lia|]. rewrite <- Hu'. f_equal. unfold data. rewrite take_ge by lia.
  destruct (Z.to_nat cap - length w)%nat as [|k] eqn:E; [lia|]. cbn [replicate].
  by rewrite wcs_terminated_more.
Qed.
End Specs.

(** ** Examples *)

(** A variable with an empty value: the code is the stale last error, 0 here, and
    the buffer is not written. *)
Example win_environment_get_empty :
  match x_environment_get (os := calm_os) (Some (str "EMPTY")) true 16 st0 with
  | Done r _ => r = (0, None)
  | _ => False
  end.
Proof. by vm_compute. Qed.

Definition pipe_state : st := St 0 {[ 5 := to_obj (WinPipe 77) ]} [].
Definition piped : x_process_options :=
  XProcessOptions (Some (str "C:\")) (Some (str "in.txt")) None None (Some [str "A=1"; str "B=2"]) NULL 5 NULL.

Lemma piped_ok : win_options_ok (os := calm_os) (hp pipe_state) piped.
Proof.
  split; [by left|]. split; [right; by exists (WinPipe 77)|]. split; [by left|]. split; [by cbn|].
  intros ws Hws. inversion_clear Hws as [|? w1 ? ? H1 Hws2]. inversion_clear Hws2 as [|? w2 ? ? H2 Hws3].
  inversion_clear Hws3. vm_compute in H1, H2. simplify_eq. by cbn.
Qed.


Example win_process_started :
  match x_process_start (os := calm_os) true (Some (str "a.exe")) (Some [str "x y"]) (Some piped) pipe_state with
  | Done r s' => r = (0, Some 6) /\ elements (held (tr s')) = [(KHandle, 5); (KHandle, 6)]
  | _ => False
  end.
Proof. by vm_compute. Qed.

Definition exited_state : st := St 0 {[ 1 := to_obj (WinProcess false 0 7 8) ]} [].

Lemma win_process_wait_idempotent_witness :
  wp Total (x_process_wait (os := calm_os) 1 true)
    (fun r s' => (0 < r.1 /\ r.2 = None /\ hp s' = hp exited_state) \/
       (r.1 = 0 /\ exists code, r.2 = Some code /\ (false = true -> code = 0) /\
        x_process_wait (os := calm_os) 1 true s' = Done (0, Some code) s' /\
        x_process_poll (os := calm_os) 1 true true s' = Done (0, Some true, Some code) s')) exited_state.
Proof. by apply (win_process_wait_idempotent (os := calm_os) 1 (WinProcess false 0 7 8) exited_state). Defined.

Lemma win_environment_get_spec_witness :
  wp Total (x_environment_get (os := calm_os) (Some (str "A")) true 16)
    (get_post (os := calm_os) (str "A") 16 st0) st0.
Proof. by apply (win_environment_get_spec (os := calm_os) (str "A") 16 st0). Defined.

Lemma environment_block_roundtrip_witness :
  let environment := [str "A=1"; str "B="] in
  wp Total (x_process_build_environment_block (os := calm_os) (Some environment) true)
    (fun r s' => held (tr s') = held (tr st0) /\
       ((r.1 = 0 /\ exists p b ws,
           r.2 = Some p /\ hp st0 !! p = None /\ hp s' = <[p := to_obj (Wide b)]> (hp st0) /\
           converted (os := calm_os) environment ws /\ read_block b [] = ws) \/
        (0 < r.1 /\ hp s' = hp st0))) st0.
Proof.
  apply (environment_block_roundtrip (os := calm_os) [str "A=1"; str "B="] st0).
  - split; [done|]. intros ws Hws. repeat (inversion Hws as [|? ? ? ? Hu Hws']; subst; injection Hu as <-; clear Hws; rename Hws' into Hws).
    inversion Hws. done.
  - intros ws Hws. repeat (inversion Hws as [|? ? ? ? Hu Hws']; subst; injection Hu as <-; clear Hws; rename Hws' into Hws).
    inversion Hws. by apply (bool_decide_unpack _); vm_compute.
Defined.
