(* ===== verification/XMemory.v ===== *)
(** * Virtual memory and mapped files (src/x_memory.c, POSIX build) *)
From S2P Require Import Prelude Syscalls Structs Machine Contract XFile DemoOS.

(** ** Constants *)

Definition X_MEMORY_PROTECT_NONE : Z := 0.
Definition X_MEMORY_PROTECT_READ : Z := 1.
Definition X_MEMORY_PROTECT_WRITE : Z := 2.
Definition X_MEMORY_PROTECT_EXECUTE : Z := 4.

Definition PROT_READ : Z := 1.
Definition PROT_WRITE : Z := 2.
Definition PROT_EXEC : Z := 4.
Definition MAP_SHARED : Z := 1.
Definition MAP_PRIVATE : Z := 2.
Definition MAP_ANONYMOUS : Z := 32.
Definition MS_SYNC : Z := 4.
Definition SC_PAGESIZE : Z := 30.

(** ** Protections *)

Definition x_memory_posix_protection (protection : Z) : Z :=
  let result := if flag protection X_MEMORY_PROTECT_READ then Z.lor 0 PROT_READ else 0 in
  let result := if flag protection X_MEMORY_PROTECT_WRITE then Z.lor result PROT_WRITE else result in
  if flag protection X_MEMORY_PROTECT_EXECUTE then Z.lor result PROT_EXEC else result.

Definition x_memory_validate_protection (protection : Z) : Z :=
  let known_bits := Z.lor (Z.lor X_MEMORY_PROTECT_READ X_MEMORY_PROTECT_WRITE)
                      X_MEMORY_PROTECT_EXECUTE in
  if Z.land protection (Z.lnot known_bits) =? 0 then 0 else EINVAL.

Section Memory.
Context {os : OS}.

(** ** Virtual memory *)

Definition x_memory_page_size (page_size : bool) : M (Z * option Z) :=
  if negb page_size then mret (EINVAL, None)
  else
    result ← sys (Ssysconf SC_PAGESIZE);
    if result <=? 0 then mret (EINVAL, None) else mret (0, Some (u64 result)).

(** Returns the code and what is stored through [address]. *)
Definition x_virtual_memory_alloc (address : bool) (size protection : Z) : M (Z * option ptr) :=
  if negb address || (size =? 0) then mret (EINVAL, None)
  else
    let error := x_memory_validate_protection protection in
    if negb (error =? 0) then mret (error, Some NULL)
    else
      allocated ← sys (Smmap size (x_memory_posix_protection protection)
                         (Z.lor MAP_PRIVATE MAP_ANONYMOUS) (-1) 0);
      if allocated =? MAP_FAILED then e ← get_errno; mret (e, Some NULL)
      else mret (0, Some allocated).

Definition x_virtual_memory_protect (address : ptr) (size protection : Z) : M Z :=
  if (address =? NULL) || (size =? 0) then mret EINVAL
  else
    let error := x_memory_validate_protection protection in
    if negb (error =? 0) then mret error
    else
      r ← sys (Smprotect address size (x_memory_posix_protection protection));
      if negb (r =? 0) then get_errno else mret 0.

Definition x_virtual_memory_free (address : ptr) (size : Z) : M unit :=
  if address =? NULL then mret tt
  else _ ← sys (Smunmap address size); mret tt.

(** ** Mapped files *)

Definition x_mapped_file_create (mapping : bool) (path : cstr) (size : Z) : M (Z * option ptr) :=
  if negb mapping || is_null path || (size =? 0) then mret (EINVAL, None)
  else
    created ← calloc 24 (XMappedFile NULL 0 0);
    if created =? NULL then mret (ENOMEM, Some NULL)
    else
      modify x_mapped_file created (fun m => XMappedFile (mf_data m) size (mf_fd m));;
      fd ← sys (Sopen (txt path) (Z.lor (Z.lor (Z.lor O_RDWR O_CREAT) O_TRUNC) O_CLOEXEC) 438);
      modify x_mapped_file created (fun m => XMappedFile (mf_data m) (mf_size m) fd);;
      if fd <? 0 then error ← get_errno; free created;; mret (error, Some NULL)
      else
        r ← sys (Sftruncate fd (s64 size));
        if negb (r =? 0) then
          error ← get_errno; _ ← sys (Sclose fd); free created;; mret (error, Some NULL)
        else
          data ← sys (Smmap size (Z.lor PROT_READ PROT_WRITE) MAP_SHARED fd 0);
          modify x_mapped_file created (fun m => XMappedFile data (mf_size m) (mf_fd m));;
          if data =? MAP_FAILED then
            error ← get_errno; _ ← sys (Sclose fd); free created;; mret (error, Some NULL)
          else mret (0, Some created).

Definition x_mapped_file_open (mapping : bool) (path : cstr) (protection : Z) : M (Z * option ptr) :=
  if negb mapping || is_null path then mret (EINVAL, None)
  else
    let readable := flag protection X_MEMORY_PROTECT_READ in
    let writable := flag protection X_MEMORY_PROTECT_WRITE in
    if negb readable then mret (EINVAL, None)
    else
      let error := x_memory_validate_protection protection in
      if negb (error =? 0) then mret (error, None)
      else
        created ← calloc 24 (XMappedFile NULL 0 0);
        if created =? NULL then mret (ENOMEM, Some NULL)
        else
          let flags := if writable then O_RDWR else O_RDONLY in
          let prot := x_memory_posix_protection protection in
          let map_flags := if writable then MAP_SHARED else MAP_PRIVATE in
          fd ← sys (Sopen (txt path) (Z.lor flags O_CLOEXEC) 0);
          modify x_mapped_file created (fun m => XMappedFile (mf_data m) (mf_size m) fd);;
          if fd <? 0 then error ← get_errno; free created;; mret (error, Some NULL)
          else
            status ← sys (Sfstat fd);
            if negb (status.1 =? 0) then
              error ← get_errno; _ ← sys (Sclose fd); free created;; mret (error, Some NULL)
            else if st_size status.2 =? 0 then
              _ ← sys (Sclose fd); free created;; mret (EINVAL, Some NULL)
            else
              let size := u64 (st_size status.2) in
              data ← sys (Smmap size prot map_flags fd 0);
              modify x_mapped_file created (fun m => XMappedFile data size (mf_fd m));;
              if data =? MAP_FAILED then
                error ← get_errno; _ ← sys (Sclose fd); free created;; mret (error, Some NULL)
              else mret (0, Some created).

Definition x_mapped_file_data (mapping : ptr) : M ptr :=
  if mapping =? NULL then mret NULL else m ← load x_mapped_file mapping; mret (mf_data m).

Definition x_mapped_file_size (mapping : ptr) : M Z :=
  if mapping =? NULL then mret 0 else m ← load x_mapped_file mapping; mret (mf_size m).

Definition x_mapped_file_flush (mapping : ptr) : M Z :=
  if mapping =? NULL then mret EINVAL
  else
    m ← load x_mapped_file mapping;
    if mf_data m =? NULL then mret EINVAL
    else
      r ← sys (Smsync (mf_data m) (mf_size m) MS_SYNC);
      if negb (r =? 0) then get_errno else mret 0.

Definition x_mapped_file_destroy (mapping : ptr) : M unit :=
  if mapping =? NULL then mret tt
  else
    m ← load x_mapped_file mapping;
    (if negb (mf_data m =? NULL) && negb (mf_data m =? MAP_FAILED)
     then _ ← sys (Smunmap (mf_data m) (mf_size m)); mret tt else mret tt);;
    (if 0 <=? mf_fd m then _ ← sys (Sclose (mf_fd m)); mret tt else mret tt);;
    free mapping.
End Memory.

(** ** Ownership and contracts *)

Section MappedFiles.
Context {os : OS}.
Implicit Types (h : gmap ptr obj) (t : list ev).

Definition mapping_res (m : x_mapped_file) : resources :=
  (if negb (mf_data m =? NULL) && negb (mf_data m =? MAP_FAILED) then {[ (KMap, mf_data m) ]} else ∅)
  ∪ (if 0 <=? mf_fd m then {[ (KFd, mf_fd m) ]} else ∅).

Lemma mapping_res_ok data size fd :
  data <> NULL -> data <> MAP_FAILED -> 0 <= fd ->
  mapping_res (XMappedFile data size fd) = {[ (KMap, data) ]} ∪ {[ (KFd, fd) ]}.
Proof.
  intros H1 H2 H3. unfold mapping_res. cbn.
  apply Z.eqb_neq in H1 as ->. apply Z.eqb_neq in H2 as ->. by apply Z.leb_le in H3 as ->.
Qed.

#[export] Program Instance mapped_file_handle : Handle x_mapped_file := {|
  h_res _ := mapping_res; h_close := x_mapped_file_destroy |}.
Next Obligation. done. Qed.
Next Obligation.
  intros md p [data size fd] e h t Q Hp Hn HQ. unfold x_mapped_file_destroy, mapping_res in *.
  apply Z.eqb_neq in Hn as En. rewrite En. cbn [mf_data mf_fd mf_size] in *.
  wp_step. wp_step. cbn [mf_data mf_fd mf_size].
  destruct (negb (data =? NULL) && negb (data =? MAP_FAILED)), (0 <=? fd); cbn beta iota;
    wp_run; apply HQ; cbn [held releases acquires];
    rewrite ?res_diff_empty, ?res_union_empty; apply set_eq; clear; set_solver.
Qed.

(** Both constructors end in the same way: the mapping is made and the structure
    handed out, or everything is given back. *)
Lemma mapping_made (P : x_mapped_file -> Prop) e h t p data size fd e' t' :
  0 < p -> h !! p = None -> 0 <= fd -> (KFd, fd) ∉ held t ->
  data <> NULL -> data <> MAP_FAILED -> (KMap, data) ∉ held t ∪ got KFd (-1) fd ->
  held t' = (held t ∪ got KFd (-1) fd) ∪ got KMap MAP_FAILED data -> P (XMappedFile data size fd) ->
  constructor_post P (St e h t) (0, Some p) (St e' (<[p := to_obj (XMappedFile data size fd)]> h) t').
Proof.
  intros Hp Hnew H0 Hfd Hn Hf Hdata Ht HP. rewrite got_ok in * by lia. rewrite got_ok in Ht by done.
  apply constructor_ok; cbn [h_res mapped_file_handle]; rewrite ?mapping_res_ok by done;
    [done|done| | |done].
  - rewrite Ht. apply set_eq. clear. set_solver.
  - clear -Hfd Hdata. set_solver.
Qed.

Ltac made_tac :=
  eapply mapping_made; held_hyps; held_simpl; try done; try lia.

Lemma wp_mapped_file_create path size md e h t Q :
  (forall r s', constructor_post (fun m => mf_size m = size) (St e h t) r s' -> Q r s') ->
  wp md (x_mapped_file_create true path size) Q (St e h t).
Proof.
  intros HQ. unfold x_mapped_file_create. destruct path as [path|]; cbn [is_null negb orb txt default from_option id].
  2: { wp_run. apply HQ. ctor_fail. }
  wp_run; apply HQ; posts; try absurd_null; rewrite ?insert_insert_eq; cbn [mf_data mf_size mf_fd].
  all: try (ctor_fail; fail).
  made_tac.
Qed.

Lemma wp_mapped_file_open path protection md e h t Q :
  (forall r s', constructor_post (fun m => 0 < mf_size m < 2 ^ 63 /\
       x_memory_validate_protection protection = 0) (St e h t) r s' -> Q r s') ->
  wp md (x_mapped_file_open true path protection) Q (St e h t).
Proof.
  intros HQ. unfold x_mapped_file_open. destruct path as [path|]; cbn [is_null negb orb txt default from_option id].
  2: { wp_run. apply HQ. ctor_fail. }
  destruct (x_memory_validate_protection protection =? 0) eqn:Ep; cbn [negb].
  2: { wp_run; apply HQ; [ctor_fail|]. apply constructor_fail; [|by left|done|done].
    unfold x_memory_validate_protection in *. by destruct (_ =? 0). }
  apply Z.eqb_eq in Ep.
  wp_run; apply HQ; unfold stat_ok in *; posts; try absurd_null; rewrite ?insert_insert_eq; cbn [mf_data mf_size mf_fd].
  all: try (ctor_fail; fail).
  all: made_tac; cbn; rewrite u64_small by (unfold is_u64; lia); lia.
Qed.

(** ** Theorems *)

Lemma validate_range protection :
  x_memory_validate_protection protection = 0 <-> 0 <= protection < 8.
Proof.
  unfold x_memory_validate_protection.
  change (Z.land protection _) with (Z.ldiff protection (Z.ones 3)).
  rewrite Z.ldiff_ones_r by lia. rewrite Z.shiftl_mul_pow2, Z.shiftr_div_pow2 by lia.
  change (2 ^ 3) with 8. pose proof (Z.div_mod protection 8 ltac:(lia)).
  pose proof (Z.mod_pos_bound protection 8 ltac:(lia)).
  destruct (Z.eqb_spec (protection / 8 * 8) 0); unfold EINVAL; lia.
Qed.

Lemma validate_result protection :
  x_memory_validate_protection protection = 0 \/ x_memory_validate_protection protection = EINVAL.
Proof. unfold x_memory_validate_protection. case_match; auto. Qed.

(** A protection that passes validation is handed to the kernel bit for bit:
    validation accepts exactly the combinations of the three known bits. *)
Theorem protection_exact protection :
  (x_memory_validate_protection protection = 0 <-> 0 <= protection < 8) /\
  (x_memory_validate_protection protection = 0 \/ x_memory_validate_protection protection = EINVAL) /\
  (x_memory_validate_protection protection = 0 -> x_memory_posix_protection protection = protection).
Proof.
  pose proof (validate_range protection) as Hv.
  split; [done|]. split; [apply validate_result|]. intros H%Hv.
  assert (protection ∈ Z.of_nat <$> seq 0 8) as Hin.
  { apply list_elem_of_fmap. exists (Z.to_nat protection). split; [lia|]. apply elem_of_seq. lia. }
  revert Hin. cbn. rewrite !elem_of_cons. intros Hin. repeat destruct Hin as [->|Hin]; try done.
  by apply elem_of_nil in Hin.
Qed.

(** Mapping a file, created or opened, and destroying the mapping restores the
    heap, the descriptors and the address space, on every error path. *)
Theorem mapped_file_lifecycle path size protection s :
  let restored := fun (_ : Z) s' => hp s' = hp s /\ held (tr s') = held (tr s) in
  wp Total (bracket (T := x_mapped_file) (x_mapped_file_create true path size)) restored s /\
  wp Total (bracket (T := x_mapped_file) (x_mapped_file_open true path protection)) restored s.
Proof.
  destruct s as [e h t]. split; eapply bracket_restores.
  - by apply wp_mapped_file_create.
  - by apply wp_mapped_file_open.
Qed.

(** [x_mapped_file_open] hands out a mapping only for a non-empty file and a
    readable, valid protection, and owns then one descriptor and one mapping;
    otherwise it fails with a positive error and leaves nothing behind. *)
Theorem x_mapped_file_open_contract path protection s :
  wp Total (x_mapped_file_open true path protection)
    (constructor_post (fun m => 0 < mf_size m < 2 ^ 63 /\ 0 <= protection < 8) s) s.
Proof.
  destruct s as [e h t]. apply wp_mapped_file_open.
  intros r s' [(Hr & p & m & Ho & Hp & Hn & Hh & Ht & Hd & Hsize & Hprot)|H]; [left|by right].
  split; [done|]. exists p, m. repeat (split; [done|]). by apply validate_range.
Qed.

(** Virtual memory is allocated and freed. *)
Definition alloc_free (size protection : Z) : M Z :=
  r ← x_virtual_memory_alloc true size protection;
  x_virtual_memory_free (default NULL r.2) size;;
  mret r.1.

(** Allocating virtual memory and freeing it leaves the address space as it was,
    and touches no memory of the program; the allocation is a fresh mapping. *)
Theorem virtual_memory_lifecycle size protection s :
  wp Total (alloc_free size protection)
    (fun rc s' => 0 <= rc /\ hp s' = hp s /\ held (tr s') = held (tr s)) s.
Proof.
  destruct s as [e h t]. unfold alloc_free, x_virtual_memory_alloc, x_virtual_memory_free.
  destruct (validate_result protection) as [Hv|Hv]; rewrite Hv; cbn [negb Z.eqb];
    wp_run; posts; try absurd_null; subst; cbn [fst snd hp tr errno default from_option id negb Z.eqb] in *;
    wp_run; cbn [hp tr held acquires releases]; rewrite ?got_bad, ?res_diff_empty, ?res_union_empty;
    try absurd_null; (split; [done || lia|]); (split; [done|]); try done.
  rewrite got_ok by done. by apply held_undo.
Qed.
End MappedFiles.

(** ** Examples *)

(** The header says that only READ and READ | WRITE are supported; READ | EXECUTE
    is accepted and mapped. *)
Example mapped_file_open_accepts_execute :
  match x_mapped_file_open (os := parent_os) true (Some (str "lib.so")) 5 st0 with
  | Done (rc, Some p) s => rc = 0 /\
      exists size data, hp s = {[p := to_obj (XMappedFile data size 3)]} /\
        tr s !! 0%nat = Some (Ev (Smmap size 5 MAP_PRIVATE 3 0) data)
  | _ => False
  end.
Proof. vm_compute. split; [done|]. by eexists _, _. Qed.
