(* ===== verification/WinMemory.v ===== *)
(** * Virtual memory and mapped files on Windows (src/x_memory.c, Windows build)

    A mapped file owns three objects: the file, the mapping and the view. *)
From S2P Require Import Prelude Syscalls Structs Machine Contract DemoOS WinBase XMemory.

Definition PAGE_NOACCESS : Z := 1.
Definition PAGE_READONLY : Z := 2.
Definition PAGE_READWRITE : Z := 4.
Definition PAGE_EXECUTE : Z := 16.
Definition PAGE_EXECUTE_READ : Z := 32.
Definition PAGE_EXECUTE_READWRITE : Z := 64.
Definition MEM_COMMIT : Z := 4096.
Definition MEM_RESERVE : Z := 8192.
Definition MEM_RELEASE : Z := 32768.
Definition FILE_MAP_READ : Z := 4.
Definition FILE_MAP_ALL_ACCESS : Z := 983071.

Definition x_memory_error_from_windows (error : Z) : Z :=
  if (error =? ERROR_NOT_ENOUGH_MEMORY) || (error =? ERROR_OUTOFMEMORY) then ENOMEM
  else if error =? ERROR_ACCESS_DENIED then EACCES
  else if (error =? ERROR_FILE_NOT_FOUND) || (error =? ERROR_PATH_NOT_FOUND) then ENOENT
  else if error =? ERROR_INVALID_PARAMETER then EINVAL
  else EIO.

Lemma x_memory_error_pos e : 0 < x_memory_error_from_windows e.
Proof. unfold x_memory_error_from_windows. by repeat case_match. Qed.
#[export] Hint Resolve x_memory_error_pos : xlib.

Definition x_memory_virtual_protection (protection : Z) : Z :=
  let readable := flag protection X_MEMORY_PROTECT_READ in
  let writable := flag protection X_MEMORY_PROTECT_WRITE in
  let executable := flag protection X_MEMORY_PROTECT_EXECUTE in
  if protection =? X_MEMORY_PROTECT_NONE then PAGE_NOACCESS
  else if executable && writable then PAGE_EXECUTE_READWRITE
  else if executable && readable then PAGE_EXECUTE_READ
  else if executable then PAGE_EXECUTE
  else if writable then PAGE_READWRITE
  else if readable then PAGE_READONLY
  else PAGE_NOACCESS.

Section Memory.
Context {os : OS}.

(** The code of the last error. *)
Definition memory_error : M Z := e ← GetLastError; mret (x_memory_error_from_windows e).

Definition x_memory_page_size (page_size : bool) : M (Z * option Z) :=
  if negb page_size then mret (EINVAL, None)
  else info ← win GetSystemInfo; mret (0, Some info).

Definition x_virtual_memory_alloc (address : bool) (size protection : Z) : M (Z * option ptr) :=
  if negb address || (size =? 0) then mret (EINVAL, None)
  else
    let error := x_memory_validate_protection protection in
    if negb (error =? 0) then mret (error, Some NULL)
    else
      allocated ← win (VirtualAlloc size (Z.lor MEM_RESERVE MEM_COMMIT)
                         (x_memory_virtual_protection protection));
      if allocated =? NULL then error ← memory_error; mret (error, Some NULL)
      else mret (0, Some allocated).

Definition x_virtual_memory_protect (address : ptr) (size protection : Z) : M Z :=
  if (address =? NULL) || (size =? 0) then mret EINVAL
  else
    let error := x_memory_validate_protection protection in
    if negb (error =? 0) then mret error
    else
      r ← win (VirtualProtect address size (x_memory_virtual_protection protection));
      if negb r then memory_error else mret 0.

Definition x_virtual_memory_free (address : ptr) (size : Z) : M unit :=
  if address =? NULL then mret tt else win_ (VirtualFree address 0 MEM_RELEASE).

(** ** Mapped files *)

Definition set_file (p : ptr) (h : Z) : M unit :=
  modify win_mapped_file p (fun m => WinMappedFile (wmf_data m) (wmf_size m) h (wmf_mapping m)).
Definition set_mapping (p : ptr) (h : Z) : M unit :=
  modify win_mapped_file p (fun m => WinMappedFile (wmf_data m) (wmf_size m) (wmf_file m) h).
Definition set_data (p : ptr) (a : ptr) : M unit :=
  modify win_mapped_file p (fun m => WinMappedFile a (wmf_size m) (wmf_file m) (wmf_mapping m)).
Definition set_size (p : ptr) (n : Z) : M unit :=
  modify win_mapped_file p (fun m => WinMappedFile (wmf_data m) n (wmf_file m) (wmf_mapping m)).

Definition x_mapped_file_create (mapping : bool) (path : cstr) (size : Z) : M (Z * option ptr) :=
  if negb mapping || is_null path || (size =? 0) then mret (EINVAL, None)
  else
    created ← calloc 32 (WinMappedFile NULL 0 0 0);
    if created =? NULL then mret (ENOMEM, Some NULL)
    else
      set_size created size;;
      if INT64_MAX <? size then free created;; mret (EOVERFLOW, Some NULL)
      else
        file ← win (CreateFileA (txt path) (Z.lor GENERIC_READ GENERIC_WRITE) FILE_SHARE_READ
                      CREATE_ALWAYS);
        set_file created file;;
        if file =? INVALID_HANDLE_VALUE then
          error ← memory_error; free created;; mret (error, Some NULL)
        else
          sized ← win (SetFilePointerEx file (s64 size) FILE_BEGIN);
          sized ← (if negb sized then mret false else win (SetEndOfFile file));
          if negb sized then
            error ← memory_error; win_ (CloseHandle file);; free created;; mret (error, Some NULL)
          else
            handle ← win (CreateFileMappingA file PAGE_READWRITE 0 0 None);
            set_mapping created handle;;
            if handle =? NULL then
              error ← memory_error; win_ (CloseHandle file);; free created;; mret (error, Some NULL)
            else
              data ← win (MapViewOfFile handle FILE_MAP_ALL_ACCESS size);
              set_data created data;;
              if data =? NULL then
                error ← memory_error; win_ (CloseHandle handle);; win_ (CloseHandle file);;
                free created;; mret (error, Some NULL)
              else mret (0, Some created).

Definition x_mapped_file_open (mapping : bool) (path : cstr) (protection : Z) : M (Z * option ptr) :=
  if negb mapping || is_null path then mret (EINVAL, None)
  else
    let readable := flag protection X_MEMORY_PROTECT_READ in
    let writable := flag protection X_MEMORY_PROTECT_WRITE in
    if negb readable then mret (EINVAL, None)
    else
      let error := x_memory_validate_protection protection in
      if negb (error =? 0) then mret (error, None)
      else
        created ← calloc 32 (WinMappedFile NULL 0 0 0);
        if created =? NULL then mret (ENOMEM, Some NULL)
        else
          let access := Z.lor GENERIC_READ (if writable then GENERIC_WRITE else 0) in
          let share := Z.lor FILE_SHARE_READ (if writable then FILE_SHARE_WRITE else 0) in
          let page := if writable then PAGE_READWRITE else PAGE_READONLY in
          let view := if writable then FILE_MAP_ALL_ACCESS else FILE_MAP_READ in
          file ← win (CreateFileA (txt path) access share OPEN_EXISTING);
          set_file created file;;
          if file =? INVALID_HANDLE_VALUE then
            error ← memory_error; free created;; mret (error, Some NULL)
          else
            size ← win (GetFileSizeEx file);
            if negb size.1 then
              error ← memory_error; win_ (CloseHandle file);; free created;; mret (error, Some NULL)
            else if size.2 =? 0 then
              win_ (CloseHandle file);; free created;; mret (EINVAL, Some NULL)
            else
              set_size created (u64 size.2);;
              handle ← win (CreateFileMappingA file page 0 0 None);
              set_mapping created handle;;
              if handle =? NULL then
                error ← memory_error; win_ (CloseHandle file);; free created;; mret (error, Some NULL)
              else
                data ← win (MapViewOfFile handle view 0);
                set_data created data;;
                if data =? NULL then
                  error ← memory_error; win_ (CloseHandle handle);; win_ (CloseHandle file);;
                  free created;; mret (error, Some NULL)
                else mret (0, Some created).

Definition x_mapped_file_data (mapping : ptr) : M ptr :=
  if mapping =? NULL then mret NULL else m ← load win_mapped_file mapping; mret (wmf_data m).

Definition x_mapped_file_size (mapping : ptr) : M Z :=
  if mapping =? NULL then mret 0 else m ← load win_mapped_file mapping; mret (wmf_size m).

Definition x_mapped_file_flush (mapping : ptr) : M Z :=
  if mapping =? NULL then mret EINVAL
  else
    m ← load win_mapped_file mapping;
    if wmf_data m =? NULL then mret EINVAL
    else
      flushed ← win (FlushViewOfFile (wmf_data m) (wmf_size m));
      flushed ← (if negb flushed then mret false else win (FlushFileBuffers (wmf_file m)));
      if negb flushed then memory_error else mret 0.

Definition x_mapped_file_destroy (mapping : ptr) : M unit :=
  if mapping =? NULL then mret tt
  else
    m ← load win_mapped_file mapping;
    (if negb (wmf_data m =? NULL) then win_ (UnmapViewOfFile (wmf_data m)) else mret tt);;
    (if negb (wmf_mapping m =? NULL) then win_ (CloseHandle (wmf_mapping m)) else mret tt);;
    (if negb (wmf_file m =? NULL) && negb (wmf_file m =? INVALID_HANDLE_VALUE)
     then win_ (CloseHandle (wmf_file m)) else mret tt);;
    free mapping.
End Memory.

(** ** Ownership *)

Section MappedFiles.
Context {os : OS}.
Implicit Types (h : gmap ptr obj) (t : list ev).

(** What a mapped file owns: a view, a mapping and a file. *)
Definition mapping_res (m : win_mapped_file) : resources :=
  got KView NULL (wmf_data m) ∪ got KHandle NULL (wmf_mapping m)
  ∪ (if negb (wmf_file m =? NULL) && negb (wmf_file m =? INVALID_HANDLE_VALUE)
     then {[ (KHandle, wmf_file m) ]} else ∅).

Lemma win_mapping_res_ok data size file handle :
  0 < data -> 0 < file -> 0 < handle ->
  mapping_res (WinMappedFile data size file handle) =
    {[ (KView, data) ]} ∪ {[ (KHandle, handle) ]} ∪ {[ (KHandle, file) ]}.
Proof.
  intros H1 H2 H3. unfold mapping_res. cbn. rewrite !got_ok by (unfold NULL; lia).
  rewrite (proj2 (Z.eqb_neq file NULL)), (proj2 (Z.eqb_neq file INVALID_HANDLE_VALUE));
    [done|unfold INVALID_HANDLE_VALUE; lia|unfold NULL; lia].
Qed.

#[export] Program Instance win_mapped_file_handle : Handle win_mapped_file := {|
  h_res _ := mapping_res; h_close := x_mapped_file_destroy |}.
Next Obligation. done. Qed.
Next Obligation.
  intros md p [data size file handle] e h t Q Hp Hn HQ. unfold x_mapped_file_destroy, mapping_res in *.
  apply Z.eqb_neq in Hn as En. rewrite En. cbn [wmf_data wmf_file wmf_mapping] in *.
  win_step. win_step. cbn [wmf_data wmf_file wmf_mapping].
  destruct (Z.eqb_spec data NULL), (Z.eqb_spec handle NULL),
    (negb (file =? NULL) && negb (file =? INVALID_HANDLE_VALUE)); cbn [negb];
    win_run; apply HQ; cbn [held releases acquires win32_releases win32_acquires];
    subst; rewrite ?got_bad, ?got_ok, ?res_diff_empty, ?res_union_empty by done;
    apply set_eq; clear; set_solver.
Qed.

(** The last step of both constructors: what is held, in the form it takes after
    the three calls. *)
Lemma win_mapping_made (P : win_mapped_file -> Prop) e h t p data size file handle e' t' :
  let X1 := held t ∪ got KHandle INVALID_HANDLE_VALUE file in
  let X2 := X1 ∪ got KHandle 0 handle in
  0 < p -> h !! p = None -> 0 < file -> 0 < handle -> 0 < data ->
  (KHandle, file) ∉ held t -> (KHandle, handle) ∉ X1 -> (KView, data) ∉ X2 ->
  held t' = X2 ∪ got KView 0 data -> P (WinMappedFile data size file handle) ->
  constructor_post P (St e h t) (0, Some p)
    (St e' (<[p := to_obj (WinMappedFile data size file handle)]> h) t').
Proof.
  intros X1 X2 Hp Hnew H1 H2 H3 Hf Hm Hd Ht HP. unfold X2, X1 in *.
  rewrite !got_ok in Ht by (unfold INVALID_HANDLE_VALUE; lia).
  rewrite !got_ok in Hd by (unfold INVALID_HANDLE_VALUE; lia).
  rewrite !got_ok in Hm by (unfold INVALID_HANDLE_VALUE; lia).
  apply constructor_ok; cbn [h_res win_mapped_file_handle]; rewrite ?win_mapping_res_ok by done;
    [done|done| | |done].
  - rewrite Ht. apply set_eq. clear. set_solver.
  - clear -Hf Hm Hd. set_solver.
Qed.

Ltac made_tac data size file handle :=
  posts; try (exfalso; unfold NULL, INVALID_HANDLE_VALUE in *; first [congruence | lia]);
  heap_simpl; apply (win_mapping_made _ _ _ _ _ data size file handle);
  held_hyps; held_simpl; try done.

Lemma wp_win_mapped_file_create path size md e h t Q :
  (forall r s', constructor_post (fun m => wmf_size m = size) (St e h t) r s' -> Q r s') ->
  wp md (x_mapped_file_create true path size) Q (St e h t).
Proof.
  intros HQ. unfold x_mapped_file_create, memory_error, set_size, set_file, set_mapping, set_data.
  win_run; apply HQ; try solve [win_fail].
  made_tac r3 size r r2.
Qed.

Lemma wp_win_mapped_file_open path protection md e h t Q :
  (forall r s', constructor_post (fun m => 0 < wmf_size m < 2 ^ 63) (St e h t) r s' -> Q r s') ->
  wp md (x_mapped_file_open true path protection) Q (St e h t).
Proof.
  intros HQ. unfold x_mapped_file_open, memory_error, set_size, set_file, set_mapping, set_data.
  win_run; apply HQ; try solve [win_fail].
  - apply constructor_fail; [|by left|done|done].
    destruct (validate_result protection) as [?|Hv]; [done|by rewrite Hv].
  - made_tac r2 (u64 r0.2) r r1. cbn. rewrite u64_small by (unfold is_u64; lia). lia.
Qed.

(** ** Theorems *)

(** Mapping a file, created or opened, and destroying the mapping restores the
    heap, the handles and the views, on every error path; an opened mapping is
    not empty and has the size of the file. *)
Theorem win_mapped_file_lifecycle path size protection s :
  let restored := fun (_ : Z) s' => hp s' = hp s /\ held (tr s') = held (tr s) in
  wp Total (bracket (T := win_mapped_file) (x_mapped_file_create true path size)) restored s /\
  wp Total (bracket (T := win_mapped_file) (x_mapped_file_open true path protection)) restored s /\
  wp Total (x_mapped_file_open true path protection)
    (constructor_post (fun m => 0 < wmf_size m < 2 ^ 63) s) s.
Proof.
  destruct s as [e h t]. split_and!; [eapply bracket_restores..|].
  - by apply wp_win_mapped_file_create.
  - by apply wp_win_mapped_file_open.
  - by apply wp_win_mapped_file_open.
Qed.

(** Allocating virtual memory and freeing it. *)
Definition alloc_free (size protection : Z) : M Z :=
  r ← x_virtual_memory_alloc true size protection;
  x_virtual_memory_free (default NULL r.2) size;;
  mret r.1.

Theorem win_virtual_memory_lifecycle size protection s :
  wp Total (alloc_free size protection)
    (fun rc s' => 0 <= rc /\ hp s' = hp s /\ held (tr s') = held (tr s)) s.
Proof.
  destruct s as [e h t]. unfold alloc_free, x_virtual_memory_alloc, x_virtual_memory_free, memory_error.
  destruct (validate_result protection) as [Hv|Hv]; rewrite Hv; cbn [negb Z.eqb];
    win_run; cbn [fst snd hp tr default from_option id negb Z.eqb] in *; try done;
    win_run; cbn [hp tr]; try done;
    (split; [first [done|by apply Z.lt_le_incl; auto with xlib]|split; [done|held_by_posts]]).
Qed.
End MappedFiles.

(** ** Protections *)

(** The accesses a page protection allows: reading, writing, executing, as the
    documentation of the constants has it. *)
Definition page_access (p : Z) : bool * bool * bool :=
  if p =? PAGE_READONLY then (true, false, false)
  else if p =? PAGE_READWRITE then (true, true, false)
  else if p =? PAGE_EXECUTE then (false, false, true)
  else if p =? PAGE_EXECUTE_READ then (true, false, true)
  else if p =? PAGE_EXECUTE_READWRITE then (true, true, true)
  else (false, false, false).

(** The page protection allows what was asked for.  It allows nothing else,
    except that writable pages are readable on Windows. *)
Theorem virtual_protection_exact protection :
  0 <= protection < 8 ->
  page_access (x_memory_virtual_protection protection) =
    (flag protection X_MEMORY_PROTECT_READ || flag protection X_MEMORY_PROTECT_WRITE,
     flag protection X_MEMORY_PROTECT_WRITE, flag protection X_MEMORY_PROTECT_EXECUTE).
Proof.
  intros H. assert (protection ∈ Z.of_nat <$> seq 0 8) as Hin.
  { apply list_elem_of_fmap. exists (Z.to_nat protection). split; [lia|]. apply elem_of_seq. lia. }
  revert Hin. cbn. rewrite !elem_of_cons. intros Hin. repeat destruct Hin as [->|Hin]; try done.
  by apply elem_of_nil in Hin.
Qed.
