(* ===== verification/XIpc.v ===== *)
(** * Inter-process communication (src/x_ipc.c, POSIX build)

    Named shared memory and named semaphores: the name given to the kernel, the
    handles, and the wait that is restarted after a signal. *)
From S2P Require Import Prelude Syscalls Structs Machine Contract XPath XFile XMemory DemoOS.

(** ** Names *)

(** [None]: a copy outside the buffer. *)
Definition x_ipc_make_posix_name (name : cstr) (buffer : option text) (buffer_size : Z)
    : option (Z * option text) :=
  match name, buffer with
  | Some n, Some b =>
      if buffer_size =? 0 then Some (EINVAL, None)
      else
        let length := strlen n in
        if Ascii.eqb (char_at n 0) "/"%char then
          if buffer_size <? u64 (length + 1) then Some (ENAMETOOLONG, None)
          else b ← memcpy b 0 (n ++ [NUL]); Some (0, Some b)
        else
          if buffer_size <? u64 (length + 2) then Some (ENAMETOOLONG, None)
          else b ← memcpy b 0 ["/"%char]; b ← memcpy b 1 (n ++ [NUL]); Some (0, Some b)
  | _, _ => Some (EINVAL, None)
  end.

(** [char posix_name[256]], filled by the function above: its code and the C
    string in the array. *)
Definition posix_name_of (name : cstr) : option (Z * text) :=
  '(error, b) ← x_ipc_make_posix_name name (Some (replicate 256 NUL)) 256;
  Some (error, cstring (default [] b)).

Section Ipc.
Context {os : OS}.

(** The rest of a function once the name is made. *)
Definition with_posix_name {A} (name : cstr) (k : Z -> text -> M A) : M A :=
  match posix_name_of name with
  | Some (error, posix_name) => k error posix_name
  | None => undef UbBounds
  end.

(** ** Shared memory *)

Definition x_shared_memory_create (shm : bool) (name : cstr) (size : Z) : M (Z * option ptr) :=
  if negb shm || is_null name || (size =? 0) then mret (EINVAL, None)
  else
    created ← calloc 16 (XSharedMemory NULL 0);
    if created =? NULL then mret (ENOMEM, Some NULL)
    else
      modify x_shared_memory created (fun m => XSharedMemory (shm_data m) size);;
      with_posix_name name (fun error posix_name =>
        if negb (error =? 0) then free created;; mret (error, Some NULL)
        else
          fd ← sys (Sshm_open posix_name (Z.lor (Z.lor O_RDWR O_CREAT) O_TRUNC) 384);
          if fd <? 0 then error ← get_errno; free created;; mret (error, Some NULL)
          else
            r ← sys (Sftruncate fd (s64 size));
            if negb (r =? 0) then
              error ← get_errno; _ ← sys (Sshm_unlink posix_name); _ ← sys (Sclose fd);
              free created;; mret (error, Some NULL)
            else
              data ← sys (Smmap size (Z.lor PROT_READ PROT_WRITE) MAP_SHARED fd 0);
              modify x_shared_memory created (fun m => XSharedMemory data (shm_size m));;
              _ ← sys (Sclose fd);
              if data =? MAP_FAILED then
                error ← get_errno; _ ← sys (Sshm_unlink posix_name);
                free created;; mret (error, Some NULL)
              else mret (0, Some created)).

Definition x_shared_memory_open (shm : bool) (name : cstr) : M (Z * option ptr) :=
  if negb shm || is_null name then mret (EINVAL, None)
  else
    created ← calloc 16 (XSharedMemory NULL 0);
    if created =? NULL then mret (ENOMEM, Some NULL)
    else
      with_posix_name name (fun error posix_name =>
        if negb (error =? 0) then free created;; mret (error, Some NULL)
        else
          fd ← sys (Sshm_open posix_name O_RDWR 0);
          if fd <? 0 then error ← get_errno; free created;; mret (error, Some NULL)
          else
            status ← sys (Sfstat fd);
            if negb (status.1 =? 0) then
              error ← get_errno; _ ← sys (Sclose fd); free created;; mret (error, Some NULL)
            else if st_size status.2 =? 0 then
              _ ← sys (Sclose fd); free created;; mret (EINVAL, Some NULL)
            else
              let size := u64 (st_size status.2) in
              data ← sys (Smmap size (Z.lor PROT_READ PROT_WRITE) MAP_SHARED fd 0);
              modify x_shared_memory created (fun _ => XSharedMemory data size);;
              _ ← sys (Sclose fd);
              if data =? MAP_FAILED then
                error ← get_errno; free created;; mret (error, Some NULL)
              else mret (0, Some created)).

Definition x_shared_memory_data (shm : ptr) : M ptr :=
  if shm =? NULL then mret NULL else m ← load x_shared_memory shm; mret (shm_data m).

Definition x_shared_memory_size (shm : ptr) : M Z :=
  if shm =? NULL then mret 0 else m ← load x_shared_memory shm; mret (shm_size m).

Definition x_shared_memory_close (shm : ptr) : M unit :=
  if shm =? NULL then mret tt
  else
    m ← load x_shared_memory shm;
    (if negb (shm_data m =? NULL) && negb (shm_data m =? MAP_FAILED)
     then _ ← sys (Smunmap (shm_data m) (shm_size m)); mret tt else mret tt);;
    free shm.

Definition x_shared_memory_unlink (name : cstr) : M Z :=
  if is_null name then mret EINVAL
  else with_posix_name name (fun error posix_name =>
    if negb (error =? 0) then mret error
    else r ← sys (Sshm_unlink posix_name); if negb (r =? 0) then get_errno else mret 0).

(** ** Named semaphores *)

Definition x_named_semaphore_create (semaphore : bool) (name : cstr) (initial_count : Z)
    : M (Z * option ptr) :=
  if negb semaphore || is_null name then mret (EINVAL, None)
  else
    created ← calloc 8 (XNamedSemaphore NULL);
    if created =? NULL then mret (ENOMEM, Some NULL)
    else
      with_posix_name name (fun error posix_name =>
        if negb (error =? 0) then free created;; mret (error, Some NULL)
        else
          handle ← sys (Ssem_open posix_name (Z.lor O_CREAT O_EXCL) 384 initial_count);
          modify x_named_semaphore created (fun _ => XNamedSemaphore handle);;
          if handle =? NULL then error ← get_errno; free created;; mret (error, Some NULL)
          else mret (0, Some created)).

Definition x_named_semaphore_open (semaphore : bool) (name : cstr) : M (Z * option ptr) :=
  if negb semaphore || is_null name then mret (EINVAL, None)
  else
    created ← calloc 8 (XNamedSemaphore NULL);
    if created =? NULL then mret (ENOMEM, Some NULL)
    else
      with_posix_name name (fun error posix_name =>
        if negb (error =? 0) then free created;; mret (error, Some NULL)
        else
          handle ← sys (Ssem_open posix_name 0 0 0);
          modify x_named_semaphore created (fun _ => XNamedSemaphore handle);;
          if handle =? NULL then error ← get_errno; free created;; mret (error, Some NULL)
          else mret (0, Some created)).

Definition wait_step (handle : ptr) (_ : unit) : M (unit + Z) :=
  r ← sys (Ssem_wait handle);
  if negb (r =? 0) then
    e ← get_errno;
    if negb (e =? EINTR) then mret (inr e) else mret (inl tt)
  else mret (inr 0).

Definition x_named_semaphore_wait (fuel : nat) (semaphore : ptr) : M Z :=
  if semaphore =? NULL then mret EINVAL
  else
    s ← load x_named_semaphore semaphore;
    iterM fuel (wait_step (ns_handle s)) tt.

Definition x_named_semaphore_post (semaphore : ptr) : M Z :=
  if semaphore =? NULL then mret EINVAL
  else
    s ← load x_named_semaphore semaphore;
    r ← sys (Ssem_post (ns_handle s));
    if negb (r =? 0) then get_errno else mret 0.

Definition x_named_semaphore_close (semaphore : ptr) : M unit :=
  if semaphore =? NULL then mret tt
  else
    s ← load x_named_semaphore semaphore;
    _ ← sys (Ssem_close (ns_handle s));
    free semaphore.

Definition x_named_semaphore_unlink (name : cstr) : M Z :=
  if is_null name then mret EINVAL
  else with_posix_name name (fun error posix_name =>
    if negb (error =? 0) then mret error
    else r ← sys (Ssem_unlink posix_name); if negb (r =? 0) then get_errno else mret 0).
End Ipc.

(** ** The name *)

(** What the kernel calls the object [name]. *)
Definition posix_name (name : text) : text :=
  if Ascii.eqb (char_at name 0) "/"%char then name else "/"%char :: name.

(** An object of the program: a C string is shorter than the address space. *)
Definition c_name (name : cstr) : Prop := forall n, name = Some n -> strlen n < PTRDIFF_MAX.

Lemma make_posix_name_eq name buffer size :
  strlen name < PTRDIFF_MAX -> size = Z.of_nat (length buffer) -> 0 < size ->
  x_ipc_make_posix_name (Some name) (Some buffer) size =
    if decide (strlen (posix_name name) < size)
    then Some (0, Some (posix_name name ++ NUL :: drop (length (posix_name name) + 1) buffer))
    else Some (ENAMETOOLONG, None).
Proof.
  intros Hlen -> Hpos. unfold x_ipc_make_posix_name, posix_name, PTRDIFF_MAX, INT64_MAX in *.
  destruct (Z.eqb_spec (Z.of_nat (length buffer)) 0); [lia|].
  assert (0 <= strlen name) by (unfold strlen; lia).
  destruct (Ascii.eqb _ _); rewrite u64_small by (unfold is_u64; lia).
  - destruct (Z.ltb_spec (Z.of_nat (length buffer)) (strlen name + 1)); [by rewrite decide_False by lia|].
    rewrite decide_True by lia. unfold strlen in *.
    rewrite memcpy_0 by (rewrite length_app; cbn; lia). cbn. by rewrite terminate.
  - assert (strlen ("/"%char :: name) = strlen name + 1) as Hs by (unfold strlen; cbn; lia).
    destruct (Z.ltb_spec (Z.of_nat (length buffer)) (strlen name + 2)); [by rewrite decide_False by lia|].
    rewrite decide_True by lia. unfold strlen in *. rewrite memcpy_0 by (cbn; lia). cbn [option_bind mbind].
    change 1%nat with (length ["/"%char]).
    rewrite memcpy_adjacent by (rewrite length_app; cbn; lia).
    cbn. rewrite length_app, <- (assoc_L (++)). done.
Qed.

Lemma posix_name_nul_free name : nul_free name -> nul_free (posix_name name).
Proof.
  intros H. unfold posix_name, nul_free in *. case_match; [done|].
  by apply not_elem_of_cons.
Qed.

(** The string every function hands to the kernel. *)
Lemma posix_name_of_eq name :
  nul_free name -> strlen name < PTRDIFF_MAX ->
  posix_name_of (Some name) =
    Some (if decide (strlen (posix_name name) < 256) then (0, posix_name name) else (ENAMETOOLONG, [])).
Proof.
  intros Hnul Hlen. unfold posix_name_of. rewrite make_posix_name_eq; [|done|done|done].
  case_decide; cbn; [|done]. by rewrite cstring_terminated by by apply posix_name_nul_free.
Qed.

Lemma posix_name_of_code name :
  c_name name -> exists error n, posix_name_of name = Some (error, n) /\ 0 <= error.
Proof.
  intros Hc. destruct name as [name|]; [|by eexists _, _].
  unfold posix_name_of. rewrite make_posix_name_eq; [|by apply Hc|done|done].
  case_decide; cbn; by eexists _, _.
Qed.

(** ** Ownership *)

Section Handles.
Context {os : OS}.
Implicit Types (h : gmap ptr obj) (t : list ev).

Definition shared_res (m : x_shared_memory) : resources :=
  if negb (shm_data m =? NULL) && negb (shm_data m =? MAP_FAILED)
  then {[ (KMap, shm_data m) ]} else ∅.

#[export] Program Instance shared_memory_handle : Handle x_shared_memory := {|
  h_res _ := shared_res; h_close := x_shared_memory_close |}.
Next Obligation. done. Qed.
Next Obligation.
  intros md p [data size] e h t Q Hp Hn HQ. unfold x_shared_memory_close, shared_res in *.
  apply Z.eqb_neq in Hn as En. rewrite En. cbn [shm_data shm_size] in *.
  wp_step. wp_step. cbn [shm_data shm_size].
  destruct (negb (data =? NULL) && negb (data =? MAP_FAILED)); cbn beta iota;
    wp_run; apply HQ; cbn [held releases acquires]; by rewrite ?res_diff_empty, ?res_union_empty.
Qed.

#[export] Program Instance named_semaphore_handle : RefHandle x_named_semaphore := {|
  rf_key s := (KSem, ns_handle s); rf_close := x_named_semaphore_close |}.
Next Obligation. done. Qed.
Next Obligation.
  intros md p [handle] e h t Q Hp Hn HQ. unfold x_named_semaphore_close.
  apply Z.eqb_neq in Hn as En. rewrite En. wp_run. apply HQ; [by held_simpl|].
  intros y. cbn. lia.
Qed.

Lemma wp_with_posix_name {A} name (k : Z -> text -> M A) md s Q :
  c_name name -> (forall error n, 0 <= error -> wp md (k error n) Q s) ->
  wp md (with_posix_name name k) Q s.
Proof.
  intros Hc Hk. unfold with_posix_name.
  destruct (posix_name_of_code name Hc) as (error & n & -> & H). by apply Hk.
Qed.

Lemma wp_named_semaphore_create name count md e h t Q :
  c_name name ->
  (forall r s', ref_constructor_post (T := x_named_semaphore) (St e h t) r s' -> Q r s') ->
  wp md (x_named_semaphore_create true name count) Q (St e h t).
Proof.
  intros Hc HQ. unfold x_named_semaphore_create. destruct name as [name|]; cbn [is_null negb orb].
  2: { wp_run. apply HQ. ref_fail. }
  wp_step. wp_step; [wp_run; apply HQ; ref_fail|]. wp_step.
  apply wp_with_posix_name; [done|]. intros error n Herr.
  wp_run; apply HQ; [ref_fail..|ref_ok (XNamedSemaphore r)].
Qed.

Lemma wp_named_semaphore_open name md e h t Q :
  c_name name ->
  (forall r s', ref_constructor_post (T := x_named_semaphore) (St e h t) r s' -> Q r s') ->
  wp md (x_named_semaphore_open true name) Q (St e h t).
Proof.
  intros Hc HQ. unfold x_named_semaphore_open. destruct name as [name|]; cbn [is_null negb orb].
  2: { wp_run. apply HQ. ref_fail. }
  wp_step. wp_step; [wp_run; apply HQ; ref_fail|]. wp_step.
  apply wp_with_posix_name; [done|]. intros error n Herr.
  wp_run; apply HQ; [ref_fail..|ref_ok (XNamedSemaphore r)].
Qed.

Lemma shared_res_ok data size :
  data <> NULL -> data <> MAP_FAILED -> shared_res (XSharedMemory data size) = {[ (KMap, data) ]}.
Proof. intros H1 H2. unfold shared_res. cbn. apply Z.eqb_neq in H1 as ->. by apply Z.eqb_neq in H2 as ->. Qed.

(** The end of both constructors: the descriptor is closed again. *)
Lemma shared_made (P : x_shared_memory -> Prop) e h t p data size fd e' t' :
  0 < p -> h !! p = None -> 0 <= fd -> (KFd, fd) ∉ held t ->
  data <> NULL -> data <> MAP_FAILED -> (KMap, data) ∉ held t ∪ got KFd (-1) fd ->
  held t' = ((held t ∪ got KFd (-1) fd) ∪ got KMap MAP_FAILED data) ∖ {[ (KFd, fd) ]} ->
  P (XSharedMemory data size) ->
  constructor_post P (St e h t) (0, Some p) (St e' (<[p := to_obj (XSharedMemory data size)]> h) t').
Proof.
  intros Hp Hnew H0 Hfd Hn Hf Hdata Ht HP. rewrite got_ok in * by lia. rewrite got_ok in Ht by done.
  apply constructor_ok; cbn [h_res shared_memory_handle]; rewrite ?shared_res_ok by done;
    [done|done| | |done].
  - rewrite Ht. apply set_eq. clear -Hfd. set_solver.
  - clear -Hdata. set_solver.
Qed.

(** A failed mapping, the descriptor closed. *)
Lemma shared_failed (P : x_shared_memory -> Prop) e h t p (o : obj) fd rc out e' t' :
  h !! p = None -> 0 < rc -> out = Some NULL -> 0 <= fd -> (KFd, fd) ∉ held t ->
  held t' = (held t ∪ got KFd (-1) fd) ∖ {[ (KFd, fd) ]} ->
  constructor_post P (St e h t) (rc, out) (St e' (delete p (<[p := o]> h)) t').
Proof.
  intros Hp Hrc -> H0 Hfd Ht. rewrite got_ok in Ht by lia.
  apply constructor_fail; [done|by right|by rewrite delete_insert_eq, delete_id|].
  rewrite Ht. by apply held_undo.
Qed.

(** The descriptor both lemmas speak of is the one that was closed. *)
Ltac shared_tac :=
  match goal with
  | |- context [Sclose ?fd] =>
      first [eapply (shared_made _ _ _ _ _ _ _ fd) | eapply (shared_failed _ _ _ _ _ _ fd)]
  end; held_simpl; rewrite ?got_bad, ?res_union_empty; try done; try lia.

Lemma wp_shared_memory_create name size md e h t Q :
  c_name name ->
  (forall r s', constructor_post (fun m => shm_size m = size /\ shm_data m <> NULL) (St e h t) r s' -> Q r s') ->
  wp md (x_shared_memory_create true name size) Q (St e h t).
Proof.
  intros Hc HQ. unfold x_shared_memory_create. destruct name as [name|]; cbn [is_null negb orb].
  2: { wp_run. apply HQ. ctor_fail. }
  wp_step; [wp_run; apply HQ; ctor_fail|].
  wp_step. wp_step; [wp_run; apply HQ; ctor_fail|]. wp_step. wp_step. wp_step.
  apply wp_with_posix_name; [done|]. intros error n Herr.
  wp_run; apply HQ; posts; try absurd_null; rewrite ?insert_insert_eq.
  all: held_hyps; subst.
  all: try (ctor_fail; fail).
  all: shared_tac.
Qed.

Lemma wp_shared_memory_open name md e h t Q :
  c_name name ->
  (forall r s', constructor_post (fun m => 0 < shm_size m < 2 ^ 63 /\ shm_data m <> NULL) (St e h t) r s' -> Q r s') ->
  wp md (x_shared_memory_open true name) Q (St e h t).
Proof.
  intros Hc HQ. unfold x_shared_memory_open. destruct name as [name|]; cbn [is_null negb orb].
  2: { wp_run. apply HQ. ctor_fail. }
  wp_step. wp_step; [wp_run; apply HQ; ctor_fail|]. wp_step.
  apply wp_with_posix_name; [done|]. intros error n Herr.
  wp_run; apply HQ; unfold stat_ok in *; posts; try absurd_null; rewrite ?insert_insert_eq.
  all: held_hyps; subst.
  all: try (ctor_fail; fail).
  all: shared_tac; cbn; rewrite u64_small by (unfold is_u64; lia); split; [lia|done].
Qed.
End Handles.

(** ** Theorems *)

Definition absolute (name : text) : Prop := exists rest, name = "/"%char :: rest.

Section Theorems.
Context {os : OS}.

(** Names that fit name the same kernel object exactly when they agree up to one
    leading slash; each is given to the kernel with that slash and without a
    character more. *)
Theorem posix_names_alias a b :
  nul_free a -> nul_free b -> strlen a < 255 -> strlen b < 255 ->
  (exists n, posix_name_of (Some a) = Some (0, n) /\ (n = a \/ n = "/"%char :: a) /\
     (exists rest, n = "/"%char :: rest) /\ posix_name_of (Some n) = Some (0, n)) /\
  (posix_name_of (Some a) = posix_name_of (Some b) <->
     a = b \/ (a = "/"%char :: b /\ ~ absolute b) \/ (b = "/"%char :: a /\ ~ absolute a)).
Proof.
  assert (forall c : text, strlen c < 255 -> nul_free c ->
    posix_name_of (Some c) = Some (0, posix_name c) /\
    (posix_name c = c /\ (exists rest, c = "/"%char :: rest) \/
     posix_name c = "/"%char :: c /\ (forall rest, c <> "/"%char :: rest))) as Hname.
  { intros c Hlen Hnul.
    assert (posix_name c = c /\ (exists rest, c = "/"%char :: rest) \/
            posix_name c = "/"%char :: c /\ (forall rest, c <> "/"%char :: rest)) as Hc.
    { unfold posix_name. destruct c as [|x c]; [by right|]. cbn.
      destruct (Ascii.eqb_spec x "/"%char) as [->|Hne]; [left|right].
      - split; [done|]. by exists c.
      - split; [done|]. congruence. }
    split; [|done]. rewrite posix_name_of_eq by (done || unfold PTRDIFF_MAX, INT64_MAX; lia).
    rewrite decide_True; [done|]. unfold strlen in *.
    destruct Hc as [[-> _]|[-> _]]; cbn [length]; lia. }
  intros Ha Hb Hla Hlb. destruct (Hname _ Hla Ha) as [-> Hca]. destruct (Hname _ Hlb Hb) as [-> Hcb].
  pose proof (posix_name_nul_free _ Ha) as Hna.
  split.
  - exists (posix_name a). split; [done|]. destruct Hca as [(Hca & rest & Hr)|[Hca Hr]].
    + split; [by left|]. split; [exists rest; congruence|]. rewrite Hca.
      destruct (Hname _ Hla Ha) as [-> _]. by rewrite Hca.
    + split; [by right|]. split; [by exists a|].
      rewrite posix_name_of_eq by (done || unfold PTRDIFF_MAX, INT64_MAX, strlen in *; rewrite ?Hca; cbn [length]; lia).
      rewrite decide_True; rewrite Hca; unfold strlen in *; cbn [posix_name char_at length]; [done|].
      cbn. lia.
  - split.
    + intros [= Heq]. destruct Hca as [[Hca _]|[Hca Hna']], Hcb as [[Hcb _]|[Hcb Hnb]];
        rewrite Hca, Hcb in Heq.
      * by left.
      * right. left. split; [done|]. intros [rest ?]. by eapply Hnb.
      * right. right. split; [done|]. intros [rest ?]. by eapply Hna'.
      * left. congruence.
    + intros [->|[[Hab Hn]|[Hab Hn]]]; [done|..]; do 2 f_equal.
      * destruct Hca as [[Hca _]|[_ Hca]]; [|by destruct (Hca b)].
        destruct Hcb as [[_ Hcb]|[Hcb _]]; [done|]. congruence.
      * destruct Hcb as [[Hcb _]|[_ Hcb]]; [|by destruct (Hcb a)].
        destruct Hca as [[_ Hca]|[Hca _]]; [done|]. congruence.
Qed.


(** C33. Waiting on a named semaphore, once signals stop within the fuel: any number
    of interrupted waits, then exactly one that decides the answer.  A result of
    0 means that one permit was taken, another result that none was; EINTR is
    never reported and nothing else changes. *)
Theorem x_named_semaphore_wait_spec fuel n semaphore (x : x_named_semaphore) s :
  hp s !! semaphore = Some (to_obj x) -> semaphore <> NULL -> quiet_after n -> (n < fuel)%nat ->
  wp Total (x_named_semaphore_wait fuel semaphore)
    (fun rc s' => hp s' = hp s /\ 0 <= rc /\ rc <> EINTR /\
       exists k, tr s' = Ev (Ssem_wait (ns_handle x)) (if rc =? 0 then 0 else -1)
                 :: replicate k (Ev (Ssem_wait (ns_handle x)) (-1)) ++ tr s) s.
Proof.
  destruct s as [e h t]. cbn [hp tr]. intros Hx Hn Hq Hf. unfold x_named_semaphore_wait.
  apply Z.eqb_neq in Hn as ->. wp_step. wp_step.
  apply (wp_iter _ (fun _ s' => hp s' = h /\ exists k,
             tr s' = replicate k (Ev (Ssem_wait (ns_handle x)) (-1)) ++ t)
           (fun _ s' => n - length (tr s'))%nat).
  - intros [] [e1 h1 t1] [Hh [k Hk]]. cbn [hp tr] in *. subst h1. unfold wait_step.
    apply wp_bind, wp_sys_eq. intros r e' Hc Hpost. cbn [sys_post] in Hpost.
    assert (r <> 0 -> r = -1 /\ (if e' =? 0 then e1 else e') = e' /\ 0 < e') as Herr.
    { intros. destruct Hpost as [?|[-> ?]]; [done|]. destruct (Z.eqb_spec e' 0); split_and!; lia. }
    wp_run.
    + destruct (Herr E) as (-> & He & Hpos). rewrite He in *. cbn [hp tr].
      split_and!; [done|lia|done|]. exists k. apply Z.lt_neq, not_eq_sym, Z.eqb_neq in Hpos as ->.
      by rewrite Hk.
    + destruct (Herr E) as (-> & He & Hpos). rewrite He in *. cbn [hp tr length].
      split; [split; [done|]; exists (S k); by rewrite Hk|].
      destruct (decide (n <= length t1)%nat) as [Hle|]; [|lia].
      destruct (Hq _ _ (Ssem_wait (ns_handle x)) Hle). by rewrite Hc.
    + cbn [hp tr]. split_and!; [done|lia|done|]. exists k. by rewrite Hk, E.
  - split; [done|]. by exists 0%nat.
  - lia.
Qed.
End Theorems.

(** ** Examples *)

Definition shm_name : text := str "frames".

Example names : posix_name_of (Some shm_name) = Some (0, str "/frames") /\
  posix_name_of (Some (str "/frames")) = Some (0, str "/frames") /\
  posix_name_of (Some (str "")) = Some (0, str "/") /\
  posix_name_of None = Some (EINVAL, []).
Proof. by vm_compute. Qed.

Lemma posix_names_alias_witness :
  (exists n, posix_name_of (Some shm_name) = Some (0, n) /\ (n = shm_name \/ n = "/"%char :: shm_name) /\
     (exists rest, n = "/"%char :: rest) /\ posix_name_of (Some n) = Some (0, n)) /\
  (posix_name_of (Some shm_name) = posix_name_of (Some (str "/frames")) <->
     shm_name = str "/frames" \/ (shm_name = "/"%char :: str "/frames" /\ ~ absolute (str "/frames")) \/
     (str "/frames" = "/"%char :: shm_name /\ ~ absolute shm_name)).
Proof.
  apply (posix_names_alias shm_name (str "/frames"));
    first [by vm_compute | apply (bool_decide_unpack _); by vm_compute].
Defined.


Definition semaphore_st : st := St 0 {[1 := to_obj (XNamedSemaphore 3)]} [].

Lemma x_named_semaphore_wait_spec_witness :
  wp Total (x_named_semaphore_wait (os := signal_os 2) 5 1)
    (fun rc s' => hp s' = hp semaphore_st /\ 0 <= rc /\ rc <> EINTR /\
       exists k, tr s' = Ev (Ssem_wait 3) (if rc =? 0 then 0 else -1)
                 :: replicate k (Ev (Ssem_wait 3) (-1)) ++ []) semaphore_st.
Proof.
  apply (x_named_semaphore_wait_spec (os := signal_os 2) 5 2 1 (XNamedSemaphore 3) semaphore_st);
    [by vm_compute|done|apply signal_os_quiet|lia].
Defined.

Example interrupted_wait :
  x_named_semaphore_wait (os := signal_os 2) 5 1 semaphore_st =
    Done 0 (St 4 (hp semaphore_st) [Ev (Ssem_wait 3) 0; Ev (Ssem_wait 3) (-1); Ev (Ssem_wait 3) (-1)]).
Proof. by vm_compute. Qed.
