(* ===== verification/WinIpc.v ===== *)
(** * Inter-process communication on Windows (src/x_ipc.c, Windows build)

    Shared memory is a named mapping of the paging file and a view of it; a named
    semaphore is a handle.  The names are handed to Windows as they are, and the
    objects disappear with their last handle. *)
From S2P Require Import Prelude Syscalls Structs Machine Contract DemoOS WinBase.
From S2P Require Import WinTime WinMemory.

Definition SEMAPHORE_ALL_ACCESS : Z := 2031619.
Definition LONG_MAX : Z := 2147483647.

Definition x_ipc_error_from_windows (error : Z) : Z :=
  if error =? ERROR_SUCCESS then 0
  else if (error =? ERROR_FILE_NOT_FOUND) || (error =? ERROR_PATH_NOT_FOUND) then ENOENT
  else if error =? ERROR_ALREADY_EXISTS then EEXIST
  else if error =? ERROR_ACCESS_DENIED then EACCES
  else if (error =? ERROR_INVALID_PARAMETER) || (error =? ERROR_INVALID_NAME) then EINVAL
  else if (error =? ERROR_NOT_ENOUGH_MEMORY) || (error =? ERROR_OUTOFMEMORY) then ENOMEM
  else EIO.

Lemma x_ipc_error_pos e : 0 < e -> 0 < x_ipc_error_from_windows e.
Proof.
  intros. unfold x_ipc_error_from_windows, ERROR_SUCCESS.
  destruct (Z.eqb_spec e 0); [lia|]. by repeat case_match.
Qed.
#[export] Hint Resolve x_ipc_error_pos : xlib.

Section Ipc.
Context {os : OS}.

Definition ipc_error : M Z := e ← GetLastError; mret (x_ipc_error_from_windows e).

(** ** Shared memory *)

Definition x_shared_memory_create (shm : bool) (name : cstr) (size : Z) : M (Z * option ptr) :=
  if negb shm || is_null name || (size =? 0) then mret (EINVAL, None)
  else
    created ← calloc 24 (WinSharedMemory NULL 0 0);
    if created =? NULL then mret (ENOMEM, Some NULL)
    else
      modify win_shared_memory created (fun m => WinSharedMemory (wsm_data m) size (wsm_mapping m));;
      if UINT64_MAX <? size then free created;; mret (EOVERFLOW, Some NULL)
      else
        let size_high := u32 (Z.shiftr size 32) in
        let size_low := u32 (Z.land size 4294967295) in
        mapping ← win (CreateFileMappingA INVALID_HANDLE_VALUE PAGE_READWRITE size_high size_low name);
        modify win_shared_memory created (fun m => WinSharedMemory (wsm_data m) (wsm_size m) mapping);;
        if mapping =? NULL then error ← ipc_error; free created;; mret (error, Some NULL)
        else
          data ← win (MapViewOfFile mapping FILE_MAP_ALL_ACCESS 0);
          modify win_shared_memory created (fun m => WinSharedMemory data (wsm_size m) (wsm_mapping m));;
          if data =? NULL then
            error ← ipc_error; win_ (CloseHandle mapping);; free created;; mret (error, Some NULL)
          else mret (0, Some created).

Definition x_shared_memory_open (shm : bool) (name : cstr) : M (Z * option ptr) :=
  if negb shm || is_null name then mret (EINVAL, None)
  else
    created ← calloc 24 (WinSharedMemory NULL 0 0);
    if created =? NULL then mret (ENOMEM, Some NULL)
    else
      mapping ← win (OpenFileMappingA FILE_MAP_ALL_ACCESS (txt name));
      modify win_shared_memory created (fun m => WinSharedMemory (wsm_data m) (wsm_size m) mapping);;
      if mapping =? NULL then error ← ipc_error; free created;; mret (error, Some NULL)
      else
        data ← win (MapViewOfFile mapping FILE_MAP_ALL_ACCESS 0);
        modify win_shared_memory created (fun m => WinSharedMemory data (wsm_size m) (wsm_mapping m));;
        if data =? NULL then
          error ← ipc_error; win_ (CloseHandle mapping);; free created;; mret (error, Some NULL)
        else
          info ← win (VirtualQuery data);
          if info.1 =? 0 then
            win_ (UnmapViewOfFile data);; win_ (CloseHandle mapping);; free created;;
            mret (EIO, Some NULL)
          else
            modify win_shared_memory created
              (fun m => WinSharedMemory (wsm_data m) info.2 (wsm_mapping m));;
            mret (0, Some created).

Definition x_shared_memory_data (shm : ptr) : M ptr :=
  if shm =? NULL then mret NULL else m ← load win_shared_memory shm; mret (wsm_data m).
Definition x_shared_memory_size (shm : ptr) : M Z :=
  if shm =? NULL then mret 0 else m ← load win_shared_memory shm; mret (wsm_size m).

Definition x_shared_memory_close (shm : ptr) : M unit :=
  if shm =? NULL then mret tt
  else
    m ← load win_shared_memory shm;
    (if negb (wsm_data m =? NULL) then win_ (UnmapViewOfFile (wsm_data m)) else mret tt);;
    (if negb (wsm_mapping m =? NULL) then win_ (CloseHandle (wsm_mapping m)) else mret tt);;
    free shm.

Definition x_shared_memory_unlink (name : cstr) : Z := if is_null name then EINVAL else 0.

(** ** Named semaphores *)

Definition x_named_semaphore_create (semaphore : bool) (name : cstr) (initial_count : Z)
    : M (Z * option ptr) :=
  if negb semaphore || is_null name then mret (EINVAL, None)
  else
    created ← calloc 8 (WinNamedSemaphore NULL);
    if created =? NULL then mret (ENOMEM, Some NULL)
    else
      handle ← win (CreateSemaphoreA (int_of initial_count) LONG_MAX (txt name));
      modify win_named_semaphore created (fun _ => WinNamedSemaphore handle);;
      if handle =? NULL then error ← ipc_error; free created;; mret (error, Some NULL)
      else mret (0, Some created).

Definition x_named_semaphore_open (semaphore : bool) (name : cstr) : M (Z * option ptr) :=
  if negb semaphore || is_null name then mret (EINVAL, None)
  else
    created ← calloc 8 (WinNamedSemaphore NULL);
    if created =? NULL then mret (ENOMEM, Some NULL)
    else
      handle ← win (OpenSemaphoreA SEMAPHORE_ALL_ACCESS (txt name));
      modify win_named_semaphore created (fun _ => WinNamedSemaphore handle);;
      if handle =? NULL then error ← ipc_error; free created;; mret (error, Some NULL)
      else mret (0, Some created).

Definition x_named_semaphore_wait (semaphore : ptr) : M Z :=
  if semaphore =? NULL then mret EINVAL
  else
    x ← load win_named_semaphore semaphore;
    r ← win (WaitForSingleObject (wns_handle x) INFINITE);
    if negb (r =? WAIT_OBJECT_0) then ipc_error else mret 0.

Definition x_named_semaphore_post (semaphore : ptr) : M Z :=
  if semaphore =? NULL then mret EINVAL
  else
    x ← load win_named_semaphore semaphore;
    r ← win (ReleaseSemaphore (wns_handle x) 1);
    if negb r then ipc_error else mret 0.

Definition x_named_semaphore_close (semaphore : ptr) : M unit :=
  if semaphore =? NULL then mret tt
  else
    x ← load win_named_semaphore semaphore;
    win_ (CloseHandle (wns_handle x));;
    free semaphore.

Definition x_named_semaphore_unlink (name : cstr) : Z := if is_null name then EINVAL else 0.
End Ipc.

(** ** Ownership *)

Section Ownership.
Context {os : OS}.
Implicit Types (h : gmap ptr obj) (t : list ev).

Definition shm_res (m : win_shared_memory) : resources :=
  got KView NULL (wsm_data m) ∪ got KHandle NULL (wsm_mapping m).

#[export] Program Instance win_shared_memory_handle : Handle win_shared_memory := {|
  h_res _ := shm_res; h_close := x_shared_memory_close |}.
Next Obligation. done. Qed.
Next Obligation.
  intros md p [data size mapping] e h t Q Hp Hn HQ. unfold x_shared_memory_close, shm_res in *.
  apply Z.eqb_neq in Hn as En. rewrite En. cbn [wsm_data wsm_mapping] in *.
  win_step. win_step. cbn [wsm_data wsm_mapping].
  destruct (Z.eqb_spec data NULL), (Z.eqb_spec mapping NULL); cbn [negb];
    win_run; apply HQ; cbn [held releases acquires win32_releases win32_acquires];
    subst; rewrite ?got_bad, ?got_ok, ?res_diff_empty, ?res_union_empty by done;
    apply set_eq; clear; set_solver.
Qed.

#[export] Program Instance win_named_semaphore_handle : Handle win_named_semaphore := {|
  h_res _ x := {[ (KHandle, wns_handle x) ]}; h_close := x_named_semaphore_close |}.
Next Obligation. done. Qed.
Next Obligation.
  intros md p [handle] e h t Q Hp Hn HQ. unfold x_named_semaphore_close.
  apply Z.eqb_neq in Hn as En. rewrite En. win_run. apply HQ.
  cbn [held releases acquires win32_releases win32_acquires wns_handle].
  by rewrite ?res_diff_empty, ?res_union_empty.
Qed.

(** The last step of the constructors of shared memory. *)
Lemma shm_made (P : win_shared_memory -> Prop) e h t p data size mapping e' t' :
  let X1 := held t ∪ got KHandle 0 mapping in
  0 < p -> h !! p = None -> 0 < mapping -> 0 < data ->
  (KHandle, mapping) ∉ held t -> (KView, data) ∉ X1 ->
  held t' = X1 ∪ got KView 0 data -> P (WinSharedMemory data size mapping) ->
  constructor_post P (St e h t) (0, Some p)
    (St e' (<[p := to_obj (WinSharedMemory data size mapping)]> h) t').
Proof.
  intros X1 Hp Hnew H1 H2 Hm Hd Ht HP. unfold X1 in *.
  rewrite !got_ok in Ht by lia. rewrite !got_ok in Hd by lia.
  assert (shm_res (WinSharedMemory data size mapping) = {[ (KView, data) ]} ∪ {[ (KHandle, mapping) ]})
    as Hres by (unfold shm_res; cbn; by rewrite !got_ok by (unfold NULL; lia)).
  apply constructor_ok; cbn [h_res win_shared_memory_handle]; rewrite ?Hres; [done|done| | |done].
  - rewrite Ht. apply set_eq. clear. set_solver.
  - clear -Hm Hd. set_solver.
Qed.

Ltac shm_tac data size mapping :=
  posts; try (exfalso; unfold NULL in *; first [congruence | lia]);
  heap_simpl; apply (shm_made _ _ _ _ _ data size mapping); held_hyps; held_simpl; try done.

Lemma wp_win_shared_memory_create name size md e h t Q :
  (forall r s', constructor_post (fun m => wsm_size m = size) (St e h t) r s' -> Q r s') ->
  wp md (x_shared_memory_create true name size) Q (St e h t).
Proof.
  intros HQ. unfold x_shared_memory_create, ipc_error.
  win_run; apply HQ; try solve [win_fail].
  shm_tac r0 size r.
Qed.

Lemma wp_win_shared_memory_open name md e h t Q :
  (forall r s', constructor_post (fun m => is_u64 (wsm_size m)) (St e h t) r s' -> Q r s') ->
  wp md (x_shared_memory_open true name) Q (St e h t).
Proof.
  intros HQ. unfold x_shared_memory_open, ipc_error.
  win_run; apply HQ; try solve [win_fail].
  shm_tac r0 r1.2 r. by apply Hpost1.
Qed.

Lemma wp_win_named_semaphore_create name count md e h t Q :
  (forall r s', constructor_post (T := win_named_semaphore) (fun _ => True) (St e h t) r s' -> Q r s') ->
  wp md (x_named_semaphore_create true name count) Q (St e h t).
Proof.
  intros HQ. unfold x_named_semaphore_create, ipc_error.
  win_run; apply HQ; try solve [win_fail].
  ctor_ok (WinNamedSemaphore r). done.
Qed.

Lemma wp_win_named_semaphore_open name md e h t Q :
  (forall r s', constructor_post (T := win_named_semaphore) (fun _ => True) (St e h t) r s' -> Q r s') ->
  wp md (x_named_semaphore_open true name) Q (St e h t).
Proof.
  intros HQ. unfold x_named_semaphore_open, ipc_error.
  win_run; apply HQ; try solve [win_fail].
  ctor_ok (WinNamedSemaphore r). done.
Qed.

(** ** Theorems *)

(** Shared memory and named semaphores, created or opened and then closed, leave
    the heap and the handles as they were, whichever step fails. *)
Theorem win_ipc_lifecycle name size count s :
  let restored := fun (_ : Z) s' => hp s' = hp s /\ held (tr s') = held (tr s) in
  wp Total (bracket (T := win_shared_memory) (x_shared_memory_create true name size)) restored s /\
  wp Total (bracket (T := win_shared_memory) (x_shared_memory_open true name)) restored s /\
  wp Total (bracket (T := win_named_semaphore) (x_named_semaphore_create true name count)) restored s /\
  wp Total (bracket (T := win_named_semaphore) (x_named_semaphore_open true name)) restored s.
Proof.
  destruct s as [e h t]. split_and!; eapply bracket_restores.
  - by apply wp_win_shared_memory_create.
  - by apply wp_win_shared_memory_open.
  - by apply wp_win_named_semaphore_create.
  - by apply wp_win_named_semaphore_open.
Qed.

(** Waiting and posting are one call each: 0 exactly when the call took or gave
    a permit, a positive code otherwise. *)
Theorem win_semaphore_operations semaphore (x : win_named_semaphore) s :
  hp s !! semaphore = Some (to_obj x) -> semaphore <> NULL ->
  wp Total (x_named_semaphore_wait semaphore) (fun rc s' =>
    keeps s s' /\ exists r, tr s' = Ev (W (WaitForSingleObject (wns_handle x) INFINITE)) r :: tr s /\
    if decide (r = WAIT_OBJECT_0) then rc = 0 else 0 < rc) s /\
  wp Total (x_named_semaphore_post semaphore) (fun rc s' =>
    keeps s s' /\ exists r, tr s' = Ev (W (ReleaseSemaphore (wns_handle x) 1)) r :: tr s /\
    if r then rc = 0 else 0 < rc) s.
Proof.
  destruct s as [e h t]. cbn [hp tr]. intros Hx Hn. apply Z.eqb_neq in Hn.
  unfold x_named_semaphore_wait, x_named_semaphore_post, ipc_error. rewrite Hn.
  split; win_run; (split; [keeps_solve|]); eexists; (split; [done|]).
  - case_decide; [done|]. destruct Hpost as [?|[[_ ?]|[_ ?]]]; [done..|auto with xlib].
  - by rewrite decide_True.
  - subst. code_pos.
  - by subst.
Qed.
End Ownership.

(** The two halves of the size handed to Windows are the size. *)
Theorem shared_memory_size_split size :
  is_u64 size ->
  quad_part (u32 (Z.land size 4294967295)) (u32 (Z.shiftr size 32)) = size.
Proof.
  unfold is_u64. intros H. change 4294967295 with (Z.ones 32).
  rewrite Z.land_ones, Z.shiftr_div_pow2 by lia.
  pose proof (Z.mod_pos_bound size (2 ^ 32) ltac:(lia)).
  pose proof (Z.div_pos size (2 ^ 32) ltac:(lia) ltac:(lia)).
  assert (size / 2 ^ 32 < 2 ^ 32) by (apply Z.div_lt_upper_bound; lia).
  unfold u32. rewrite !(Z.mod_small (_ mod _)), (Z.mod_small (_ / _)) by lia.
  rewrite quad_part_eq by (unfold is_dword, is_u32; lia).
  pose proof (Z.div_mod size (2 ^ 32)). lia.
Qed.
