(* ===== verification/XDynLib.v ===== *)
(** * Dynamic libraries (src/x_dynamic_library.c, POSIX build)

    The thread's error text is a static array of 512 characters; the functions
    take its content and return the new one. *)
From S2P Require Import Prelude Syscalls Structs Machine Contract XPath DemoOS.

Definition RTLD_LAZY : Z := 1.
Definition RTLD_NOW : Z := 2.
Definition RTLD_LOCAL : Z := 0.

(** [sizeof x_dynamic_library_error]. *)
Definition error_size : nat := 512.

(** [strncpy (b, s, n)]: the rest of the [n] characters is filled with NULs. *)
Definition strncpy (b s : text) (n : nat) : text := take n (s ++ replicate n NUL) ++ drop n b.

Definition x_dynamic_library_set_error_text (message : cstr) (error : text) : text :=
  match message with
  | None => <[0%nat := NUL]> error
  | Some m => <[(error_size - 1)%nat := NUL]> (strncpy error m (error_size - 1))
  end.

Section DynLib.
Context {os : OS}.

Definition x_dynamic_library_set_error_code (code : Z) (error : text) : M text :=
  message ← sys (Sstrerror code);
  mret (x_dynamic_library_set_error_text (Some message) error).

(** Each answer comes with the new error text. *)
Definition x_dynamic_library_open (library : bool) (path : cstr) (error : text)
    : M (Z * option ptr * text) :=
  if negb library || is_null path then
    error ← x_dynamic_library_set_error_code EINVAL error; mret (EINVAL, None, error)
  else
    created ← calloc 8 (XDynamicLibrary NULL);
    if created =? NULL then
      error ← x_dynamic_library_set_error_code ENOMEM error; mret (ENOMEM, Some NULL, error)
    else
      _ ← sys Sdlerror;
      handle ← sys (Sdlopen (txt path) (Z.lor RTLD_NOW RTLD_LOCAL));
      modify x_dynamic_library created (fun _ => XDynamicLibrary handle);;
      if handle =? NULL then
        message ← sys Sdlerror;
        free created;;
        mret (ENOENT, Some NULL, x_dynamic_library_set_error_text message error)
      else mret (0, Some created, <[0%nat := NUL]> error).

Definition x_dynamic_library_symbol (library : ptr) (name : cstr) (symbol : bool) (error : text)
    : M (Z * option ptr * text) :=
  if (library =? NULL) || is_null name || negb symbol then
    error ← x_dynamic_library_set_error_code EINVAL error; mret (EINVAL, None, error)
  else
    l ← load x_dynamic_library library;
    _ ← sys Sdlerror;
    address ← sys (Sdlsym (dl_handle l) (txt name));
    message ← sys Sdlerror;
    match message with
    | Some _ => mret (ENOENT, Some NULL, x_dynamic_library_set_error_text message error)
    | None => mret (0, Some address, <[0%nat := NUL]> error)
    end.

Definition x_dynamic_library_close (library : ptr) : M unit :=
  if library =? NULL then mret tt
  else
    l ← load x_dynamic_library library;
    _ ← sys (Sdlclose (dl_handle l));
    free library.
End DynLib.

(** [None]: the copy would leave the buffer. *)
Definition x_dynamic_library_last_error (buffer : option text) (buffer_size : Z) (error : text)
    : option (Z * option text) :=
  match buffer with
  | None => Some (EINVAL, None)
  | Some b =>
      if buffer_size =? 0 then Some (EINVAL, None)
      else
        let length := strlen (cstring error) in
        if buffer_size <? u64 (length + 1) then Some (ENAMETOOLONG, None)
        else b ← memcpy b 0 (cstring error ++ [NUL]); Some (0, Some b)
  end.

(** ** The error text *)

Lemma set_error_text_length message error :
  length error = error_size -> length (x_dynamic_library_set_error_text message error) = error_size.
Proof.
  intros H. destruct message as [m|]; cbn [x_dynamic_library_set_error_text];
    rewrite length_insert; [|done].
  unfold strncpy. rewrite length_app, length_take, length_drop, length_app, length_replicate, H.
  unfold error_size. lia.
Qed.

Lemma take_nul_free n (s : text) : nul_free s -> nul_free (take n s).
Proof. intros H Hin. apply H. exact (subseteq_take _ _ _ Hin). Qed.

(** The text a message leaves: at most 511 of its characters. *)
Lemma set_error_text_eq m error :
  length error = error_size ->
  exists rest, x_dynamic_library_set_error_text (Some m) error = take (error_size - 1) m ++ NUL :: rest.
Proof.
  intros Hlen. exists (replicate (error_size - 1 - length m) NUL).
  cbn [x_dynamic_library_set_error_text]. unfold strncpy.
  rewrite take_app, take_replicate. set (k := (error_size - 1 - length m)%nat).
  replace (k `min` (error_size - 1))%nat with k by (unfold k; lia).
  assert (length (take (error_size - 1) m ++ replicate k NUL) = (error_size - 1)%nat) as Hpre.
  { rewrite length_app, length_take, length_replicate. unfold k, error_size. lia. }
  assert (length (drop (error_size - 1) error) = 1%nat) as Hlast.
  { rewrite length_drop, Hlen. unfold error_size. lia. }
  destruct (drop (error_size - 1) error) as [|c [|? ?]]; [done| |done].
  rewrite insert_app_r_alt by by rewrite Hpre. rewrite Hpre, Nat.sub_diag. cbn.
  rewrite <- (assoc_L (++)). f_equal. by rewrite <- replicate_cons_app.
Qed.

(** A message is kept, cut to 511 characters, and [x_dynamic_library_last_error]
    gives back exactly what was kept, in a buffer that holds it with its
    terminator, and [ENAMETOOLONG] without touching the buffer otherwise. *)
Theorem last_error_roundtrip message error buffer size :
  length error = error_size -> nul_free message -> size = Z.of_nat (length buffer) -> 0 < size ->
  let kept := take (error_size - 1) message in
  let error' := x_dynamic_library_set_error_text (Some message) error in
  length error' = error_size /\
  x_dynamic_library_last_error (Some buffer) size error' =
    if decide (strlen kept < size)
    then Some (0, Some (kept ++ NUL :: drop (length kept + 1) buffer))
    else Some (ENAMETOOLONG, None).
Proof.
  intros Hlen Hnul -> Hpos kept error'. split; [by apply set_error_text_length|].
  destruct (set_error_text_eq message error Hlen) as [rest Hrest].
  assert (cstring error' = kept) as Hc.
  { unfold error'. rewrite Hrest. by apply cstring_terminated, take_nul_free. }
  unfold x_dynamic_library_last_error. rewrite Hc.
  destruct (Z.eqb_spec (Z.of_nat (length buffer)) 0); [lia|].
  assert (0 <= strlen kept <= 511) as Hk.
  { unfold strlen, kept. rewrite length_take. unfold error_size. lia. }
  clearbody kept. rewrite u64_small by (unfold is_u64; lia).
  destruct (Z.ltb_spec (Z.of_nat (length buffer)) (strlen kept + 1));
    [by rewrite decide_False by lia|rewrite decide_True by lia].
  rewrite memcpy_0 by (rewrite length_app; unfold strlen in *; cbn; lia). cbn.
  by rewrite terminate.
Qed.

(** ** The handles *)

Section Handles.
Context {os : OS}.

#[export] Program Instance dynamic_library_handle : RefHandle x_dynamic_library := {|
  rf_key l := (KDl, dl_handle l); rf_close := x_dynamic_library_close |}.
Next Obligation. done. Qed.
Next Obligation.
  intros md p [handle] e h t Q Hp Hn HQ. unfold x_dynamic_library_close.
  apply Z.eqb_neq in Hn as En. rewrite En. wp_run. apply HQ; [by held_simpl|].
  intros y. cbn. lia.
Qed.

(** The constructor's promise, and the error text it leaves. *)
Definition open_post (path : cstr) (error : text) (s : st) (r : Z * option ptr * text) (s' : st) : Prop :=
  ref_constructor_post (T := x_dynamic_library) s r.1 s' /\
  (r.1.1 = 0 -> cstring r.2 = []) /\ (length error = error_size -> length r.2 = error_size).

Lemma wp_dynamic_library_open path error md e h t Q :
  (forall r s', open_post path error (St e h t) r s' -> Q r s') ->
  wp md (x_dynamic_library_open true path error) Q (St e h t).
Proof.
  intros HQ. unfold x_dynamic_library_open, x_dynamic_library_set_error_code.
  assert (Hclear : forall b : text, length b = error_size -> length (<[0%nat := NUL]> b) = error_size)
    by (intros; by rewrite length_insert).
  destruct path as [path|]; cbn [is_null negb orb].
  2: { wp_run. apply HQ. split; [ref_fail|]. split; [done|apply set_error_text_length]. }
  wp_run; apply HQ; (split; cbn [fst snd]).
  all: try (ref_fail; fail).
  all: try (ref_ok (XDynamicLibrary r0); fail).
  all: split; [first [done|intros _; by destruct error]|first [apply set_error_text_length|apply Hclear]].
Qed.

(** Loading a library and closing it when it was loaded: the heap is as before
    and every library as often open as before; whatever the loader answers, the
    error text stays a terminated string of its array, and is empty after a
    success. *)
Theorem dynamic_library_lifecycle path error s :
  length error = error_size ->
  wp Total (x_dynamic_library_open true path error)
    (fun r s' => length r.2 = error_size /\ (r.1.1 = 0 -> cstring r.2 = []) /\
       wp Total (if r.1.1 =? 0 then x_dynamic_library_close (default NULL r.1.2) else mret tt)
         (fun _ => ref_restored s) s') s.
Proof.
  intros Hlen. destruct s as [e h t]. apply wp_dynamic_library_open.
  intros [[rc out] err] [e' h' t'] (Hr & Hok & Herr). cbn [fst snd] in *.
  split; [by apply Herr|]. split; [done|]. exact (ref_close_made (T := x_dynamic_library) _ _ _ _ Hr).
Qed.

(** A symbol is reported exactly when the loader has no message, whatever its
    address, so that a symbol at address 0 is found; with a message the result
    is [ENOENT], the symbol NULL and the message kept. *)
Theorem x_dynamic_library_symbol_spec library (l : x_dynamic_library) name error s :
  hp s !! library = Some (to_obj l) -> library <> NULL ->
  wp Total (x_dynamic_library_symbol library (Some name) true error)
    (fun r s' => hp s' = hp s /\ held (tr s') = held (tr s) /\
       exists before address message,
         tr s' = Ev Sdlerror message :: Ev (Sdlsym (dl_handle l) name) address :: Ev Sdlerror before :: tr s /\
         r = match message with
             | None => (0, Some address, <[0%nat := NUL]> error)
             | Some m => (ENOENT, Some NULL, x_dynamic_library_set_error_text (Some m) error)
             end) s.
Proof.
  destruct s as [e h t]. cbn [hp tr]. intros Hl Hn. unfold x_dynamic_library_symbol.
  apply Z.eqb_neq in Hn as ->. cbn [is_null negb orb txt default from_option id].
  wp_run; subst; cbn [hp tr]; (split; [done|]); (split; [by held_simpl|]); by eexists _, _, _.
Qed.
End Handles.

(** ** Examples *)

Definition no_error : text := replicate error_size NUL.

Lemma last_error_roundtrip_witness :
  length (x_dynamic_library_set_error_text (Some (str "no such file")) no_error) = error_size /\
  x_dynamic_library_last_error (Some (replicate 16 "x"%char)) 16
    (x_dynamic_library_set_error_text (Some (str "no such file")) no_error) =
  Some (0, Some (str "no such file" ++ NUL :: str "xxx")).
Proof.
  apply (last_error_roundtrip (str "no such file") no_error (replicate 16 "x"%char) 16);
    [done|by apply (bool_decide_unpack _); vm_compute|done|done].
Defined.

Lemma dynamic_library_lifecycle_witness :
  wp Total (x_dynamic_library_open (os := parent_os) true (Some (str "libm.so")) no_error)
    (fun r s' => length r.2 = error_size /\ (r.1.1 = 0 -> cstring r.2 = []) /\
       wp Total (if r.1.1 =? 0 then x_dynamic_library_close (os := parent_os) (default NULL r.1.2) else mret tt)
         (fun _ => ref_restored st0) s') st0.
Proof. by apply (dynamic_library_lifecycle (os := parent_os)). Defined.

Definition library_st : st := St 0 {[1 := to_obj (XDynamicLibrary 3)]} [].

Lemma x_dynamic_library_symbol_spec_witness :
  wp Total (x_dynamic_library_symbol (os := parent_os) 1 (Some (str "cos")) true no_error)
    (fun r s' => hp s' = hp library_st /\ held (tr s') = ∅ /\
       exists before address message,
         tr s' = [Ev Sdlerror message; Ev (Sdlsym 3 (str "cos")) address; Ev Sdlerror before] /\
         r = match message with
             | None => (0, Some address, <[0%nat := NUL]> no_error)
             | Some m => (ENOENT, Some NULL, x_dynamic_library_set_error_text (Some m) no_error)
             end) library_st.
Proof.
  apply (x_dynamic_library_symbol_spec (os := parent_os) 1 (XDynamicLibrary 3) _ _ library_st);
    [by vm_compute|done].
Defined.
