(* ===== verification/WinDynLib.v ===== *)
(** * Dynamic libraries on Windows (src/x_dynamic_library.c, Windows build)

    The error text of the thread is passed and returned as in XDynLib.v; the
    messages come from [FormatMessageA]. *)
From S2P Require Import Prelude Syscalls Structs Machine Contract DemoOS WinBase XPath XDynLib.

Definition x_dynamic_library_error_from_windows (error : Z) : Z :=
  if error =? ERROR_SUCCESS then 0
  else if (error =? ERROR_FILE_NOT_FOUND) || (error =? ERROR_PATH_NOT_FOUND)
          || (error =? ERROR_MOD_NOT_FOUND) then ENOENT
  else if error =? ERROR_PROC_NOT_FOUND then ENOENT
  else if error =? ERROR_ACCESS_DENIED then EACCES
  else if (error =? ERROR_INVALID_PARAMETER) || (error =? ERROR_BAD_EXE_FORMAT) then EINVAL
  else if (error =? ERROR_NOT_ENOUGH_MEMORY) || (error =? ERROR_OUTOFMEMORY) then ENOMEM
  else EIO.

Lemma x_dynamic_library_error_pos e : 0 < e -> 0 < x_dynamic_library_error_from_windows e.
Proof.
  intros. unfold x_dynamic_library_error_from_windows, ERROR_SUCCESS.
  destruct (Z.eqb_spec e 0); [lia|]. by repeat case_match.
Qed.
#[export] Hint Resolve x_dynamic_library_error_pos : xlib.

Section DynLib.
Context {os : OS}.

Definition x_dynamic_library_set_windows_error (code : Z) (error : text) : M text :=
  message ← win (FormatMessageA code (Z.of_nat error_size));
  if message.1 =? 0
  then x_dynamic_library_set_error_code (x_dynamic_library_error_from_windows code) error
  else mret (x_dynamic_library_set_error_text (Some message.2) error).

(** The text and the code of the last error [code]. *)
Definition windows_failure (code : Z) (out : option ptr) (error : text) : M (Z * option ptr * text) :=
  error ← x_dynamic_library_set_windows_error code error;
  mret (x_dynamic_library_error_from_windows code, out, error).

Definition x_dynamic_library_utf8_to_wide (value : cstr) (wide : bool) (error : text)
    : M (Z * option ptr * text) :=
  c ← utf8_to_wide value wide;
  match c with
  | Converted p => mret (0, Some p, error)
  | ConvInvalid => mret (EINVAL, None, error)
  | ConvFailed code => windows_failure code (Some NULL) error
  | ConvNoMemory =>
      error ← x_dynamic_library_set_error_code ENOMEM error; mret (ENOMEM, Some NULL, error)
  end.

Definition x_dynamic_library_open (library : bool) (path : cstr) (error : text)
    : M (Z * option ptr * text) :=
  if negb library || is_null path then
    error ← x_dynamic_library_set_error_code EINVAL error; mret (EINVAL, None, error)
  else
    created ← calloc 8 (WinDynamicLibrary NULL);
    if created =? NULL then
      error ← x_dynamic_library_set_error_code ENOMEM error; mret (ENOMEM, Some NULL, error)
    else
      r ← x_dynamic_library_utf8_to_wide path true error;
      let '(rc, out, error) := r in
      if negb (rc =? 0) then free created;; mret (rc, Some NULL, error)
      else
        let wide_path := default NULL out in
        path ← load_wide wide_path;
        handle ← win (LoadLibraryW path);
        modify win_dynamic_library created (fun _ => WinDynamicLibrary handle);;
        free wide_path;;
        if handle =? NULL then
          win_error ← GetLastError;
          free created;;
          windows_failure win_error (Some NULL) error
        else mret (0, Some created, <[0%nat := NUL]> error).

Definition x_dynamic_library_symbol (library : ptr) (name : cstr) (symbol : bool) (error : text)
    : M (Z * option ptr * text) :=
  if (library =? NULL) || is_null name || negb symbol then
    error ← x_dynamic_library_set_error_code EINVAL error; mret (EINVAL, None, error)
  else
    l ← load win_dynamic_library library;
    address ← win (GetProcAddress (wdl_handle l) (txt name));
    if address =? NULL then
      code ← GetLastError; windows_failure code (Some NULL) error
    else mret (0, Some address, <[0%nat := NUL]> error).

Definition x_dynamic_library_close (library : ptr) : M unit :=
  if library =? NULL then mret tt
  else
    l ← load win_dynamic_library library;
    win_ (FreeLibrary (wdl_handle l));;
    free library.

(** ** The error text *)

(** A failure: a positive code, and a text that is still a string of its array. *)
Definition failure_post (code : Z) (out : option ptr) (error : text) (h : gmap ptr obj) (t : list ev)
    (r : Z * option ptr * text) (s : st) : Prop :=
  hp s = h /\ inert_ext t (tr s) /\ r.1 = (x_dynamic_library_error_from_windows code, out) /\
  (length error = error_size -> length r.2 = error_size).

Lemma wp_windows_failure md code out error e h t Q :
  (forall r s', failure_post code out error h t r s' -> Q r s') ->
  wp md (windows_failure code out error) Q (St e h t).
Proof.
  intros HQ. unfold windows_failure, x_dynamic_library_set_windows_error, x_dynamic_library_set_error_code.
  win_run; apply HQ; (split; [done|]); cbn [tr]; (split; [eauto 20 with xlib|]);
    (split; [done|apply set_error_text_length]).
Qed.

Definition wide_post (v : text) (error : text) (h : gmap ptr obj) (t : list ev)
    (r : Z * option ptr * text) (s : st) : Prop :=
  inert_ext t (tr s) /\ (length error = error_size -> length r.2 = error_size) /\
  ((r.1.1 = 0 /\ r.2 = error /\ exists p w,
      r.1.2 = Some p /\ utf16 v = Some w /\ 0 < p /\ h !! p = None /\
      hp s = <[p := to_obj (Wide (w ++ [0]))]> h) \/
   (0 < r.1.1 /\ hp s = h)).

Lemma wp_dynamic_library_utf8_to_wide md v error e h t Q :
  (forall r s', wide_post v error h t r s' -> Q r s') ->
  wp md (x_dynamic_library_utf8_to_wide (Some v) true error) Q (St e h t).
Proof.
  intros HQ. unfold x_dynamic_library_utf8_to_wide. apply wp_bind, wp_utf8_to_wide.
  intros c [e' h' t'] [Ht Hc]. cbn [hp tr] in *. destruct c as [p| |code|].
  - destruct Hc as (w & Hw & Hp & Hn & ->). apply wp_ret, HQ. split; [done|].
    split; [done|]. left. split; [done|]. split; [done|]. by exists p, w.
  - done.
  - destruct Hc as [Hpos ->]. apply wp_windows_failure. intros r s (Hh & Hs & Hr & Hl). apply HQ.
    split; [by eauto with xlib|]. split; [done|]. right. split; [|done]. rewrite Hr. cbn. auto with xlib.
  - unfold x_dynamic_library_set_error_code. wp_run. apply HQ. split; cbn [tr hp fst snd].
    { eauto with xlib. }
    split; [apply set_error_text_length|]. by right.
Qed.

(** ** Ownership *)

#[export] Program Instance win_dynamic_library_handle : RefHandle win_dynamic_library := {|
  rf_key l := (KModule, wdl_handle l); rf_close := x_dynamic_library_close |}.
Next Obligation. done. Qed.
Next Obligation.
  intros md p [handle] e h t Q Hp Hn HQ. unfold x_dynamic_library_close.
  apply Z.eqb_neq in Hn as En. rewrite En. win_run. apply HQ; [by held_simpl|].
  intros y. cbn. lia.
Qed.

Definition open_post (error : text) (s : st) (r : Z * option ptr * text) (s' : st) : Prop :=
  ref_constructor_post (T := win_dynamic_library) s r.1 s' /\
  (r.1.1 = 0 -> cstring r.2 = []) /\ (length error = error_size -> length r.2 = error_size).

Lemma wp_win_dynamic_library_open path error md e h t Q :
  (forall r s', open_post error (St e h t) r s' -> Q r s') ->
  wp md (x_dynamic_library_open true path error) Q (St e h t).
Proof.
  intros HQ. unfold x_dynamic_library_open.
  destruct path as [path|]; cbn [is_null negb orb].
  2: { unfold x_dynamic_library_set_error_code. wp_run. apply HQ.
       split; [ref_fail|]. split; [done|apply set_error_text_length]. }
  win_step. win_step.
  { win_step. unfold x_dynamic_library_set_error_code. win_run. apply HQ.
    split; [ref_fail|]. split; [done|apply set_error_text_length]. }
  win_step. apply wp_bind, wp_dynamic_library_utf8_to_wide.
  intros [[rc out] err] [e1 h1 t1] (Ht & Hl & Hr). cbn [fst snd tr hp] in *.
  apply inert_ext_held in Ht as Hheld.
  assert (forall y, refs t1 y = refs t y) as Hrefs by (intros y; rewrite (inert_ext_refs _ _ y Ht); cbn; lia).
  cbn [held acquires releases] in Hheld. rewrite res_diff_empty, res_union_empty in Hheld.
  destruct Hr as [(-> & -> & q & w & -> & Hw & Hq & Hqn & ->)|[Hrc ->]].
  2: { wp_run; try (exfalso; lia). apply HQ. split; [|split; [cbn; lia|done]].
       apply ref_failed; [done|by right|by heap_simpl|by held_simpl|intros y; cbn; rewrite Hrefs; lia]. }
  cbn [Z.eqb negb default from_option id]. apply lookup_insert_None in Hqn as [Hqn Hpq].
  wp_step. eapply wp_load_wide; [by rewrite lookup_insert_eq|by eapply utf16_nul|].
  win_run.
  - apply wp_windows_failure. intros [rr err'] [e2 h2 t2] (Hh & Ht2 & Hr & Hl'). cbn [hp tr fst snd] in *.
    assert (0 < e0) as Hpe by (unfold NULL in *; lia). subst rr. apply HQ.
    pose proof (x_dynamic_library_error_pos _ Hpe).
    split; [|split; [cbn; lia|done]]. cbn [fst snd].
    apply ref_failed; [done|by right|subst h2; map_solve| |].
    + rewrite (inert_ext_held _ _ Ht2). by held_simpl.
    + intros y. rewrite (inert_ext_refs _ _ y Ht2). subst r. cbn. rewrite Hrefs. lia.
  - apply HQ. split; [|split; [intros _; by destruct error|intros He; cbn [snd]; by rewrite length_insert]].
    cbn [fst snd]. replace (delete q _) with (<[p := to_obj (WinDynamicLibrary r)]> h) by map_solve.
    apply ref_made; [done|done|by held_simpl|cbn; congruence|].
    intros y. cbn [refs ref_change win32_uses rf_key win_dynamic_library_handle wdl_handle].
    rewrite Hrefs. destruct (Z.eqb_spec r 0); [done|]. cbn. lia.
Qed.

(** ** Theorems *)

(** Loading a library and closing it when it was loaded: the heap is as before,
    the converted path included, and every library as often loaded as before.
    The error text stays a terminated string, and is empty after a success. *)
Theorem win_dynamic_library_lifecycle path error s :
  length error = error_size ->
  wp Total (x_dynamic_library_open true path error)
    (fun r s' => length r.2 = error_size /\ (r.1.1 = 0 -> cstring r.2 = []) /\
       wp Total (if r.1.1 =? 0 then x_dynamic_library_close (default NULL r.1.2) else mret tt)
         (fun _ => ref_restored s) s') s.
Proof.
  intros Hlen. destruct s as [e h t]. apply wp_win_dynamic_library_open.
  intros [[rc out] err] [e' h' t'] (Hr & Hok & Herr). cbn [fst snd] in *.
  split; [by apply Herr|]. split; [done|]. exact (ref_close_made (T := win_dynamic_library) _ _ _ _ Hr).
Qed.

(** A symbol is found exactly when its address is not NULL; otherwise the code
    and the text are those of the last error. *)
Theorem win_dynamic_library_symbol_spec library (l : win_dynamic_library) name error s :
  hp s !! library = Some (to_obj l) -> library <> NULL ->
  wp Total (x_dynamic_library_symbol library (Some name) true error)
    (fun r s' => hp s' = hp s /\ inert_ext (tr s) (tr s') /\
       ((0 < r.1.1 /\ r.1.2 = Some NULL) \/
        exists address, address <> NULL /\ r = (0, Some address, <[0%nat := NUL]> error))) s.
Proof.
  destruct s as [e h t]. cbn [hp tr]. intros Hl Hn. unfold x_dynamic_library_symbol.
  apply Z.eqb_neq in Hn as ->. cbn [is_null negb orb txt default from_option id].
  win_run.
  - apply wp_windows_failure. intros [rr err'] s (Hh & Ht & Hr & _). cbn [fst snd] in *.
    split; [done|]. split; [eapply inert_ext_trans; [|exact Ht]; cbn; eauto with xlib|]. left. subst rr. cbn. split; [|done]. auto with xlib.
  - split; [done|]. cbn [tr]. split; [eauto with xlib|]. right. by eexists.
Qed.
End DynLib.
