(* ===== verification/XTls.v ===== *)
(** * Pluggable TLS (src/x_tls.c)

    The context keeps a copy of the caller's function pointers and forwards every
    operation to them.  What the functions do is a parameter of the model. *)
From S2P Require Import Prelude Syscalls Structs Machine Contract DemoOS.

Section Tls.
Context {os : OS}.

(** The meaning of the function pointers.  [hook_read] answers the code, what it
    stored in [*bytes_read] ([None]: nothing) and the data; [hook_write] the code
    and what it stored in [*bytes_written]. *)
Variable hook_connect : Z -> ptr -> ptr -> text -> ptr -> M Z.
Variable hook_accept : Z -> ptr -> ptr -> ptr -> M Z.
Variable hook_read : Z -> ptr -> Z -> bool -> ptr -> M (Z * option Z * text).
Variable hook_write : Z -> ptr -> text -> Z -> bool -> ptr -> M (Z * option Z).
Variable hook_close : Z -> ptr -> ptr -> M unit.

Definition no_hooks : x_tls_hooks := XTlsHooks 0 0 0 0 0 NULL.

Definition x_tls_context_create (ctx : bool) (hooks : option x_tls_hooks) : M (Z * option ptr) :=
  match hooks with
  | Some hooks =>
      if negb ctx then mret (EINVAL, None)
      else if (hk_connect hooks =? 0) || (hk_accept hooks =? 0) || (hk_read hooks =? 0)
              || (hk_write hooks =? 0) || (hk_close hooks =? 0) then mret (EINVAL, None)
      else
        created ← calloc 56 (XTlsContext no_hooks NULL);
        if created =? NULL then mret (ENOMEM, Some NULL)
        else store created (XTlsContext hooks NULL);; mret (0, Some created)
  | None => mret (EINVAL, None)
  end.

Definition x_tls_connect (ctx socket : ptr) (hostname : cstr) : M Z :=
  if (ctx =? NULL) || (socket =? NULL) || is_null hostname then mret EINVAL
  else
    modify x_tls_context ctx (fun c => XTlsContext (tc_hooks c) socket);;
    c ← load x_tls_context ctx;
    let k := tc_hooks c in
    invoke (hk_connect k) [ctx; socket; hk_user_data k]
      (hook_connect (hk_connect k) ctx socket (txt hostname) (hk_user_data k)).

Definition x_tls_accept (ctx socket : ptr) : M Z :=
  if (ctx =? NULL) || (socket =? NULL) then mret EINVAL
  else
    modify x_tls_context ctx (fun c => XTlsContext (tc_hooks c) socket);;
    c ← load x_tls_context ctx;
    let k := tc_hooks c in
    invoke (hk_accept k) [ctx; socket; hk_user_data k]
      (hook_accept (hk_accept k) ctx socket (hk_user_data k)).

(** Returns the code, [*bytes_read] and the data the hook delivered. *)
Definition x_tls_read (ctx : ptr) (buffer : bool) (size : Z) (bytes_read : bool)
    : M (Z * option Z * text) :=
  if (ctx =? NULL) || negb buffer then mret (EINVAL, None, [])
  else
    c ← load x_tls_context ctx;
    let k := tc_hooks c in
    r ← invoke (hk_read k) [ctx; size; hk_user_data k]
          (hook_read (hk_read k) ctx size bytes_read (hk_user_data k));
    mret (r.1.1, if bytes_read then Some (default 0 r.1.2) else None, r.2).

Definition x_tls_write (ctx : ptr) (buffer : cstr) (size : Z) (bytes_written : bool)
    : M (Z * option Z) :=
  if (ctx =? NULL) || is_null buffer then mret (EINVAL, None)
  else
    c ← load x_tls_context ctx;
    let k := tc_hooks c in
    r ← invoke (hk_write k) [ctx; size; hk_user_data k]
          (hook_write (hk_write k) ctx (txt buffer) size bytes_written (hk_user_data k));
    mret (r.1, if bytes_written then Some (default 0 r.2) else None).

Definition x_tls_close (ctx : ptr) : M unit :=
  if ctx =? NULL then mret tt
  else
    c ← load x_tls_context ctx;
    let k := tc_hooks c in
    invoke (hk_close k) [ctx; hk_user_data k] (hook_close (hk_close k) ctx (hk_user_data k));;
    modify x_tls_context ctx (fun c => XTlsContext (tc_hooks c) NULL).

Definition x_tls_context_destroy (ctx : ptr) : M unit :=
  if ctx =? NULL then mret tt else free ctx.

(** ** A session *)

(** A backend that ends its calls and leaves the context alone. *)
Definition leaves (ctx : ptr) (s s' : st) : Prop :=
  hp s' !! ctx = hp s !! ctx /\ calls (tr s') = calls (tr s).

Record backend_ok (ctx : ptr) : Prop := {
  bo_connect f sk host ud s : wp Total (hook_connect f ctx sk host ud) (fun rc s' => 0 <= rc /\ leaves ctx s s') s;
  bo_read f n b ud s : wp Total (hook_read f ctx n b ud) (fun r s' => 0 <= r.1.1 /\ leaves ctx s s') s;
  bo_write f data n b ud s : wp Total (hook_write f ctx data n b ud) (fun r s' => 0 <= r.1 /\ leaves ctx s s') s;
  bo_close f ud s : wp Total (hook_close f ctx ud) (fun _ => leaves ctx s) s
}.

(** One operation each. *)
Lemma wp_tls_connect ctx (c : x_tls_context) sk host e h t (Q : Z -> st -> Prop) :
  backend_ok ctx -> h !! ctx = Some (to_obj c) -> ctx <> NULL -> sk <> NULL ->
  (forall rc e' h' t', h' !! ctx = Some (to_obj (XTlsContext (tc_hooks c) sk)) ->
     calls t' = (hk_connect (tc_hooks c), [ctx; sk; hk_user_data (tc_hooks c)]) :: calls t ->
     Q rc (St e' h' t')) ->
  wp Total (x_tls_connect ctx sk (Some host)) Q (St e h t).
Proof.
  intros Hb Hc Hn Hs HQ. unfold x_tls_connect. apply Z.eqb_neq in Hn as ->. apply Z.eqb_neq in Hs as ->.
  cbn [orb negb is_null]. wp_step. wp_step. wp_step. eapply wp_load; [by rewrite lookup_insert_eq|].
  apply wp_invoke. eapply wp_mono; [by apply bo_connect|].
  intros rc [e1 h1 t1] (_ & Hh & Ht). cbn [hp tr] in *. apply HQ; [by rewrite Hh, lookup_insert_eq|done].
Qed.

Lemma wp_tls_write ctx (c : x_tls_context) data n e h t (Q : Z * option Z -> st -> Prop) :
  backend_ok ctx -> h !! ctx = Some (to_obj c) -> ctx <> NULL ->
  (forall r e' h' t', h' !! ctx = Some (to_obj c) ->
     calls t' = (hk_write (tc_hooks c), [ctx; n; hk_user_data (tc_hooks c)]) :: calls t ->
     Q r (St e' h' t')) ->
  wp Total (x_tls_write ctx (Some data) n true) Q (St e h t).
Proof.
  intros Hb Hc Hn HQ. unfold x_tls_write. apply Z.eqb_neq in Hn as ->.
  cbn [orb negb is_null]. wp_step. wp_step. wp_step. apply wp_invoke. eapply wp_mono; [by apply bo_write|].
  intros rc [e1 h1 t1] (_ & Hh & Ht). cbn [hp tr] in *. wp_step. apply HQ; [congruence|done].
Qed.

Lemma wp_tls_read ctx (c : x_tls_context) n e h t (Q : Z * option Z * text -> st -> Prop) :
  backend_ok ctx -> h !! ctx = Some (to_obj c) -> ctx <> NULL ->
  (forall r e' h' t', h' !! ctx = Some (to_obj c) ->
     calls t' = (hk_read (tc_hooks c), [ctx; n; hk_user_data (tc_hooks c)]) :: calls t ->
     Q r (St e' h' t')) ->
  wp Total (x_tls_read ctx true n true) Q (St e h t).
Proof.
  intros Hb Hc Hn HQ. unfold x_tls_read. apply Z.eqb_neq in Hn as ->.
  cbn [orb negb is_null]. wp_step. wp_step. wp_step. apply wp_invoke. eapply wp_mono; [by apply bo_read|].
  intros rc [e1 h1 t1] (_ & Hh & Ht). cbn [hp tr] in *. wp_step. apply HQ; [congruence|done].
Qed.

Lemma wp_tls_close ctx (c : x_tls_context) e h t (Q : unit -> st -> Prop) :
  backend_ok ctx -> h !! ctx = Some (to_obj c) -> ctx <> NULL ->
  (forall e' h' t', h' !! ctx = Some (to_obj (XTlsContext (tc_hooks c) NULL)) ->
     calls t' = (hk_close (tc_hooks c), [ctx; hk_user_data (tc_hooks c)]) :: calls t ->
     Q tt (St e' h' t')) ->
  wp Total (x_tls_close ctx) Q (St e h t).
Proof.
  intros Hb Hc Hn HQ. unfold x_tls_close. apply Z.eqb_neq in Hn as ->.
  cbn [orb negb is_null]. wp_step. wp_step. wp_step. apply wp_invoke. eapply wp_mono; [by apply bo_close|].
  intros rc [e1 h1 t1] (Hh & Ht). cbn [hp tr] in *.
  eapply (wp_modify _ _ c); [congruence|]. apply HQ; [by rewrite lookup_insert_eq|done].
Qed.

(** A client: handshake, one request, one answer, shutdown. *)
Definition tls_session (hooks : x_tls_hooks) (socket : ptr) (hostname request : text) (size : Z)
    : M (Z * option ptr * Z) :=
  r ← x_tls_context_create true (Some hooks);
  if r.1 =? 0 then
    let ctx := default NULL r.2 in
    rc ← x_tls_connect ctx socket (Some hostname);
    _ ← x_tls_write ctx (Some request) (strlen request) true;
    _ ← x_tls_read ctx true size true;
    x_tls_close ctx;;
    x_tls_context_destroy ctx;;
    mret (0, r.2, rc)
  else mret (r.1, r.2, 0).

(** The operations of a session reach exactly the functions the context was
    created with, each once, in order, with the context and the caller's user
    data, although the caller's hooks structure is not kept; the context is gone
    at the end.  Hooks with a NULL function are refused, and a failure to create
    the context calls nothing. *)
Theorem tls_session_calls hooks socket hostname request size s :
  (forall ctx, backend_ok ctx) -> socket <> NULL ->
  wp Total (tls_session hooks socket hostname request size)
    (fun r s' =>
      let '(rc, out, handshake) := r in
      let k := hooks in
      (rc = 0 /\ (hk_connect k <> 0 /\ hk_accept k <> 0 /\ hk_read k <> 0 /\ hk_write k <> 0 /\ hk_close k <> 0) /\
       exists ctx, out = Some ctx /\ hp s !! ctx = None /\ hp s' !! ctx = None /\
         calls (tr s') =
           [(hk_close k, [ctx; hk_user_data k]);
            (hk_read k, [ctx; size; hk_user_data k]);
            (hk_write k, [ctx; strlen request; hk_user_data k]);
            (hk_connect k, [ctx; socket; hk_user_data k])] ++ calls (tr s)) \/
      (0 < rc /\ hp s' = hp s /\ calls (tr s') = calls (tr s))) s.
Proof.
  intros Hb Hs. destruct s as [e h t]. unfold tls_session, x_tls_context_create. cbn [negb].
  destruct (_ || (hk_close hooks =? 0)) eqn:E; [wp_run; by right|].
  rewrite !orb_false_iff, !Z.eqb_neq in E. destruct E as [[[[E1 E2] E3] E4] E5].
  wp_step. wp_step. wp_step; [wp_run; by right|]. wp_step. wp_step. wp_step. wp_step.
  rewrite insert_insert_eq. cbn [fst snd Z.eqb default from_option id].
  set (c := XTlsContext hooks NULL). assert (p <> NULL) as Hp by (unfold NULL; lia).
  wp_step. eapply wp_tls_connect; [done|by rewrite lookup_insert_eq|done|done|].
  intros rc e1 h1 t1 Hh1 Ht1. wp_step. eapply wp_tls_write; [done|exact Hh1|done|].
  intros r2 e2 h2 t2 Hh2 Ht2. wp_step. eapply wp_tls_read; [done|exact Hh2|done|].
  intros r3 e3 h3 t3 Hh3 Ht3. wp_step. eapply wp_tls_close; [done|exact Hh3|done|].
  intros e4 h4 t4 Hh4 Ht4. wp_step. unfold x_tls_context_destroy. apply Z.eqb_neq in Hp as En. rewrite En.
  wp_step. wp_step. left. split; [done|]. split; [by split_and!|]. exists p. cbn [hp tr].
  split; [done|]. split; [done|]. split; [by rewrite lookup_delete_eq|].
  cbn [calls]. by rewrite Ht4, Ht3, Ht2, Ht1.
Qed.
End Tls.

(** ** Examples *)

(** Hooks that succeed at once; the read delivers two bytes. *)
Definition demo_connect (f : Z) (ctx sk : ptr) (host : text) (ud : ptr) : M Z := mret 0.
Definition demo_read (f : Z) (ctx : ptr) (n : Z) (b : bool) (ud : ptr) : M (Z * option Z * text) :=
  mret (0, Some 2, str "ok").
Definition demo_write (f : Z) (ctx : ptr) (data : text) (n : Z) (b : bool) (ud : ptr) : M (Z * option Z) :=
  mret (0, Some n).
Definition demo_close (f : Z) (ctx ud : ptr) : M unit := mret tt.
Definition demo_hooks : x_tls_hooks := XTlsHooks 21 22 23 24 25 77.

Lemma demo_backend ctx : backend_ok demo_connect demo_read demo_write demo_close ctx.
Proof. by split. Qed.

Lemma tls_session_calls_witness :
  wp Total (tls_session (os := parent_os) demo_connect demo_read demo_write demo_close
              demo_hooks 5 (str "example.org") (str "GET /") 64)
    (fun r s' =>
      let '(rc, out, handshake) := r in
      let k := demo_hooks in
      (rc = 0 /\ (hk_connect k <> 0 /\ hk_accept k <> 0 /\ hk_read k <> 0 /\ hk_write k <> 0 /\ hk_close k <> 0) /\
       exists ctx, out = Some ctx /\ hp st0 !! ctx = None /\ hp s' !! ctx = None /\
         calls (tr s') = [(25, [ctx; 77]); (23, [ctx; 64; 77]); (24, [ctx; 5; 77]); (21, [ctx; 5; 77])] ++ []) \/
      (0 < rc /\ hp s' = hp st0 /\ calls (tr s') = [])) st0.
Proof. apply (tls_session_calls (os := parent_os)); [apply demo_backend|done]. Defined.
