(* ===== verification/XHooks.v ===== *)
(** * Global hooks: the allocator, logging, diagnostics and tracing
      (src/x_allocator.c, src/x_diagnostics.c)

    The static variables of both files are explicit states; the functions that
    the hooks point to are parameters. *)
From S2P Require Import Prelude Syscalls Structs Machine Contract XTime XDynLib DemoOS.

(** ** The allocator *)

Record x_allocator := XAllocator
  { al_alloc : Z; al_realloc : Z; al_free : Z; al_user_data : ptr }.

(** The static default functions as function pointers, values no function of the
    user has. *)
Definition x_allocator_default_alloc : Z := -2.
Definition x_allocator_default_realloc : Z := -3.
Definition x_allocator_default_free : Z := -4.

Definition x_allocator_reset (current : x_allocator) : x_allocator :=
  XAllocator x_allocator_default_alloc x_allocator_default_realloc x_allocator_default_free NULL.

Definition x_allocator_set (allocator : option x_allocator) (current : x_allocator) : x_allocator :=
  match allocator with
  | None => x_allocator_reset current
  | Some a => a
  end.

Definition x_allocator_get (current : x_allocator) : x_allocator := current.

Section Allocator.
Context {os : OS}.
Variable user_alloc : Z -> Z -> ptr -> M ptr.
Variable user_realloc : Z -> ptr -> Z -> ptr -> M ptr.
Variable user_free : Z -> ptr -> ptr -> M unit.

(** [realloc] of character data. *)
Definition realloc (old : ptr) (size : Z) : M ptr :=
  if old =? NULL then malloc size
  else
    content ← load text old;
    new ← malloc size;
    if new =? NULL then mret NULL
    else write_bytes new 0 (take (Z.to_nat size) content);; free old;; mret new.

Definition x_alloc (current : x_allocator) (size : Z) : M ptr :=
  let f := al_alloc current in
  if f =? x_allocator_default_alloc then malloc size
  else invoke f [size; al_user_data current] (user_alloc f size (al_user_data current)).

Definition x_realloc (current : x_allocator) (p : ptr) (size : Z) : M ptr :=
  let f := al_realloc current in
  if f =? x_allocator_default_realloc then realloc p size
  else invoke f [p; size; al_user_data current] (user_realloc f p size (al_user_data current)).

Definition x_free (current : x_allocator) (p : ptr) : M unit :=
  let f := al_free current in
  if f =? x_allocator_default_free then free p
  else invoke f [p; al_user_data current] (user_free f p (al_user_data current)).

(** Memory from the default allocator, resized and released: the old content is
    kept up to the shorter size and nothing is left behind, whichever of the two
    allocations fails. *)
Definition alloc_cycle (current : x_allocator) (data : text) (size : Z) : M (option text) :=
  p ← x_alloc current (strlen data);
  if p =? NULL then mret None
  else
    write_bytes p 0 data;;
    q ← x_realloc current p size;
    if q =? NULL then x_free current p;; mret None
    else
      content ← load text q;
      x_free current q;; mret (Some content).

Theorem default_allocator_cycle allocator data size s :
  0 <= size ->
  wp Total (alloc_cycle (x_allocator_set None allocator) data size)
    (fun r s' => hp s' = hp s /\ held (tr s') = held (tr s) /\ calls (tr s') = calls (tr s) /\
       match r with
       | Some content => length content = Z.to_nat size /\
           take (Z.to_nat size `min` length data) content = take (Z.to_nat size) data
       | None => True
       end) s.
Proof.
  intros Hsize. destruct s as [e h t]. unfold alloc_cycle, x_alloc, x_realloc, x_free, realloc.
  cbn [al_alloc al_realloc al_free x_allocator_set x_allocator_reset]. rewrite !Z.eqb_refl.
  wp_step. wp_step; [wp_run; by split_and!; cbn; held_simpl|]. wp_step.
  assert (p <> NULL) as Hp by (unfold NULL; lia). wp_step.
  eapply wp_write_bytes; [by rewrite lookup_insert_eq|lia|unfold strlen in *; lia|].
  rewrite insert_insert_eq, take_0, drop_ge by (unfold strlen in *; lia). cbn [app]. rewrite app_nil_r.
  wp_step. wp_step. eapply (wp_load _ _ data); [by rewrite lookup_insert_eq|]. wp_step. wp_step.
  { wp_run. cbn [hp tr]. split_and!; [by rewrite delete_insert_eq, delete_id|by held_simpl|done|done]. }
  apply lookup_insert_None in Hnew0 as [Hnew0 Hne].
  assert (p0 <> NULL) as Hp0 by (unfold NULL; lia). pose proof Hp0 as En. apply Z.eqb_neq in En. rewrite En.
  wp_step. eapply wp_write_bytes; [by rewrite lookup_insert_eq|lia| |].
  { unfold strlen. rewrite length_take, Hlen0. lia. }
  rewrite insert_insert_eq, take_0. cbn [app Z.to_nat Nat.add].
  set (content := take (Z.to_nat size) data ++ _).
  wp_step. eapply wp_free; [by rewrite lookup_insert_ne, lookup_insert_eq by done|unfold NULL; lia|].
  wp_step. rewrite En. wp_step.
  eapply (wp_load _ _ content); [by rewrite lookup_delete_ne, lookup_insert_eq by done|].
  wp_step. eapply wp_free; [by rewrite lookup_delete_ne, lookup_insert_eq by done|done|].
  wp_step. cbn [hp tr].
  assert (length content = Z.to_nat size) as Hc.
  { unfold content. rewrite length_app, length_take, length_drop, Hlen0. lia. }
  split_and!; [|by held_simpl|done|done|].
  - rewrite delete_delete, delete_insert_eq, (delete_id _ p0), delete_insert_eq, delete_id; [done..|].
    by rewrite lookup_insert_ne by done.
  - unfold content. rewrite take_app_le by (rewrite length_take; lia). rewrite take_take.
    destruct (decide (Z.to_nat size <= length data)%nat); [f_equal; lia|by rewrite !take_ge by lia].
Qed.

(** With a custom allocator every allocation, resize and release is one call of
    its function with the caller's user data, and the C allocator is not used. *)
Lemma custom_allocator_dispatch a current n p s :
  al_alloc a <> x_allocator_default_alloc -> al_realloc a <> x_allocator_default_realloc ->
  al_free a <> x_allocator_default_free ->
  let c := x_allocator_get (x_allocator_set (Some a) current) in
  x_alloc c n s = invoke (al_alloc a) [n; al_user_data a] (user_alloc (al_alloc a) n (al_user_data a)) s /\
  x_realloc c p n s =
    invoke (al_realloc a) [p; n; al_user_data a] (user_realloc (al_realloc a) p n (al_user_data a)) s /\
  x_free c p s = invoke (al_free a) [p; al_user_data a] (user_free (al_free a) p (al_user_data a)) s.
Proof.
  intros H1 H2 H3. cbn. unfold x_alloc, x_realloc, x_free.
  apply Z.eqb_neq in H1 as ->. apply Z.eqb_neq in H2 as ->. by apply Z.eqb_neq in H3 as ->.
Qed.
End Allocator.

(** ** Logging, diagnostics, tracing *)

(** The static variables of src/x_diagnostics.c. *)
Record hooks := Hooks
  { log_hook : Z; log_user_data : ptr; diag_hook : Z; diag_user_data : ptr;
    trace_hook : Z; trace_user_data : ptr }.

Definition x_log_set_hook (hook : Z) (user_data : ptr) (h : hooks) : hooks :=
  Hooks hook user_data (diag_hook h) (diag_user_data h) (trace_hook h) (trace_user_data h).
Definition x_diag_set_hook (hook : Z) (user_data : ptr) (h : hooks) : hooks :=
  Hooks (log_hook h) (log_user_data h) hook user_data (trace_hook h) (trace_user_data h).
Definition x_trace_set_hook (hook : Z) (user_data : ptr) (h : hooks) : hooks :=
  Hooks (log_hook h) (log_user_data h) (diag_hook h) (diag_user_data h) hook user_data.
Definition x_log_get_hook (h : hooks) : Z := log_hook h.
Definition x_diag_get_hook (h : hooks) : Z := diag_hook h.
Definition x_trace_get_hook (h : hooks) : Z := trace_hook h.

Record x_diag_event := XDiagEvent
  { ev_operation : text; ev_error_code : Z; ev_context : cstr }.

Section Diagnostics.
Context {os : OS}.
Variable on_log : Z -> Z -> text -> text -> ptr -> M unit.
Variable on_diag : Z -> x_diag_event -> ptr -> M unit.
Variable on_trace : Z -> Z -> text -> Z -> ptr -> M unit.

(** [vsnprintf (buffer, size, ...)] with the text [expansion] that the format and
    its arguments stand for: the C string it leaves. *)
Definition vsnprintf (size : nat) (expansion : text) : text := take (size - 1) expansion.

Definition x_log_emit (h : hooks) (level : Z) (module format : cstr) (expansion : text) : M unit :=
  if (log_hook h =? 0) || is_null format then mret tt
  else
    let buffer := vsnprintf 512 expansion in
    invoke (log_hook h) [level; log_user_data h]
      (on_log (log_hook h) level (if negb (is_null module) then txt module else str "xlib")
         buffer (log_user_data h)).

Definition x_diag_emit (h : hooks) (operation : cstr) (error_code : Z) (context : cstr) : M unit :=
  if (diag_hook h =? 0) || is_null operation || (error_code =? 0) then mret tt
  else
    invoke (diag_hook h) [error_code; diag_user_data h]
      (on_diag (diag_hook h) (XDiagEvent (txt operation) error_code context) (diag_user_data h)).

Definition x_trace_emit (h : hooks) (phase : Z) (function : cstr) : M unit :=
  if (trace_hook h =? 0) || is_null function then mret tt
  else
    now ← x_time_monotonic_ns true;
    let timestamp := default 0 now.2 in
    invoke (trace_hook h) [phase; timestamp; trace_user_data h]
      (on_trace (trace_hook h) phase (txt function) timestamp (trace_user_data h)).

(** A trace always reaches the hook once, with the time the clock gives or 0 when
    it fails; without a hook, or without a name, the clock is not even read. *)
Lemma x_trace_emit_spec h phase function s :
  (forall f p n ts ud s, wp Total (on_trace f p n ts ud) (fun _ s' => keeps s s') s) ->
  wp Total (x_trace_emit h phase function)
    (fun _ s' => hp s' = hp s /\
       if (trace_hook h =? 0) || is_null function then s' = s
       else exists ts, is_u64 ts /\
         calls (tr s') = (trace_hook h, [phase; ts; trace_user_data h]) :: calls (tr s)) s.
Proof.
  intros Hq. destruct s as [e hh t]. unfold x_trace_emit.
  destruct ((trace_hook h =? 0) || is_null function); [by wp_step|].
  wp_step. apply wp_time_monotonic. intros [rc now] [e1 h1 t1] (Hh & Ht & Hnow). cbn [fst snd hp tr] in *.
  subst h1. apply wp_invoke. eapply wp_mono; [apply Hq|]. intros ? [e2 h2 t2] [Hh2 Ht2]. cbn [hp tr] in *.
  split; [done|]. exists (default 0 now). split.
  - destruct Hnow as [(_ & ts & -> & Hts)|[_ Hn]]; cbn; [done|]. rewrite Hn. by unfold is_u64.
  - by rewrite (inert_ext_calls _ _ Ht2), <- (inert_ext_calls _ _ Ht).
Qed.
End Diagnostics.

(** ** Examples *)

Definition default_allocator : x_allocator := x_allocator_reset (XAllocator 1 2 3 4).
Definition no_alloc (f n : Z) (ud : ptr) : M ptr := mret NULL.
Definition no_realloc (f : Z) (p : ptr) (n : Z) (ud : ptr) : M ptr := mret NULL.
Definition no_free (f : Z) (p ud : ptr) : M unit := mret tt.

Lemma default_allocator_cycle_witness :
  wp Total (alloc_cycle (os := parent_os) no_alloc no_realloc no_free
              (x_allocator_set None (XAllocator 1 2 3 4)) (str "frame") 3)
    (fun r s' => hp s' = hp st0 /\ held (tr s') = held (tr st0) /\ calls (tr s') = calls (tr st0) /\
       match r with
       | Some content => length content = 3%nat /\ take 3 content = str "fra"
       | None => True
       end) st0.
Proof. by apply (default_allocator_cycle (os := parent_os) no_alloc no_realloc no_free (XAllocator 1 2 3 4) (str "frame") 3 st0). Defined.

(** A message of more than 511 characters reaches the hook cut. *)
Example log_cut :
  x_log_emit (fun _ _ m text _ s => Done tt (St (strlen text) (hp s) (tr s)))
    (x_log_set_hook 31 9 (Hooks 0 0 0 0 0 0)) 2 None (Some (str "%s")) (replicate 600 "x"%char) st0 =
  Done tt (St 511 ∅ [EvCall 31 [2; 9]]).
Proof. by vm_compute. Qed.
