(* ===== verification/XTerminal.v ===== *)
(** * Terminals (src/x_terminal.c, POSIX build) *)
From S2P Require Import Prelude Syscalls Structs Machine Contract DemoOS.

Definition x_terminal_fd (stream : Z) : Z :=
  if stream =? 0 then 0
  else if stream =? 1 then 1
  else if stream =? 2 then 2
  else -1.

Section Terminal.
Context {os : OS}.

Definition x_terminal_is_tty (stream : Z) : M Z :=
  let fd := x_terminal_fd stream in
  if fd <? 0 then mret 0
  else r ← sys (Sisatty fd); mret (if negb (r =? 0) then 1 else 0).

(** Returns the code, [*columns] and [*rows]. *)
Definition x_terminal_size (stream : Z) (columns rows : bool) : M (Z * option (Z * Z)) :=
  if negb columns || negb rows then mret (EINVAL, None)
  else
    let fd := x_terminal_fd stream in
    if fd <? 0 then mret (EINVAL, Some (0, 0))
    else
      size ← sys (Sioctl_winsize fd);
      if negb (size.1 =? 0) then
        e ← get_errno; mret (if e =? 0 then ENOTTY else e, Some (0, 0))
      else mret (0, Some size.2).

(** Whatever the stream, the outputs are defined: the window's size on success,
    (0, 0) with a positive code on failure; the kernel is asked only about the
    three standard streams, and nothing else changes. *)
Theorem x_terminal_size_spec stream s :
  wp Total (x_terminal_size stream true true)
    (fun r s' => keeps s s' /\
       exists size, r.2 = Some size /\
         ((0 < r.1 /\ size = (0, 0)) \/
          (r.1 = 0 /\ 0 <= stream <= 2 /\ tr s' = Ev (Sioctl_winsize stream) (0, size) :: tr s))) s.
Proof.
  destruct s as [e h t]. unfold x_terminal_size. cbn [negb orb].
  assert (x_terminal_fd stream = stream /\ 0 <= stream <= 2 \/ x_terminal_fd stream = -1) as Hfd.
  { unfold x_terminal_fd.
    destruct (Z.eqb_spec stream 0); [lia|]. destruct (Z.eqb_spec stream 1); [lia|].
    destruct (Z.eqb_spec stream 2); lia. }
  destruct Hfd as [[-> Hs]| ->].
  - wp_run; [lia| |]; (split; [keeps_solve|]).
    + eexists. split; [done|]. left. split; [|done]. cbn.
      destruct (Z.eqb_spec e0 0); [done|]. destruct Hpost as [?|[_ ?]]; lia.
    + destruct r as [rc size]. cbn in *. subst. exists size. split; [done|]. by right.
  - change (-1 <? 0) with true. cbn iota. wp_run. split; [keeps_solve|]. exists (0, 0). split; [done|]. by left.
Qed.
End Terminal.
