(* ===== verification/WinTerminal.v ===== *)
(** * src/x_terminal.c, Windows build

    The console calls are the boundary of Win32.v; [_fileno] and [_isatty] of the
    C run-time library are parameters. *)
From S2P Require Import Prelude Win32 Syscalls Structs Machine Contract WinBase DemoOS.

Section Terminal.
Context {os : OS}.
(** Descriptors of the standard streams, negative for a stream without one. *)
Variable fileno : Z -> Z.
Variable isatty : Z -> Z.

Definition x_terminal_fd (stream : Z) : Z :=
  if stream =? 0 then fileno 0
  else if stream =? 1 then fileno 1
  else if stream =? 2 then fileno 2
  else -1.

Definition x_terminal_is_tty (stream : Z) : Z :=
  let fd := x_terminal_fd stream in
  if fd <? 0 then 0 else if negb (isatty fd =? 0) then 1 else 0.

(** Returns the code, [*columns] and [*rows]. *)
Definition x_terminal_size (stream : Z) (columns rows : bool) : M (Z * option (Z * Z)) :=
  if negb columns || negb rows then mret (EINVAL, None)
  else
    let fd := x_terminal_fd stream in
    if fd <? 0 then mret (EINVAL, Some (0, 0))
    else
      handle ← (if stream =? 0 then win (GetStdHandle STD_INPUT_HANDLE)
                else if stream =? 1 then win (GetStdHandle STD_OUTPUT_HANDLE)
                else win (GetStdHandle STD_ERROR_HANDLE));
      if (handle =? NULL) || (handle =? INVALID_HANDLE_VALUE) then mret (ENOTTY, Some (0, 0))
      else
        info ← win (GetConsoleScreenBufferInfo handle);
        if negb info.1 then mret (ENOTTY, Some (0, 0))
        else
          let '(Left, Top, Right, Bottom) := info.2 in
          mret (0, Some (Right - Left + 1, Bottom - Top + 1)).

(** Whatever the stream and the console, the outputs are defined: the visible
    window on success, (0, 0) with a code on failure; nothing is changed. *)
Theorem win_terminal_size_spec stream s :
  wp Total (x_terminal_size stream true true)
    (fun r s' => keeps s s' /\
       ((r.1 = EINVAL /\ r.2 = Some (0, 0) /\ s' = s /\ x_terminal_fd stream < 0) \/
        (r.1 = ENOTTY /\ r.2 = Some (0, 0)) \/
        (r.1 = 0 /\ 0 <= stream <= 2 /\ exists handle Left Top Right Bottom,
           head (tr s') = Some (Ev (W (GetConsoleScreenBufferInfo handle)) (true, (Left, Top, Right, Bottom))) /\
           r.2 = Some (Right - Left + 1, Bottom - Top + 1)))) s.
Proof.
  destruct s as [e h t]. unfold x_terminal_size. cbn [negb orb].
  destruct (Z.ltb_spec (x_terminal_fd stream) 0) as [Hfd|Hfd]; [wp_step; split; [apply keeps_refl|by left]|].
  assert (0 <= stream <= 2) as Hs.
  { unfold x_terminal_fd in Hfd. destruct (Z.eqb_spec stream 0); [lia|].
    destruct (Z.eqb_spec stream 1); [lia|]. destruct (Z.eqb_spec stream 2); lia. }
  wp_step. apply (wp_mono _ _ (fun (_ : Z) s' => keeps (St e h t) s')).
  { win_run; keeps_solve. }
  intros handle [e1 h1 t1] [Hh Ht]. cbn [hp tr] in *. subst h1.
  assert (forall e' t', inert_ext t1 t' -> keeps (St e h t) (St e' h t')) as Hk.
  { intros e' t' Ht'. split; [done|]. by eapply inert_ext_trans. }
  win_run; try (split; [apply Hk; auto with xlib|]; right; left; done).
  destruct r as [found [[[Left Top] Right] Bottom]]. cbn [fst snd] in *. subst.
  wp_run. split; [apply Hk; auto with xlib|]. right; right. split; [done|]. split; [done|].
  by exists handle, Left, Top, Right, Bottom.
Qed.
End Terminal.

Example win_terminal_size_demo :
  x_terminal_size (os := calm_os) (fun fd => fd) 1 true true st0 =
    Done (0, Some (80, 25))
      (St 0 ∅ [Ev (W (GetConsoleScreenBufferInfo (-10))) (true, (0, 0, 79, 24)); Ev (W (GetStdHandle STD_OUTPUT_HANDLE)) (-10)]).
Proof. by vm_compute. Qed.
