(* ===== verification/XEvent.v ===== *)
(** * The event loop (src/x_event.c, epoll build)

    The sources of a loop are heap structures; the loop owns a growable array of
    pointers to them, an epoll descriptor and a pair of UDP sockets used to wake
    it.  The callbacks are functions of the user: [user] is a parameter that
    gives their meaning, an arbitrary computation on the shared state, which may
    call back into the operations below. *)
From S2P Require Import Prelude Syscalls Structs Machine XTime XNetwork XProcess XWatcher.

(** ** Constants *)

Definition X_EVENT_READ : Z := 1.
Definition X_EVENT_WRITE : Z := 2.
Definition X_EVENT_TIMER : Z := 4.
Definition X_EVENT_PROCESS : Z := 8.
Definition X_EVENT_FILE : Z := 16.
Definition X_EVENT_FILE_CREATED : Z := 32.
Definition X_EVENT_FILE_MODIFIED : Z := 64.
Definition X_EVENT_FILE_DELETED : Z := 128.

Definition EPOLLIN : Z := 1.
Definition EPOLLOUT : Z := 4.
Definition EPOLLERR : Z := 8.
Definition EPOLLHUP : Z := 16.
Definition EPOLL_CLOEXEC : Z := 524288.

(** The static function [x_event_loop_wake_callback] as a function pointer: a
    value no function of the user has. *)
Definition WAKE_CALLBACK : Z := -1.

(** Conversion to [int]. *)
Definition s32 (z : Z) : Z := (z + 2 ^ 31) mod 2 ^ 32 - 2 ^ 31.

Definition sizeof_x_event_loop : Z := 200.
Definition sizeof_x_event_source : Z := 96.

(** ** Helpers *)

Definition x_event_ms_to_ns (milliseconds : Z) : Z :=
  if UINT64_MAX / 1000000 <? milliseconds then UINT64_MAX
  else u64 (milliseconds * 1000000).

Definition x_event_file_flags (watch_events : Z) : Z :=
  let add events w f := if flag watch_events w then Z.lor events f else events in
  add (add (add X_EVENT_FILE X_FILE_WATCH_CREATED X_EVENT_FILE_CREATED)
         X_FILE_WATCH_MODIFIED X_EVENT_FILE_MODIFIED)
    X_FILE_WATCH_DELETED X_EVENT_FILE_DELETED.

Definition x_event_file_watch_callback (path : text) (events pending_events : Z) : Z :=
  Z.lor pending_events events.

Definition x_event_epoll_flags (events : Z) : Z :=
  let flags := if flag events X_EVENT_READ then Z.lor 0 EPOLLIN else 0 in
  if flag events X_EVENT_WRITE then Z.lor flags EPOLLOUT else flags.

(** The flags of one ready event. *)
Definition ready_flags (events : Z) : Z :=
  let flags := if flag events (Z.lor (Z.lor EPOLLIN EPOLLHUP) EPOLLERR)
               then Z.lor 0 X_EVENT_READ else 0 in
  if flag events EPOLLOUT then Z.lor flags X_EVENT_WRITE else flags.

Section Definitions.
Context {os : OS}.

(** ** The array of sources *)

(** [loop->sources[i]] *)
Definition source_at (loop : ptr) (i : nat) : M ptr :=
  l ← load x_event_loop loop; load_elem (el_sources l) (Z.of_nat i).

(** The doubling loop, with fuel for every bit of [size_t]. *)
Definition grow_capacity (capacity needed : Z) : M Z :=
  iterM 65 (fun capacity => if capacity <? needed then mret (inl (u64 (capacity * 2)))
                            else mret (inr capacity)) capacity.

Definition x_event_loop_reserve (loop : ptr) (needed : Z) : M Z :=
  l ← load x_event_loop loop;
  if needed <=? el_capacity l then mret 0
  else
    capacity ← grow_capacity (if el_capacity l =? 0 then 8 else u64 (el_capacity l * 2)) needed;
    sources ← realloc_ptrs (el_sources l) (u64 (capacity * 8)) capacity;
    if sources =? NULL then mret ENOMEM
    else modify x_event_loop loop (el_set_array sources capacity);; mret 0.

(** [loop->sources[loop->count++] = created] *)
Definition push_source (loop created : ptr) : M unit :=
  l ← load x_event_loop loop;
  store_elem (el_sources l) (el_count l) created;;
  modify x_event_loop loop (el_set_count (u64 (el_count l + 1))).

Definition compact_step (loop : ptr) (read_index : nat) (write_index : Z) : M Z :=
  source ← source_at loop read_index;
  x ← load x_event_source source;
  if es_active x then
    l ← load x_event_loop loop;
    store_elem (el_sources l) write_index source;;
    mret (write_index + 1)
  else free source;; mret write_index.

Definition x_event_loop_compact (loop : ptr) : M unit :=
  l ← load x_event_loop loop;
  write_index ← fold_range (Z.to_nat (el_count l)) 0 (compact_step loop) 0;
  modify x_event_loop loop (el_set_count write_index).

Definition is_user_source (x : x_event_source) : bool := es_active x && negb (es_internal x).

Definition x_event_loop_active_user_sources (loop : ptr) : M Z :=
  l ← load x_event_loop loop;
  fold_range (Z.to_nat (el_count l)) 0 (fun i count =>
    source ← source_at loop i;
    x ← load x_event_source source;
    mret (if is_user_source x then count + 1 else count)) 0.

(** ** The epoll backend *)

Definition x_event_backend_add_socket (loop source : ptr) : M Z :=
  l ← load x_event_loop loop;
  x ← load x_event_source source;
  r ← sys (Sepoll_ctl (el_backend_fd l) EPOLL_CTL_ADD (s32 (es_native_handle x))
             (x_event_epoll_flags (es_events x)) source);
  if negb (r =? 0) then get_errno else mret 0.

Definition x_event_backend_remove_socket (loop source : ptr) : M unit :=
  l ← load x_event_loop loop;
  x ← load x_event_source source;
  _ ← sys (Sepoll_ctl (el_backend_fd l) EPOLL_CTL_DEL (s32 (es_native_handle x)) 0 NULL);
  mret tt.

Definition x_event_source_remove (source : ptr) : M unit :=
  if source =? NULL then mret tt
  else
    x ← load x_event_source source;
    if negb (es_active x) then mret tt
    else
      (if es_type x =? X_EVENT_SOURCE_SOCKET
       then x_event_backend_remove_socket (es_loop x) source else mret tt);;
      modify x_event_source source (es_set_active false).

(** ** Adding sources *)

(** [calloc] and the members every source has. *)
Definition x_event_loop_add_socket (loop : ptr) (source : bool) (socket : ptr) (events : Z)
    (callback : Z) (user_data : ptr) : M (Z * option ptr) :=
  if (loop =? NULL) || negb source || (socket =? NULL) || (callback =? 0) then mret (EINVAL, None)
  else if Z.land events (Z.lor X_EVENT_READ X_EVENT_WRITE) =? 0 then mret (EINVAL, None)
  else
    l ← load x_event_loop loop;
    error ← x_event_loop_reserve loop (u64 (el_count l + 1));
    if negb (error =? 0) then mret (error, Some NULL)
    else
      created ← calloc sizeof_x_event_source zero_event_source;
      if created =? NULL then mret (ENOMEM, Some NULL)
      else
        native_handle ← x_socket_native_handle socket;
        store created (XEventSource loop X_EVENT_SOURCE_SOCKET true false events native_handle
                         socket NULL NULL 0 0 callback user_data);;
        error ← x_event_backend_add_socket loop created;
        if negb (error =? 0) then free created;; mret (error, Some NULL)
        else push_source loop created;; mret (0, Some created).

Definition x_event_loop_add_timer (loop : ptr) (source : bool) (delay_ms interval_ms : Z)
    (callback : Z) (user_data : ptr) : M (Z * option ptr) :=
  if (loop =? NULL) || negb source || (callback =? 0) then mret (EINVAL, None)
  else
    l ← load x_event_loop loop;
    error ← x_event_loop_reserve loop (u64 (el_count l + 1));
    if negb (error =? 0) then mret (error, Some NULL)
    else
      now ← x_time_monotonic_ns true;
      if negb (now.1 =? 0) then mret (now.1, Some NULL)
      else
        created ← calloc sizeof_x_event_source zero_event_source;
        if created =? NULL then mret (ENOMEM, Some NULL)
        else
          store created (XEventSource loop X_EVENT_SOURCE_TIMER true false X_EVENT_TIMER 0
                           NULL NULL NULL (u64 (default 0 now.2 + x_event_ms_to_ns delay_ms))
                           (x_event_ms_to_ns interval_ms) callback user_data);;
          push_source loop created;; mret (0, Some created).

Definition x_event_loop_add_process (loop : ptr) (source : bool) (process : ptr) (interval_ms : Z)
    (callback : Z) (user_data : ptr) : M (Z * option ptr) :=
  if (loop =? NULL) || negb source || (process =? NULL) || (callback =? 0) then mret (EINVAL, None)
  else
    l ← load x_event_loop loop;
    error ← x_event_loop_reserve loop (u64 (el_count l + 1));
    if negb (error =? 0) then mret (error, Some NULL)
    else
      now ← x_time_monotonic_ns true;
      if negb (now.1 =? 0) then mret (now.1, Some NULL)
      else
        created ← calloc sizeof_x_event_source zero_event_source;
        if created =? NULL then mret (ENOMEM, Some NULL)
        else
          store created (XEventSource loop X_EVENT_SOURCE_PROCESS true false X_EVENT_PROCESS 0
                           NULL process NULL (default 0 now.2)
                           (x_event_ms_to_ns (if interval_ms =? 0 then 10 else interval_ms))
                           callback user_data);;
          push_source loop created;; mret (0, Some created).

Definition x_event_loop_add_file_watcher (loop : ptr) (source : bool) (watcher : ptr)
    (interval_ms : Z) (callback : Z) (user_data : ptr) : M (Z * option ptr) :=
  if (loop =? NULL) || negb source || (watcher =? NULL) || (callback =? 0) then mret (EINVAL, None)
  else
    l ← load x_event_loop loop;
    error ← x_event_loop_reserve loop (u64 (el_count l + 1));
    if negb (error =? 0) then mret (error, Some NULL)
    else
      now ← x_time_monotonic_ns true;
      if negb (now.1 =? 0) then mret (now.1, Some NULL)
      else
        created ← calloc sizeof_x_event_source zero_event_source;
        if created =? NULL then mret (ENOMEM, Some NULL)
        else
          store created (XEventSource loop X_EVENT_SOURCE_FILE true false X_EVENT_FILE 0
                           NULL NULL watcher (default 0 now.2)
                           (x_event_ms_to_ns (if interval_ms =? 0 then 100 else interval_ms))
                           callback user_data);;
          push_source loop created;; mret (0, Some created).

(** ** Waking, stopping *)

Definition x_event_loop_wake (loop : ptr) : M Z :=
  if loop =? NULL then mret EINVAL
  else
    l ← load x_event_loop loop;
    if el_wake_sender l =? NULL then mret EINVAL
    else
      r ← x_socket_send_to (el_wake_sender l) (Some (el_wake_address l)) (Some (str "w")) 1 true;
      mret r.1.

Definition x_event_loop_cancel (loop : ptr) : M Z :=
  if loop =? NULL then mret EINVAL
  else modify x_event_loop loop (el_set_stop true);; x_event_loop_wake loop.

Definition x_event_loop_stop (loop : ptr) : M unit :=
  if negb (loop =? NULL)
  then modify x_event_loop loop (el_set_stop true);; _ ← x_event_loop_wake loop; mret tt
  else mret tt.

Definition x_event_loop_wake_callback (fuel : nat) (loop source events : Z) (user_data : ptr) : M Z :=
  iterM fuel (fun _ : unit =>
    owner ← load x_event_loop user_data;
    r ← x_socket_receive_from (el_wake_receiver owner) true true 64 true;
    let '(error, _, received, _) := r in
    if (error =? EWOULDBLOCK) || (error =? EAGAIN) then mret (inr 0)
    else if negb (error =? 0) then mret (inr error)
    else if default 0 received =? 0 then mret (inr 0)
    else mret (inl tt)) tt.

(** ** Creation and destruction *)

(** The steps that may fail once both sockets exist, up to the first error. *)
Definition create_setup (created receiver : ptr) : M Z :=
  b ← x_address_resolve true (Some (str "127.0.0.1")) (Some (str "0")) X_SOCKET_UDP 0;
  error ← (if b.1 =? 0 then x_socket_bind receiver b.2 else mret b.1);
  error ← (if error =? 0 then
             a ← x_socket_local_address receiver true;
             modify x_event_loop created
               (fun l => el_set_address (default (el_wake_address l) a.2) l);;
             mret a.1
           else mret error);
  error ← (if error =? 0 then x_socket_set_nonblocking receiver true else mret error);
  if error =? 0 then
    a ← x_event_loop_add_socket created true receiver X_EVENT_READ WAKE_CALLBACK created;
    modify x_event_loop created (el_set_source (default NULL a.2));;
    mret a.1
  else mret error.

Definition x_event_loop_create (loop : bool) : M (Z * option ptr) :=
  if negb loop then mret (EINVAL, None)
  else
    created ← calloc sizeof_x_event_loop zero_event_loop;
    if created =? NULL then mret (ENOMEM, Some NULL)
    else
      fd ← sys (Sepoll_create1 EPOLL_CLOEXEC);
      modify x_event_loop created (el_set_backend fd);;
      if fd <? 0 then error ← get_errno; free created;; mret (error, Some NULL)
      else
        r ← x_socket_udp true;
        modify x_event_loop created (el_set_receiver (default NULL r.2));;
        if negb (r.1 =? 0) then
          _ ← sys (Sclose fd); free created;; mret (r.1, Some NULL)
        else
          let receiver := default NULL r.2 in
          r ← x_socket_udp true;
          modify x_event_loop created (el_set_sender (default NULL r.2));;
          if negb (r.1 =? 0) then
            x_socket_close receiver;; _ ← sys (Sclose fd); free created;; mret (r.1, Some NULL)
          else
            let sender := default NULL r.2 in
            error ← create_setup created receiver;
            if negb (error =? 0) then
              x_socket_close sender;; x_socket_close receiver;; _ ← sys (Sclose fd);
              l ← load x_event_loop created;
              free (el_sources l);; free created;; mret (error, Some NULL)
            else
              l ← load x_event_loop created;
              modify x_event_source (el_wake_source l) (es_set_internal true);;
              mret (0, Some created).

Definition destroy_step (loop : ptr) (i : nat) (_ : unit) : M unit :=
  source ← source_at loop i;
  x ← load x_event_source source;
  (if es_active x && (es_type x =? X_EVENT_SOURCE_SOCKET)
   then x_event_backend_remove_socket loop source else mret tt);;
  free source.

Definition x_event_loop_destroy (loop : ptr) : M unit :=
  if loop =? NULL then mret tt
  else
    l ← load x_event_loop loop;
    fold_range (Z.to_nat (el_count l)) 0 (destroy_step loop) tt;;
    (if 0 <=? el_backend_fd l then _ ← sys (Sclose (el_backend_fd l)); mret tt else mret tt);;
    (if negb (el_wake_sender l =? NULL) then x_socket_close (el_wake_sender l) else mret tt);;
    (if negb (el_wake_receiver l =? NULL) then x_socket_close (el_wake_receiver l) else mret tt);;
    free (el_sources l);;
    free loop.

(** ** Dispatching *)

Definition is_timed (x : x_event_source) : bool :=
  (es_type x =? X_EVENT_SOURCE_TIMER) || (es_type x =? X_EVENT_SOURCE_PROCESS)
  || (es_type x =? X_EVENT_SOURCE_FILE).

Definition x_event_loop_next_timeout_ms (loop : ptr) : M (Z * bool * Z) :=
  now ← x_time_monotonic_ns true;
  if negb (now.1 =? 0) then mret (now.1, false, -1)
  else
    let now := default 0 now.2 in
    l ← load x_event_loop loop;
    r ← for_range (Z.to_nat (el_count l)) 0 (fun i '(has_timeout, best_delta) =>
          source ← source_at loop i;
          x ← load x_event_source source;
          if negb (es_active x) || negb (is_timed x) then mret (inl (has_timeout, best_delta))
          else if es_due_ns x <=? now then mret (inr tt)
          else mret (inl (true, if u64 (es_due_ns x - now) <? best_delta
                                then u64 (es_due_ns x - now) else best_delta)))
          (false, UINT64_MAX);
    match r with
    | inr _ => mret (0, true, 0)
    | inl (has_timeout, best_delta) =>
        if has_timeout : bool then
          let milliseconds := u64 (best_delta + 999999) / 1000000 in
          mret (0, true, if INT_MAX <? milliseconds then INT_MAX else milliseconds)
        else mret (0, false, -1)
    end.

(** [do source->due_ns += source->interval_ns; while (source->due_ns <= now)] *)
Definition rearm (fuel : nat) (now : Z) (source : ptr) : M unit :=
  iterM fuel (fun _ : unit =>
    modify x_event_source source (fun x => es_set_due (u64 (es_due_ns x + es_interval_ns x)) x);;
    x ← load x_event_source source;
    mret (if es_due_ns x <=? now then inl tt else inr tt)) tt.

Section Loop.
(** What the functions of the user do, called with the loop, the source, the
    events and the user data. *)
Variable user : Z -> ptr -> ptr -> Z -> ptr -> M Z.
Variable fuel : nat.

Definition x_event_source_dispatch (source : ptr) (events : Z) : M Z :=
  x ← load x_event_source source;
  if negb (es_active x) || (es_callback x =? 0) then mret 0
  else if es_callback x =? WAKE_CALLBACK
  then x_event_loop_wake_callback fuel (es_loop x) source events (es_user_data x)
  else invoke (es_callback x) [es_loop x; source; events; es_user_data x]
         (user (es_callback x) (es_loop x) source events (es_user_data x)).

Definition dispatch_process (now : Z) (source : ptr) (x : x_event_source) : M (option Z) :=
  r ← x_process_poll fuel (es_process x) true false;
  let '(error, completed, _) := r in
  if negb (error =? 0) then mret (Some error)
  else if negb (default false completed) then
    modify x_event_source source (fun x => es_set_due (u64 (now + es_interval_ns x)) x);;
    mret None
  else
    error ← x_event_source_dispatch source X_EVENT_PROCESS;
    if negb (error =? 0) then mret (Some error)
    else
      x ← load x_event_source source;
      (if es_active x then x_event_source_remove source else mret tt);;
      mret None.

Definition dispatch_file (now : Z) (source : ptr) (x : x_event_source) : M (option Z) :=
  r ← x_file_watcher_poll (es_watcher x)
        (Some (fun path events pending =>
                 mret (x_event_file_watch_callback path events pending))) 0;
  let '(error, pending_events) := r in
  if negb (error =? 0) then mret (Some error)
  else
    error ← (if negb (pending_events =? 0)
             then x_event_source_dispatch source (x_event_file_flags pending_events)
             else mret 0);
    if negb (error =? 0) then mret (Some error)
    else
      x ← load x_event_source source;
      (if es_active x
       then modify x_event_source source (fun x => es_set_due (u64 (now + es_interval_ns x)) x)
       else mret tt);;
      mret None.

Definition dispatch_timer (now : Z) (source : ptr) : M (option Z) :=
  error ← x_event_source_dispatch source X_EVENT_TIMER;
  if negb (error =? 0) then mret (Some error)
  else
    x ← load x_event_source source;
    (if negb (es_active x) then mret tt
     else if es_interval_ns x =? 0 then x_event_source_remove source
     else rearm fuel now source);;
    mret None.

(** One iteration of the loop over the sources; the count is read again each
    time, since callbacks may add sources. *)
Definition dispatch_timers_step (loop : ptr) (now : Z) (i : nat) : M (nat + Z) :=
  l ← load x_event_loop loop;
  if negb (Z.of_nat i <? el_count l) then mret (inr 0)
  else
    source ← source_at loop i;
    x ← load x_event_source source;
    if negb (es_active x) || negb (is_timed x) || (now <? es_due_ns x) then mret (inl (S i))
    else
      error ← (if es_type x =? X_EVENT_SOURCE_PROCESS then dispatch_process now source x
               else if es_type x =? X_EVENT_SOURCE_FILE then dispatch_file now source x
               else dispatch_timer now source);
      match error with
      | Some error => mret (inr error)
      | None => mret (inl (S i))
      end.

Definition x_event_loop_dispatch_timers (loop : ptr) : M Z :=
  now ← x_time_monotonic_ns true;
  if negb (now.1 =? 0) then mret now.1
  else iterM fuel (dispatch_timers_step loop (default 0 now.2)) O.

(** The events [epoll_wait] delivered, in order, up to the first error. *)
Fixpoint dispatch_ready (events : list (Z * ptr)) : M Z :=
  match events with
  | [] => mret 0
  | (ready, source) :: rest =>
      let flags := ready_flags ready in
      if source =? NULL then dispatch_ready rest
      else
        x ← load x_event_source source;
        if es_active x && negb (flags =? 0) then
          error ← x_event_source_dispatch source flags;
          if negb (error =? 0) then mret error else dispatch_ready rest
        else dispatch_ready rest
  end.

Definition x_event_loop_wait_sockets (loop : ptr) (timeout_ms : Z) : M Z :=
  l ← load x_event_loop loop;
  r ← sys (Sepoll_wait (el_backend_fd l) 32 timeout_ms);
  if r.1 <? 0 then e ← get_errno; mret (if e =? EINTR then 0 else e)
  else dispatch_ready r.2.

Definition run_step (loop : ptr) (error : Z) : M (Z + Z) :=
  l ← load x_event_loop loop;
  if el_stop_requested l then mret (inr error)
  else
    n ← x_event_loop_active_user_sources loop;
    if negb (0 <? n) then mret (inr error)
    else
      error ← x_event_loop_dispatch_timers loop;
      l ← load x_event_loop loop;
      if negb (error =? 0) || el_stop_requested l then mret (inr error)
      else
        x_event_loop_compact loop;;
        n ← x_event_loop_active_user_sources loop;
        if n =? 0 then mret (inr error)
        else
          t ← x_event_loop_next_timeout_ms loop;
          let '(error, has_timeout, timeout_ms) := t in
          if negb (error =? 0) then mret (inr error)
          else
            error ← x_event_loop_wait_sockets loop (if has_timeout : bool then timeout_ms else -1);
            if negb (error =? 0) then mret (inr error)
            else
              error ← x_event_loop_dispatch_timers loop;
              if negb (error =? 0) then mret (inr error)
              else x_event_loop_compact loop;; mret (inl error).

Definition x_event_loop_run (loop : ptr) : M Z :=
  if loop =? NULL then mret EINVAL
  else
    modify x_event_loop loop (fun l => el_set_stop false (el_set_running true l));;
    error ← iterM fuel (run_step loop) 0;
    modify x_event_loop loop (el_set_running false);;
    mret error.
End Loop.
End Definitions.
