(* ===== verification/XEventInv.v ===== *)
(** * The event loop: invariant and memory safety of its operations

    [loop_rep] says how a loop is laid out in the heap, [loop_inv] adds what is
    registered with epoll.  Every operation is shown to keep the invariant, so
    that the pointer epoll hands back and the pointers in the array always lead
    to live sources. *)
From S2P Require Import Prelude Syscalls Structs Machine Contract XTime XNetwork XProcess.
From S2P Require Import XWatcher XEvent.

Abbreviation heap := (gmap ptr obj).

(** ** Layout *)

Definition process_live (h : heap) (p : ptr) : Prop :=
  p <> NULL /\ exists x : x_process, h !! p = Some (to_obj x) /\ 0 < pr_pid x.
Definition watcher_live (h : heap) (p : ptr) : Prop :=
  p <> NULL /\ exists x : x_file_watcher, h !! p = Some (to_obj x).
Definition socket_live (h : heap) (p : ptr) : Prop :=
  p <> NULL /\ exists x : x_socket, h !! p = Some (to_obj x).

(** A source of loop [lp]: an active process or file source refers to a live
    process or watcher. *)
Record source_fine (lp : ptr) (h : heap) (x : x_event_source) : Prop := {
  sf_loop : es_loop x = lp;
  sf_wake : es_callback x = WAKE_CALLBACK -> es_user_data x = lp;
  sf_due : is_u64 (es_due_ns x);
  sf_interval : is_u64 (es_interval_ns x);
  sf_process : es_active x = true -> es_type x = X_EVENT_SOURCE_PROCESS ->
    process_live h (es_process x);
  sf_watcher : es_active x = true -> es_type x = X_EVENT_SOURCE_FILE ->
    watcher_live h (es_watcher x)
}.

Definition source_ok (lp : ptr) (h : heap) (p : ptr) : Prop :=
  p <> NULL /\ exists x : x_event_source, h !! p = Some (to_obj x) /\ source_fine lp h x.

(** Loop structure [L] at [lp] with array content [l], whose first
    [loop->count] elements are [srcs]. *)
Record loop_rep (lp : ptr) (L : x_event_loop) (l srcs : list ptr) (h : heap) : Prop := {
  lr_pos : lp <> NULL;
  lr_loop : h !! lp = Some (to_obj L);
  lr_array : (el_capacity L = 0 /\ el_sources L = NULL /\ l = []) \/
             (el_sources L <> NULL /\ h !! el_sources L = Some (to_obj l));
  lr_len : Z.of_nat (length l) = el_capacity L;
  lr_count : 0 <= el_count L <= el_capacity L;
  lr_max : el_capacity L * 8 <= PTRDIFF_MAX;
  lr_srcs : srcs = take (Z.to_nat (el_count L)) l;
  lr_nodup : NoDup srcs;
  lr_sources : Forall (source_ok lp h) srcs;
  lr_receiver : socket_live h (el_wake_receiver L);
  lr_sender : socket_live h (el_wake_sender L);
  lr_distinct : el_wake_receiver L <> el_wake_sender L;
  lr_backend : 0 <= el_backend_fd L
}.

(** What epoll knows: only active socket sources of the array, under the
    descriptor they would be removed with. *)
Definition registered_ok (L : x_event_loop) (srcs : list ptr) (h : heap) (t : list ev) : Prop :=
  forall fd p, registered t (el_backend_fd L) !! fd = Some p ->
    p ∈ srcs /\ exists x : x_event_source, h !! p = Some (to_obj x) /\ es_active x = true /\
      es_type x = X_EVENT_SOURCE_SOCKET /\ s32 (es_native_handle x) = fd.

Definition loop_inv (lp : ptr) (srcs : list ptr) (s : st) : Prop :=
  exists L l, loop_rep lp L l srcs (hp s) /\ registered_ok L srcs (hp s) (tr s).

(** The memory a loop owns. *)
Definition footprint (lp : ptr) (L : x_event_loop) (srcs : list ptr) : list ptr :=
  lp :: el_sources L :: el_wake_receiver L :: el_wake_sender L :: srcs.

(** Live processes and watchers stay live. *)
Definition kept (h h' : heap) : Prop :=
  forall q, (process_live h q -> process_live h' q) /\ (watcher_live h q -> watcher_live h' q).

(** Only the addresses in [F] changed, and never the NULL address. *)
Definition outside (F : list ptr) (h h' : heap) : Prop :=
  forall q, (q ∈ F -> q = NULL) -> h' !! q = h !! q.

Lemma outside_ne (F : list ptr) (p q : ptr) : (q ∈ F -> q = NULL) -> p ∈ F -> p <> NULL -> p <> q.
Proof. intros H Hp Hn ->. auto. Qed.

(** Two heap objects of different kinds are at different addresses. *)
Ltac apart :=
  let E := fresh "E" in intros E;
  match type of E with ?a = ?b =>
    match goal with
    | H1 : ?h !! a = Some _, H2 : ?h !! b = Some _ |- _ => rewrite E, H2 in H1; discriminate H1
    end
  end.

Lemma kept_refl h : kept h h.
Proof. done. Qed.

Lemma kept_trans h1 h2 h3 : kept h1 h2 -> kept h2 h3 -> kept h1 h3.
Proof. intros H1 H2 q. destruct (H1 q), (H2 q). auto. Qed.

(** Writing an object at an address that held neither a process nor a watcher. *)
Definition plain (o : option obj) : Prop :=
  match o with Some (OProcess _) | Some (OFileWatcher _) => False | _ => True end.

Lemma kept_insert h p o : plain (h !! p) -> kept h (<[p := o]> h).
Proof.
  intros Hp q. split; [intros (Hn & x & Hx & Hr)|intros (Hn & x & Hx)]; (split; [done|]);
    exists x; rewrite lookup_insert_ne by (intros ->; rewrite Hx in Hp; done); done.
Qed.

Lemma kept_delete h p : plain (h !! p) -> kept h (delete p h).
Proof.
  intros Hp q. split; [intros (Hn & x & Hx & Hr)|intros (Hn & x & Hx)]; (split; [done|]);
    exists x; rewrite lookup_delete_ne by (intros ->; rewrite Hx in Hp; done); done.
Qed.

Lemma kept_process h p (x : x_process) :
  plain (h !! p) \/ process_live h p -> 0 < pr_pid x -> p <> NULL -> kept h (<[p := to_obj x]> h).
Proof.
  intros [Hp|(_ & y & Hy & _)] Hx Hn; [by apply kept_insert|]. intros q. split.
  - intros (Hq & z & Hz & Hr). split; [done|]. destruct (decide (p = q)) as [->|].
    + exists x. by rewrite lookup_insert_eq.
    + exists z. by rewrite lookup_insert_ne.
  - intros (Hq & z & Hz). split; [done|]. exists z. by rewrite lookup_insert_ne by apart.
Qed.

Lemma kept_watcher h p (x : x_file_watcher) :
  watcher_live h p -> kept h (<[p := to_obj x]> h).
Proof.
  intros (Hn & y & Hy) q. split.
  - intros (Hq & z & Hz & Hr). split; [done|]. exists z. by rewrite lookup_insert_ne by apart.
  - intros (Hq & z & Hz). split; [done|]. destruct (decide (p = q)) as [->|].
    + exists x. by rewrite lookup_insert_eq.
    + exists z. by rewrite lookup_insert_ne.
Qed.

Lemma source_fine_kept lp h h' x : kept h h' -> source_fine lp h x -> source_fine lp h' x.
Proof. intros Hk []. split; auto; intros; by apply Hk; auto. Qed.

Lemma source_ok_kept lp h h' p :
  kept h h' -> h' !! p = h !! p -> source_ok lp h p -> source_ok lp h' p.
Proof.
  intros Hk He (Hn & x & Hx & Hf). split; [done|]. exists x. rewrite He.
  split; [done|]. by eapply source_fine_kept.
Qed.

Lemma loop_rep_in lp L l srcs h p :
  loop_rep lp L l srcs h -> p ∈ srcs -> exists x : x_event_source, h !! p = Some (to_obj x).
Proof.
  intros [] Hp. rewrite Forall_forall in lr_sources0.
  destruct (lr_sources0 _ Hp) as (Hn & x & Hx & Hf). by exists x.
Qed.

Lemma loop_rep_at lp L l srcs h p (x : x_event_source) :
  loop_rep lp L l srcs h -> p ∈ srcs -> h !! p = Some (to_obj x) ->
  p <> NULL /\ source_fine lp h x.
Proof.
  intros [] Hp Hx. rewrite Forall_forall in lr_sources0.
  destruct (lr_sources0 _ Hp) as (Hn & y & Hy & Hf). rewrite Hx in Hy. by simplify_eq.
Qed.

(** ** Changes that keep the layout *)

(** Memory outside the footprint may change, live objects staying live. *)
Lemma loop_rep_frame lp L l srcs h h' :
  loop_rep lp L l srcs h -> kept h h' ->
  (forall q, q ∈ footprint lp L srcs -> q <> NULL -> h' !! q = h !! q) ->
  loop_rep lp L l srcs h'.
Proof.
  intros Hr Hk He. assert (forall q, q ∈ footprint lp L srcs -> q <> NULL -> h' !! q = h !! q) as He' by done.
  destruct Hr. unfold footprint in He.
  assert (socket_live h' (el_wake_receiver L) /\ socket_live h' (el_wake_sender L)) as [Hrv Hsd].
  { destruct lr_receiver0 as (H1 & x & Hx), lr_sender0 as (H2 & y & Hy).
    split; (split; [done|]); [exists x|exists y]; rewrite He; try done; set_solver. }
  split; try done.
  - rewrite He; [done|set_solver|done].
  - destruct lr_array0 as [|[? ?]]; [by left|right]. split; [done|]. rewrite He; [done|set_solver|done].
  - rewrite Forall_forall in *. intros p Hp. eapply source_ok_kept; [done| |by apply lr_sources0].
    apply He; [set_solver|]. by destruct (lr_sources0 _ Hp).
Qed.

(** A source changes. *)
Lemma loop_rep_source lp L l srcs h p (x x' : x_event_source) :
  loop_rep lp L l srcs h -> p ∈ srcs -> h !! p = Some (to_obj x) -> source_fine lp h x' ->
  loop_rep lp L l srcs (<[p := to_obj x']> h).
Proof.
  intros Hr Hp Hx Hf.
  assert (kept h (<[p := to_obj x']> h)) as Hk by (apply kept_insert; by rewrite Hx).
  destruct Hr. destruct lr_receiver0 as (H1 & y & Hy), lr_sender0 as (H2 & z & Hz).
  split; try done.
  - by rewrite lookup_insert_ne by apart.
  - destruct lr_array0 as [|[? ?]]; [by left|right]. split; [done|]. by rewrite lookup_insert_ne by apart.
  - rewrite Forall_forall in *. intros q Hq. destruct (decide (p = q)) as [<-|Hne].
    + split; [by destruct (lr_sources0 _ Hp)|]. exists x'. rewrite lookup_insert_eq.
      split; [done|]. by eapply source_fine_kept.
    + eapply source_ok_kept; [done| |by apply lr_sources0]. by rewrite lookup_insert_ne.
  - split; [done|]. exists y. by rewrite lookup_insert_ne by apart.
  - split; [done|]. exists z. by rewrite lookup_insert_ne by apart.
Qed.

(** The members of the loop that are not the array change. *)
Definition same_members (L L' : x_event_loop) : Prop :=
  el_sources L' = el_sources L /\ el_count L' = el_count L /\ el_capacity L' = el_capacity L /\
  el_wake_receiver L' = el_wake_receiver L /\ el_wake_sender L' = el_wake_sender L /\
  el_backend_fd L' = el_backend_fd L.

Lemma loop_rep_members lp L L' l srcs h :
  loop_rep lp L l srcs h -> same_members L L' ->
  loop_rep lp L' l srcs (<[lp := to_obj L']> h).
Proof.
  intros Hr (E1 & E2 & E3 & E4 & E5 & E6).
  assert (kept h (<[lp := to_obj L']> h)) as Hk by (apply kept_insert; by rewrite (lr_loop _ _ _ _ _ Hr)).
  destruct Hr. destruct lr_receiver0 as (H1 & y & Hy), lr_sender0 as (H2 & z & Hz).
  split; rewrite ?E1, ?E2, ?E3, ?E4, ?E5, ?E6; try done.
  - by rewrite lookup_insert_eq.
  - destruct lr_array0 as [|[? ?]]; [by left|right]. split; [done|]. by rewrite lookup_insert_ne by apart.
  - rewrite Forall_forall in *. intros q Hq. destruct (lr_sources0 _ Hq) as (? & x & Hx & ?).
    eapply source_ok_kept; [done| |by apply lr_sources0]. by rewrite lookup_insert_ne by apart.
  - split; [done|]. exists y. by rewrite lookup_insert_ne by apart.
  - split; [done|]. exists z. by rewrite lookup_insert_ne by apart.
Qed.

(** ** Changes that keep what is registered *)

Lemma registered_ok_sub L srcs h t t' :
  registered_ok L srcs h t ->
  (forall fd p, registered t' (el_backend_fd L) !! fd = Some p ->
     registered t (el_backend_fd L) !! fd = Some p) ->
  registered_ok L srcs h t'.
Proof. intros Hr Hs fd p H. by apply Hr, Hs. Qed.

Lemma registered_ok_source L srcs h t p (x x' : x_event_source) :
  registered_ok L srcs h t -> h !! p = Some (to_obj x) ->
  (es_active x' = es_active x /\ es_type x' = es_type x /\
     es_native_handle x' = es_native_handle x \/
   forall fd, registered t (el_backend_fd L) !! fd <> Some p) ->
  registered_ok L srcs (<[p := to_obj x']> h) t.
Proof.
  intros Hr Hx Hc fd q Hq. destruct (Hr _ _ Hq) as (Hin & y & Hy & H1 & H2 & H3).
  split; [done|]. destruct (decide (p = q)) as [->|Hne].
  - rewrite Hx in Hy. simplify_eq. exists x'. rewrite lookup_insert_eq. split; [done|].
    destruct Hc as [(-> & -> & ->)|Hc]; [done|]. by destruct (Hc _ Hq).
  - exists y. by rewrite lookup_insert_ne.
Qed.

Lemma registered_ok_other L srcs h h' t :
  registered_ok L srcs h t -> (forall p, p ∈ srcs -> h' !! p = h !! p) ->
  registered_ok L srcs h' t.
Proof.
  intros Hr He fd p Hp. destruct (Hr _ _ Hp) as (Hin & x & Hx & Hrest).
  split; [done|]. exists x. by rewrite He.
Qed.

(** ** Removing a source *)

Section Operations.
Context {os : OS}.
Implicit Types (md : wpmode) (h : heap) (t : list ev).

Lemma es_set_active_id b x : es_active x = b -> es_set_active b x = x.
Proof. destruct x. cbn. by intros ->. Qed.

Lemma source_fine_inactive lp h x : source_fine lp h x -> source_fine lp h (es_set_active false x).
Proof. intros []. by split. Qed.

Lemma source_fine_due lp h x d :
  is_u64 d -> source_fine lp h x -> source_fine lp h (es_set_due d x).
Proof. intros Hd []. by split. Qed.

(** [EPOLL_CTL_DEL]: afterwards the descriptor is not registered. *)
Lemma wp_epoll_del ep fd md e h t Q :
  (forall r e', let t' := Ev (Sepoll_ctl ep EPOLL_CTL_DEL fd 0 NULL) r :: t in
     (forall k p, registered t' ep !! k = Some p -> registered t ep !! k = Some p /\ k <> fd) ->
     held t' = held t -> Q r (St e' h t')) ->
  wp md (sys (Sepoll_ctl ep EPOLL_CTL_DEL fd 0 NULL)) Q (St e h t).
Proof.
  intros HQ. apply wp_sys. intros r e' [Hok Hdel] _. apply HQ; [|by held_simpl].
  intros k p. cbn [registered]. rewrite Z.eqb_refl. cbn [andb].
  destruct Hok as [->|[-> _]]; cbn.
  - rewrite lookup_delete_Some. intros []. split; [done|congruence].
  - intros H. split; [done|]. intros ->. by discriminate (Hdel eq_refl (mk_is_Some _ _ H)).
Qed.

Lemma wp_source_remove lp L l srcs p (x : x_event_source) md e h t Q :
  loop_rep lp L l srcs h -> registered_ok L srcs h t -> p ∈ srcs -> h !! p = Some (to_obj x) ->
  (forall e' t', let h' := <[p := to_obj (es_set_active false x)]> h in
     loop_rep lp L l srcs h' -> registered_ok L srcs h' t' -> held t' = held t ->
     calls t' = calls t -> Q tt (St e' h' t')) ->
  wp md (x_event_source_remove p) Q (St e h t).
Proof.
  intros Hr Hreg Hp Hx HQ. destruct (loop_rep_at _ _ _ _ _ _ _ Hr Hp Hx) as [Hn Hf].
  assert (loop_rep lp L l srcs (<[p := to_obj (es_set_active false x)]> h)) as Hr'.
  { eapply loop_rep_source; [done..|by apply source_fine_inactive]. }
  unfold x_event_source_remove. apply Z.eqb_neq in Hn as E0. rewrite E0. wp_step. wp_step. wp_step.
  - (* already inactive *)
    wp_step. specialize (HQ e t). cbn zeta in HQ.
    rewrite es_set_active_id, insert_id in HQ by done. apply HQ; [|done..].
    by rewrite es_set_active_id, insert_id in Hr' by done.
  - wp_step. wp_step.
    + unfold x_event_backend_remove_socket. wp_step. rewrite (sf_loop _ _ _ Hf).
      eapply wp_load; [exact (lr_loop _ _ _ _ _ Hr)|]. wp_step. wp_step. wp_step.
      apply wp_epoll_del. intros r e' t' Hsub Hheld. wp_step. wp_step. apply HQ; [done| |done|done].
      * eapply registered_ok_source; [|done|].
        { eapply registered_ok_sub; [done|]. intros fd q Hq. by apply Hsub in Hq as [? _]. }
        right. intros fd Hfd. apply Hsub in Hfd as [Hfd Hne].
        destruct (Hreg _ _ Hfd) as (_ & y & Hy & _ & _ & Hyfd).
        rewrite Hx in Hy. by simplify_eq.
    + wp_step. wp_step. apply HQ; [done|..|done|done].
      eapply registered_ok_source; [done..|]. right. intros fd Hfd.
      destruct (Hreg _ _ Hfd) as (_ & y & Hy & _ & Hty & _). rewrite Hx in Hy. simplify_eq.
Qed.

(** ** Growing the array *)

(** Everything but the array and the count. *)
Definition frozen (L : x_event_loop) : x_event_loop := el_set_array NULL 0 (el_set_count 0 L).

(** From heap [h] to [h'], the array grew and the sources [more] were added. *)
Record added (lp : ptr) (L L' : x_event_loop) (more : list ptr) (h h' : heap) : Prop := {
  ad_outside : outside (lp :: el_sources L :: el_sources L' :: more) h h';
  ad_fresh : Forall (fun p => p <> NULL /\ (h !! p = None \/ p = el_sources L)) more;
  ad_array : el_sources L' = el_sources L \/
             h !! el_sources L' = None /\
             (el_sources L <> NULL -> el_sources L ∉ more -> h' !! el_sources L = None);
  ad_frozen : frozen L' = frozen L
}.

Lemma grow_capacity_ok md c n e h t Q :
  n <= c -> Q c (St e h t) -> wp md (grow_capacity c n) Q (St e h t).
Proof.
  intros Hn HQ. unfold grow_capacity. apply wp_iter_S. destruct (Z.ltb_spec c n); [lia|].
  by wp_step.
Qed.

Lemma added_refl lp L h : added lp L L [] h h.
Proof. split; [by intros q|constructor|by left|done]. Qed.

(** What [realloc] does to the other blocks. *)
Lemma realloc_lookup h old a o o' q :
  delete old h !! a = None -> a <> NULL -> h !! q = Some o -> old = NULL \/ q <> old ->
  <[a := o']> (if old =? NULL then h else delete old h) !! q = Some o.
Proof.
  intros Ha Hn Hq Hold. destruct (Z.eqb_spec old NULL) as [->|Hne].
  - rewrite lookup_delete_ne in Ha by done. rewrite lookup_insert_ne; congruence.
  - destruct Hold as [|Hold]; [done|]. rewrite lookup_insert_ne; [by rewrite lookup_delete_ne|].
    intros ->. rewrite lookup_delete_ne in Ha by done. congruence.
Qed.

Lemma added_grown lp L (l l' : list ptr) h a c :
  loop_rep lp L l (take (Z.to_nat (el_count L)) l) h ->
  a <> NULL -> delete (el_sources L) h !! a = None ->
  added lp L (el_set_array a c L) []  h
    (<[lp := to_obj (el_set_array a c L)]>
       (<[a := to_obj l']> (if el_sources L =? NULL then h else delete (el_sources L) h))).
Proof.
  intros [] Hn Ha. split; [|constructor| |done].
  - intros q Hq. cbn in Hq.
    rewrite lookup_insert_ne by (eapply outside_ne; [exact Hq|set_solver|done]).
    rewrite lookup_insert_ne by (eapply outside_ne; [exact Hq|set_solver|done]).
    destruct (Z.eqb_spec (el_sources L) NULL); [done|].
    by rewrite lookup_delete_ne by (eapply outside_ne; [exact Hq|set_solver|done]).
  - cbn. destruct (decide (a = el_sources L)) as [|Hne]; [by left|right].
    rewrite lookup_delete_ne in Ha by done. split; [done|]. intros Hz _.
    destruct lr_array0 as [(_ & ? & _)|[_ ?]]; [done|].
    rewrite lookup_insert_ne by apart. rewrite lookup_insert_ne by done.
    apply Z.eqb_neq in Hz as ->. by rewrite lookup_delete_eq.
Qed.

Lemma loop_rep_grown lp L l srcs h a c :
  let n := Z.to_nat c in
  loop_rep lp L l srcs h -> el_capacity L < c -> c * 8 <= PTRDIFF_MAX ->
  a <> NULL -> delete (el_sources L) h !! a = None ->
  loop_rep lp (el_set_array a c L) (take n (l ++ replicate n NULL)) srcs
    (<[lp := to_obj (el_set_array a c L)]>
       (<[a := to_obj (take n (l ++ replicate n NULL))]>
          (if el_sources L =? NULL then h else delete (el_sources L) h))).
Proof.
  intros n Hr Hc Hmax Hn Ha.
  set (h' := <[lp := _]> _). destruct Hr.
  assert (forall q o, h !! q = Some o -> (forall l0 : list ptr, o <> to_obj l0) -> q <> lp ->
    h' !! q = Some o) as Hold.
  { intros q o Hq Ho Hne. unfold h'. rewrite lookup_insert_ne by done.
    apply realloc_lookup; [done..|]. destruct lr_array0 as [(_ & ? & _)|[_ ?]]; [by left|right].
    intros ->. rewrite Hq in *. simplify_eq. by eapply Ho. }
  assert (a <> lp) as Halp.
  { intros ->. destruct lr_array0 as [(_ & E & _)|[_ ?]].
    - rewrite E, lookup_delete_ne in Ha by done. congruence.
    - rewrite lookup_delete_ne in Ha by apart. congruence. }
  destruct lr_receiver0 as (H1 & y & Hy), lr_sender0 as (H2 & z & Hz).
  split; cbn; try done.
  - unfold h'. by rewrite lookup_insert_eq.
  - right. split; [done|]. unfold h'. by rewrite lookup_insert_ne, lookup_insert_eq by done.
  - rewrite length_take, length_app, length_replicate. unfold n. lia.
  - lia.
  - rewrite take_take, lr_srcs0. rewrite Nat.min_l by (unfold n; lia).
    rewrite take_app_le by lia. done.
  - rewrite Forall_forall in *. intros p Hp. destruct (lr_sources0 _ Hp) as (Hpn & x & Hx & Hf).
    split; [done|]. exists x. split; [apply Hold; [done|done|apart]|]. destruct Hf. split; auto.
    + intros HA HB. destruct (sf_process0 HA HB) as (? & w & Hw & ?). split; [done|].
      exists w. split; [apply Hold; [done|done|apart]|done].
    + intros HA HB. destruct (sf_watcher0 HA HB) as (? & w & Hw). split; [done|].
      exists w. apply Hold; [done|done|apart].
  - split; [done|]. exists y. apply Hold; [done|done|apart].
  - split; [done|]. exists z. apply Hold; [done|done|apart].
Qed.

Lemma wp_loop_reserve lp L l srcs md e h t Q :
  loop_rep lp L l srcs h ->
  (forall rc L' l' e' h' t', 0 <= rc -> loop_rep lp L' l' srcs h' -> added lp L L' [] h h' ->
     el_count L' = el_count L -> (rc = 0 -> el_count L < el_capacity L') -> inert_ext t t' ->
     Q rc (St e' h' t')) ->
  wp md (x_event_loop_reserve lp (u64 (el_count L + 1))) Q (St e h t).
Proof.
  intros Hr HQ. pose proof Hr as []. unfold PTRDIFF_MAX, INT64_MAX in *.
  rewrite u64_small by (unfold is_u64; lia).
  unfold x_event_loop_reserve. wp_step. eapply wp_load; [done|]. wp_step.
  { wp_step. apply (HQ 0 L l); [done|done|apply added_refl|done|lia|auto with xlib]. }
  assert (el_count L = el_capacity L) as Hfull by lia.
  set (c := if el_capacity L =? 0 then 8 else u64 (el_capacity L * 2)).
  assert (el_capacity L + 1 <= c /\ c * 8 < 2 ^ 64) as [Hc1 Hc2].
  { unfold c. destruct (Z.eqb_spec (el_capacity L) 0); [lia|].
    rewrite u64_small by (unfold is_u64; lia). lia. }
  wp_step. apply grow_capacity_ok; [lia|]. wp_step.
  rewrite u64_small by (unfold is_u64; lia).
  apply wp_realloc_ptrs with (l := l).
  { destruct lr_array0 as [(_ & -> & ->)|[? ?]]; [by left|by right]. }
  { cbn [Z.eqb NULL]. wp_step. apply (HQ ENOMEM L l); [done|done|apply added_refl|done|done|].
    auto with xlib. }
  intros a Ha Hfresh Hmax. destruct (Z.eqb_spec a NULL) as [Ea|Hane]; [unfold NULL in Ea; lia|].
  wp_step. eapply (wp_modify _ _ L).
  { apply realloc_lookup; [done..|]. destruct lr_array0 as [(_ & ? & _)|[_ ?]]; [by left|right; apart]. }
  wp_step. eapply (HQ 0).
  - done.
  - apply loop_rep_grown; [done|lia|done|done|done].
  - eapply added_grown; [by rewrite <- lr_srcs0|done|done].
  - done.
  - cbn. lia.
  - case_match; auto with xlib.
Qed.

(** ** Adding a source *)

(** The array and the loop after [loop->sources[loop->count++] = p]. *)
Definition pushed (L : x_event_loop) (l : list ptr) (p : ptr) : list ptr :=
  <[Z.to_nat (el_count L) := p]> l.

Lemma take_pushed L l p :
  0 <= el_count L < Z.of_nat (length l) ->
  take (Z.to_nat (el_count L + 1)) (pushed L l p) = take (Z.to_nat (el_count L)) l ++ [p].
Proof.
  intros H. unfold pushed. replace (Z.to_nat (el_count L + 1)) with (S (Z.to_nat (el_count L))) by lia.
  erewrite take_S_r by (apply list_lookup_insert_eq; lia). by rewrite take_insert_ge by lia.
Qed.

(** The new source is [x] at the fresh address [p] of heap [h]. *)
Lemma loop_rep_pushed lp L l srcs h p (x : x_event_source) :
  loop_rep lp L l srcs h -> el_count L < el_capacity L ->
  h !! p = None -> p <> NULL -> source_fine lp h x ->
  loop_rep lp (el_set_count (el_count L + 1) L) (pushed L l p) (srcs ++ [p])
    (<[lp := to_obj (el_set_count (el_count L + 1) L)]>
       (<[el_sources L := to_obj (pushed L l p)]> (<[p := to_obj x]> h))).
Proof.
  intros Hr Hc Hp Hpn Hf. set (h' := <[lp := _]> _). destruct Hr.
  assert (Hne : forall q o, h !! q = Some o -> p <> q) by (intros; congruence).
  assert (el_sources L <> NULL /\ h !! el_sources L = Some (to_obj l)) as [Ha Hl].
  { destruct lr_array0 as [(? & _)|?]; [lia|done]. }
  assert (forall q o, h !! q = Some o -> (forall l0 : list ptr, o <> to_obj l0) -> q <> lp ->
    h' !! q = Some o) as Hold.
  { intros q o Hq Ho Hq'. unfold h'. rewrite !lookup_insert_ne; eauto.
    intros E. rewrite E in Hl. rewrite Hq in Hl. simplify_eq. by eapply Ho. }
  assert (kept h h') as Hk.
  { intros q. split.
    - intros (Hn & w & Hw & ?). split; [done|]. exists w. split; [|done]. apply Hold; [done|done|apart].
    - intros (Hn & w & Hw). split; [done|]. exists w. apply Hold; [done|done|apart]. }
  destruct lr_receiver0 as (H1 & y & Hy), lr_sender0 as (H2 & z & Hz).
  split; cbn; try done; try lia.
  - unfold h'. by rewrite lookup_insert_eq.
  - right. split; [done|]. unfold h'. rewrite lookup_insert_ne by apart. by rewrite lookup_insert_eq.
  - unfold pushed. by rewrite length_insert.
  - rewrite take_pushed by lia. congruence.
  - apply NoDup_app. split_and!; [done| |apply NoDup_singleton].
    intros q Hq ->%list_elem_of_singleton. rewrite Forall_forall in lr_sources0.
    destruct (lr_sources0 _ Hq) as (_ & w & Hw & _). congruence.
  - rewrite Forall_forall in *. intros q Hq. apply elem_of_app in Hq as [Hq| ->%list_elem_of_singleton].
    + destruct (lr_sources0 _ Hq) as (Hqn & w & Hw & Hwf). split; [done|]. exists w.
      split; [apply Hold; [done|done|apart]|]. by eapply source_fine_kept.
    + split; [done|]. exists x. split; [|by eapply source_fine_kept].
      unfold h'. rewrite !lookup_insert_ne by congruence. by rewrite lookup_insert_eq.
  - split; [done|]. exists y. apply Hold; [done|done|apart].
  - split; [done|]. exists z. apply Hold; [done|done|apart].
Qed.

Lemma wp_push_source lp L l srcs h p (x : x_event_source) md e t Q :
  loop_rep lp L l srcs h -> el_count L < el_capacity L -> h !! p = None ->
  Q tt (St e (<[lp := to_obj (el_set_count (el_count L + 1) L)]>
       (<[el_sources L := to_obj (pushed L l p)]> (<[p := to_obj x]> h))) t) ->
  wp md (push_source lp p) Q (St e (<[p := to_obj x]> h) t).
Proof.
  intros [] Hc Hp HQ. unfold PTRDIFF_MAX, INT64_MAX in *.
  assert (el_sources L <> NULL /\ h !! el_sources L = Some (to_obj l)) as [Ha Hl].
  { destruct lr_array0 as [(? & _)|?]; [lia|done]. }
  unfold push_source. wp_step. eapply (wp_load _ _ L); [lookup_solve|].
  rewrite u64_small by (unfold is_u64; lia).
  wp_step. eapply wp_store_elem; [lookup_solve|lia|].
  eapply wp_modify; [|exact HQ]. rewrite lookup_insert_ne by apart. lookup_solve.
Qed.

(** What an addition does not touch. *)
Lemma added_lookup lp L l srcs L' more h h' q o :
  loop_rep lp L l srcs h -> added lp L L' more h h' ->
  h !! q = Some o -> q <> NULL -> q <> lp -> (forall l0 : list ptr, o <> to_obj l0) ->
  h' !! q = Some o.
Proof.
  intros [] [Ho Hf Ha _] Hq Hn Hlp Hoo. rewrite Forall_forall in Hf.
  assert (q <> el_sources L) as Hne.
  { intros ->. destruct lr_array0 as [(_ & ? & _)|[_ ?]]; [done|]. rewrite Hq in *. simplify_eq.
    by eapply Hoo. }
  rewrite Ho; [done|]. rewrite !elem_of_cons. intros [?|[?|[E|Hin]]]; [done|done|..]; exfalso.
  - destruct Ha as [Ha|[Ha _]]; congruence.
  - destruct (Hf _ Hin) as [_ [?|?]]; congruence.
Qed.

Lemma registered_ok_added lp L l srcs L' more h h' t :
  loop_rep lp L l srcs h -> added lp L L' more h h' -> registered_ok L srcs h t ->
  registered_ok L' (srcs ++ more) h' t.
Proof.
  intros Hr Ha Hreg fd p. replace (el_backend_fd L') with (el_backend_fd L).
  2: { pose proof (f_equal el_backend_fd (ad_frozen _ _ _ _ _ _ Ha)) as E. by cbn in E. }
  intros Hp. destruct (Hreg _ _ Hp) as (Hin & x & Hx & H).
  split; [apply elem_of_app; by left|]. exists x. split; [|done].
  destruct (loop_rep_at _ _ _ _ _ _ _ Hr Hin Hx) as [Hn _].
  eapply added_lookup; [done..|pose proof (lr_loop _ _ _ _ _ Hr); apart|done].
Qed.

Lemma added_pushed lp L L' (l l' : list ptr) srcs h0 h p (x : x_event_source) n :
  added lp L L' [] h0 h -> loop_rep lp L' l srcs h -> el_count L' < el_capacity L' ->
  h !! p = None -> p <> NULL ->
  added lp L (el_set_count n L') [p] h0
    (<[lp := to_obj (el_set_count n L')]>
       (<[el_sources L' := to_obj l']> (<[p := to_obj x]> h))).
Proof.
  intros [Ho Hf Ha Hz] [] Hc Hp Hpn.
  assert (h !! el_sources L' = Some (to_obj l)) as Hl.
  { destruct lr_array0 as [(? & _)|[_ ?]]; [lia|done]. }
  split; cbn.
  - intros q Hq. cbn in Hq. assert (el_sources L' <> NULL) as Hsn.
    { destruct lr_array0 as [(? & _)|[? _]]; [lia|done]. }
    rewrite !lookup_insert_ne by (eapply outside_ne; [exact Hq|set_solver|done]).
    apply Ho. intros Hin. apply Hq. set_solver.
  - constructor; [|constructor]. split; [done|].
    destruct (decide (p = el_sources L)) as [|Hne]; [by right|left].
    rewrite <- Ho; [done|]. rewrite !elem_of_cons. intros [E|[E|[E|E]]]; exfalso;
      [rewrite E in Hp; congruence|done|rewrite E in Hp; congruence|by apply elem_of_nil in E].
  - destruct Ha as [Ha|[Ha Hb]]; [by left|right]. split; [done|]. intros H1 H2.
    specialize (Hb H1 ltac:(apply not_elem_of_nil)).
    assert (p <> el_sources L) by set_solver.
    rewrite !lookup_insert_ne by congruence. done.
  - unfold frozen in *. cbn. done.
Qed.

(** One more source, [x] at [p]: what an addition did. *)
Definition source_added (lp : ptr) (srcs : list ptr) (L : x_event_loop) (p : ptr)
    (x : x_event_source) (s s' : st) : Prop :=
  exists L' l', loop_rep lp L' l' (srcs ++ [p]) (hp s') /\
    registered_ok L' (srcs ++ [p]) (hp s') (tr s') /\
    added lp L L' [p] (hp s) (hp s') /\ hp s' !! p = Some (to_obj x) /\
    held (tr s') = held (tr s) /\ calls (tr s') = calls (tr s).

(** A failed addition: nothing but the array may have changed. *)
Definition not_added (lp : ptr) (srcs : list ptr) (L : x_event_loop) (s s' : st) : Prop :=
  exists L' l', loop_rep lp L' l' srcs (hp s') /\ registered_ok L' srcs (hp s') (tr s') /\
    added lp L L' [] (hp s) (hp s') /\ el_count L' = el_count L /\
    held (tr s') = held (tr s) /\ calls (tr s') = calls (tr s).

(** The end of every addition. *)
Lemma wp_add_push lp L L' l l' srcs h0 h p (x : x_event_source) e0 t0 md e t Q :
  loop_rep lp L l srcs h0 -> registered_ok L srcs h0 t0 ->
  added lp L L' [] h0 h -> loop_rep lp L' l' srcs h -> el_count L' < el_capacity L' ->
  h !! p = None -> p <> NULL -> source_fine lp h x ->
  (forall fd q, registered t (el_backend_fd L) !! fd = Some q ->
     registered t0 (el_backend_fd L) !! fd = Some q \/
     q = p /\ es_active x = true /\ es_type x = X_EVENT_SOURCE_SOCKET /\
     s32 (es_native_handle x) = fd) ->
  held t = held t0 -> calls t = calls t0 ->
  (forall s, source_added lp srcs L p x (St e0 h0 t0) s -> Q (0, Some p) s) ->
  wp md (push_source lp p;; mret (0, Some p)) Q (St e (<[p := to_obj x]> h) t).
Proof.
  intros Hr0 Hreg Ha Hr Hc Hp Hpn Hf Ht Hh Hcl HQ. wp_step.
  eapply wp_push_source; [done..|]. wp_step. apply HQ.
  pose proof (added_pushed lp L L' l' (pushed L' l' p) srcs h0 h p x (el_count L' + 1) Ha Hr Hc Hp Hpn) as Ha'.
  pose proof (loop_rep_pushed lp L' l' srcs h p x Hr Hc Hp Hpn Hf) as Hr'.
  assert (el_sources L' <> p) as Hap.
  { destruct Hr. destruct lr_array0 as [(? & _)|[_ ?]]; [lia|congruence]. }
  assert (lp <> p) as Hlp by (pose proof (lr_loop _ _ _ _ _ Hr); congruence).
  eexists _, _. cbn [hp tr]. split_and!; [exact Hr'| |done| |done|done].
  - assert (el_backend_fd L' = el_backend_fd L) as Eb.
    { pose proof (f_equal el_backend_fd (ad_frozen _ _ _ _ _ _ Ha)) as E. by cbn in E. }
    intros fd q Hq. cbn in Hq. rewrite Eb in Hq. destruct (Ht _ _ Hq) as [Hq'|(-> & H1 & H2 & H3)].
    + pose proof (registered_ok_added lp L l srcs _ [p] h0 _ t0 Hr0 Ha' Hreg) as Hreg'.
      apply (Hreg' fd q). cbn. by rewrite Eb.
    + split; [apply elem_of_app; right; by left|]. exists x. split; [|done].
      rewrite !lookup_insert_ne by done. by rewrite lookup_insert_eq.
  - rewrite !lookup_insert_ne by done. by rewrite lookup_insert_eq.
Qed.

Lemma wp_backend_add lp L l srcs p (x : x_event_source) md e h t Q :
  loop_rep lp L l srcs h -> h !! p = Some (to_obj x) ->
  (forall e' r t', 0 < r -> held t' = held t -> calls t' = calls t ->
     (forall fd, registered t' (el_backend_fd L) !! fd = registered t (el_backend_fd L) !! fd) ->
     Q r (St e' h t')) ->
  (forall e' t', held t' = held t -> calls t' = calls t ->
     (forall fd, registered t' (el_backend_fd L) !! fd =
        if decide (fd = s32 (es_native_handle x)) then Some p
        else registered t (el_backend_fd L) !! fd) -> Q 0 (St e' h t')) ->
  wp md (x_event_backend_add_socket lp p) Q (St e h t).
Proof.
  intros Hr Hp Hbad Hok. unfold x_event_backend_add_socket. wp_step.
  eapply wp_load; [exact (lr_loop _ _ _ _ _ Hr)|]. wp_step. wp_step. wp_step. wp_step.
  destruct Hpost as [[->|[-> He]] _]; cbn.
  - apply Hok; [by held_simpl|done|]. intros fd. cbn. rewrite Z.eqb_refl. cbn.
    rewrite lookup_insert. repeat case_decide; congruence.
  - apply Hbad; [lia|by held_simpl|done|]. intros fd. cbn. by rewrite Z.eqb_refl.
Qed.

(** The result of an addition: [p] holds the new source and the loop has it, or
    a positive error and the sources are those from before. *)
Definition add_post (lp : ptr) (srcs : list ptr) (L : x_event_loop)
    (P : x_event_source -> Prop) (s : st) (r : Z * option ptr) (s' : st) : Prop :=
  (r.1 = 0 /\ exists p x, r.2 = Some p /\ source_added lp srcs L p x s s' /\ P x) \/
  (0 < r.1 /\ r.2 = Some NULL /\ not_added lp srcs L s s').

Lemma add_post_refused lp srcs L L' l l' P e0 h0 t0 rc e h t :
  loop_rep lp L l srcs h0 -> registered_ok L srcs h0 t0 ->
  loop_rep lp L' l' srcs h -> added lp L L' [] h0 h -> el_count L' = el_count L ->
  (forall fd, registered t (el_backend_fd L) !! fd = registered t0 (el_backend_fd L) !! fd) ->
  held t = held t0 -> calls t = calls t0 -> 0 < rc ->
  add_post lp srcs L P (St e0 h0 t0) (rc, Some NULL) (St e h t).
Proof.
  intros Hr0 Hreg Hr Ha Hc Ht Hh Hcl Hrc. right. split; [done|]. split; [done|].
  exists L', l'. cbn. split_and!; try done.
  eapply registered_ok_sub.
  - pose proof (registered_ok_added _ _ _ _ _ _ _ _ _ Hr0 Ha Hreg) as H.
    by rewrite app_nil_r in H.
  - intros fd p. replace (el_backend_fd L') with (el_backend_fd L); [by rewrite Ht|].
    pose proof (f_equal el_backend_fd (ad_frozen _ _ _ _ _ _ Ha)) as E. by cbn in E.
Qed.

(** The three additions of timed sources are instances of one program. *)
Definition add_timed (loop : ptr) (make : Z -> x_event_source) : M (Z * option ptr) :=
  l ← load x_event_loop loop;
  error ← x_event_loop_reserve loop (u64 (el_count l + 1));
  if negb (error =? 0) then mret (error, Some NULL)
  else
    now ← x_time_monotonic_ns true;
    if negb (now.1 =? 0) then mret (now.1, Some NULL)
    else
      created ← calloc sizeof_x_event_source zero_event_source;
      if created =? NULL then mret (ENOMEM, Some NULL)
      else store created (make (default 0 now.2));; push_source loop created;; mret (0, Some created).

Lemma wp_add_timed lp L l srcs make P md e h t Q :
  loop_rep lp L l srcs h -> registered_ok L srcs h t ->
  (forall now h' L', is_u64 now -> added lp L L' [] h h' -> source_fine lp h' (make now) /\ P (make now)) ->
  (forall r s', add_post lp srcs L P (St e h t) r s' -> Q r s') ->
  wp md (add_timed lp make) Q (St e h t).
Proof.
  intros Hr Hreg Hmake HQ. unfold add_timed. wp_step.
  eapply wp_load; [exact (lr_loop _ _ _ _ _ Hr)|]. wp_step.
  eapply wp_loop_reserve; [done|]. intros rc L' l' e1 h1 t1 Hrc Hr1 Ha1 Hc1 Hcap Ht1.
  pose proof (fun ep => inert_ext_registered _ _ ep Ht1) as Hreg1.
  pose proof (inert_ext_held _ _ Ht1) as Hh1. pose proof (inert_ext_calls _ _ Ht1) as Hcl1.
  wp_step.
  { wp_step. apply HQ. eapply add_post_refused; [done..| | |done|done|lia]; [done|].
    intros fd. by rewrite Hreg1. }
  specialize (Hcap E).
  wp_step. apply wp_time_monotonic. intros [rc2 now] [e2 h2 t2] (Hh2 & Ht2 & Hnow). proj_simpl. subst h2.
  pose proof (fun ep => inert_ext_registered _ _ ep Ht2) as Hreg2.
  pose proof (inert_ext_held _ _ Ht2) as Hh2. pose proof (inert_ext_calls _ _ Ht2) as Hcl2.
  wp_step.
  { wp_step. apply HQ. eapply add_post_refused; [done..| | |congruence|congruence|lia]; [done|].
    intros fd. by rewrite Hreg2, Hreg1. }
  destruct Hnow as [(_ & now' & -> & Hn)|[? _]]; [|lia]. cbn [default from_option id].
  wp_step. wp_step.
  { wp_step. wp_step. apply HQ. eapply add_post_refused; [done..| | | | |done];
      [done|intros fd; cbn; by rewrite Hreg2, Hreg1|held_simpl; congruence|cbn; congruence]. }
  wp_step. wp_step. eapply wp_store; [by rewrite lookup_insert_eq|].
  rewrite insert_insert_eq.
  destruct (Hmake now' h1 L' Hn Ha1) as [Hf HP].
  eapply wp_add_push; [exact Hr|exact Hreg|exact Ha1|exact Hr1|lia|done|unfold NULL; lia|done| | | |].
  - intros fd q Hq. left. cbn in Hq. by rewrite Hreg2, Hreg1 in Hq.
  - held_simpl. congruence.
  - cbn. congruence.
  - intros s Hs. apply HQ. left. split; [done|]. by eexists _, _.
Qed.

Lemma ms_to_ns_range ms : is_u64 (x_event_ms_to_ns ms).
Proof. unfold x_event_ms_to_ns. case_match; [unfold is_u64, UINT64_MAX; lia|apply u64_range]. Qed.

Lemma added_process lp L l srcs L' more h h' q :
  loop_rep lp L l srcs h -> added lp L L' more h h' -> process_live h q -> process_live h' q.
Proof.
  intros Hr Ha (Hn & x & Hx & Hpid). split; [done|]. exists x. split; [|done].
  eapply added_lookup; [done..|pose proof (lr_loop _ _ _ _ _ Hr); apart|done].
Qed.

Lemma added_watcher lp L l srcs L' more h h' q :
  loop_rep lp L l srcs h -> added lp L L' more h h' -> watcher_live h q -> watcher_live h' q.
Proof.
  intros Hr Ha (Hn & x & Hx). split; [done|]. exists x.
  eapply added_lookup; [done..|pose proof (lr_loop _ _ _ _ _ Hr); apart|done].
Qed.

(** A timer, process or file source of loop [lp] due at [due]. *)
Definition timed_source (lp : ptr) (type events : Z) (process watcher : ptr)
    (due interval : Z) (callback : Z) (user_data : ptr) : x_event_source :=
  XEventSource lp type true false events 0 NULL process watcher due interval callback user_data.

Lemma wp_add_timer lp L l srcs delay interval cb ud md e h t Q :
  loop_rep lp L l srcs h -> registered_ok L srcs h t -> cb <> 0 -> cb <> WAKE_CALLBACK ->
  (forall r s', add_post lp srcs L (fun x => exists now, is_u64 now /\
       x = timed_source lp X_EVENT_SOURCE_TIMER X_EVENT_TIMER NULL NULL
             (u64 (now + x_event_ms_to_ns delay)) (x_event_ms_to_ns interval) cb ud)
     (St e h t) r s' -> Q r s') ->
  wp md (x_event_loop_add_timer lp true delay interval cb ud) Q (St e h t).
Proof.
  intros Hr Hreg Hcb Hw HQ. unfold x_event_loop_add_timer.
  pose proof (lr_pos _ _ _ _ _ Hr) as Hp. apply Z.eqb_neq in Hp as ->. apply Z.eqb_neq in Hcb as ->.
  eapply (wp_add_timed lp L l srcs (fun now => timed_source lp X_EVENT_SOURCE_TIMER X_EVENT_TIMER NULL NULL
      (u64 (now + x_event_ms_to_ns delay)) (x_event_ms_to_ns interval) cb ud)); [done..| |exact HQ].
  intros now h' L' Hn _. split; [|by exists now].
  split; cbn; try done; [apply u64_range|apply ms_to_ns_range].
Qed.

Lemma wp_add_process lp L l srcs process interval cb ud md e h t Q :
  loop_rep lp L l srcs h -> registered_ok L srcs h t -> cb <> 0 -> cb <> WAKE_CALLBACK ->
  process_live h process ->
  (forall r s', add_post lp srcs L (fun x => exists now, is_u64 now /\
       x = timed_source lp X_EVENT_SOURCE_PROCESS X_EVENT_PROCESS process NULL now
             (x_event_ms_to_ns (if interval =? 0 then 10 else interval)) cb ud)
     (St e h t) r s' -> Q r s') ->
  wp md (x_event_loop_add_process lp true process interval cb ud) Q (St e h t).
Proof.
  intros Hr Hreg Hcb Hw Hpr HQ. unfold x_event_loop_add_process.
  pose proof (lr_pos _ _ _ _ _ Hr) as Hp. apply Z.eqb_neq in Hp as ->. apply Z.eqb_neq in Hcb as ->.
  pose proof (proj1 Hpr) as Hpn. apply Z.eqb_neq in Hpn as ->.
  eapply (wp_add_timed lp L l srcs (fun now => timed_source lp X_EVENT_SOURCE_PROCESS X_EVENT_PROCESS process NULL now
      (x_event_ms_to_ns (if interval =? 0 then 10 else interval)) cb ud)); [done..| |exact HQ].
  intros now h' L' Hn Ha. split; [|by exists now].
  split; cbn; try done; [apply ms_to_ns_range|]. intros _ _. by eapply added_process.
Qed.

Lemma wp_add_file_watcher lp L l srcs watcher interval cb ud md e h t Q :
  loop_rep lp L l srcs h -> registered_ok L srcs h t -> cb <> 0 -> cb <> WAKE_CALLBACK ->
  watcher_live h watcher ->
  (forall r s', add_post lp srcs L (fun x => exists now, is_u64 now /\
       x = timed_source lp X_EVENT_SOURCE_FILE X_EVENT_FILE NULL watcher now
             (x_event_ms_to_ns (if interval =? 0 then 100 else interval)) cb ud)
     (St e h t) r s' -> Q r s') ->
  wp md (x_event_loop_add_file_watcher lp true watcher interval cb ud) Q (St e h t).
Proof.
  intros Hr Hreg Hcb Hw Hfw HQ. unfold x_event_loop_add_file_watcher.
  pose proof (lr_pos _ _ _ _ _ Hr) as Hp. apply Z.eqb_neq in Hp as ->. apply Z.eqb_neq in Hcb as ->.
  pose proof (proj1 Hfw) as Hpn. apply Z.eqb_neq in Hpn as ->.
  eapply (wp_add_timed lp L l srcs (fun now => timed_source lp X_EVENT_SOURCE_FILE X_EVENT_FILE NULL watcher now
      (x_event_ms_to_ns (if interval =? 0 then 100 else interval)) cb ud)); [done..| |exact HQ].
  intros now h' L' Hn Ha. split; [|by exists now].
  split; cbn; try done; [apply ms_to_ns_range|]. intros _ _. by eapply added_watcher.
Qed.

(** A socket source of loop [lp]. *)
Definition socket_source (lp socket handle events callback : Z) (user_data : ptr)
    : x_event_source :=
  XEventSource lp X_EVENT_SOURCE_SOCKET true false events handle socket NULL NULL 0 0
    callback user_data.

(** A new object does not touch the loop. *)
Lemma loop_rep_fresh lp L l srcs h p o :
  loop_rep lp L l srcs h -> h !! p = None -> loop_rep lp L l srcs (<[p := o]> h).
Proof.
  intros Hr Hp. eapply loop_rep_frame; [done|by apply kept_insert; rewrite Hp|].
  intros q Hq Hqn. rewrite lookup_insert_ne; [done|]. intros <-.
  destruct Hr. unfold footprint in Hq. rewrite !elem_of_cons in Hq.
  destruct Hq as [->|[->|[->|[->|Hq]]]].
  - congruence.
  - destruct lr_array0 as [(_ & ? & _)|[_ ?]]; congruence.
  - destruct lr_receiver0 as (_ & ? & ?). congruence.
  - destruct lr_sender0 as (_ & ? & ?). congruence.
  - rewrite Forall_forall in lr_sources0. destruct (lr_sources0 _ Hq) as (_ & ? & ? & _). congruence.
Qed.

Lemma wp_add_socket lp L l srcs socket (x : x_socket) events cb ud md e h t Q :
  loop_rep lp L l srcs h -> registered_ok L srcs h t -> cb <> 0 ->
  (cb = WAKE_CALLBACK -> ud = lp) ->
  h !! socket = Some (to_obj x) -> socket <> NULL ->
  Z.land events (Z.lor X_EVENT_READ X_EVENT_WRITE) <> 0 ->
  (forall r s', add_post lp srcs L (fun y => y = socket_source lp socket (u64 (so_handle x)) events cb ud)
     (St e h t) r s' -> Q r s') ->
  wp md (x_event_loop_add_socket lp true socket events cb ud) Q (St e h t).
Proof.
  intros Hr Hreg Hcb Hw Hs Hsn Hev HQ. unfold x_event_loop_add_socket.
  pose proof (lr_pos _ _ _ _ _ Hr) as Hp. apply Z.eqb_neq in Hp as ->. apply Z.eqb_neq in Hcb as ->.
  pose proof Hsn as E0. apply Z.eqb_neq in E0 as ->. apply Z.eqb_neq in Hev as ->. cbn [negb orb].
  wp_step. eapply wp_load; [exact (lr_loop _ _ _ _ _ Hr)|]. wp_step.
  eapply wp_loop_reserve; [done|]. intros rc L' l' e1 h1 t1 Hrc Hr1 Ha1 Hc1 Hcap Ht1.
  pose proof (fun ep => inert_ext_registered _ _ ep Ht1) as Hreg1.
  pose proof (inert_ext_held _ _ Ht1) as Hh1. pose proof (inert_ext_calls _ _ Ht1) as Hcl1.
  wp_step.
  { wp_step. apply HQ. eapply add_post_refused; [done..| | |done|done|lia]; [done|].
    intros fd. by rewrite Hreg1. }
  specialize (Hcap E). wp_step. wp_step.
  { wp_step. wp_step. apply HQ. eapply add_post_refused; [done..| | | | |done];
      [done|intros fd; cbn; by rewrite Hreg1|held_simpl; congruence|cbn; congruence]. }
  wp_step. wp_step. unfold x_socket_native_handle. pose proof Hsn as E0'. apply Z.eqb_neq in E0' as ->.
  assert (h1 !! socket = Some (to_obj x)) as Hs1.
  { eapply added_lookup; [exact Hr|exact Ha1|done|done|pose proof (lr_loop _ _ _ _ _ Hr); apart|done]. }
  wp_step. wp_step. wp_step. wp_step. eapply wp_store; [by rewrite lookup_insert_eq|].
  rewrite insert_insert_eq.
  set (y := XEventSource _ _ _ _ _ _ _ _ _ _ _ _ _).
  assert (source_fine lp h1 y) as Hf by (by split).
  assert (el_backend_fd L' = el_backend_fd L) as Eb.
  { pose proof (f_equal el_backend_fd (ad_frozen _ _ _ _ _ _ Ha1)) as Eb. by cbn in Eb. }
  assert (p <> NULL) as Hpn by (unfold NULL; lia).
  assert (loop_rep lp L' l' srcs (<[p := to_obj y]> h1)) as Hr2. by apply loop_rep_fresh.
  wp_step. eapply (wp_backend_add lp L' l' srcs p y); [done|by rewrite lookup_insert_eq|..]; rewrite Eb.
  - intros e' r t' Hrp Hh' Hcl' Hreg'. cbn in Hreg'. wp_step. wp_step. wp_step. wp_step.
    rewrite delete_insert_eq, delete_id by done.
    apply HQ. eapply add_post_refused; [done..| | | | |done];
      [done|intros fd; cbn; by rewrite Hreg', Hreg1|held_simpl; rewrite Hh'; held_simpl; congruence
      |cbn; rewrite Hcl'; cbn; congruence].
  - intros e' t' Hh' Hcl' Hreg'. wp_step.
    eapply wp_add_push; [exact Hr|exact Hreg|exact Ha1|exact Hr1|lia|done|done|done| | | |].
    + intros fd q Hq. rewrite Hreg' in Hq. case_decide; [right|left].
      * simplify_eq. done.
      * cbn in Hq. by rewrite Hreg1 in Hq.
    + rewrite Hh'. held_simpl. congruence.
    + rewrite Hcl'. cbn. congruence.
    + intros s Hs'. apply HQ. left. split; [done|]. by eexists _, _.
Qed.
End Operations.
