(* ===== verification/XEventSafe.v ===== *)
(** * The event loop: compaction, dispatching and running

    Compaction keeps the active sources in order and frees the others; the
    dispatch loops and [x_event_loop_run] keep the invariant whatever the user's
    callbacks do within their contract. *)
From S2P Require Import Prelude Syscalls Structs Machine Contract XTime XNetwork XProcess.
From S2P Require Import XWatcher XEvent XEventInv DemoOS.

(** ** Compaction *)

Definition source_val (h : heap) (p : ptr) : x_event_source :=
  match h !! p with Some (OEventSource x) => x | _ => zero_event_source end.
Definition active_at (h : heap) (p : ptr) : bool := es_active (source_val h p).

(** The sources of [l] for which [f] holds, in order. *)
Definition those (f : ptr -> bool) (l : list ptr) : list ptr := filter (fun p => f p = true) l.

Lemma source_val_eq h p (x : x_event_source) : h !! p = Some (to_obj x) -> source_val h p = x.
Proof. unfold source_val. by intros ->. Qed.

Lemma those_snoc f l p : those f (l ++ [p]) = those f l ++ if f p then [p] else [].
Proof.
  unfold those. rewrite filter_app. f_equal. rewrite filter_cons, filter_nil.
  destruct (f p); [by rewrite decide_True|by rewrite decide_False].
Qed.

Lemma those_ext f g l : (forall p, p ∈ l -> f p = g p) -> those f l = those g l.
Proof.
  intros H. induction l as [|p l IH]; [done|]. unfold those in *. rewrite !filter_cons.
  rewrite (H p) by (by left). rewrite IH; [done|]. intros q Hq. apply H. by right.
Qed.

Lemma those_length f l : (length (those f l) <= length l)%nat.
Proof. apply length_filter. Qed.

Lemma elem_of_those f l p : p ∈ those f l <-> f p = true /\ p ∈ l.
Proof. unfold those. by rewrite list_elem_of_filter. Qed.

Section Safe.
Context {os : OS}.
Implicit Types (md : wpmode) (h : heap) (t : list ev).

Lemma wp_source_at lp L l srcs i p md e h t Q :
  loop_rep lp L l srcs h -> srcs !! i = Some p -> Q p (St e h t) ->
  wp md (source_at lp i) Q (St e h t).
Proof.
  intros [] Hi HQ. unfold source_at. wp_step. eapply wp_load; [done|].
  pose proof (lookup_lt_Some _ _ _ Hi). rewrite lr_srcs in Hi.
  apply lookup_take_Some in Hi as [Hi Hlt].
  destruct lr_array as [(_ & _ & ->)|[Ha Hl]]; [done|].
  eapply wp_load_elem; [done|lia|by rewrite Nat2Z.id|done].
Qed.

(** Between two iterations of the compaction. *)
Record compacting (lp : ptr) (L : x_event_loop) (l srcs : list ptr) (h : heap) (t : list ev)
    (i : nat) (w : Z) (s : st) : Prop := {
  cp_loop : hp s !! lp = Some (to_obj L);
  cp_array : exists l', hp s !! el_sources L = Some (to_obj l') /\ length l' = length l /\
     take (Z.to_nat w) l' = those (active_at h) (take i srcs) /\ drop i l' = drop i l;
  cp_written : w = Z.of_nat (length (those (active_at h) (take i srcs)));
  cp_rest : forall q, q <> el_sources L -> q <> lp ->
     hp s !! q = if decide (q ∈ take i srcs /\ active_at h q = false) then None else h !! q;
  cp_trace : inert_ext t (tr s)
}.

(** The source the compaction comes to. *)
Record next_source (lp : ptr) (L : x_event_loop) (srcs : list ptr) (h : heap) (i : nat) (s : st)
    (l' : list ptr) (p : ptr) (x : x_event_source) : Prop := {
  ns_at : srcs !! i = Some p;
  ns_slot : l' !! i = Some p;
  ns_before : h !! p = Some (to_obj x);
  ns_now : hp s !! p = Some (to_obj x);
  ns_active : active_at h p = es_active x;
  ns_new : p ∉ take i srcs;
  ns_apart : p <> NULL /\ p <> lp /\ p <> el_sources L /\ lp <> el_sources L /\ el_sources L <> NULL
}.

Lemma compacting_source lp L l srcs h t i w s l' :
  loop_rep lp L l srcs h -> (i < length srcs)%nat -> compacting lp L l srcs h t i w s ->
  drop i l' = drop i l -> exists p x, next_source lp L srcs h i s l' p x.
Proof.
  intros Hr Hi [] Hdrop. destruct (lookup_lt_is_Some_2 srcs i Hi) as [p Hp].
  assert (p ∈ srcs) as Hin by by eapply list_elem_of_lookup_2.
  destruct (loop_rep_in _ _ _ _ _ _ Hr Hin) as [x Hx].
  destruct (loop_rep_at _ _ _ _ _ _ _ Hr Hin Hx) as [Hpn Hf]. exists p, x. destruct Hr.
  assert (l !! i = Some p) as Hpl by (rewrite lr_srcs in Hp; by apply lookup_take_Some in Hp as [? _]).
  assert (el_sources L <> NULL /\ h !! el_sources L = Some (to_obj l)) as [Ha Hl].
  { destruct lr_array as [(_ & _ & ->)|?]; done. }
  assert (p <> lp /\ p <> el_sources L /\ lp <> el_sources L) as (H1 & H2 & H3) by (split_and!; apart).
  assert (p ∉ take i srcs) as Hnew.
  { intros [j Hj]%list_elem_of_lookup. apply lookup_take_Some in Hj as [Hj Hlt].
    pose proof (NoDup_lookup _ _ _ _ lr_nodup Hp Hj). lia. }
  split; try done.
  - rewrite <- (Nat.add_0_r i), <- lookup_drop, Hdrop, lookup_drop, Nat.add_0_r. done.
  - rewrite cp_rest0 by done. by rewrite decide_False by (by intros [? _]).
  - unfold active_at. by rewrite (source_val_eq _ _ _ Hx).
Qed.

Lemma drop_next {A} i (l l' : list A) : drop i l' = drop i l -> drop (S i) l' = drop (S i) l.
Proof. intros H. replace (S i) with (i + 1)%nat by lia. by rewrite <- !drop_drop, H. Qed.

(** The source is active: it moves to the write index. *)
Lemma compacting_kept lp L l srcs h t i w s l' p (x : x_event_source) e :
  compacting lp L l srcs h t i w s -> next_source lp L srcs h i s l' p x -> es_active x = true ->
  hp s !! el_sources L = Some (to_obj l') -> length l' = length l ->
  take (Z.to_nat w) l' = those (active_at h) (take i srcs) -> drop i l' = drop i l ->
  compacting lp L l srcs h t (S i) (w + 1)
    (St e (<[el_sources L := to_obj (<[Z.to_nat w := p]> l')]> (hp s)) (tr s)).
Proof.
  intros [] [] Ha Hl' Hlen Htake Hdrop. destruct ns_apart0 as (_ & H1 & H2 & H3 & _).
  rewrite Ha in ns_active0. pose proof (those_length (active_at h) (take i srcs)) as Hle.
  rewrite length_take in Hle. pose proof (lookup_lt_Some _ _ _ ns_slot0).
  pose proof (take_S_r _ _ _ ns_at0) as Hsucc. split; cbn.
  - by rewrite lookup_insert_ne.
  - eexists. rewrite lookup_insert_eq. split; [done|]. rewrite length_insert. split; [done|].
    rewrite Hsucc, those_snoc, ns_active0. split.
    + replace (Z.to_nat (w + 1)) with (S (Z.to_nat w)) by lia.
      erewrite take_S_r by (apply list_lookup_insert_eq; lia).
      rewrite take_insert_ge by lia. by rewrite Htake.
    + rewrite drop_insert_lt by lia. by apply drop_next.
  - rewrite Hsucc, those_snoc, ns_active0, length_app. cbn. lia.
  - intros q Hq1 Hq2. rewrite lookup_insert_ne, cp_rest0 by done.
    rewrite Hsucc. apply decide_ext. rewrite elem_of_app, list_elem_of_singleton.
    split; [intros [? ?]; auto|intros [[?| ->] ?]; [done|congruence]].
  - done.
Qed.

(** The source is inactive: it is freed. *)
Lemma compacting_freed lp L l srcs h t i w s l' p (x : x_event_source) e :
  compacting lp L l srcs h t i w s -> next_source lp L srcs h i s l' p x -> es_active x = false ->
  hp s !! el_sources L = Some (to_obj l') -> length l' = length l ->
  take (Z.to_nat w) l' = those (active_at h) (take i srcs) -> drop i l' = drop i l ->
  compacting lp L l srcs h t (S i) w (St e (delete p (hp s)) (EvFree p :: tr s)).
Proof.
  intros [] [] Ha Hl' Hlen Htake Hdrop. destruct ns_apart0 as (_ & H1 & H2 & H3 & _).
  rewrite Ha in ns_active0. pose proof (take_S_r _ _ _ ns_at0) as Hsucc. split; cbn.
  - by rewrite lookup_delete_ne.
  - exists l'. rewrite lookup_delete_ne by done. split_and!; [done|done| |by apply drop_next].
    by rewrite Hsucc, those_snoc, ns_active0, app_nil_r.
  - by rewrite Hsucc, those_snoc, ns_active0, app_nil_r.
  - intros q Hq1 Hq2. rewrite Hsucc. destruct (decide (p = q)) as [->|Hne].
    + rewrite lookup_delete_eq, decide_True; [done|]. split; [set_solver|congruence].
    + rewrite lookup_delete_ne, cp_rest0 by done. apply decide_ext. set_solver.
  - auto with xlib.
Qed.

Lemma wp_compact_step lp L l srcs h t i w s md :
  loop_rep lp L l srcs h -> (i < length srcs)%nat -> compacting lp L l srcs h t i w s ->
  wp md (compact_step lp i w) (compacting lp L l srcs h t (S i)) s.
Proof.
  intros Hr Hi Hc. destruct (cp_array _ _ _ _ _ _ _ _ _ Hc) as (l' & Hl' & Hlen & Htake & Hdrop).
  destruct (compacting_source _ _ _ _ _ _ _ _ _ l' Hr Hi Hc Hdrop) as (p & x & Hn).
  pose proof (cp_loop _ _ _ _ _ _ _ _ _ Hc) as Hlp. pose proof (cp_written _ _ _ _ _ _ _ _ _ Hc) as Hw.
  pose proof Hn as []. destruct ns_apart0 as (Hpn & H1 & H2 & H3 & Ha). destruct s as [e hh tt]. cbn [hp tr] in *.
  pose proof (those_length (active_at h) (take i srcs)) as Hle. rewrite length_take in Hle.
  pose proof (lookup_lt_Some _ _ _ ns_slot0).
  unfold compact_step, source_at. wp_step. wp_step. eapply wp_load; [done|].
  eapply wp_load_elem; [done|lia|by rewrite Nat2Z.id|]. wp_step. wp_step. wp_step.
  - wp_step. eapply wp_load; [done|]. wp_step. eapply wp_store_elem; [done|lia|]. wp_step.
    by eapply (compacting_kept _ _ _ _ _ _ _ _ (St e hh tt)).
  - wp_step. wp_step. wp_step. by eapply (compacting_freed _ _ _ _ _ _ _ _ (St e hh tt)).
Qed.

(** The loop whose array was compacted. *)
Lemma loop_rep_compacted lp L l srcs l' h h' :
  let live := those (active_at h) srcs in
  loop_rep lp L l srcs h -> el_sources L <> NULL -> length l' = length l -> take (length live) l' = live ->
  h' !! lp = Some (to_obj (el_set_count (Z.of_nat (length live)) L)) -> h' !! el_sources L = Some (to_obj l') ->
  (forall q, q <> el_sources L -> q <> lp ->
     h' !! q = if decide (q ∈ srcs /\ active_at h q = false) then None else h !! q) ->
  loop_rep lp (el_set_count (Z.of_nat (length live)) L) l' live h'.
Proof.
  intros live Hr Ha Hlen Htake Hlp Hl' Hrest. pose proof Hr as [].
  assert (length srcs = Z.to_nat (el_count L)) as Hn by (rewrite lr_srcs, length_take; lia).
  destruct lr_array as [(_ & ? & _)|[_ Hl]]; [done|].
  pose proof (those_length (active_at h) srcs) as Hle. fold live in Hle.
  assert (forall q o, h !! q = Some o -> (forall l0 : list ptr, o <> to_obj l0) -> q <> lp ->
     (q ∈ srcs -> active_at h q = true) -> h' !! q = Some o) as Hold.
  { intros q o Hq Ho Hqlp Hact. rewrite Hrest; [| |done].
    - rewrite decide_False; [done|]. intros [H1 H2]. by rewrite Hact in H2.
    - intros ->. rewrite Hl in Hq. simplify_eq. by eapply Ho. }
  assert (forall q o, h !! q = Some o -> (forall l0 : list ptr, o <> to_obj l0) ->
     (forall y : x_event_source, o <> to_obj y) -> q <> lp -> h' !! q = Some o) as Hother.
  { intros q o Hq Ho Hs Hqlp. apply Hold; [done..|]. intros Hq'.
    destruct (loop_rep_in _ _ _ _ _ _ Hr Hq') as [y Hy]. rewrite Hq in Hy. simplify_eq. exfalso. by eapply Hs. }
  assert (kept h h') as Hk.
  { intros q. split.
    - intros (Hqn & z & Hz & ?). split; [done|]. exists z. split; [|done]. apply Hother; [done..|apart].
    - intros (Hqn & z & Hz). split; [done|]. exists z. apply Hother; [done..|apart]. }
  assert (forall q, socket_live h q -> socket_live h' q) as Hsock.
  { intros q (Hqn & z & Hz). split; [done|]. exists z. apply Hother; [done..|apart]. }
  split; cbn; auto; try done.
  - congruence.
  - lia.
  - by rewrite Nat2Z.id.
  - by apply NoDup_filter.
  - rewrite Forall_forall in *. intros p [Hact Hp]%elem_of_those.
    destruct (lr_sources _ Hp) as (Hpn & x & Hx & Hf). split; [done|]. exists x.
    split; [apply Hold; [done|done|apart|done]|]. by eapply source_fine_kept.
Qed.

(** The loop after compaction: the active sources, in order; the others freed. *)
Lemma wp_compact lp L l srcs md e h t Q :
  loop_rep lp L l srcs h ->
  (forall e' l' h' t', let live := those (active_at h) srcs in
     loop_rep lp (el_set_count (Z.of_nat (length live)) L) l' live h' ->
     (forall q, q <> el_sources L -> q <> lp ->
        h' !! q = if decide (q ∈ srcs /\ active_at h q = false) then None else h !! q) ->
     inert_ext t t' -> Q tt (St e' h' t')) ->
  wp md (x_event_loop_compact lp) Q (St e h t).
Proof.
  intros Hr HQ. unfold x_event_loop_compact. wp_step.
  eapply wp_load; [exact (lr_loop _ _ _ _ _ Hr)|]. wp_step. pose proof Hr as [].
  assert (length srcs = Z.to_nat (el_count L)) as Hn by (rewrite lr_srcs, length_take; lia).
  destruct (decide (srcs = [])) as [Hnil|Hne].
  { rewrite <- Hn, Hnil. cbn. wp_run.
    assert (el_set_count 0 L = L) as HL.
    { assert (el_count L = 0) as Hc0 by (rewrite Hnil in Hn; cbn in Hn; lia).
      clear -Hc0. destruct L; cbn in *. by rewrite Hc0. }
    rewrite HL, insert_id by done. apply (HQ e l); [rewrite Hnil|intros q Hq1 Hq2; rewrite Hnil|auto with xlib].
    - change (el_set_count _ L) with (el_set_count 0 L). rewrite HL. rewrite Hnil in Hr. exact Hr.
    - by rewrite decide_False by set_solver. }
  assert (el_sources L <> NULL /\ h !! el_sources L = Some (to_obj l)) as [Ha Hl].
  { destruct lr_array as [(_ & _ & ->)|?]; [|done]. by rewrite take_nil in lr_srcs. }
  assert (lp <> el_sources L) as Hla by apart.
  eapply wp_mono.
  { apply (wp_fold_range md (compacting lp L l srcs h t)).
    - intros i w s Hi. apply wp_compact_step; [done|lia].
    - split; cbn; [done| |done| |auto with xlib].
      + exists l. by split_and!.
      + intros q Hq1 Hq2. by rewrite decide_False by set_solver. }
  intros w [e' h' t'] []. cbn in *. rewrite take_ge in * by lia. eapply wp_modify; [done|].
  destruct cp_array0 as (l' & Hl' & Hlen & Htake & _). subst w. rewrite Nat2Z.id in Htake.
  assert (forall q, q <> el_sources L -> q <> lp -> (<[lp := to_obj (el_set_count
     (Z.of_nat (length (those (active_at h) srcs))) L)]> h') !! q =
     if decide (q ∈ srcs /\ active_at h q = false) then None else h !! q) as Hrest.
  { intros q Hq1 Hq2. by rewrite lookup_insert_ne, cp_rest0 by done. }
  apply (HQ e' l'); [|done|done]. eapply loop_rep_compacted; [done..| | |done].
  - by rewrite lookup_insert_eq.
  - by rewrite lookup_insert_ne.
Qed.

(** ** Reading the loop *)

Definition user_source_at (h : heap) (p : ptr) : bool := is_user_source (source_val h p).

Lemma wp_active_user_sources lp L l srcs md e h t Q :
  loop_rep lp L l srcs h ->
  Q (Z.of_nat (length (those (user_source_at h) srcs))) (St e h t) ->
  wp md (x_event_loop_active_user_sources lp) Q (St e h t).
Proof.
  intros Hr HQ. unfold x_event_loop_active_user_sources. wp_step.
  eapply wp_load; [exact (lr_loop _ _ _ _ _ Hr)|].
  assert (length srcs = Z.to_nat (el_count L)) as Hn.
  { destruct Hr. rewrite lr_srcs, length_take. lia. }
  eapply wp_mono.
  { apply (wp_fold_range md (fun i n s => s = St e h t /\
      n = Z.of_nat (length (those (user_source_at h) (take i srcs))))); [|done].
    intros i n s Hi [-> ->]. destruct (lookup_lt_is_Some_2 srcs i ltac:(lia)) as [p Hp].
    assert (p ∈ srcs) as Hin by by eapply list_elem_of_lookup_2.
    destruct (loop_rep_in _ _ _ _ _ _ Hr Hin) as [x Hx].
    wp_step. eapply wp_source_at; [done..|]. wp_step. wp_step. wp_step. split; [done|].
    rewrite (take_S_r _ _ _ Hp), those_snoc, length_app.
    assert (user_source_at h p = is_user_source x) as ->
      by (unfold user_source_at; by rewrite (source_val_eq _ _ _ Hx)). destruct (is_user_source x); cbn; lia. }
  intros n s [-> ->]. rewrite take_ge by lia. done.
Qed.

(** Compaction keeps the invariant. *)
Lemma wp_compact_inv lp srcs md s :
  loop_inv lp srcs s ->
  wp md (x_event_loop_compact lp) (fun _ => loop_inv lp (those (active_at (hp s)) srcs)) s.
Proof.
  destruct s as [e h t]. intros (L & l & Hr & Hreg). cbn [hp tr] in *.
  eapply wp_compact; [exact Hr|]. intros e' l' h' t' live Hr' Hrest Ht.
  eexists _, l'. split; [exact Hr'|]. cbn. intros fd p Hp. cbn in Hp.
  rewrite (inert_ext_registered _ _ _ Ht) in Hp.
  destruct (Hreg _ _ Hp) as (Hin & x & Hx & Hact & Hxx).
  assert (active_at h p = true) as Hact' by (unfold active_at; by rewrite (source_val_eq _ _ _ Hx)).
  split; [by apply elem_of_those|]. exists x. split; [|done].
  rewrite Hrest.
  - rewrite decide_False; [done|]. intros [_ Hf]. congruence.
  - pose proof (loop_rep_at _ _ _ _ _ _ _ Hr Hin Hx) as [Hpn _].
    pose proof (lr_array _ _ _ _ _ Hr) as [(_ & -> & _)|[_ Hl]]; [done|apart].
  - pose proof (lr_loop _ _ _ _ _ Hr). apart.
Qed.

(** ** The wait *)

(** The due times of the active timed sources. *)
Definition is_due_source (h : heap) (p : ptr) : bool :=
  active_at h p && is_timed (source_val h p).
Definition due_times (h : heap) (srcs : list ptr) : list Z :=
  (fun p => es_due_ns (source_val h p)) <$> those (is_due_source h) srcs.

(** What the loop over the sources knows after the due times [ds], at [now]. *)
Definition waiting (now : Z) (ds : list Z) (r : bool * Z) : Prop :=
  r.1 = negb (bool_decide (ds = [])) /\ 0 <= r.2 <= UINT64_MAX /\
  Forall (fun d => now < d /\ r.2 <= d - now) ds /\
  (r.2 = UINT64_MAX \/ exists d, d ∈ ds /\ r.2 = d - now).

(** The answer for due times [ds]: no timeout without sources, 0 when one is
    due, otherwise the number of milliseconds, rounded up, to the nearest. *)
Definition timeout_post (now : Z) (ds : list Z) (r : bool * Z) : Prop :=
  (ds = [] -> r = (false, -1)) /\
  ((exists d, d ∈ ds /\ d <= now) -> r = (true, 0)) /\
  (ds <> [] -> Forall (fun d => now < d) ds -> exists best,
     Forall (fun d => best <= d - now) ds /\ (best = UINT64_MAX \/ exists d, d ∈ ds /\ best = d - now) /\
     r = (true, Z.min INT_MAX (u64 (best + 999999) / 1000000))).

Lemma waiting_snoc now ds r d :
  is_u64 now -> is_u64 d -> now < d -> waiting now ds r ->
  waiting now (ds ++ [d]) (true, if u64 (d - now) <? r.2 then u64 (d - now) else r.2).
Proof.
  intros Hn Hd Hlt (H1 & H2 & H3 & H4). unfold is_u64, UINT64_MAX in *.
  rewrite u64_small by (unfold is_u64; lia). split_and!; cbn [fst snd].
  - rewrite bool_decide_eq_false_2; [done|]. by destruct ds.
  - destruct (Z.ltb_spec (d - now) r.2); lia.
  - unfold UINT64_MAX. destruct (Z.ltb_spec (d - now) r.2); lia.
  - apply Forall_app. split.
    + eapply Forall_impl; [exact H3|]. intros d' [? ?].
      destruct (Z.ltb_spec (d - now) r.2); lia.
    + constructor; [|constructor]. destruct (Z.ltb_spec (d - now) r.2); lia.
  - destruct (Z.ltb_spec (d - now) r.2).
    + right. exists d. split; [|done]. apply elem_of_app. right. by left.
    + destruct H4 as [->|(d' & ? & ->)]; [by left|right].
      exists d'. split; [|done]. apply elem_of_app. by left.
Qed.

Lemma due_times_snoc h l p :
  due_times h (l ++ [p]) =
    due_times h l ++ if is_due_source h p then [es_due_ns (source_val h p)] else [].
Proof. unfold due_times. rewrite those_snoc, fmap_app. by destruct (is_due_source h p). Qed.

Lemma waiting_done now ds has best :
  waiting now ds (has, best) ->
  timeout_post now ds (if has : bool then (true, if INT_MAX <? u64 (best + 999999) / 1000000 then INT_MAX
                                         else u64 (best + 999999) / 1000000) else (false, -1)).
Proof.
  intros (H1 & H2 & H3 & H4). cbn [fst snd] in *. rewrite Forall_forall in H3. destruct has.
  - assert (ds <> []) as Hne by (intros ->; done). split_and!; [done| |].
    + intros (d & Hd & Hle). destruct (H3 _ Hd). lia.
    + intros _ _. exists best. split_and!; [|done|].
      { apply Forall_forall. intros d Hd. by destruct (H3 _ Hd). }
      f_equal. destruct (Z.ltb_spec INT_MAX (u64 (best + 999999) / 1000000)); lia.
  - symmetry in H1. apply negb_false_iff, bool_decide_eq_true in H1 as ->.
    split_and!; [done| |done]. intros (d & Hd & _). by apply elem_of_nil in Hd.
Qed.

Lemma timeout_due now ds d : d ∈ ds -> d <= now -> timeout_post now ds (true, 0).
Proof.
  intros Hd Hle. split_and!.
  - intros ->. by apply elem_of_nil in Hd.
  - done.
  - intros _ Hall. rewrite Forall_forall in Hall. specialize (Hall _ Hd). lia.
Qed.

Lemma wp_next_timeout lp L l srcs md e h t Q :
  loop_rep lp L l srcs h ->
  (forall r s', keeps (St e h t) s' ->
     (0 < r.1.1 \/ (r.1.1 = 0 /\ exists now, is_u64 now /\
        timeout_post now (due_times h srcs) (r.1.2, r.2))) -> Q r s') ->
  wp md (x_event_loop_next_timeout_ms lp) Q (St e h t).
Proof.
  intros Hr HQ. unfold x_event_loop_next_timeout_ms. wp_step. apply wp_time_monotonic.
  intros [rc now] [e3 h3 t3] (Hh3 & Ht3 & Hnow). cbn [fst snd hp tr] in *. subst h3.
  assert (keeps (St e h t) (St e3 h t3)) as Hk by done.
  wp_step; [wp_step; apply HQ; [done|left; cbn; lia]|].
  destruct Hnow as [(_ & now' & -> & Hn)|[? _]]; [|lia]. cbn [default from_option id].
  wp_step. eapply wp_load; [exact (lr_loop _ _ _ _ _ Hr)|]. wp_step.
  assert (length srcs = Z.to_nat (el_count L)) as Hlen.
  { destruct Hr. rewrite lr_srcs, length_take. lia. }
  eapply wp_mono.
  { apply (wp_for_range md
      (fun i r s => s = St e3 h t3 /\ waiting now' (due_times h (take i srcs)) r)
      (fun _ s => s = St e3 h t3 /\ exists d, d ∈ due_times h srcs /\ d <= now')).
    - intros i [has best] s4 Hlt [-> Hw]. destruct (lookup_lt_is_Some_2 srcs i ltac:(lia)) as [p Hp].
      assert (p ∈ srcs) as Hin by by eapply list_elem_of_lookup_2.
      destruct (loop_rep_in _ _ _ _ _ _ Hr Hin) as [x Hx].
      destruct (loop_rep_at _ _ _ _ _ _ _ Hr Hin Hx) as [_ Hf].
      assert (Hsucc : due_times h (take (S i) srcs) = due_times h (take i srcs) ++
                if es_active x && is_timed x then [es_due_ns x] else []).
      { rewrite (take_S_r _ _ _ Hp), due_times_snoc. unfold is_due_source, active_at.
        by rewrite (source_val_eq _ _ _ Hx). }
      wp_step. eapply wp_source_at; [done..|]. wp_step. wp_step.
      destruct (es_active x && is_timed x) eqn:Ed.
      + apply andb_true_iff in Ed as [Ea Et]. rewrite Ea, Et. cbn [negb orb]. wp_step.
        * wp_step. split; [done|]. exists (es_due_ns x). split; [|done].
          unfold due_times. apply list_elem_of_fmap. exists p. rewrite (source_val_eq _ _ _ Hx).
          split; [done|]. apply elem_of_those. split; [|done].
          unfold is_due_source, active_at. rewrite (source_val_eq _ _ _ Hx). by rewrite Ea, Et.
        * wp_step. split; [done|]. rewrite Hsucc.
          apply (waiting_snoc now' _ (has, best)); [done|by destruct Hf|done|done].
      + rewrite <- negb_andb, Ed. cbn [negb]. wp_step. split; [done|]. by rewrite Hsucc, app_nil_r.
    - split; [done|]. split_and!; cbn; unfold UINT64_MAX; first [done|lia|by left]. }
  intros [[has best]|[]] s4.
  - intros [-> Hw]. rewrite take_ge in Hw by lia. apply waiting_done in Hw.
    destruct has; wp_step; (apply HQ; [done|right; split; [done|]; by exists now']).
  - intros [-> (d & Hd & Hle)]. wp_step. apply HQ; [done|right; split; [done|]]. exists now'.
    split; [done|]. by eapply timeout_due.
Qed.

(** ** Callbacks

    The contract of the user's functions: called with a loop whose invariant
    holds and one of its sources, they end with a loop whose invariant holds
    and that still has those sources.  The operations of the library keep it,
    as the lemmas [wp_add_*] and [wp_source_remove] show. *)
Definition evolves (lp : ptr) (srcs : list ptr) (s : st) : Prop :=
  exists more, loop_inv lp (srcs ++ more) s.

Lemma evolves_now lp srcs s : loop_inv lp srcs s -> evolves lp srcs s.
Proof. intros H. exists []. by rewrite app_nil_r. Qed.

Lemma evolves_trans lp srcs more s : evolves lp (srcs ++ more) s -> evolves lp srcs s.
Proof. intros [m H]. exists (more ++ m). by rewrite (assoc_L (++)). Qed.

Lemma loop_inv_keeps lp srcs s s' : loop_inv lp srcs s -> keeps s s' -> loop_inv lp srcs s'.
Proof.
  intros (L & l & Hr & Hreg) [Hh Ht]. exists L, l. rewrite Hh. split; [done|].
  intros fd p Hp. rewrite (inert_ext_registered _ _ _ Ht) in Hp. by apply Hreg.
Qed.

(** An object the loop does not own changes. *)
Definition foreign (o : obj) : Prop :=
  match o with OProcess _ | OFileWatcher _ => True | _ => False end.

Lemma footprint_not_foreign lp L l srcs h q o :
  loop_rep lp L l srcs h -> q ∈ footprint lp L srcs -> q <> NULL -> h !! q = Some o -> ~ foreign o.
Proof.
  intros Hr Hq Hqn Ho Hfo. unfold footprint in Hq. rewrite !elem_of_cons in Hq.
  destruct Hr. destruct Hq as [E|[E|[E|[E|Hq]]]]; try rewrite E in *.
  - rewrite Ho in lr_loop. by simplify_eq.
  - destruct lr_array as [(_ & ? & _)|[_ Hl]]; [done|]. rewrite Ho in Hl. by simplify_eq.
  - destruct lr_receiver as (_ & y & Hy). rewrite Ho in Hy. by simplify_eq.
  - destruct lr_sender as (_ & y & Hy). rewrite Ho in Hy. by simplify_eq.
  - rewrite Forall_forall in lr_sources. destruct (lr_sources _ Hq) as (_ & y & Hy & _).
    rewrite Ho in Hy. by simplify_eq.
Qed.

Lemma loop_inv_foreign lp srcs q o o' e h t e' t' :
  loop_inv lp srcs (St e h t) -> h !! q = Some o -> foreign o -> kept h (<[q := o']> h) ->
  inert_ext t t' -> loop_inv lp srcs (St e' (<[q := o']> h) t').
Proof.
  intros (L & l & Hr & Hreg) Ho Hfo Hk Ht. exists L, l. cbn in *. split.
  - eapply loop_rep_frame; [done..|]. intros q' Hq Hqn. rewrite lookup_insert_ne; [done|].
    intros <-. by eapply footprint_not_foreign.
  - eapply registered_ok_other.
    + intros fd p Hp. rewrite (inert_ext_registered _ _ _ Ht) in Hp. by apply (Hreg fd).
    + intros p Hp. rewrite lookup_insert_ne; [done|]. intros <-.
      destruct (loop_rep_in _ _ _ _ _ _ Hr Hp) as [y Hy]. rewrite Ho in Hy. by simplify_eq.
Qed.

Definition callback_ok (md : wpmode) (user : Z -> ptr -> ptr -> Z -> ptr -> M Z) (lp : ptr) : Prop :=
  forall cb p ev ud srcs s, loop_inv lp srcs s -> p ∈ srcs -> cb <> WAKE_CALLBACK ->
    wp md (user cb lp p ev ud) (fun _ => evolves lp srcs) s.

Section Running.
Variable user : Z -> ptr -> ptr -> Z -> ptr -> M Z.
Variable fuel : nat.
Variable md : wpmode.
Variable lp : ptr.
Hypothesis Hstarve : may_starve md.
Hypothesis Huser : callback_ok md user lp.

Lemma wp_wake_callback loop source events srcs s :
  loop_inv lp srcs s ->
  wp md (x_event_loop_wake_callback fuel loop source events lp) (fun _ => loop_inv lp srcs) s.
Proof.
  intros Hi. unfold x_event_loop_wake_callback.
  apply (wp_iter_partial md (fun _ => loop_inv lp srcs)); [done| |done]. clear s Hi.
  intros ? [e h t] Hi. pose proof Hi as (L & l & Hr & Hreg).
  destruct (lr_receiver _ _ _ _ _ Hr) as (Hn & x & Hx). wp_step.
  eapply wp_load; [exact (lr_loop _ _ _ _ _ Hr)|]. wp_step.
  eapply wp_socket_receive_from; [done|done|]. intros rc addr n data s' _ Hk _.
  pose proof (loop_inv_keeps _ _ _ _ Hi Hk). wp_run; done.
Qed.

Lemma wp_dispatch srcs p events s :
  loop_inv lp srcs s -> p ∈ srcs ->
  wp md (x_event_source_dispatch user fuel p events) (fun _ => evolves lp srcs) s.
Proof.
  destruct s as [e h t]. intros Hi Hp. pose proof Hi as (L & l & Hr & Hreg).
  destruct (loop_rep_in _ _ _ _ _ _ Hr Hp) as [x Hx].
  destruct (loop_rep_at _ _ _ _ _ _ _ Hr Hp Hx) as [Hn Hf].
  unfold x_event_source_dispatch. wp_step. wp_step. wp_step.
  1-2: by apply evolves_now.
  wp_step.
  - rewrite (sf_wake _ _ _ Hf) by done. eapply wp_mono; [by apply wp_wake_callback|].
    intros ? s; apply evolves_now.
  - apply wp_invoke. rewrite (sf_loop _ _ _ Hf). apply Huser; [|done|done].
    exists L, l. split; [done|]. intros fd q. exact (Hreg fd q).
Qed.

(** Writing the due time of a source of the loop. *)
Lemma loop_inv_set_due srcs p (x : x_event_source) d e h t :
  loop_inv lp srcs (St e h t) -> p ∈ srcs -> h !! p = Some (to_obj x) -> is_u64 d ->
  loop_inv lp srcs (St e (<[p := to_obj (es_set_due d x)]> h) t).
Proof.
  intros (L & l & Hr & Hreg) Hp Hx Hd.
  destruct (loop_rep_at _ _ _ _ _ _ _ Hr Hp Hx) as [Hn Hf]. exists L, l. split.
  - eapply loop_rep_source; [done..|]. by apply source_fine_due.
  - eapply registered_ok_source; [done..|]. by left.
Qed.

Lemma loop_inv_in srcs p e h t : loop_inv lp srcs (St e h t) -> p ∈ srcs ->
  exists x : x_event_source, h !! p = Some (to_obj x).
Proof. intros (L & l & Hr & _) Hp. by eapply loop_rep_in. Qed.

Lemma wp_remove_inv srcs p s :
  loop_inv lp srcs s -> p ∈ srcs ->
  wp md (x_event_source_remove p) (fun _ => loop_inv lp srcs) s.
Proof.
  destruct s as [e h t]. intros (L & l & Hr & Hreg) Hp.
  destruct (loop_rep_in _ _ _ _ _ _ Hr Hp) as [x Hx].
  eapply wp_source_remove; [done..|]. intros e' t' h' Hr' Hreg' _ _. by exists L, l.
Qed.

Lemma wp_rearm srcs p now s :
  loop_inv lp srcs s -> p ∈ srcs ->
  wp md (rearm fuel now p) (fun _ => loop_inv lp srcs) s.
Proof.
  intros Hi Hp. unfold rearm. apply (wp_iter_partial md (fun _ => loop_inv lp srcs)); [done| |done].
  clear s Hi. intros ? [e h t] Hi.
  destruct (loop_inv_in _ _ _ _ _ Hi Hp) as [x Hx].
  pose proof (loop_inv_set_due _ _ _ (u64 (es_due_ns x + es_interval_ns x)) _ _ _ Hi Hp Hx (u64_range _)).
  wp_step. wp_step. wp_step. eapply wp_load; [by rewrite lookup_insert_eq|]. wp_step. by case_match.
Qed.

Lemma wp_dispatch_process now srcs p (x : x_event_source) e h t :
  loop_inv lp srcs (St e h t) -> p ∈ srcs -> h !! p = Some (to_obj x) ->
  es_active x = true -> es_type x = X_EVENT_SOURCE_PROCESS ->
  wp md (dispatch_process user fuel now p x) (fun _ => evolves lp srcs) (St e h t).
Proof.
  intros Hi Hp Hx Ha Hty. pose proof Hi as (L & l & Hr & Hreg).
  destruct (loop_rep_at _ _ _ _ _ _ _ Hr Hp Hx) as [Hn Hf].
  destruct (sf_process _ _ _ Hf Ha Hty) as (Hpn & pr & Hpr & Hpid).
  unfold dispatch_process. wp_step.
  eapply wp_process_poll; [done|done|by left|done|..].
  - intros rc e' t' Hrc Ht'. wp_step. wp_step. apply evolves_now.
    by eapply loop_inv_keeps; [exact Hi|].
  - intros e' t' _ Ht'. cbn [Z.eqb negb default from_option id]. wp_run.
    apply evolves_now, loop_inv_set_due; [|done|done|apply u64_range].
    by eapply loop_inv_keeps; [exact Hi|].
  - intros pr' e' t' Ht' Hcase.
    assert (loop_inv lp srcs (St e' (<[es_process x := to_obj pr']> h) t')) as Hi'.
    { eapply loop_inv_foreign; [exact Hi|exact Hpr|done| |done].
      apply kept_process; [right; by split; [|exists pr]| |done].
      destruct Hcase as [(_ & -> & _)|(_ & st & ->)]; done. }
    cbn [Z.eqb negb default from_option id]. wp_step.
    eapply wp_mono; [by apply wp_dispatch|]. intros error [e2 h2 t2] [more Hi2].
    wp_step; [wp_step; by exists more|].
    destruct (loop_inv_in _ p _ _ _ Hi2 ltac:(set_solver)) as [y Hy].
    wp_step. wp_step. wp_step. wp_step.
    + eapply wp_mono; [apply wp_remove_inv; [done|set_solver]|]. intros ? s Hs. wp_step. by exists more.
    + wp_step. wp_step. by exists more.
Qed.

Lemma wp_dispatch_file now srcs p (x : x_event_source) e h t :
  loop_inv lp srcs (St e h t) -> p ∈ srcs -> h !! p = Some (to_obj x) ->
  es_active x = true -> es_type x = X_EVENT_SOURCE_FILE ->
  wp md (dispatch_file user fuel now p x) (fun _ => evolves lp srcs) (St e h t).
Proof.
  intros Hi Hp Hx Ha Hty. pose proof Hi as (L & l & Hr & Hreg).
  destruct (loop_rep_at _ _ _ _ _ _ _ Hr Hp Hx) as [Hn Hf].
  destruct (sf_watcher _ _ _ Hf Ha Hty) as (Hwn & w & Hw).
  unfold dispatch_file. wp_step.
  eapply (wp_file_watcher_poll _ w x_event_file_watch_callback); [done|done|].
  intros rc pending w' e' t' _ Ht' _ _.
  assert (loop_inv lp srcs (St e' (<[es_watcher x := to_obj w']> h) t')) as Hi'.
  { eapply loop_inv_foreign; [exact Hi|exact Hw|done| |done].
    apply kept_watcher. by split; [|exists w]. }
  wp_step; [wp_step; by apply evolves_now|].
  wp_step. apply (wp_mono _ _ (fun _ => evolves lp srcs)).
  { wp_step; [by apply wp_dispatch|wp_step; by apply evolves_now]. }
  intros error [e2 h2 t2] [more Hi2]. wp_step; [wp_step; by exists more|].
  destruct (loop_inv_in (srcs ++ more) p _ _ _ Hi2 ltac:(set_solver)) as [y Hy].
  pose proof (loop_inv_set_due (srcs ++ more) p y (u64 (now + es_interval_ns y)) _ _ _ Hi2
    ltac:(set_solver) Hy (u64_range _)).
  wp_run; by exists more.
Qed.

Lemma wp_dispatch_timer now srcs p s :
  loop_inv lp srcs s -> p ∈ srcs ->
  wp md (dispatch_timer user fuel now p) (fun _ => evolves lp srcs) s.
Proof.
  intros Hi Hp. unfold dispatch_timer. wp_step. eapply wp_mono; [by apply wp_dispatch|].
  intros error [e2 h2 t2] [more Hi2]. wp_step; [wp_step; by exists more|].
  assert (p ∈ srcs ++ more) as Hp' by set_solver.
  destruct (loop_inv_in (srcs ++ more) p _ _ _ Hi2 Hp') as [y Hy].
  wp_step. wp_step. wp_step. wp_step; [wp_run; by exists more|]. wp_step.
  - eapply wp_mono; [by apply wp_remove_inv|]. intros ? s' Hs. wp_step. by exists more.
  - eapply wp_mono; [by apply wp_rearm|]. intros ? s' Hs. wp_step. by exists more.
Qed.

Lemma wp_dispatch_timers srcs s :
  loop_inv lp srcs s ->
  wp md (x_event_loop_dispatch_timers user fuel lp) (fun _ => evolves lp srcs) s.
Proof.
  destruct s as [e h t]. intros Hi. unfold x_event_loop_dispatch_timers. wp_step.
  apply wp_time_monotonic. intros [rc now] s1 (Hh & Ht & _). cbn [fst snd].
  assert (loop_inv lp srcs s1) as Hi1 by (eapply loop_inv_keeps; [exact Hi|by split]).
  wp_step; [wp_step; by apply evolves_now|].
  apply (wp_iter_partial md (fun _ => evolves lp srcs)); [done| |by apply evolves_now].
  clear s1 Hi1 Hh Ht Hi. intros i [e1 h1 t1] [more Hi].
  pose proof Hi as (L & l & Hr & Hreg). unfold dispatch_timers_step. wp_step.
  eapply wp_load; [exact (lr_loop _ _ _ _ _ Hr)|]. wp_step; [wp_step; by exists more|].
  assert (exists p, (srcs ++ more) !! i = Some p) as [p Hp].
  { apply lookup_lt_is_Some_2. pose proof (lr_srcs _ _ _ _ _ Hr) as ->.
    rewrite length_take. pose proof (lr_count _ _ _ _ _ Hr). pose proof (lr_len _ _ _ _ _ Hr). lia. }
  assert (p ∈ srcs ++ more) as Hin by by eapply list_elem_of_lookup_2.
  destruct (loop_rep_in _ _ _ _ _ _ Hr Hin) as [x Hx]. cbn in Hx.
  wp_step. eapply wp_source_at; [done..|]. wp_step. wp_step.
  destruct (_ || _) eqn:Eskip; [wp_step; by exists more|].
  apply orb_false_iff in Eskip as [Eskip _]. apply orb_false_iff in Eskip as [Ha%negb_false_iff _].
  wp_step. apply (wp_mono _ _ (fun _ => evolves lp (srcs ++ more))).
  { wp_step; [by apply wp_dispatch_process|]. wp_step; [by apply wp_dispatch_file|].
    by apply wp_dispatch_timer. }
  intros [error|] s2 Hs2; wp_step; by eapply evolves_trans.
Qed.

Lemma wp_dispatch_ready srcs events s :
  evolves lp srcs s -> Forall (fun ev => ev.2 ∈ srcs) events ->
  wp md (dispatch_ready user fuel events) (fun _ => evolves lp srcs) s.
Proof.
  intros Hs Hev. revert s Hs. induction Hev as [|[ready p] events Hp _ IH];
    intros [e h t] [more Hi]; cbn [dispatch_ready]; [wp_step; by exists more|].
  cbn in Hp. destruct (loop_inv_in (srcs ++ more) p _ _ _ Hi ltac:(set_solver)) as [x Hx].
  wp_step; [apply IH; by exists more|]. wp_step. wp_step.
  destruct (_ && _); [|apply IH; by exists more].
  wp_step. eapply wp_mono; [apply wp_dispatch; [done|set_solver]|].
  intros error s' Hs'. apply evolves_trans in Hs'. wp_step; [by wp_step|by apply IH].
Qed.

Lemma wp_wait_sockets srcs timeout s :
  loop_inv lp srcs s ->
  wp md (x_event_loop_wait_sockets user fuel lp timeout) (fun _ => evolves lp srcs) s.
Proof.
  destruct s as [e h t]. intros Hi. pose proof Hi as (L & l & Hr & Hreg).
  unfold x_event_loop_wait_sockets. wp_step. eapply wp_load; [exact (lr_loop _ _ _ _ _ Hr)|].
  wp_step. wp_step. destruct Hpost as [Hcount Hready].
  assert (loop_inv lp srcs (St e0 h (Ev (Sepoll_wait (el_backend_fd L) 32 timeout) r :: t))) as Hi'.
  { eapply loop_inv_keeps; [exact Hi|]. keeps_solve. }
  wp_step; [wp_run; by apply evolves_now|].
  apply wp_dispatch_ready; [by apply evolves_now|].
  destruct (Hready E) as [_ Hall]. eapply Forall_impl; [exact Hall|].
  intros ev [fd Hfd]. by apply (Hreg fd).
Qed.

(** How the run loop may end with code [rc]. *)
Definition run_ends (rc : Z) (s : st) : Prop :=
  exists L l srcs, loop_rep lp L l srcs (hp s) /\ registered_ok L srcs (hp s) (tr s) /\
    (rc = 0 -> el_stop_requested L = true \/ those (user_source_at (hp s)) srcs = []).

Lemma run_ends_error rc srcs s : rc <> 0 -> evolves lp srcs s -> run_ends rc s.
Proof. intros Hrc (more & L & l & Hr & Hreg). exists L, l, (srcs ++ more). by split_and!. Qed.

Lemma those_length_0 f l : Z.of_nat (length (those f l)) <= 0 -> those f l = [].
Proof. intros H. apply length_zero_iff_nil. lia. Qed.

Lemma run_ends_idle L l srcs e h t rc :
  loop_rep lp L l srcs h -> registered_ok L srcs h t ->
  Z.of_nat (length (those (user_source_at h) srcs)) <= 0 -> run_ends rc (St e h t).
Proof.
  intros Hr Hreg Hn. exists L, l, srcs. split_and!; [done..|]. right. by apply those_length_0.
Qed.

Lemma wp_run_step error s :
  error = 0 /\ evolves lp [] s ->
  wp md (run_step user fuel lp error)
    (fun r s' => match r with inl error' => error' = 0 /\ evolves lp [] s' | inr rc => run_ends rc s' end) s.
Proof.
  destruct s as [e h t]. intros [-> [srcs Hi]]. cbn in Hi. pose proof Hi as (L & l & Hr & Hreg).
  unfold run_step. wp_step. eapply wp_load; [exact (lr_loop _ _ _ _ _ Hr)|].
  wp_step; [wp_step; exists L, l, srcs; by split_and!; auto|].
  wp_step. eapply wp_active_user_sources; [exact Hr|].
  wp_step; [wp_step; by eapply run_ends_idle|].
  wp_step. eapply wp_mono; [by apply wp_dispatch_timers|].
  intros rc1 [e1 h1 t1] [more1 Hi1]. pose proof Hi1 as (L1 & l1 & Hr1 & Hreg1).
  wp_step. eapply wp_load; [exact (lr_loop _ _ _ _ _ Hr1)|].
  destruct (Z.eqb_spec rc1 0) as [->|Hrc1]; cbn [negb orb].
  2: { wp_step. eapply (run_ends_error _ (srcs ++ more1)); [done|]. by apply evolves_now. }
  wp_step; [wp_step; exists L1, l1, (srcs ++ more1); by split_and!; auto|].
  wp_step. eapply wp_mono; [by apply wp_compact_inv|]. intros ? [e2 h2 t2] Hi2.
  set (live := those (active_at _) _) in *. pose proof Hi2 as (L2 & l2 & Hr2 & Hreg2).
  wp_step. eapply wp_active_user_sources; [exact Hr2|].
  wp_step; [wp_step; eapply run_ends_idle; [done..|lia]|].
  wp_step. eapply wp_next_timeout; [exact Hr2|]. intros [[rc3 has] timeout] s3 Hk3 _.
  assert (loop_inv lp live s3) as Hi3 by (eapply loop_inv_keeps; [exact Hi2|done]).
  wp_step; [wp_step; by eapply run_ends_error, evolves_now|].
  wp_step. eapply wp_mono; [by apply wp_wait_sockets|]. intros rc4 s4 [more4 Hi4].
  wp_step; [wp_step; by eapply run_ends_error, evolves_now|].
  wp_step. eapply wp_mono; [by apply wp_dispatch_timers|]. intros rc5 s5 [more5 Hi5].
  wp_step; [wp_step; by eapply run_ends_error, evolves_now|].
  wp_step. eapply wp_mono; [by apply wp_compact_inv|]. intros ? s6 Hi6. wp_step.
  split; [done|]. eexists. exact Hi6.
Qed.
End Running.
End Safe.
