(* ===== verification/XEventLoop.v ===== *)
(** * The event loop: safety of whole runs

    Callbacks made of the library's own operations, and the safety of
    [x_event_loop_run] for every admissible user. *)
From S2P Require Import Prelude Syscalls Structs Machine Contract XTime XNetwork XProcess.
From S2P Require Import XWatcher XEvent XEventInv XEventSafe DemoOS.

(** ** Users made of the library's operations *)

(** What a callback may do with the library, on its own loop and source. *)
Inductive api_op :=
  | ARemoveSelf
  | AAddTimer (delay_ms interval_ms callback : Z) (user_data : ptr)
  | AStop | ACancel | AWake.

Section Scripts.
Context {os : OS}.
Implicit Types (md : wpmode) (h : heap) (t : list ev).

Definition perform (op : api_op) (loop source : ptr) : M unit :=
  match op with
  | ARemoveSelf => x_event_source_remove source
  | AAddTimer delay interval cb ud =>
      _ ← x_event_loop_add_timer loop true delay interval cb ud; mret tt
  | AStop => x_event_loop_stop loop
  | ACancel => _ ← x_event_loop_cancel loop; mret tt
  | AWake => _ ← x_event_loop_wake loop; mret tt
  end.

Fixpoint perform_all (ops : list api_op) (loop source : ptr) : M unit :=
  match ops with
  | [] => mret tt
  | op :: ops => perform op loop source;; perform_all ops loop source
  end.

(** Function [cb] of the table runs its script and returns its code. *)
Definition script_user (table : Z -> list api_op * Z) (cb loop source events user_data : Z) : M Z :=
  perform_all (table cb).1 loop source;; mret (table cb).2.

Definition op_ok (op : api_op) : Prop :=
  match op with AAddTimer _ _ cb _ => cb <> 0 /\ cb <> WAKE_CALLBACK | _ => True end.

Lemma added_evolves lp srcs L P s r s' :
  add_post lp srcs L P s r s' -> evolves lp srcs s'.
Proof.
  intros [(_ & p & x & _ & (L' & l' & Hr & Hreg & _) & _)|(_ & _ & (L' & l' & Hr & Hreg & _))].
  - exists [p], L', l'. done.
  - apply evolves_now. by exists L', l'.
Qed.

Lemma wp_loop_wake lp L l srcs md e h t (Q : Z -> st -> Prop) :
  loop_rep lp L l srcs h ->
  (forall rc s', keeps (St e h t) s' -> Q rc s') ->
  wp md (x_event_loop_wake lp) Q (St e h t).
Proof.
  intros Hr HQ. unfold x_event_loop_wake. pose proof (lr_pos _ _ _ _ _ Hr) as Hp.
  apply Z.eqb_neq in Hp as ->. wp_step. eapply wp_load; [exact (lr_loop _ _ _ _ _ Hr)|].
  destruct (lr_sender _ _ _ _ _ Hr) as (Hn & x & Hx). apply Z.eqb_neq in Hn as ->.
  wp_step. eapply wp_socket_send_to; [exact Hx|]. intros rc n s' _ Hk. wp_step. by apply HQ.
Qed.

(** Setting a member of the loop other than the array. *)
Lemma loop_inv_members lp L L' l srcs e h t :
  loop_rep lp L l srcs h -> registered_ok L srcs h t -> same_members L L' ->
  let h' := <[lp := to_obj L']> h in
  loop_rep lp L' l srcs h' /\ registered_ok L' srcs h' t /\ loop_inv lp srcs (St e h' t).
Proof.
  intros Hr Hreg Hs h'.
  assert (loop_rep lp L' l srcs h') as Hr' by by eapply loop_rep_members.
  assert (registered_ok L' srcs h' t) as Hreg'.
  { pose proof Hs as (_ & _ & _ & _ & _ & Eb). intros fd p Hp. rewrite Eb in Hp.
    destruct (Hreg _ _ Hp) as (Hin & x & Hx & H). split; [done|]. exists x.
    unfold h'. rewrite lookup_insert_ne; [done|]. pose proof (lr_loop _ _ _ _ _ Hr). apart. }
  split_and!; [done..|]. by exists L', l.
Qed.

Lemma wp_perform op lp p srcs md s :
  op_ok op -> loop_inv lp srcs s -> p ∈ srcs ->
  wp md (perform op lp p) (fun _ => evolves lp srcs) s.
Proof.
  intros Hop Hi Hp. destruct s as [e h t]. pose proof Hi as (L & l & Hr & Hreg).
  pose proof (lr_pos _ _ _ _ _ Hr) as Hlp. apply Z.eqb_neq in Hlp as Elp.
  pose proof (loop_inv_members lp L (el_set_stop true L) l srcs e h t Hr Hreg ltac:(done))
    as (Hr1 & Hreg1 & Hi1).
  destruct op as [|delay interval cb ud| | |]; cbn [perform].
  - eapply wp_mono; [by apply wp_remove_inv|]. intros ? s'. apply evolves_now.
  - destruct Hop. wp_step. eapply wp_add_timer; [done..|]. intros r s' Hadd. wp_step.
    by eapply added_evolves.
  - unfold x_event_loop_stop. rewrite Elp. cbn [negb]. wp_step.
    eapply wp_modify; [exact (lr_loop _ _ _ _ _ Hr)|]. wp_step.
    eapply wp_loop_wake; [done|]. intros rc s' Hk. wp_step. apply evolves_now.
    by eapply loop_inv_keeps; [exact Hi1|].
  - wp_step. unfold x_event_loop_cancel. rewrite Elp. wp_step.
    eapply wp_modify; [exact (lr_loop _ _ _ _ _ Hr)|].
    eapply wp_loop_wake; [done|]. intros rc s' Hk. wp_step. apply evolves_now.
    by eapply loop_inv_keeps; [exact Hi1|].
  - wp_step. eapply wp_loop_wake; [exact Hr|]. intros rc s' Hk. wp_step. apply evolves_now.
    by eapply loop_inv_keeps; [exact Hi|].
Qed.

Lemma wp_perform_all ops lp p srcs md s :
  Forall op_ok ops -> evolves lp srcs s -> p ∈ srcs ->
  wp md (perform_all ops lp p) (fun _ => evolves lp srcs) s.
Proof.
  intros Hops. revert s. induction Hops as [|op ops Hop _ IH]; intros s [more Hi] Hp;
    cbn [perform_all]; [wp_step; by exists more|].
  wp_step. eapply wp_mono; [apply (wp_perform op lp p (srcs ++ more)); [done|done|set_solver]|].
  intros ? s' Hs'. apply IH; [|done]. exact (evolves_trans _ _ _ _ Hs').
Qed.

Lemma wp_script_user table lp cb p ev ud srcs md s :
  Forall op_ok (table cb).1 -> loop_inv lp srcs s -> p ∈ srcs ->
  wp md (script_user table cb lp p ev ud) (fun _ => evolves lp srcs) s.
Proof.
  intros Hops Hi Hp. unfold script_user. wp_step.
  eapply wp_mono; [apply (wp_perform_all _ lp p srcs); [done|by apply evolves_now|done]|].
  intros ? s' Hs'. by wp_step.
Qed.


End Scripts.
