(* ===== verification/XEventLife.v ===== *)
(** * The event loop: creation and destruction

    A loop that was created owns a structure, an array, two sockets and one
    source; whatever fails on the way is undone, and destruction gives all of it
    back. *)
From S2P Require Import Prelude Syscalls Structs Machine Contract XTime XNetwork XProcess.
From S2P Require Import XWatcher XEvent XEventInv XEventSafe XEventLoop DemoOS.

Section Life.
Context {os : OS}.
Implicit Types (md : wpmode) (h : heap) (t : list ev).

(** The members set once, by the constructor. *)
Definition same_wiring (L L' : x_event_loop) : Prop :=
  el_wake_receiver L' = el_wake_receiver L /\ el_wake_sender L' = el_wake_sender L /\
  el_backend_fd L' = el_backend_fd L /\ el_running L' = el_running L /\
  el_stop_requested L' = el_stop_requested L.

(** After the set-up of a loop at [p] in heap [h]: [more] are its sources. *)
Record setup_done (p : ptr) (L L' : x_event_loop) (l' more : list ptr) (h : heap) (t : list ev)
    (s' : st) : Prop := {
  sd_rep : loop_rep p L' l' more (hp s');
  sd_registered : registered_ok L' more (hp s') (tr s');
  sd_outside : outside (p :: el_sources L' :: more) h (hp s');
  sd_fresh : Forall (fun q => h !! q = None) more;
  sd_array : el_sources L' = NULL \/ h !! el_sources L' = None;
  sd_wiring : same_wiring L L';
  sd_held : held (tr s') = held t
}.

Lemma setup_now p L h t e' t' :
  loop_rep p L [] [] h -> registered_ok L [] h t -> el_sources L = NULL -> inert_ext t t' ->
  setup_done p L L [] [] h t (St e' h t').
Proof.
  intros Hr Hreg Hz Ht. split; cbn; try done; [|by left|by apply inert_ext_held].
  intros fd q Hq. rewrite (inert_ext_registered _ _ _ Ht) in Hq. by apply Hreg.
Qed.

Lemma same_wiring_trans L L1 L2 : same_wiring L L1 -> same_wiring L1 L2 -> same_wiring L L2.
Proof. unfold same_wiring. intuition congruence. Qed.

Lemma frozen_wiring L L' : frozen L' = frozen L -> same_wiring L L'.
Proof.
  intros H. pose proof (f_equal el_wake_receiver H). pose proof (f_equal el_wake_sender H).
  pose proof (f_equal el_backend_fd H). pose proof (f_equal el_running H).
  by pose proof (f_equal el_stop_requested H).
Qed.

(** After the local address was stored. *)
Lemma setup_address p L a h t e' t' :
  loop_rep p L [] [] h -> registered_ok L [] h t -> el_sources L = NULL -> inert_ext t t' ->
  let L1 := el_set_address a L in
  setup_done p L L1 [] [] h t (St e' (<[p := to_obj L1]> h) t').
Proof.
  intros Hr Hreg Hz Ht L1.
  destruct (loop_inv_members p L L1 [] [] e' h t Hr Hreg ltac:(done)) as (Hr1 & Hreg1 & _).
  split; cbn; try done.
  - intros fd q Hq. rewrite (inert_ext_registered _ _ _ Ht) in Hq. by apply Hreg1 in Hq.
  - intros q Hq. rewrite lookup_insert_ne; [done|].
    eapply outside_ne; [exact Hq|by left|exact (lr_pos _ _ _ _ _ Hr)].
  - by left.
  - by apply inert_ext_held.
Qed.

(** After the addition of the wake source, which may have failed. *)
Lemma setup_added p L L1 L5 l5 more src h t e5 h5 t5 :
  el_sources L1 = NULL -> same_wiring L L1 -> h !! p = Some (to_obj L) ->
  loop_rep p L5 l5 more h5 -> registered_ok L5 more h5 t5 ->
  added p L1 L5 more (<[p := to_obj L1]> h) h5 -> held t5 = held t ->
  let L6 := el_set_source src L5 in
  setup_done p L L6 l5 more h t (St e5 (<[p := to_obj L6]> h5) t5).
Proof.
  intros Hz Hw Hp Hr5 Hreg5 [Ho Hf Harr Hfr] Hh5 L6. rewrite Hz in *.
  destruct (loop_inv_members p L5 L6 l5 more e5 h5 t5 Hr5 Hreg5 ltac:(done)) as (Hr6 & Hreg6 & _).
  pose proof (lr_pos _ _ _ _ _ Hr5) as Hpn.
  split; cbn; [exact Hr6|exact Hreg6| | | | |exact Hh5].
  - intros q Hq.
    assert (p <> q) by (eapply outside_ne; [exact Hq|by left|done]).
    rewrite lookup_insert_ne, Ho; [by rewrite lookup_insert_ne| |done].
    cbn in Hq. rewrite !elem_of_cons in *. tauto.
  - eapply Forall_impl; [exact Hf|]. intros q [Hn [Hq|Hq]]; [|done].
    by apply lookup_insert_None in Hq as [? _].
  - destruct Harr as [Harr|[Harr _]]; [by left|right].
    by apply lookup_insert_None in Harr as [? _].
  - eapply same_wiring_trans; [exact Hw|]. exact (frozen_wiring _ _ Hfr).
Qed.

(** The first steps: the receiver is bound to a port of its own. *)
Lemma wp_setup_bind {A} receiver (xr : x_socket) md e h t (k : Z -> M A) (Q : A -> st -> Prop) :
  h !! receiver = Some (to_obj xr) ->
  (forall rc e' t', 0 <= rc -> inert_ext t t' -> wp md (k rc) Q (St e' h t')) ->
  wp md (b ← x_address_resolve true (Some (str "127.0.0.1")) (Some (str "0")) X_SOCKET_UDP 0;
         error ← (if b.1 =? 0 then x_socket_bind receiver b.2 else mret b.1); k error) Q (St e h t).
Proof.
  intros Hxr HQ. wp_step. apply wp_address_resolve. intros b [e1 h1 t1] Hb0 Hb [Hh1 Ht1].
  cbn [hp tr] in *. subst h1. wp_step.
  apply (wp_mono _ _ (fun rc s => 0 <= rc /\ keeps (St e h t) s)).
  { wp_step; [|wp_step; by split]. eapply wp_socket_bind; [done|]. intros rc s' Hrc Hk.
    split; [done|]. eapply keeps_trans; [|exact Hk]. by split. }
  intros rc [e2 h2 t2] [Hrc [Hh2 Ht2]]. cbn [hp tr] in *. subst h2. by apply HQ.
Qed.

Lemma wp_create_setup p L (xr : x_socket) md e h t (Q : Z -> st -> Prop) :
  loop_rep p L [] [] h -> registered_ok L [] h t -> el_sources L = NULL ->
  h !! el_wake_receiver L = Some (to_obj xr) ->
  (forall rc L' l' s', 0 < rc -> setup_done p L L' l' [] h t s' -> Q rc s') ->
  (forall L' l' src s', setup_done p L L' l' [src] h t s' -> el_wake_source L' = src ->
     hp s' !! src = Some (to_obj (socket_source p (el_wake_receiver L) (u64 (so_handle xr))
       X_EVENT_READ WAKE_CALLBACK p)) -> Q 0 s') ->
  wp md (create_setup p (el_wake_receiver L)) Q (St e h t).
Proof.
  intros Hr Hreg Hz Hxr Hbad Hok. unfold create_setup.
  eapply wp_setup_bind; [exact Hxr|]. intros rc e2 t2 Hrc Ht2. wp_step.
  destruct (Z.eqb_spec rc 0) as [->|Hne].
  2: { wp_step. wp_step. rewrite (proj2 (Z.eqb_neq rc 0)) by done. wp_step.
       rewrite (proj2 (Z.eqb_neq rc 0)) by done. wp_step. eapply Hbad; [lia|by apply setup_now]. }
  wp_step. eapply wp_socket_local_address; [done|]. intros rc3 a [e3 h3 t3] Hrc3 [Hh3 Ht3] _.
  cbn [hp tr fst snd] in *. subst h3. assert (inert_ext t t3) as Ht03 by by eapply inert_ext_trans.
  wp_step. eapply wp_modify; [exact (lr_loop _ _ _ _ _ Hr)|]. set (addr := default _ a).
  pose proof (setup_address p L addr h t) as Hsd. cbv zeta in Hsd.
  assert (<[p := to_obj (el_set_address addr L)]> h !! el_wake_receiver L = Some (to_obj xr)) as Hxr1.
  { rewrite lookup_insert_ne; [done|]. pose proof (lr_loop _ _ _ _ _ Hr). apart. }
  set (h1 := <[p := _]> h) in *. wp_step. wp_step.
  apply (wp_mono _ _ (fun rc s => 0 <= rc /\ keeps (St e h1 t) s)).
  { wp_step; [|wp_step; by split]. eapply wp_socket_set_nonblocking; [done|].
    intros rc s' Hrc4 Hk. split; [done|]. eapply keeps_trans; [|exact Hk]. by split. }
  intros rc4 [e4 h4 t4] [Hrc4 [Hh4 Ht4]]. cbn [hp tr] in Hh4, Ht4. subst h4.
  specialize (Hsd e4 t4 Hr Hreg Hz Ht4).
  destruct (Z.eqb_spec rc4 0) as [->|Hne4]; [|wp_step; eapply Hbad; [lia|exact Hsd]].
  wp_step. eapply (wp_add_socket p _ [] []); [exact (sd_rep _ _ _ _ _ _ _ _ Hsd)|exact (sd_registered _ _ _ _ _ _ _ _ Hsd)
    |done|done|exact Hxr1|by destruct (lr_receiver _ _ _ _ _ Hr)|done|].
  intros [rc5 out] [e5 h5 t5] Hadd. wp_step. apply inert_ext_held in Ht4.
  destruct Hadd as [(-> & src & x & -> & (L5 & l5 & Hr5 & Hreg5 & Ha5 & Hx5 & Hh5 & _) & ->)
                   |(Hrc5 & -> & (L5 & l5 & Hr5 & Hreg5 & Ha5 & _ & Hh5 & _))];
    cbn [fst snd hp tr default from_option id] in *;
    (eapply wp_modify; [exact (lr_loop _ _ _ _ _ Hr5)|]); wp_step; rewrite Ht4 in Hh5.
  - eapply (Hok (el_set_source src L5) l5 src); [|done|].
    + by eapply (setup_added p L (el_set_address addr L)); [| |exact (lr_loop _ _ _ _ _ Hr)|..].
    + cbn [hp]. rewrite lookup_insert_ne; [done|]. pose proof (lr_loop _ _ _ _ _ Hr5). apart.
  - eapply (Hbad rc5); [done|].
    by eapply (setup_added p L (el_set_address addr L)); [| |exact (lr_loop _ _ _ _ _ Hr)|..].
Qed.

(** ** Destruction *)

Lemma not_source lp L l srcs h q o :
  loop_rep lp L l srcs h -> h !! q = Some o -> (forall y : x_event_source, o <> to_obj y) -> q ∉ srcs.
Proof.
  intros Hr Hq Ho Hin. destruct (loop_rep_in _ _ _ _ _ _ Hr Hin) as [y Hy].
  rewrite Hq in Hy. simplify_eq. by eapply Ho.
Qed.

(** The first [i] sources are gone. *)
Definition gone (i : nat) (srcs : list ptr) (h h' : heap) : Prop :=
  forall q, h' !! q = if decide (q ∈ take i srcs) then None else h !! q.

Lemma gone_keeps i srcs h h' q o :
  gone i srcs h h' -> h !! q = Some o -> q ∉ take i srcs -> h' !! q = Some o.
Proof. intros Hg Hq Hn. by rewrite Hg, decide_False. Qed.

Lemma gone_next i srcs h h' p : gone i srcs h h' -> srcs !! i = Some p -> gone (S i) srcs h (delete p h').
Proof.
  intros Hg Hp q. rewrite (take_S_r srcs i p Hp). destruct (decide (p = q)) as [->|Hne].
  - rewrite lookup_delete_eq, decide_True by set_solver. done.
  - rewrite lookup_delete_ne, Hg by done. apply decide_ext. set_solver.
Qed.

Lemma wp_destroy_step lp L l srcs i md e h h1 t1 X :
  loop_rep lp L l srcs h -> (i < length srcs)%nat -> gone i srcs h h1 -> held t1 = X ->
  wp md (destroy_step lp i tt) (fun _ s => gone (S i) srcs h (hp s) /\ held (tr s) = X) (St e h1 t1).
Proof.
  intros Hr Hi Hg Ht. destruct (lookup_lt_is_Some_2 srcs i Hi) as [p Hp].
  assert (p ∈ srcs) as Hin by by eapply list_elem_of_lookup_2.
  destruct (loop_rep_in _ _ _ _ _ _ Hr Hin) as [x Hx].
  destruct (loop_rep_at _ _ _ _ _ _ _ Hr Hin Hx) as [Hpn Hf].
  assert (Hkeep : forall q o, h !! q = Some o -> (forall y : x_event_source, o <> to_obj y) -> h1 !! q = Some o).
  { intros q o Hq Ho. eapply gone_keeps; [done..|]. intros Hq'.
    eapply not_source; [exact Hr|exact Hq|exact Ho|exact (subseteq_take _ _ _ Hq')]. }
  assert (h1 !! lp = Some (to_obj L)) as Hlp1 by (apply Hkeep; [exact (lr_loop _ _ _ _ _ Hr)|done]).
  assert (h1 !! p = Some (to_obj x)) as Hx1.
  { eapply gone_keeps; [done..|]. intros [j Hj]%list_elem_of_lookup. apply lookup_take_Some in Hj as [Hj Hlt].
    pose proof (NoDup_lookup _ _ _ _ (lr_nodup _ _ _ _ _ Hr) Hp Hj). lia. }
  pose proof (gone_next _ _ _ _ _ Hg Hp) as Hg'.
  unfold destroy_step, source_at. wp_step. wp_step. eapply wp_load; [done|].
  destruct Hr. rewrite lr_srcs in Hp. apply lookup_take_Some in Hp as [Hp _].
  destruct lr_array as [(_ & _ & ->)|[Ha Hl]]; [done|].
  eapply wp_load_elem; [by apply Hkeep|lia|by rewrite Nat2Z.id|]. wp_step. wp_step. wp_step.
  apply (wp_mono _ _ (fun _ s => hp s = h1 /\ held (tr s) = X)).
  { wp_step; [|by wp_step]. unfold x_event_backend_remove_socket. wp_step. eapply wp_load; [exact Hlp1|].
    wp_run. split; [done|]. by held_simpl. }
  intros [] [e2 h2 t2] [Hh2 Ht2]. cbn [hp tr] in *. subst h2. wp_step. split; [done|]. by held_simpl.
Qed.

Lemma wp_destroy_sources lp L l srcs md e h t (Q : unit -> st -> Prop) :
  loop_rep lp L l srcs h ->
  (forall e' h' t', (forall q, h' !! q = if decide (q ∈ srcs) then None else h !! q) ->
     held t' = held t -> Q tt (St e' h' t')) ->
  wp md (fold_range (Z.to_nat (el_count L)) 0 (destroy_step lp) tt) Q (St e h t).
Proof.
  intros Hr HQ. assert (length srcs = Z.to_nat (el_count L)) as Hlen.
  { destruct Hr. rewrite lr_srcs, length_take. lia. }
  eapply wp_mono.
  { apply (wp_fold_range md (fun i _ s => gone i srcs h (hp s) /\ held (tr s) = held t)).
    - intros i [] [e1 h1 t1] Hi [Hh Ht]. eapply wp_destroy_step; [exact Hr|lia|done..].
    - cbn. split; [|done]. intros q. by rewrite decide_False by (apply not_elem_of_nil). }
  intros [] [e' h' t'] [Hh Ht]. cbn [hp tr] in *. apply HQ; [|done].
  intros q. by rewrite Hh, take_ge by lia.
Qed.

(** Freeing an address that may be NULL. *)
Definition without (a : ptr) (h : heap) : heap := if a =? NULL then h else delete a h.

Lemma without_lookup a h q :
  without a h !! q = if decide (q = a /\ q <> NULL) then None else h !! q.
Proof.
  unfold without. destruct (Z.eqb_spec a NULL) as [->|Hn].
  - by rewrite decide_False by tauto.
  - destruct (decide (a = q)) as [->|Hne]; [by rewrite lookup_delete_eq, decide_True|].
    rewrite lookup_delete_ne, decide_False; [done| |done]. by intros [-> _].
Qed.

Lemma without_ne a h q : q <> a -> without a h !! q = h !! q.
Proof. intros H. by rewrite without_lookup, decide_False by tauto. Qed.

Lemma wp_free_maybe a o md e h t (Q : unit -> st -> Prop) :
  (a <> NULL -> h !! a = Some o) ->
  (forall t', held t' = held t -> Q tt (St e (without a h) t')) ->
  wp md (free a) Q (St e h t).
Proof.
  intros Ha HQ. unfold without in HQ. destruct (Z.eqb_spec a NULL) as [->|Hn].
  - apply wp_free_null. by apply HQ.
  - eapply wp_free; [by apply Ha|done|]. apply HQ. by held_simpl.
Qed.

Lemma loop_array lp L l srcs h :
  loop_rep lp L l srcs h -> el_sources L <> NULL -> h !! el_sources L = Some (to_obj l).
Proof. intros Hr Hn. by destruct (lr_array _ _ _ _ _ Hr) as [(_ & ? & _)|[_ Hl]]. Qed.

(** The descriptors a loop owns. *)
Definition loop_fds (L : x_event_loop) (xr xs : x_socket) : resources :=
  {[ (KFd, el_backend_fd L) ]} ∪ {[ (KFd, so_handle xr) ]} ∪ {[ (KFd, so_handle xs) ]}.

(** The heap after a loop is freed whose sources were freed before. *)
Definition freed_loop (lp : ptr) (L : x_event_loop) (h : heap) : heap :=
  delete lp (without (el_sources L) (delete (el_wake_receiver L) (delete (el_wake_sender L) h))).

Lemma freed_loop_lookup lp L h q :
  lp <> NULL -> el_wake_receiver L <> NULL -> el_wake_sender L <> NULL ->
  freed_loop lp L h !! q =
    if decide (q ∈ [lp; el_sources L; el_wake_receiver L; el_wake_sender L] /\ q <> NULL) then None else h !! q.
Proof.
  intros H1 H2 H3. unfold freed_loop.
  destruct (decide (lp = q)) as [->|N1]; [rewrite lookup_delete_eq, decide_True; [done|split; [in_list|done]]|].
  rewrite lookup_delete_ne, without_lookup by done.
  destruct (decide (q = el_sources L /\ q <> NULL)) as [[-> ?]|N2].
  { rewrite decide_True; [done|split; [in_list|done]]. }
  destruct (decide (el_wake_receiver L = q)) as [<-|N3];
    [rewrite lookup_delete_eq, decide_True; [done|split; [in_list|done]]|].
  rewrite lookup_delete_ne by done.
  destruct (decide (el_wake_sender L = q)) as [<-|N4];
    [rewrite lookup_delete_eq, decide_True; [done|split; [in_list|done]]|].
  rewrite lookup_delete_ne, decide_False; [done| |done]. rewrite !elem_of_cons, elem_of_nil. intuition congruence.
Qed.

(** Freeing the loop after its sources. *)
Lemma wp_free_loop lp L l srcs (xr xs : x_socket) md e h h1 t Q :
  loop_rep lp L l srcs h ->
  (forall q o, h !! q = Some o -> (forall y : x_event_source, o <> to_obj y) -> h1 !! q = Some o) ->
  h !! el_wake_receiver L = Some (to_obj xr) -> h !! el_wake_sender L = Some (to_obj xs) ->
  (forall e' t', held t' = held t ∖ {[ (KFd, so_handle xs) ]} ∖ {[ (KFd, so_handle xr) ]} ->
     Q tt (St e' (freed_loop lp L h1) t')) ->
  wp md (x_socket_close (el_wake_sender L);; x_socket_close (el_wake_receiver L);;
         free (el_sources L);; free lp) Q (St e h1 t).
Proof.
  intros Hr Hkeep Hxr Hxs HQ. pose proof Hr as [].
  destruct lr_receiver as [Hrn _], lr_sender as [Hsn _].
  assert (lp <> el_wake_receiver L /\ lp <> el_wake_sender L) as [Hl1 Hl2] by (split; apart).
  assert (lp <> el_sources L).
  { intros E. rewrite E in *. pose proof (loop_array _ _ _ _ _ Hr lr_pos) as Hl. rewrite Hl in lr_loop. discriminate lr_loop. }
  wp_step. eapply wp_socket_close; [by apply Hkeep|done|]. intros e2 t2 Ht2. wp_step.
  eapply wp_socket_close; [rewrite lookup_delete_ne by done; by apply Hkeep|done|]. intros e3 t3 Ht3. wp_step.
  eapply wp_free_maybe.
  { intros Hn. pose proof (loop_array _ _ _ _ _ Hr Hn) as Hl.
    rewrite !lookup_delete_ne by apart. by apply Hkeep. }
  intros t4 Ht4. eapply wp_free; [|done|].
  { rewrite without_ne, !lookup_delete_ne by done. by apply Hkeep. }
  apply HQ. held_simpl. congruence.
Qed.

Lemma wp_loop_destroy lp L l srcs (xr xs : x_socket) md e h t Q :
  loop_rep lp L l srcs h ->
  h !! el_wake_receiver L = Some (to_obj xr) -> h !! el_wake_sender L = Some (to_obj xs) ->
  (forall e' h' t', (forall q, q ∈ footprint lp L srcs -> q <> NULL -> h' !! q = None) ->
     outside (footprint lp L srcs) h h' -> held t' = held t ∖ loop_fds L xr xs ->
     Q tt (St e' h' t')) ->
  wp md (x_event_loop_destroy lp) Q (St e h t).
Proof.
  intros Hr Hxr Hxs HQ. pose proof Hr as []. destruct lr_receiver as [Hrn _], lr_sender as [Hsn _].
  unfold x_event_loop_destroy.
  apply Z.eqb_neq in lr_pos as E0. rewrite E0. wp_step. eapply wp_load; [done|]. wp_step.
  eapply wp_destroy_sources; [exact Hr|]. intros e1 h1 t1 Hh1 Ht1.
  apply Z.leb_le in lr_backend as ->. apply Z.eqb_neq in Hsn as Es. apply Z.eqb_neq in Hrn as Er.
  rewrite Es, Er. cbn [negb]. wp_step. wp_step. wp_step. wp_step.
  eapply wp_free_loop; [exact Hr| |done|done|].
  { intros q o Hq Ho. rewrite Hh1, decide_False; [done|]. by eapply not_source. }
  assert (Hsrc : forall q, q ∈ srcs -> q <> NULL).
  { intros q Hin. destruct (loop_rep_in _ _ _ _ _ _ Hr Hin) as [y Hy].
    by destruct (loop_rep_at _ _ _ _ _ _ _ Hr Hin Hy). }
  assert (Hall : forall q, freed_loop lp L h1 !! q =
    if decide (q ∈ footprint lp L srcs /\ q <> NULL) then None else h !! q).
  { intros q. rewrite freed_loop_lookup, Hh1 by done. unfold footprint. specialize (Hsrc q).
    repeat case_decide; try done; exfalso; rewrite !elem_of_cons in *; rewrite ?elem_of_nil in *; tauto. }
  intros e4 t4 Ht4. apply HQ.
  - intros q Hq Hqn. by rewrite Hall, decide_True.
  - intros q Hq. rewrite Hall, decide_False; [done|]. intros [H1 H2]. auto.
  - rewrite Ht4. cbn -[got]. rewrite Ht1. unfold loop_fds. apply set_eq. set_solver.
Qed.
End Life.
