(* ===== verification/XEventCreate.v ===== *)
(** * The event loop: the constructor's contract

    [x_event_loop_create] either hands out a loop whose invariant holds and that
    owns only fresh memory and descriptors, or fails with nothing left behind. *)
From S2P Require Import Prelude Syscalls Structs Machine Contract XTime XNetwork XProcess.
From S2P Require Import XWatcher XEvent XEventInv XEventSafe XEventLoop XEventLife DemoOS.

Section Create.
Context {os : OS}.
Implicit Types (md : wpmode) (h : heap) (t : list ev).
(** Releasing the three descriptors just acquired. *)
Lemma release_three (X : resources) a b c :
  {[ a ]} ∪ {[ b ]} ∪ {[ c ]} ## X ->
  (X ∪ ({[ a ]} ∪ {[ b ]} ∪ {[ c ]})) ∖ {[ c ]} ∖ {[ b ]} ∖ {[ a ]} = X.
Proof. intros H. apply set_eq. set_solver. Qed.


(** A new loop at [p]: everything it owns is fresh, and its only source is the
    internal one. *)
Record new_loop (p : ptr) (L : x_event_loop) (l : list ptr) (xr xs : x_socket) (s s' : st) : Prop := {
  nl_rep : loop_rep p L l [el_wake_source L] (hp s');
  nl_registered : registered_ok L [el_wake_source L] (hp s') (tr s');
  nl_receiver : hp s' !! el_wake_receiver L = Some (to_obj xr);
  nl_sender : hp s' !! el_wake_sender L = Some (to_obj xs);
  nl_idle : user_source_at (hp s') (el_wake_source L) = false;
  nl_flags : el_running L = false /\ el_stop_requested L = false;
  nl_fresh : forall q, q ∈ footprint p L [el_wake_source L] -> q <> NULL -> hp s !! q = None;
  nl_outside : outside (footprint p L [el_wake_source L]) (hp s) (hp s');
  nl_held : held (tr s') = held (tr s) ∪ loop_fds L xr xs;
  nl_disjoint : loop_fds L xr xs ## held (tr s)
}.

Definition create_post (s : st) (r : Z * option ptr) (s' : st) : Prop :=
  (r.1 = 0 /\ exists p L l xr xs, r.2 = Some p /\ new_loop p L l xr xs s s') \/
  (0 < r.1 /\ r.2 = Some NULL /\ hp s' = hp s /\ held (tr s') = held (tr s)).

Lemma create_failed e h t rc e' h' t' :
  0 < rc -> h' = h -> held t' = held t ->
  create_post (St e h t) (rc, Some NULL) (St e' h' t').
Proof. intros Hrc -> Ht. by right. Qed.

(** The loop between the creation of its sockets and the set-up. *)
Lemma loop_rep_wired p L h (xr xs : x_socket) :
  p <> NULL -> h !! p = Some (to_obj L) -> el_sources L = NULL -> el_count L = 0 ->
  el_capacity L = 0 -> 0 <= el_backend_fd L ->
  el_wake_receiver L <> NULL -> h !! el_wake_receiver L = Some (to_obj xr) ->
  el_wake_sender L <> NULL -> h !! el_wake_sender L = Some (to_obj xs) ->
  el_wake_receiver L <> el_wake_sender L ->
  loop_rep p L [] [] h.
Proof.
  intros Hp Hl Hs Hc Hcap Hb Hr Hxr Hw Hxs Hd. split; try done; cbn; rewrite ?Hc, ?Hcap; try done.
  all: first [by left | constructor; fail | by split; [|exists xr] | by split; [|exists xs] | lia ].
Qed.

(** The heap in which the structure and both sockets of a new loop exist. *)
Definition wired (p : ptr) (L : x_event_loop) (xr xs : x_socket) (h0 : heap) : heap :=
  <[el_wake_sender L := to_obj xs]> (<[el_wake_receiver L := to_obj xr]> (<[p := to_obj L]> h0)).

(** The three addresses are new and distinct. *)
Record fresh_parts (p : ptr) (L : x_event_loop) (h0 : heap) : Prop := {
  fp_null : p <> NULL /\ el_wake_receiver L <> NULL /\ el_wake_sender L <> NULL;
  fp_free : h0 !! p = None /\ h0 !! el_wake_receiver L = None /\ h0 !! el_wake_sender L = None;
  fp_apart : p <> el_wake_receiver L /\ p <> el_wake_sender L /\ el_wake_receiver L <> el_wake_sender L
}.

Section Wired.
Context (p : ptr) (L : x_event_loop) (xr xs : x_socket) (h0 : heap).
Hypothesis Hfresh : fresh_parts p L h0.

Lemma wired_parts :
  wired p L xr xs h0 !! p = Some (to_obj L) /\
  wired p L xr xs h0 !! el_wake_receiver L = Some (to_obj xr) /\
  wired p L xr xs h0 !! el_wake_sender L = Some (to_obj xs).
Proof.
  destruct Hfresh as [_ _ (? & ? & ?)]. unfold wired. split_and!.
  - by rewrite !lookup_insert_ne, lookup_insert_eq by done.
  - by rewrite lookup_insert_ne, lookup_insert_eq by done.
  - by rewrite lookup_insert_eq.
Qed.

Lemma wired_other q : q <> p -> q <> el_wake_receiver L -> q <> el_wake_sender L ->
  wired p L xr xs h0 !! q = h0 !! q.
Proof. intros. unfold wired. by rewrite !lookup_insert_ne by done. Qed.

Lemma wired_None q : wired p L xr xs h0 !! q = None ->
  h0 !! q = None /\ q <> p /\ q <> el_wake_receiver L /\ q <> el_wake_sender L.
Proof. unfold wired. rewrite !lookup_insert_None. naive_solver. Qed.

(** What the set-up leaves of them. *)
Lemma setup_keeps L' l' more t s' q o :
  setup_done p L L' l' more (wired p L xr xs h0) t s' ->
  wired p L xr xs h0 !! q = Some o -> q <> p -> hp s' !! q = Some o.
Proof.
  intros [] Hq Hqp. rewrite sd_outside; [done|]. rewrite !elem_of_cons. intros [->|[->|Hin]]; [done| |].
  - destruct sd_array as [?|?]; congruence.
  - pose proof (proj1 (Forall_forall _ _) sd_fresh q Hin) as Hn. cbn in Hn. congruence.
Qed.

Lemma undo_heap L' l' t s' :
  setup_done p L L' l' [] (wired p L xr xs h0) t s' -> freed_loop p L' (hp s') = h0.
Proof.
  intros []. destruct sd_wiring as (W1 & W2 & _). destruct Hfresh as [(H1 & H2 & H3) (H4 & H5 & H6) _].
  apply map_eq. intros q. rewrite freed_loop_lookup, W1, W2 by congruence. case_decide as Hd.
  - destruct Hd as [Hq Hn]. rewrite !elem_of_cons, elem_of_nil in Hq.
    destruct Hq as [->|[->|[->|[->|[]]]]]; [done| |done..].
    destruct sd_array as [?|Ha]; [done|]. by apply wired_None in Ha as [-> _].
  - assert (q = NULL \/ q ∉ [p; el_sources L'; el_wake_receiver L; el_wake_sender L]) as Hq.
    { destruct (decide (q = NULL)); [by left|right]. tauto. }
    rewrite sd_outside by (rewrite !elem_of_cons in *; tauto).
    apply wired_other; destruct Hq as [->|Hq]; try done; rewrite !elem_of_cons in Hq; tauto.
Qed.
End Wired.

(** Undoing a creation whose set-up failed. *)
Lemma wp_create_undo p L L' l' (xr xs : x_socket) rc h0 t0 md t s' (Q : Z * option ptr -> st -> Prop) :
  fresh_parts p L h0 -> setup_done p L L' l' [] (wired p L xr xs h0) t s' ->
  held t = held t0 ∪ loop_fds L xr xs -> loop_fds L xr xs ## held t0 ->
  (forall e' t', held t' = held t0 -> Q (rc, Some NULL) (St e' h0 t')) ->
  wp md (x_socket_close (el_wake_sender L);; x_socket_close (el_wake_receiver L);;
         _ ← sys (Sclose (el_backend_fd L)); l ← load x_event_loop p;
         free (el_sources l);; free p;; mret (rc, Some NULL)) Q s'.
Proof.
  intros Hfp Hsd Ht Hd HQ. pose proof (undo_heap _ _ _ _ _ Hfp _ _ _ _ Hsd) as Hheap.
  destruct (wired_parts p L xr xs h0 Hfp) as (_ & Hxr & Hxs). destruct Hfp as [(H1 & H2 & H3) _ (H7 & H8 & H9)].
  apply (setup_keeps _ _ _ _ _ _ _ _ _ _ _ _ Hsd) in Hxr, Hxs; [|done..].
  destruct s' as [e h' t'], Hsd. cbn [hp tr] in *. destruct sd_wiring as (W1 & W2 & W3 & _).
  unfold freed_loop in Hheap. rewrite W1, W2 in Hheap. pose proof (lr_loop _ _ _ _ _ sd_rep) as Hlp.
  assert (p <> el_sources L') as Hpa.
  { intros E. pose proof (lr_pos _ _ _ _ _ sd_rep) as Hn. rewrite E in *.
    rewrite (loop_array _ _ _ _ _ sd_rep Hn) in Hlp. discriminate Hlp. }
  wp_step. eapply wp_socket_close; [done|done|]. intros e2 t2 Ht2. wp_step.
  eapply wp_socket_close; [by rewrite lookup_delete_ne|done|]. intros e3 t3 Ht3.
  wp_step. wp_step. wp_step. eapply (wp_load _ _ L'); [by rewrite !lookup_delete_ne by done|]. wp_step.
  eapply wp_free_maybe.
  { intros Hn. pose proof (loop_array _ _ _ _ _ sd_rep Hn) as Hl. rewrite !lookup_delete_ne by apart. exact Hl. }
  intros t4 Ht4. wp_step. eapply wp_free; [|done|].
  { rewrite without_ne, !lookup_delete_ne by done. exact Hlp. }
  wp_step. rewrite Hheap. apply HQ. held_simpl. rewrite Ht4. cbn -[got].
  rewrite res_union_empty, Ht3, Ht2, sd_held, Ht. by apply release_three.
Qed.

(** The rest of the constructor, from the state in which both sockets exist. *)
Definition create_rest (p pr ps fd : ptr) : M (Z * option ptr) :=
  error ← create_setup p pr;
  if negb (error =? 0) then
    x_socket_close ps;; x_socket_close pr;; _ ← sys (Sclose fd);
    l ← load x_event_loop p;
    free (el_sources l);; free p;; mret (error, Some NULL)
  else
    l ← load x_event_loop p;
    modify x_event_source (el_wake_source l) (es_set_internal true);;
    mret (0, Some p).

(** The result when the set-up succeeded. *)
Lemma new_loop_made p L L' l' (xr xs : x_socket) h0 e0 t0 t s' (x : x_event_source) e t' :
  fresh_parts p L h0 -> setup_done p L L' l' [el_wake_source L'] (wired p L xr xs h0) t s' ->
  hp s' !! el_wake_source L' = Some (to_obj x) ->
  el_running L = false -> el_stop_requested L = false ->
  held t = held t0 ∪ loop_fds L xr xs -> loop_fds L xr xs ## held t0 -> t' = tr s' ->
  new_loop p L' l' xr xs (St e0 h0 t0)
    (St e (<[el_wake_source L' := to_obj (es_set_internal true x)]> (hp s')) t').
Proof.
  intros Hfp Hsd Hsrc Hrun Hstop Ht Hd ->.
  destruct (wired_parts p L xr xs h0 Hfp) as (Hlp & Hxr & Hxs). destruct Hfp as [_ (H4 & H5 & H6) (H7 & H8 & H9)].
  pose proof (setup_keeps _ _ _ _ _ _ _ _ _ _ _ _ Hsd Hxr ltac:(done)) as Hxr'.
  pose proof (setup_keeps _ _ _ _ _ _ _ _ _ _ _ _ Hsd Hxs ltac:(done)) as Hxs'.
  destruct Hsd. destruct sd_wiring as (W1 & W2 & W3 & W4 & W5).
  apply Forall_inv, wired_None in sd_fresh as (Hf & Hf1 & Hf2 & Hf3).
  destruct (loop_rep_at _ _ _ _ _ _ _ sd_rep ltac:(by left) Hsrc) as [Hwn Hwf].
  split; cbn [hp tr].
  - eapply loop_rep_source; [done|by left|exact Hsrc|]. by destruct Hwf.
  - eapply registered_ok_source; [done|exact Hsrc|by left].
  - by rewrite W1, lookup_insert_ne.
  - by rewrite W2, lookup_insert_ne.
  - unfold user_source_at. rewrite (source_val_eq _ _ (es_set_internal true x)); [unfold is_user_source; cbn; by rewrite ?andb_false_r|by rewrite lookup_insert_eq].
  - by rewrite W4, W5.
  - intros q Hq Hqn. unfold footprint in Hq. rewrite W1, W2, !elem_of_cons in Hq.
    destruct Hq as [->|[->|[->|[->|[->|Hin]]]]]; [done| |done|done|done|by apply elem_of_nil in Hin].
    destruct sd_array as [?|Ha]; [done|]. by apply wired_None in Ha as [? _].
  - intros q Hq. unfold footprint in Hq. rewrite W1, W2 in Hq.
    rewrite lookup_insert_ne by (eapply outside_ne; [exact Hq|in_list|done]).
    rewrite sd_outside by (rewrite !elem_of_cons in *; tauto).
    destruct (decide (q = NULL)) as [->|Hqn]; [|apply wired_other; intros ->; apply Hqn, Hq; in_list].
    destruct (lr_receiver _ _ _ _ _ sd_rep) as [Hn1 _], (lr_sender _ _ _ _ _ sd_rep) as [Hn2 _].
    apply wired_other; [|congruence..]. pose proof (lr_pos _ _ _ _ _ sd_rep). congruence.
  - unfold loop_fds in *. rewrite W3, sd_held, Ht. done.
  - unfold loop_fds in *. by rewrite W3.
Qed.

Lemma wp_create_rest p L (xr xs : x_socket) h0 e0 t0 e t md Q :
  fresh_parts p L h0 ->
  el_sources L = NULL -> el_count L = 0 -> el_capacity L = 0 -> 0 <= el_backend_fd L ->
  el_running L = false -> el_stop_requested L = false ->
  held t = held t0 ∪ loop_fds L xr xs -> loop_fds L xr xs ## held t0 ->
  registered t (el_backend_fd L) = ∅ ->
  (forall r s', create_post (St e0 h0 t0) r s' -> Q r s') ->
  wp md (create_rest p (el_wake_receiver L) (el_wake_sender L) (el_backend_fd L)) Q
    (St e (wired p L xr xs h0) t).
Proof.
  intros Hfp Hz Hc Hcap Hb Hrun Hstop Ht Hd Hreg HQ.
  destruct (wired_parts p L xr xs h0 Hfp) as (Hlp & Hxr & Hxs).
  assert (loop_rep p L [] [] (wired p L xr xs h0)) as Hrep.
  { destruct Hfp as [(? & ? & ?) _ (_ & _ & ?)]. by eapply loop_rep_wired. }
  unfold create_rest. wp_step. eapply (wp_create_setup p L xr); [exact Hrep| |done|exact Hxr|..].
  { intros fd q Hq. by rewrite Hreg, lookup_empty in Hq. }
  - intros rc L' l' s' Hrc Hsd. destruct (Z.eqb_spec rc 0); [lia|]. cbn [negb].
    eapply wp_create_undo; [exact Hfp|exact Hsd|exact Ht|done|].
    intros e' t' Ht'. by apply HQ, create_failed.
  - intros L' l' src s' Hsd <- Hsrc. destruct s' as [e' h' t'].
    cbn [Z.eqb negb]. wp_step. eapply wp_load; [exact (lr_loop _ _ _ _ _ (sd_rep _ _ _ _ _ _ _ _ Hsd))|].
    wp_step. eapply wp_modify; [exact Hsrc|]. wp_step.
    apply HQ. left. split; [done|]. exists p, L', l', xr, xs. split; [done|].
    by eapply (new_loop_made _ _ _ _ _ _ _ _ _ _ _ _ _ _ Hfp Hsd Hsrc).
Qed.

(** The constructor from the state in which the receiver exists. *)
Definition create_sender (p pr fd : ptr) : M (Z * option ptr) :=
  r ← x_socket_udp true;
  modify x_event_loop p (el_set_sender (default NULL r.2));;
  if negb (r.1 =? 0) then
    x_socket_close pr;; _ ← sys (Sclose fd); free p;; mret (r.1, Some NULL)
  else create_rest p pr (default NULL r.2) fd.

Lemma wp_create_sender p pr (xr : x_socket) fd h0 e0 t0 e t md Q :
  let L := el_set_receiver pr (el_set_backend fd zero_event_loop) in
  0 < p -> 0 < pr -> p <> pr -> h0 !! p = None -> h0 !! pr = None -> 0 <= fd ->
  held t = held t0 ∪ {[ (KFd, fd) ]} ∪ {[ (KFd, so_handle xr) ]} ->
  {[ (KFd, fd) ]} ∪ {[ (KFd, so_handle xr) ]} ## held t0 -> (KFd, fd) <> (KFd, so_handle xr) ->
  registered t fd = ∅ ->
  (forall r s', create_post (St e0 h0 t0) r s' -> Q r s') ->
  wp md (create_sender p pr fd) Q (St e (<[pr := to_obj xr]> (<[p := to_obj L]> h0)) t).
Proof.
  intros L Hp Hpr Hne Hp0 Hpr0 Hfd Ht Hd Hdd Hreg HQ. unfold create_sender. wp_step.
  apply wp_socket_create_registered. intros [rc2 out2] [e3 h3 t3] Hc2 Hreg3. wp_step.
  assert (pr <> NULL /\ p <> NULL) as [Hprne Hpne] by (unfold NULL; lia). cbn [h_res socket_handle] in *.
  destruct Hc2 as [(Hrc2 & ps & xs & Ho2 & Hps & Hpsn & Hh3 & Ht3 & Hd3 & _)|(Hrc2 & Ho2 & Hh3 & Ht3)];
    cbn [fst snd hp tr] in *; subst h3.
  - subst rc2 out2. cbn [default from_option id negb Z.eqb].
    apply lookup_insert_None in Hpsn as [Hpsn Hprs]. apply lookup_insert_None in Hpsn as [Hpsn Hpps].
    eapply wp_modify; [by rewrite !lookup_insert_ne, lookup_insert_eq by done|].
    cbn beta. rewrite (insert_insert_ne _ p ps), (insert_insert_ne _ p pr), insert_insert_eq by done.
    set (L2 := el_set_sender ps L).
    change (wp md (create_rest p (el_wake_receiver L2) (el_wake_sender L2) (el_backend_fd L2)) Q
      (St e3 (wired p L2 xr xs h0) t3)).
    eapply wp_create_rest; try done; cbn.
    + split; cbn; split_and!; try done; unfold NULL; lia.
    + unfold loop_fds. cbn. rewrite Ht3, Ht. cbn. by rewrite !(assoc_L (∪)).
    + unfold loop_fds. cbn in *. rewrite Ht in Hd3. clear -Hd Hd3. set_solver.
    + by rewrite Hreg3.
  - eapply wp_modify; [by rewrite lookup_insert_ne, lookup_insert_eq by done|].
    rewrite (insert_insert_ne _ p pr), insert_insert_eq by done.
    wp_step. wp_step. eapply wp_socket_close; [by rewrite lookup_insert_eq|done|]. intros e4 t4 Ht4.
    rewrite delete_insert_id by (by rewrite lookup_insert_ne). wp_run.
    apply HQ, create_failed; [done|by rewrite delete_insert_eq, delete_id|].
    cbn -[got]. rewrite !res_diff_empty, !res_union_empty, Ht4, Ht3, Ht.
    apply set_eq. clear -Hd. set_solver.
Qed.

Lemma wp_loop_create md e h t Q :
  (forall r s', create_post (St e h t) r s' -> Q r s') ->
  wp md (x_event_loop_create true) Q (St e h t).
Proof.
  intros HQ. unfold x_event_loop_create. cbn [negb]. wp_step. wp_step.
  { wp_step. wp_step. apply HQ, create_failed; [done|done|by held_simpl]. }
  wp_step. wp_step. wp_step. wp_step. wp_step.
  rewrite insert_insert_eq. set (L0 := el_set_backend r zero_event_loop).
  set (t1 := Ev (Sepoll_create1 EPOLL_CLOEXEC) r :: EvMalloc sizeof_x_event_loop p :: t).
  wp_step.
  { wp_run. apply HQ, create_failed.
    - destruct Hpost as [[-> ?]|[? ?]]; lia.
    - by rewrite delete_insert_eq, delete_id.
    - destruct Hpost as [[-> ?]|[? ?]]; [|lia]. unfold t1. by held_simpl. }
  destruct Hpost as [[-> _]|(Hr1 & Hr0 & Hrfree)]; [done|]. cbn [held releases acquires] in Hrfree.
  rewrite res_diff_empty, res_union_empty in Hrfree.
  assert (held t1 = held t ∪ {[ (KFd, r) ]}) as Ht1 by (unfold t1; held_simpl; by rewrite got_ok).
  wp_step. apply wp_socket_create_registered. intros [rc1 out1] [e2 h2 t2] Hc1 Hreg2. wp_step.
  cbn [h_res socket_handle] in *.
  destruct Hc1 as [(Hrc1 & pr & xr & Ho1 & Hpr & Hprn & Hh2 & Ht2 & Hd2 & _)|(Hrc1 & Ho1 & Hh2 & Ht2)];
    cbn [fst snd hp tr] in *; subst h2.
  - subst rc1 out1. cbn [default from_option id negb Z.eqb]. apply lookup_insert_None in Hprn as [Hprn Hppr].
    eapply wp_modify; [by rewrite lookup_insert_ne, lookup_insert_eq by done|].
    rewrite (insert_insert_ne _ p pr), insert_insert_eq by done.
    eapply (wp_create_sender p pr xr r h e t); try done.
    + by rewrite Ht2, Ht1.
    + rewrite Ht1 in Hd2. clear -Hd2 Hrfree. set_solver.
    + rewrite Ht1 in Hd2. clear -Hd2. set_solver.
    + rewrite Hreg2. cbn. by rewrite Z.eqb_refl.
  - replace (default NULL out1) with NULL by (by destruct Ho1 as [->| ->]).
    wp_run. apply HQ, create_failed; [done|by rewrite insert_insert_eq, delete_insert_eq, delete_id|].
    cbn -[got]. rewrite !res_diff_empty, !res_union_empty, Ht2, Ht1. apply set_eq. set_solver.
Qed.

(** C5. [x_event_loop_create] returns a loop whose invariant holds, which is not
    running, whose only source is the internal wake source, and which owns only
    memory that was free and descriptors that were not open before; or a
    positive error with [*loop] NULL, the heap and the descriptors being those
    from before, whichever of its ten calls fails. *)
Theorem x_event_loop_create_contract s :
  wp Total (x_event_loop_create true) (create_post s) s.
Proof. destruct s as [e h t]. apply wp_loop_create. auto. Qed.

(** A loop is created and, when that succeeds, destroyed. *)
Definition create_destroy : M Z :=
  r ← x_event_loop_create true;
  (if r.1 =? 0 then x_event_loop_destroy (default NULL r.2) else mret tt);;
  mret r.1.

(** C6. Creating an event loop and destroying it leaves the heap and the open
    descriptors exactly as they were, whatever the calls answer. *)
Theorem event_loop_lifecycle s :
  wp Total create_destroy
    (fun rc s' => 0 <= rc /\ hp s' = hp s /\ held (tr s') = held (tr s)) s.
Proof.
  destruct s as [e h t]. unfold create_destroy. wp_step. apply wp_loop_create.
  intros [rc out] [e1 h1 t1] [(Hrc & p & L & l & xr & xs & Hout & [])|(Hrc & _ & Hh & Ht)];
    cbn [fst snd hp tr] in *.
  - subst rc out. cbn [default from_option id Z.eqb]. wp_step.
    eapply wp_loop_destroy; [exact nl_rep0|done|done|]. intros e2 h2 t2 Hin Hout Ht2.
    wp_step. cbn [hp tr]. split; [done|]. split.
    + apply map_eq. intros q. destruct (decide (q ∈ footprint p L [el_wake_source L] /\ q <> NULL)) as [[H1 H2]|Hn].
      * by rewrite Hin, nl_fresh0.
      * assert (q ∈ footprint p L [el_wake_source L] -> q = NULL) as Hq.
        { intros H1. destruct (decide (q = NULL)); [done|]. by destruct Hn. }
        by rewrite Hout, nl_outside0.
    + rewrite Ht2, nl_held0. apply set_eq. clear -nl_disjoint0. set_solver.
  - destruct (Z.eqb_spec rc 0); [lia|]. wp_step. wp_step. wp_step. cbn [hp tr]. split_and!; [lia|done|done].
Qed.

(** [x_event_loop_destroy] frees the loop, its array, its two sockets and
    every source of the array, active or not, and closes its three descriptors;
    nothing else changes. *)
Theorem x_event_loop_destroy_frees lp L l srcs (xr xs : x_socket) s :
  loop_rep lp L l srcs (hp s) ->
  hp s !! el_wake_receiver L = Some (to_obj xr) ->
  hp s !! el_wake_sender L = Some (to_obj xs) ->
  wp Total (x_event_loop_destroy lp)
    (fun _ s' => (forall q, q ∈ footprint lp L srcs -> q <> NULL -> hp s' !! q = None) /\
       outside (footprint lp L srcs) (hp s) (hp s') /\
       held (tr s') = held (tr s) ∖ loop_fds L xr xs) s.
Proof.
  destruct s as [e h t]. cbn [hp tr]. intros Hr Hxr Hxs. eapply wp_loop_destroy; [done..|]. auto.
Qed.
End Create.
