(* ===== verification/XEventTimers.v ===== *)
(** * The event loop: timers

    What the loop does with its timers: which callbacks a pass over the sources
    calls, in which order and with what effect on the sources; how long the loop
    sleeps; how compaction and additions change the array; and what happens at
    the edge of the 64-bit clock. *)
From S2P Require Import Prelude Syscalls Structs Machine Contract XTime XNetwork XProcess.
From S2P Require Import XWatcher XEvent XEventInv XEventSafe XEventLoop XEventLife XEventCreate.
From S2P Require Import DemoOS.

Section Timers.
Context {os : OS}.
Implicit Types (md : wpmode) (h : heap) (t : list ev).

(** ** Rearming an interval timer *)

(** The number of intervals that take a due time past [now]. *)
Definition periods (now : Z) (x : x_event_source) : Z :=
  (now - es_due_ns x) / es_interval_ns x + 1.

(** The first time after [now] on the timer's grid. *)
Definition next_due (now : Z) (x : x_event_source) : Z :=
  es_due_ns x + periods now x * es_interval_ns x.

Lemma next_due_bounds now x :
  0 < es_interval_ns x -> es_due_ns x <= now -> now < next_due now x <= now + es_interval_ns x.
Proof.
  intros Hi Hd. unfold next_due, periods.
  pose proof (Z.div_mod (now - es_due_ns x) (es_interval_ns x) ltac:(lia)).
  pose proof (Z.mod_pos_bound (now - es_due_ns x) (es_interval_ns x) Hi). nia.
Qed.

(** One period less to go. *)
Lemma next_due_step now x :
  0 < es_interval_ns x -> es_due_ns x + es_interval_ns x <= now ->
  let x' := es_set_due (es_due_ns x + es_interval_ns x) x in
  periods now x' = periods now x - 1 /\ next_due now x' = next_due now x.
Proof.
  intros Hi Hd x'. unfold next_due, periods. cbn.
  replace (now - (es_due_ns x + es_interval_ns x)) with (now - es_due_ns x + (-1) * es_interval_ns x) by lia.
  rewrite Z.div_add by lia. split; [lia|]. ring.
Qed.

Lemma wp_rearm_exact fuel now p (x : x_event_source) md e h t (Q : unit -> st -> Prop) :
  h !! p = Some (to_obj x) -> 0 <= es_due_ns x -> 0 < es_interval_ns x -> es_due_ns x <= now ->
  now + es_interval_ns x < 2 ^ 64 -> periods now x <= Z.of_nat fuel ->
  Q tt (St e (<[p := to_obj (es_set_due (next_due now x) x)]> h) t) ->
  wp md (rearm fuel now p) Q (St e h t).
Proof.
  intros Hp H0 Hi Hd Hmax Hf HQ. revert x h Hp H0 Hi Hd Hmax Hf HQ.
  induction fuel as [|fuel IH]; intros x h Hp H0 Hi Hd Hmax Hf HQ.
  { unfold periods in Hf. pose proof (Z.div_pos (now - es_due_ns x) (es_interval_ns x)). lia. }
  unfold rearm. apply wp_iter_S. wp_step. wp_step. wp_step.
  eapply wp_load; [by rewrite lookup_insert_eq|]. cbn [es_due_ns es_set_due]. wp_step.
  rewrite u64_small by (unfold is_u64; lia).
  destruct (Z.leb_spec (es_due_ns x + es_interval_ns x) now) as [Hle|Hgt].
  - destruct (next_due_step now x Hi Hle) as [Hk Hn].
    apply (IH (es_set_due (es_due_ns x + es_interval_ns x) x)); cbn; try lia;
      [by rewrite lookup_insert_eq|]. rewrite Hn, insert_insert_eq. exact HQ.
  - assert (next_due now x = es_due_ns x + es_interval_ns x) as Hn; [|by rewrite Hn in HQ].
    unfold next_due, periods. rewrite Z.div_small by lia. lia.
Qed.

(** C15. An interval timer that is due is rearmed to the first point of its grid
    [due, due + interval, ...] after [now], which is at most one interval away,
    whatever number of periods were missed; the loop ends after as many rounds
    as periods were missed plus one. *)
Theorem rearm_next_period fuel now p (x : x_event_source) s :
  hp s !! p = Some (to_obj x) -> 0 <= es_due_ns x <= now -> 0 < es_interval_ns x ->
  now + es_interval_ns x < 2 ^ 64 -> periods now x <= Z.of_nat fuel ->
  wp Total (rearm fuel now p)
    (fun _ s' => exists due, s' = St (errno s) (<[p := to_obj (es_set_due due x)]> (hp s)) (tr s) /\
       now < due <= now + es_interval_ns x /\ (due - es_due_ns x) mod es_interval_ns x = 0) s.
Proof.
  destruct s as [e h t]. cbn [hp tr errno]. intros Hp [H0 Hd] Hi Hmax Hf.
  eapply wp_rearm_exact; [done..|]. exists (next_due now x). split; [done|].
  split; [by apply next_due_bounds|]. unfold next_due.
  replace (es_due_ns x + periods now x * es_interval_ns x - es_due_ns x)
    with (periods now x * es_interval_ns x) by lia. apply Z.mod_mul. lia.
Qed.

(** With an interval that saturated at [UINT64_MAX] nanoseconds (an interval
    of more than 18446744073709 milliseconds) every round moves the due time one
    nanosecond back instead of forward, so that the loop goes round at least as
    often as the due time has nanoseconds. *)
Theorem rearm_saturated_runs_back fuel now p (x : x_event_source) s :
  hp s !! p = Some (to_obj x) -> is_u64 (es_due_ns x) -> es_due_ns x <= now ->
  es_interval_ns x = UINT64_MAX -> Z.of_nat fuel <= es_due_ns x ->
  rearm fuel now p s = NoFuel.
Proof.
  revert x s. induction fuel as [|fuel IH]; intros x [e h t] Hp Hu Hd Hi Hf; [done|].
  cbn [hp] in Hp. unfold is_u64 in Hu.
  assert (u64 (es_due_ns x + es_interval_ns x) = es_due_ns x - 1) as Hback.
  { rewrite Hi. unfold u64, UINT64_MAX.
    replace (es_due_ns x + 18446744073709551615) with (es_due_ns x - 1 + 1 * 2 ^ 64) by lia.
    rewrite Z.mod_add by lia. apply Z.mod_small. lia. }
  unfold rearm. cbn [iterM].
  erewrite bind_done; [|erewrite bind_done; [|by apply modify_done];
    erewrite bind_done; [|apply load_done; cbn [hp]; by rewrite lookup_insert_eq]; reflexivity].
  cbn [es_due_ns es_set_due]. rewrite Hback. destruct (Z.leb_spec (es_due_ns x - 1) now); [|lia].
  apply (IH (es_set_due (es_due_ns x - 1) x)); cbn;
    [by rewrite lookup_insert_eq|unfold is_u64; lia|lia|done|lia].
Qed.

(** ** One pass over the timers *)

(** The nanoseconds of a clock reading, at 64 bits. *)
Lemma u64_clock sec nsec :
  u64 (u64 (u64 sec * 1000000000) + u64 nsec) = u64 (sec * 1000000000 + nsec).
Proof.
  unfold u64. rewrite Zplus_mod_idemp_r, Zplus_mod_idemp_l.
  by rewrite Zplus_mod, Zmult_mod_idemp_l, <- Zplus_mod.
Qed.

(** Callbacks that succeed and leave the loop and its sources alone. *)
Definition quiet_user (user : Z -> ptr -> ptr -> Z -> ptr -> M Z) (lp : ptr) : Prop :=
  forall cb p ev ud s, wp Total (user cb lp p ev ud) (fun rc s' => rc = 0 /\ keeps s s') s.

Definition due_now (now : Z) (h : heap) (p : ptr) : bool :=
  is_due_source h p && (es_due_ns (source_val h p) <=? now).

(** A timer after its callback: one-shot timers end, the others are rearmed. *)
Definition fired (now : Z) (x : x_event_source) : x_event_source :=
  if es_interval_ns x =? 0 then es_set_active false x
  else es_set_due (next_due now x) x.

Definition after_pass (now : Z) (h : heap) (p : ptr) : x_event_source :=
  if due_now now h p then fired now (source_val h p) else source_val h p.

(** The sources of the pass: timers of the user; their intervals end the
    rearming loop. *)
Definition plain_timer (fuel : nat) (now : Z) (h : heap) (p : ptr) : Prop :=
  let x := source_val h p in
  due_now now h p = true ->
  es_type x = X_EVENT_SOURCE_TIMER /\ es_callback x <> 0 /\ es_callback x <> WAKE_CALLBACK /\
  (es_interval_ns x = 0 \/
   (now + es_interval_ns x < 2 ^ 64 /\ periods now x <= Z.of_nat fuel)).

Definition call_of (lp : ptr) (h : heap) (p : ptr) : Z * list Z :=
  let x := source_val h p in (es_callback x, [lp; p; X_EVENT_TIMER; es_user_data x]).

(** The pass has done the first [i] sources. *)
Record passing (lp : ptr) (srcs : list ptr) (now : Z) (h : heap) (t : list ev)
    (i : nat) (s : st) : Prop := {
  ps_heap : forall q, hp s !! q =
    if decide (q ∈ take i srcs) then Some (to_obj (after_pass now h q)) else h !! q;
  ps_held : held (tr s) = held t;
  ps_calls : calls (tr s) = rev (call_of lp h <$> those (due_now now h) (take i srcs)) ++ calls t
}.

Lemma passing_next lp srcs now h t i p s s' :
  srcs !! i = Some p -> passing lp srcs now h t i s ->
  hp s' = <[p := to_obj (after_pass now h p)]> (hp s) ->
  held (tr s') = held (tr s) ->
  calls (tr s') = (if due_now now h p then [call_of lp h p] else []) ++ calls (tr s) ->
  passing lp srcs now h t (S i) s'.
Proof.
  intros Hp [Hh Ht Hc] Hh' Ht' Hc'. split.
  - intros q. rewrite Hh', (take_S_r _ _ _ Hp). destruct (decide (p = q)) as [->|Hne].
    + rewrite lookup_insert_eq, decide_True; [done|]. apply elem_of_app. right. by left.
    + rewrite lookup_insert_ne, Hh by done. apply decide_ext.
      rewrite elem_of_app, list_elem_of_singleton. split; [by left|]. intros [?|?]; congruence.
  - congruence.
  - rewrite Hc', Hc, (take_S_r _ _ _ Hp), those_snoc, fmap_app, rev_app_distr, <- (assoc_L (++)).
    f_equal. by destruct (due_now now h p).
Qed.

(** One due timer. *)
Lemma wp_fire user fuel lp now p (x : x_event_source) e h t (Q : option Z -> st -> Prop) :
  quiet_user user lp -> h !! p = Some (to_obj x) -> p <> NULL -> es_loop x = lp ->
  is_u64 (es_due_ns x) -> is_u64 (es_interval_ns x) ->
  es_active x = true -> es_type x = X_EVENT_SOURCE_TIMER -> es_due_ns x <= now ->
  es_callback x <> 0 -> es_callback x <> WAKE_CALLBACK ->
  (es_interval_ns x = 0 \/ (now + es_interval_ns x < 2 ^ 64 /\ periods now x <= Z.of_nat fuel)) ->
  (forall e' t', held t' = held t ->
     calls t' = (es_callback x, [lp; p; X_EVENT_TIMER; es_user_data x]) :: calls t ->
     Q None (St e' (<[p := to_obj (fired now x)]> h) t')) ->
  wp Total (dispatch_timer user fuel now p) Q (St e h t).
Proof.
  intros Hu Hx Hn Hl Hud Hui Ha Hty Hdue Hcb Hw Hi HQ. unfold dispatch_timer, x_event_source_dispatch.
  wp_step. wp_step. wp_step. rewrite Ha, Hl. apply Z.eqb_neq in Hcb as ->. apply Z.eqb_neq in Hw as ->.
  cbn [negb orb]. apply wp_invoke. eapply wp_mono; [apply Hu|].
  intros rc [e1 h1 t1] [-> [Hh Ht]]. cbn [hp tr] in *. subst h1. cbn [Z.eqb negb].
  assert (held t1 = held t) as Hh1 by (rewrite (inert_ext_held _ _ Ht); by held_simpl).
  assert (calls t1 = (es_callback x, [lp; p; X_EVENT_TIMER; es_user_data x]) :: calls t) as Hc1
    by (by rewrite (inert_ext_calls _ _ Ht)).
  wp_step. wp_step. wp_step. rewrite Ha. cbn [negb]. unfold fired in HQ.
  destruct (Z.eqb_spec (es_interval_ns x) 0) as [E|E].
  - unfold x_event_source_remove. apply Z.eqb_neq in Hn as ->. wp_step. wp_step. rewrite Ha, Hty.
    change (X_EVENT_SOURCE_TIMER =? X_EVENT_SOURCE_SOCKET) with false. cbn [negb]. wp_run. by apply HQ.
  - destruct Hi as [?|[Hmax Hf]]; [done|]. unfold is_u64 in *.
    eapply wp_rearm_exact; [done|lia|lia|done|done|done|]. wp_step. by apply HQ.
Qed.

(** Where the pass ends. *)
Definition pass_done (lp : ptr) (srcs : list ptr) (now : Z) (h : heap) (t : list ev)
    (rc : Z) (s' : st) : Prop :=
  rc = 0 /\
  (forall p, p ∈ srcs -> hp s' !! p = Some (to_obj (after_pass now h p))) /\
  (forall q, q ∉ srcs -> hp s' !! q = h !! q) /\
  held (tr s') = held t /\
  calls (tr s') = rev (call_of lp h <$> those (due_now now h) srcs) ++ calls t.

(** What is not a source is as before the pass. *)
Lemma passing_keeps lp L l srcs now h t i s q o :
  loop_rep lp L l srcs h -> passing lp srcs now h t i s -> h !! q = Some o ->
  (forall y : x_event_source, o <> to_obj y) -> hp s !! q = Some o.
Proof.
  intros Hr [Hh _ _] Hq Ho. rewrite Hh, decide_False; [done|]. intros Hin.
  apply subseteq_take in Hin. destruct (loop_rep_in _ _ _ _ _ _ Hr Hin) as [y Hy].
  rewrite Hq in Hy. simplify_eq. by eapply Ho.
Qed.

(** A source the pass has not come to is as before it. *)
Lemma passing_ahead lp L l srcs now h t i p s :
  loop_rep lp L l srcs h -> passing lp srcs now h t i s -> srcs !! i = Some p ->
  hp s !! p = h !! p.
Proof.
  intros Hr [Hh _ _] Hp. rewrite Hh, decide_False; [done|]. intros Htake.
  apply list_elem_of_lookup in Htake as [j Hj]. apply lookup_take_Some in Hj as [Hj Hji].
  pose proof (NoDup_lookup _ _ _ _ (lr_nodup _ _ _ _ _ Hr) Hp Hj). lia.
Qed.

(** After the last source. *)
Lemma passing_end lp srcs now h t i s :
  (length srcs <= i)%nat -> passing lp srcs now h t i s -> pass_done lp srcs now h t 0 s.
Proof.
  intros Hi [Hh Ht Hc]. rewrite take_ge in * by lia. split_and!; [done| | |done|done].
  - intros p Hp. by rewrite Hh, decide_True by done.
  - intros q Hq. by rewrite Hh, decide_False by done.
Qed.

(** The source of round [i], read while the pass is under way. *)
Lemma wp_passing_at lp L l srcs now h t i p s md Q :
  loop_rep lp L l srcs h -> passing lp srcs now h t i s -> srcs !! i = Some p ->
  Q p s -> wp md (source_at lp i) Q s.
Proof.
  intros Hr Hps Hp HQ. pose proof (fun q o => passing_keeps _ _ _ _ _ _ _ _ _ q o Hr Hps) as Hkeep.
  destruct s as [e1 h1 t1]. cbn [hp] in Hkeep. unfold source_at. wp_step.
  eapply wp_load; [by apply Hkeep; [exact (lr_loop _ _ _ _ _ Hr)|]|].
  rewrite (lr_srcs _ _ _ _ _ Hr) in Hp. apply lookup_take_Some in Hp as [Hp Hlt].
  eapply (wp_load_elem _ _ l); [|lia|by rewrite Nat2Z.id|done].
  destruct (lr_array _ _ _ _ _ Hr) as [(_ & _ & ->)|[_ Hl]]; [done|by apply Hkeep].
Qed.

(** One round of the pass. *)
Lemma wp_pass_step user fuel lp L l srcs now h t i s :
  loop_rep lp L l srcs h -> quiet_user user lp -> Forall (plain_timer fuel now h) srcs ->
  (i <= length srcs)%nat -> passing lp srcs now h t i s ->
  wp Total (dispatch_timers_step user fuel lp now i)
    (fun r s' => match r with
     | inl j => ((j <= length srcs)%nat /\ passing lp srcs now h t j s') /\
                (length srcs - j < length srcs - i)%nat
     | inr rc => pass_done lp srcs now h t rc s'
     end) s.
Proof.
  intros Hr Hu Hplain Hi Hps. destruct s as [e1 h1 t1].
  assert (length srcs = Z.to_nat (el_count L)) as Hlen.
  { destruct Hr. rewrite lr_srcs, length_take. lia. }
  pose proof (fun q o => passing_keeps _ _ _ _ _ _ _ _ _ q o Hr Hps) as Hkeep. cbn [hp] in Hkeep.
  assert (h1 !! lp = Some (to_obj L)) as Hlp by (by apply Hkeep; [exact (lr_loop _ _ _ _ _ Hr)|]).
  unfold dispatch_timers_step. wp_step. wp_step.
  destruct (Z.ltb_spec (Z.of_nat i) (el_count L)) as [Hlt|Hge]; cbn [negb].
  2: { wp_step. eapply passing_end; [|exact Hps]; lia. }
  destruct (lookup_lt_is_Some_2 srcs i ltac:(lia)) as [p Hp].
  assert (p ∈ srcs) as Hin by by eapply list_elem_of_lookup_2.
  destruct (loop_rep_in _ _ _ _ _ _ Hr Hin) as [x Hx].
  destruct (loop_rep_at _ _ _ _ _ _ _ Hr Hin Hx) as [Hn Hf].
  pose proof (source_val_eq _ _ _ Hx) as Hv.
  assert (h1 !! p = Some (to_obj x)) as Hx1 by (rewrite <- Hx; exact (passing_ahead _ _ _ _ _ _ _ _ _ _ Hr Hps Hp)).
  wp_step. eapply wp_passing_at; [done..|].
  wp_step. wp_step.
  assert (due_now now h p = es_active x && is_timed x && (es_due_ns x <=? now)) as Hdue.
  { unfold due_now, is_due_source, active_at. by rewrite Hv. }
  rewrite Forall_forall in Hplain. specialize (Hplain _ Hin). unfold plain_timer in Hplain.
  rewrite Hv in Hplain.
  replace (negb (es_active x) || negb (is_timed x) || (now <? es_due_ns x))
    with (negb (due_now now h p)).
  2: { rewrite Hdue, !negb_andb. by rewrite Z.leb_antisym, negb_involutive. }
  destruct (due_now now h p) eqn:Ed; cbn [negb].
  - symmetry in Hdue. apply andb_true_iff in Hdue as [Hdue Hle]. apply andb_true_iff in Hdue as [Ha _].
    destruct (Hplain eq_refl) as (Hty & Hcb & Hw & Hint). rewrite Hty.
    change (X_EVENT_SOURCE_TIMER =? X_EVENT_SOURCE_PROCESS) with false.
    change (X_EVENT_SOURCE_TIMER =? X_EVENT_SOURCE_FILE) with false. cbn iota.
    apply Z.leb_le in Hle. wp_step. eapply wp_fire; try done; [by destruct Hf..|]. intros e2 t2 Ht2 Hc2.
    wp_step. split; [|lia]. split; [lia|]. eapply passing_next; [done|exact Hps|..]; cbn [hp tr].
    + unfold after_pass. by rewrite Ed, Hv.
    + done.
    + rewrite Ed, Hc2. unfold call_of. by rewrite Hv.
  - wp_step. split; [|lia]. split; [lia|]. eapply passing_next; [done|exact Hps|..]; cbn [hp tr].
    + unfold after_pass. rewrite Ed, Hv. by rewrite insert_id.
    + done.
    + by rewrite Ed.
Qed.

(** A pass, for use by the run. *)
Lemma wp_pass user fuel lp L l srcs sec nsec s :
  loop_rep lp L l srcs (hp s) -> quiet_user user lp ->
  (os_call (tr s) (Sclock_gettime CLOCK_MONOTONIC)).1 = (0, (sec, nsec)) ->
  let now := u64 (sec * 1000000000 + nsec) in
  Forall (plain_timer fuel now (hp s)) srcs -> (length srcs < fuel)%nat ->
  wp Total (x_event_loop_dispatch_timers user fuel lp)
    (fun rc s' => rc = 0 /\
       (forall p, p ∈ srcs -> hp s' !! p = Some (to_obj (after_pass now (hp s) p))) /\
       (forall q, q ∉ srcs -> hp s' !! q = hp s !! q) /\
       held (tr s') = held (tr s) /\
       calls (tr s') = rev (call_of lp (hp s) <$> those (due_now now (hp s)) srcs) ++ calls (tr s)) s.
Proof.
  intros Hr Hu Hclock now Hplain Hfuel. destruct s as [e h t]. cbn [hp tr] in *.
  unfold x_event_loop_dispatch_timers, x_time_monotonic_ns, x_time_clock_ns. cbn [negb].
  wp_step. wp_step. apply wp_sys_eq. intros r e' Hcall _. rewrite Hcall in Hclock. cbn in Hclock. subst r.
  cbn [fst snd Z.eqb negb]. wp_step. cbn [fst snd Z.eqb negb default from_option id].
  assert (u64 (u64 (u64 sec * 1000000000) + u64 nsec) = now) as -> by apply u64_clock.
  eapply (wp_iter Total (fun i s => (i <= length srcs)%nat /\ passing lp srcs now h t i s)
    (fun i _ => length srcs - i)%nat).
  - intros i s [Hi Hps]. by eapply wp_pass_step.
  - split; [lia|]. split; cbn; [|by held_simpl|done].
    intros q. by rewrite decide_False by (apply not_elem_of_nil).
  - lia.
Qed.

(** C3. One pass over a loop whose due sources are timers, with callbacks that
    succeed: exactly the active timers that are due are called, once each, in
    the order of the array; one-shot timers become inactive, interval timers
    get the first due time of their grid after [now]; every other source and
    the rest of memory are unchanged, and the pass ends. *)
Theorem dispatch_timers_fires user fuel lp L l srcs sec nsec s :
  loop_rep lp L l srcs (hp s) -> quiet_user user lp ->
  (os_call (tr s) (Sclock_gettime CLOCK_MONOTONIC)).1 = (0, (sec, nsec)) ->
  let now := u64 (sec * 1000000000 + nsec) in
  Forall (plain_timer fuel now (hp s)) srcs -> (length srcs < fuel)%nat ->
  wp Total (x_event_loop_dispatch_timers user fuel lp)
    (fun rc s' => rc = 0 /\
       (forall p, p ∈ srcs -> hp s' !! p = Some (to_obj (after_pass now (hp s) p))) /\
       (forall q, q ∉ srcs -> hp s' !! q = hp s !! q) /\
       held (tr s') = held (tr s) /\
       calls (tr s') = rev (call_of lp (hp s) <$> those (due_now now (hp s)) srcs) ++ calls (tr s)) s.
Proof. apply wp_pass. Qed.
End Timers.
