(* ===== verification/XEventSpec.v ===== *)
(** * The event loop: what its operations promise

    Compaction, the wait, the additions, the stop flag and a whole run, each as
    a statement about the loop's sources. *)
From S2P Require Import Prelude Syscalls Structs Machine Contract XTime XNetwork XProcess.
From S2P Require Import XWatcher XEvent XEventInv XEventSafe XEventLoop XEventLife XEventCreate.
From S2P Require Import DemoOS XEventTimers.

Section Spec.
Context {os : OS}.
Implicit Types (h : heap) (t : list ev).

(** C7. Compaction keeps exactly the active sources, in their order, frees each
    of the others, and changes no other memory; the loop stays well formed. *)
Theorem compact_spec lp L l srcs s :
  loop_rep lp L l srcs (hp s) ->
  wp Total (x_event_loop_compact lp)
    (fun _ s' => exists l', let live := those (active_at (hp s)) srcs in
       loop_rep lp (el_set_count (Z.of_nat (length live)) L) l' live (hp s') /\
       (forall p, p ∈ srcs -> active_at (hp s) p = false -> hp s' !! p = None) /\
       (forall q, q <> el_sources L -> q <> lp -> (q ∈ srcs -> active_at (hp s) q = true) ->
          hp s' !! q = hp s !! q) /\
       held (tr s') = held (tr s)) s.
Proof.
  destruct s as [e h t]. cbn [hp tr]. intros Hr. eapply wp_compact; [exact Hr|].
  intros e' l' h' t' live Hr' Hrest Ht. exists l'. cbn [hp tr]. split; [done|]. split_and!.
  - intros p Hp Hact. destruct (loop_rep_in _ _ _ _ _ _ Hr Hp) as [x Hx].
    rewrite Hrest, decide_True; [done|done| |].
    + pose proof (loop_rep_at _ _ _ _ _ _ _ Hr Hp Hx) as [? _].
      pose proof (lr_array _ _ _ _ _ Hr) as [(_ & -> & _)|[_ Hl]]; [done|apart].
    + pose proof (lr_loop _ _ _ _ _ Hr). apart.
  - intros q Hq1 Hq2 Hact. rewrite Hrest, decide_False; [done| |done|done].
    intros [Hin Hf]. by rewrite Hact in Hf.
  - exact (inert_ext_held _ _ Ht).
Qed.




(** A delay of more than 18446744073709 milliseconds saturates at
    [UINT64_MAX] nanoseconds and the addition to the clock wraps: such a timer
    is due one nanosecond before it was added, so that it fires at once. *)
Theorem add_timer_saturated_is_due lp L l srcs delay interval cb ud s :
  loop_rep lp L l srcs (hp s) -> registered_ok L srcs (hp s) (tr s) ->
  cb <> 0 -> cb <> WAKE_CALLBACK -> 18446744073709 < delay ->
  wp Total (x_event_loop_add_timer lp true delay interval cb ud)
    (fun r s' => r.1 = 0 -> exists p x now, r.2 = Some p /\ hp s' !! p = Some (OEventSource x) /\
       is_u64 now /\ (0 < now -> es_due_ns x = now - 1)) s.
Proof.
  intros Hr Hreg Hcb Hw Hdelay. destruct s as [e h t]. cbn [hp tr] in *.
  eapply wp_add_timer; [done..|].
  intros r s' [(Hrc & p & x & Hp & (L' & l' & _ & _ & _ & Hx & _) & now & Hnow & ->)|[? _]] H0; [|lia].
  eexists p, _, now. split_and!; [done|exact Hx|done|]. intros Hpos. cbn.
  unfold x_event_ms_to_ns. destruct (Z.ltb_spec (UINT64_MAX / 1000000) delay) as [_|H];
    [|change (UINT64_MAX / 1000000) with 18446744073709 in H; lia].
  unfold u64, is_u64, UINT64_MAX in *.
  replace (now + 18446744073709551615) with (now - 1 + 1 * 2 ^ 64) by lia.
  rewrite Z.mod_add by lia. apply Z.mod_small. lia.
Qed.

(** ** Stopping *)

(** A run starts by clearing the stop flag: a stop or cancel requested
    before [x_event_loop_run] has no effect on it whatsoever. *)
Theorem run_forgets_earlier_stop user fuel lp (L : x_event_loop) b e h t :
  lp <> NULL ->
  x_event_loop_run user fuel lp (St e (<[lp := to_obj (el_set_stop b L)]> h) t) =
  x_event_loop_run user fuel lp (St e (<[lp := to_obj (el_set_stop false L)]> h) t).
Proof.
  unfold x_event_loop_run. intros Hlp. apply Z.eqb_neq in Hlp as ->.
  assert (forall b, modify x_event_loop lp (fun l => el_set_stop false (el_set_running true l))
      (St e (<[lp := to_obj (el_set_stop b L)]> h) t) =
    Done tt (St e (<[lp := to_obj (el_set_stop false (el_set_running true L))]> h) t)) as Hm.
  { intros b'. rewrite (modify_done lp (el_set_stop b' L)) by (cbn [hp]; by rewrite lookup_insert_eq).
    cbn [hp errno tr]. by rewrite insert_insert_eq. }
  by rewrite !(bind_done _ _ _ _ _ (Hm _)).
Qed.

(** ** A whole run *)

Lemma source_fine_fired lp h now (x : x_event_source) :
  source_fine lp h x -> (es_interval_ns x = 0 \/
    0 < es_interval_ns x /\ es_due_ns x <= now /\ now + es_interval_ns x < 2 ^ 64) ->
  source_fine lp h (fired now x).
Proof.
  intros Hf Hi. pose proof Hf as []. unfold fired.
  destruct (Z.eqb_spec (es_interval_ns x) 0) as [E|E]; [by split|].
  destruct Hi as [?|(Hpos & Hd & Hmax)]; [done|]. pose proof (next_due_bounds now x Hpos Hd).
  split; cbn; try done. unfold is_u64 in *. lia.
Qed.

(** The loop after a pass. *)
Lemma loop_rep_pass lp L l srcs h h' fuel now :
  loop_rep lp L l srcs h -> Forall (plain_timer fuel now h) srcs ->
  (forall p, p ∈ srcs -> h' !! p = Some (to_obj (after_pass now h p))) ->
  (forall q, q ∉ srcs -> h' !! q = h !! q) -> loop_rep lp L l srcs h'.
Proof.
  intros Hr Hplain Hin Hout. pose proof Hr as [].
  assert (Hkeep : forall q o, h !! q = Some o -> (forall y : x_event_source, o <> to_obj y) ->
    h' !! q = Some o).
  { intros q o Hq Ho. rewrite Hout; [done|]. intros Hsrc.
    destruct (loop_rep_in _ _ _ _ _ _ Hr Hsrc) as [y Hy]. rewrite Hq in Hy. simplify_eq. by eapply Ho. }
  assert (kept h h') as Hk.
  { intros q. split; intros (Hn & z & Hz); (split; [done|]); exists z.
    - destruct Hz. split; [by apply Hkeep|done].
    - by apply Hkeep. }
  assert (Hsock : forall q, socket_live h q -> socket_live h' q).
  { intros q (Hn & z & Hz). split; [done|]. exists z. by apply Hkeep. }
  split; auto.
  - destruct lr_array as [?|[? ?]]; [by left|right]. split; [done|]. by apply Hkeep.
  - rewrite Forall_forall in *. intros p Hp. destruct (lr_sources _ Hp) as (Hn & x & Hx & Hf).
    split; [done|]. eexists. split; [by apply Hin|]. pose proof (source_val_eq _ _ _ Hx) as Hv.
    eapply source_fine_kept; [exact Hk|]. unfold after_pass. specialize (Hplain _ Hp).
    unfold plain_timer in Hplain. rewrite Hv in *. destruct (due_now now h p) eqn:Ed; [|done].
    destruct (Hplain eq_refl) as (_ & _ & _ & Hi). pose proof Hf as [].
    apply source_fine_fired; [done|]. destruct (Z.eqb_spec (es_interval_ns x) 0); [by left|right].
    destruct Hi as [?|[? _]]; [done|]. unfold is_u64 in *. split; [lia|]. split; [|done].
    unfold due_now in Ed. rewrite Hv in Ed. apply andb_true_iff in Ed as [_ ?%Z.leb_le]. done.
Qed.

(** The user's sources are one-shot timers that are due; the loop's own source
    is not timed. *)
Definition only_due_timers (now : Z) (h : heap) (p : ptr) : Prop :=
  let x := source_val h p in
  (is_user_source x = true -> es_type x = X_EVENT_SOURCE_TIMER /\ es_interval_ns x = 0 /\
     es_due_ns x <= now /\ es_callback x <> 0 /\ es_callback x <> WAKE_CALLBACK) /\
  (es_internal x = true -> is_timed x = false).

Definition own_source_at (h : heap) (p : ptr) : bool :=
  active_at h p && es_internal (source_val h p).

Lemma only_due_is_due now h p :
  only_due_timers now h p -> due_now now h p = user_source_at h p.
Proof.
  intros [Hu Hi]. unfold due_now, is_due_source, user_source_at, active_at, is_user_source in *.
  destruct (es_active (source_val h p)), (es_internal (source_val h p)); cbn in *; try done.
  - by rewrite Hi.
  - destruct (Hu eq_refl) as (Hty & _ & Hd & _). unfold is_timed. rewrite Hty.
    by apply Z.leb_le in Hd as ->.
Qed.

Lemma only_due_after now h p :
  only_due_timers now h p ->
  is_user_source (after_pass now h p) = false /\
  es_active (after_pass now h p) = own_source_at h p.
Proof.
  intros Ho. pose proof (only_due_is_due _ _ _ Ho) as Hdue. destruct Ho as [Hu _].
  unfold after_pass, own_source_at, active_at. rewrite Hdue.
  unfold user_source_at, is_user_source, fired in *. destruct (source_val h p) as []; cbn in *.
  destruct es_active, es_internal; cbn in *; try done.
  destruct (Hu eq_refl) as (_ & -> & _). done.
Qed.

Lemma source_val_ne h p q o : p <> q -> source_val (<[p := o]> h) q = source_val h q.
Proof. intros. unfold source_val. by rewrite lookup_insert_ne. Qed.

(** What the pass leaves of such sources. *)
Lemma pass_leaves_own now h h' srcs :
  (forall p, p ∈ srcs -> only_due_timers now h p) ->
  (forall p, p ∈ srcs -> h' !! p = Some (to_obj (after_pass now h p))) ->
  those (active_at h') srcs = those (own_source_at h) srcs /\
  (forall p, p ∈ srcs -> user_source_at h' p = false).
Proof.
  intros Honly Hin. split.
  - apply those_ext. intros p Hp. unfold active_at. rewrite (source_val_eq _ _ _ (Hin _ Hp)).
    by destruct (only_due_after now h p (Honly _ Hp)).
  - intros p Hp. unfold user_source_at. rewrite (source_val_eq _ _ _ (Hin _ Hp)).
    by destruct (only_due_after now h p (Honly _ Hp)).
Qed.

(** Compaction does not make a source of the user. *)
Lemma compact_no_users lp L l srcs h h' :
  loop_rep lp L l srcs h -> (forall p, p ∈ srcs -> user_source_at h p = false) ->
  (forall q, q <> el_sources L -> q <> lp ->
     h' !! q = if decide (q ∈ srcs /\ active_at h q = false) then None else h !! q) ->
  those (user_source_at h') (those (active_at h) srcs) = [].
Proof.
  intros Hr Hno Hrest. rewrite (those_ext _ (fun _ => false)).
  { unfold those. induction (filter _ srcs) as [|p ps IH]; [done|]. by rewrite filter_cons, decide_False. }
  intros p [Hact Hp]%elem_of_those. destruct (loop_rep_in _ _ _ _ _ _ Hr Hp) as [x Hx].
  rewrite <- (Hno _ Hp). unfold user_source_at, source_val. rewrite Hrest, decide_False; [done|..].
  - intros [_ ?]. congruence.
  - pose proof (loop_rep_at _ _ _ _ _ _ _ Hr Hp Hx) as [? _].
    pose proof (lr_array _ _ _ _ _ Hr) as [(_ & -> & _)|[_ Hl]]; [done|apart].
  - pose proof (lr_loop _ _ _ _ _ Hr). apart.
Qed.

(** Marking the loop as running does not touch its sources. *)
Lemma same_sources lp L l srcs (L1 : x_event_loop) h p :
  loop_rep lp L l srcs h -> p ∈ srcs -> source_val (<[lp := to_obj L1]> h) p = source_val h p.
Proof.
  intros Hr Hp. apply source_val_ne. intros <-. destruct (loop_rep_in _ _ _ _ _ _ Hr Hp) as [x Hx].
  rewrite (lr_loop _ _ _ _ _ Hr) in Hx. discriminate Hx.
Qed.

(** C2. A run of a loop whose sources are one-shot timers that are already due:
    it terminates and returns 0, every callback has been called exactly once,
    in the order in which the timers were added, and the loop is left with its
    internal source alone, not running. *)
Theorem run_fires_due_timers user fuel lp L l srcs sec nsec s :
  loop_rep lp L l srcs (hp s) -> quiet_user user lp ->
  (os_call (tr s) (Sclock_gettime CLOCK_MONOTONIC)).1 = (0, (sec, nsec)) ->
  Forall (only_due_timers (u64 (sec * 1000000000 + nsec)) (hp s)) srcs ->
  those (user_source_at (hp s)) srcs <> [] -> (length srcs < fuel)%nat ->
  wp Total (x_event_loop_run user fuel lp)
    (fun rc s' => rc = 0 /\
       calls (tr s') = rev (call_of lp (hp s) <$> those (user_source_at (hp s)) srcs) ++ calls (tr s) /\
       exists L' l', loop_rep lp L' l' (those (own_source_at (hp s)) srcs) (hp s') /\
         el_running L' = false) s.
Proof.
  intros Hr Hu Hclock Honly Hne Hfuel. destruct s as [e h t]. cbn [hp tr] in *.
  set (now := u64 _) in *. pose proof (lr_pos _ _ _ _ _ Hr) as Hlp. apply Z.eqb_neq in Hlp as Elp.
  unfold x_event_loop_run. rewrite Elp. wp_step. eapply wp_modify; [exact (lr_loop _ _ _ _ _ Hr)|].
  set (L1 := el_set_stop false _). set (h1 := <[lp := _]> h).
  assert (loop_rep lp L1 l srcs h1) as Hr1 by by eapply loop_rep_members.
  assert (Hsv : forall p, p ∈ srcs -> source_val h1 p = source_val h p).
  { intros p Hp. by eapply same_sources. }
  rewrite Forall_forall in Honly.
  assert (Honly1 : forall p, p ∈ srcs -> only_due_timers now h1 p).
  { intros p Hp. unfold only_due_timers. rewrite Hsv by done. by apply Honly. }
  assert (Hus : those (user_source_at h1) srcs = those (user_source_at h) srcs).
  { apply those_ext. intros p Hp. unfold user_source_at. by rewrite Hsv. }
  assert (Hplain : Forall (plain_timer fuel now h1) srcs).
  { apply Forall_forall. intros p Hp. unfold plain_timer. intros Hd. rewrite only_due_is_due in Hd by auto.
    destruct (Honly1 _ Hp) as [Hx _]. destruct (Hx Hd) as (? & ? & _ & ? & ?). auto. }
  destruct fuel as [|fuel]; [lia|]. wp_step. apply wp_iter_S. unfold run_step. wp_step.
  eapply wp_load; [exact (lr_loop _ _ _ _ _ Hr1)|]. change (el_stop_requested L1) with false. cbn iota.
  wp_step. eapply wp_active_user_sources; [exact Hr1|]. rewrite Hus.
  destruct (Z.ltb_spec 0 (Z.of_nat (length (those (user_source_at h) srcs)))) as [_|Hz].
  2: { destruct (those (user_source_at h) srcs); [done|cbn in Hz; lia]. }
  cbn [negb]. wp_step. eapply wp_mono; [by eapply wp_pass|].
  intros rc [e2 h2 t2] (-> & Hin & Hout & _ & Hcalls). cbn [hp tr] in *.
  fold now in Hin, Hcalls.
  pose proof (loop_rep_pass _ _ _ _ _ _ _ _ Hr1 Hplain Hin Hout) as Hr2.
  wp_step. eapply wp_load; [exact (lr_loop _ _ _ _ _ Hr2)|].
  change (el_stop_requested L1) with false. cbn [Z.eqb negb orb]. wp_step.
  eapply wp_compact; [exact Hr2|]. intros e3 l3 h3 t3 live Hr3 Hrest Ht3.
  destruct (pass_leaves_own now h1 h2 srcs Honly1 Hin) as [Hlive Hno].
  pose proof (compact_no_users _ _ _ _ _ _ Hr2 Hno Hrest) as Hnone. fold live in Hlive, Hnone.
  rewrite (those_ext _ (own_source_at h)) in Hlive
    by (intros p Hp; unfold own_source_at, active_at; by rewrite Hsv).
  wp_step. eapply wp_active_user_sources; [exact Hr3|]. rewrite Hnone.
  change (Z.of_nat (length (@nil ptr)) =? 0) with true. cbn beta iota. wp_step. wp_step. eapply wp_modify; [exact (lr_loop _ _ _ _ _ Hr3)|]. wp_step.
  split; [done|]. cbn [hp tr]. split.
  - rewrite (inert_ext_calls _ _ Ht3), Hcalls. f_equal. f_equal.
    rewrite (those_ext _ (user_source_at h1)) by (intros p Hp; by apply only_due_is_due, Honly1).
    rewrite Hus. apply list_fmap_ext. intros i p Hp. unfold call_of. rewrite Hsv; [done|].
    apply list_elem_of_lookup_2 in Hp. by apply elem_of_those in Hp as [_ ?].
  - eexists _, l3. rewrite <- Hlive. split; [by eapply loop_rep_members|done].
Qed.
End Spec.
