(* ===== verification/XBackend.v ===== *)
(** * The other event backends (src/x_event.c, kqueue and select builds)

    XEvent.v has the epoll build.  The builds differ in how a socket is
    registered and in [x_event_loop_wait_sockets]; both are modelled here for
    kqueue (Module Kqueue) and for select on POSIX and on Windows (Module
    Select), and compared with epoll's.  [dispatch] stands for
    [x_event_source_dispatch]. *)
From S2P Require Import Prelude Syscalls Structs Machine Contract XTime XNetwork XEvent XEventInv XEventSafe DemoOS.

(** The [struct timespec] and [struct timeval] of a wait; none without a limit. *)
Definition wait_limit (unit_ : Z) (timeout_ms : Z) : option timespec :=
  if 0 <=? timeout_ms then Some (timeout_ms / 1000, timeout_ms mod 1000 * unit_) else None.

(** ** kqueue *)

Module Kqueue.
Definition EVFILT_READ : Z := -1.
Definition EVFILT_WRITE : Z := -2.

Section Backend.
Context {os : OS}.

Definition kqueue_open : M Z :=
  fd ← sys Skqueue;
  if fd <? 0 then mret fd
  else _ ← sys (Sfcntl fd 2 1); mret fd. (* F_SETFD, FD_CLOEXEC *)

(** The change list: [add] tells EV_ADD from EV_DELETE. *)
Definition changes (x : x_event_source) (add : bool) (udata : ptr) : list kchange :=
  (if flag (es_events x) X_EVENT_READ then [KChange (es_native_handle x) EVFILT_READ add udata] else []) ++
  (if flag (es_events x) X_EVENT_WRITE then [KChange (es_native_handle x) EVFILT_WRITE add udata] else []).

Definition x_event_backend_add_socket (loop source : ptr) : M Z :=
  l ← load x_event_loop loop;
  x ← load x_event_source source;
  let changes := changes x true source in
  if 0 <? Z.of_nat (length changes) then
    r ← sys (Skevent_change (el_backend_fd l) changes);
    if negb (r.1 =? 0) then get_errno else mret 0
  else mret 0.

Definition x_event_backend_remove_socket (loop source : ptr) : M unit :=
  l ← load x_event_loop loop;
  x ← load x_event_source source;
  let changes := changes x false NULL in
  if 0 <? Z.of_nat (length changes) then
    _ ← sys (Skevent_change (el_backend_fd l) changes); mret tt
  else mret tt.

Definition filter_flags (filter : Z) : Z :=
  if filter =? EVFILT_READ then Z.lor 0 X_EVENT_READ
  else if filter =? EVFILT_WRITE then Z.lor 0 X_EVENT_WRITE
  else 0.

Variable dispatch : ptr -> Z -> M Z.

(** The events delivered, in order, up to the first error. *)
Fixpoint dispatch_filters (events : list (Z * ptr)) : M Z :=
  match events with
  | [] => mret 0
  | (filter, source) :: rest =>
      let flags := filter_flags filter in
      if source =? NULL then dispatch_filters rest
      else
        x ← load x_event_source source;
        if es_active x && negb (flags =? 0) then
          error ← dispatch source flags;
          if negb (error =? 0) then mret error else dispatch_filters rest
        else dispatch_filters rest
  end.

Definition x_event_loop_wait_sockets (loop : ptr) (timeout_ms : Z) : M Z :=
  l ← load x_event_loop loop;
  r ← sys (Skevent_wait (el_backend_fd l) 32 (wait_limit 1000000 timeout_ms));
  if r.1 <? 0 then e ← get_errno; mret (if e =? EINTR then 0 else e)
  else dispatch_filters r.2.
End Backend.
End Kqueue.

(** ** select *)

Module Select.
(** What differs between the builds: the descriptors an fd_set has a place for,
    what FD_SET makes of a set, the descriptor of a handle, whether the highest
    one is computed, and the code of a failing [select]. *)
Class Build {os : OS} := {
  fd_ok : Z -> bool;
  fd_put : Z -> list Z -> list Z;
  fd_of : Z -> Z;
  with_max : bool;
  select_error : M Z
}.

Definition FD_SETSIZE_POSIX : Z := 1024.
Definition FD_SETSIZE_WINDOWS : Z := 64.

(** POSIX: a bit of an array of FD_SETSIZE bits. *)
Definition posix_put (fd : Z) (set : list Z) : list Z := if decide (fd ∈ set) then set else set ++ [fd].
(** Windows: an array of at most FD_SETSIZE sockets; more are dropped. *)
Definition windows_put (fd : Z) (set : list Z) : list Z :=
  if decide (fd ∈ set) then set
  else if Z.of_nat (length set) <? FD_SETSIZE_WINDOWS then set ++ [fd] else set.

Definition posix_build {os : OS} : Build := {|
  fd_ok fd := (0 <=? fd) && (fd <? FD_SETSIZE_POSIX); fd_put := posix_put; fd_of := s32; with_max := true;
  select_error := e ← get_errno; mret (if e =? EINTR then 0 else e) |}.
Definition windows_build {os : OS} : Build := {|
  fd_ok _ := true; fd_put := windows_put; fd_of h := h; with_max := false; select_error := mret EIO |}.

Section Backend.
Context {os : OS} {build : Build}.

Definition x_event_backend_add_socket (loop source : ptr) : M Z := mret 0.
Definition x_event_backend_remove_socket (loop source : ptr) : M unit := mret tt.

(** [FD_SET] and [FD_ISSET]. *)
Definition fd_set (fd : Z) (set : list Z) : M (list Z) :=
  if fd_ok fd then mret (fd_put fd set) else undef UbBounds.
Definition fd_isset (fd : Z) (set : list Z) : M bool :=
  if fd_ok fd then mret (bool_decide (fd ∈ set)) else undef UbBounds.

(** [read_set], [write_set], [max_fd] and [has_socket]. *)
Record sets := Sets { read_set : list Z; write_set : list Z; max_fd : Z; has_socket : bool }.

Definition is_socket (x : x_event_source) : bool :=
  es_active x && (es_type x =? X_EVENT_SOURCE_SOCKET).

Definition gather_step (loop : ptr) (i : nat) (s : sets) : M sets :=
  source ← source_at loop i;
  x ← load x_event_source source;
  if negb (is_socket x) then mret s
  else
    let fd := fd_of (es_native_handle x) in
    r ← (if flag (es_events x) X_EVENT_READ then fd_set fd (read_set s) else mret (read_set s));
    w ← (if flag (es_events x) X_EVENT_WRITE then fd_set fd (write_set s) else mret (write_set s));
    mret (Sets r w (if with_max && (max_fd s <? fd) then fd else max_fd s) true).

(** The flags of a source after [select] left [reads] and [writes] in the sets. *)
Definition source_flags (reads writes : list Z) (x : x_event_source) : M Z :=
  let fd := fd_of (es_native_handle x) in
  readable ← (if flag (es_events x) X_EVENT_READ then fd_isset fd reads else mret false);
  let flags := if readable : bool then Z.lor 0 X_EVENT_READ else 0 in
  writable ← (if flag (es_events x) X_EVENT_WRITE then fd_isset fd writes else mret false);
  mret (if writable : bool then Z.lor flags X_EVENT_WRITE else flags).

(** The same for a descriptor that has a place in the sets. *)
Definition set_flags (reads writes : list Z) (x : x_event_source) : Z :=
  let fd := fd_of (es_native_handle x) in
  let flags := if flag (es_events x) X_EVENT_READ && bool_decide (fd ∈ reads)
               then Z.lor 0 X_EVENT_READ else 0 in
  if flag (es_events x) X_EVENT_WRITE && bool_decide (fd ∈ writes)
  then Z.lor flags X_EVENT_WRITE else flags.

Variable dispatch : ptr -> Z -> M Z.

(** One round of the second loop; the count is read again each time. *)
Definition dispatch_step (loop : ptr) (reads writes : list Z) (i : nat) : M (nat + Z) :=
  l ← load x_event_loop loop;
  if negb (Z.of_nat i <? el_count l) then mret (inr 0)
  else
    source ← source_at loop i;
    x ← load x_event_source source;
    if negb (is_socket x) then mret (inl (S i))
    else
      flags ← source_flags reads writes x;
      if negb (flags =? 0) then
        error ← dispatch source flags;
        if negb (error =? 0) then mret (inr error) else mret (inl (S i))
      else mret (inl (S i)).

Variable fuel : nat.

Definition x_event_loop_wait_sockets (loop : ptr) (timeout_ms : Z) : M Z :=
  l ← load x_event_loop loop;
  s ← fold_range (Z.to_nat (el_count l)) 0 (gather_step loop) (Sets [] [] 0 false);
  if negb (has_socket s) then
    if timeout_ms <? 0 then mret 0 else x_time_sleep_ms fuel (u64 timeout_ms)
  else
    r ← sys (Sselect (max_fd s + 1) (read_set s) (write_set s) (wait_limit 1000 timeout_ms));
    if r.1 <? 0 then select_error
    else if r.1 =? 0 then mret 0
    else iterM fuel (dispatch_step loop r.2.1 r.2.2) O.
End Backend.
End Select.

(** ** The three backends agree *)

(** The flags a source asked for that its socket is ready for. *)
Definition wanted (events : Z) (readable writable : bool) : Z :=
  Z.lor (if flag events X_EVENT_READ && readable then X_EVENT_READ else 0)
        (if flag events X_EVENT_WRITE && writable then X_EVENT_WRITE else 0).

(** What [epoll_wait] reports of a registration without error or hang-up, and the
    filters [kevent] reports. *)
Definition epoll_report (events : Z) (readable writable : bool) : Z :=
  Z.lor (if flag (x_event_epoll_flags events) EPOLLIN && readable then EPOLLIN else 0)
        (if flag (x_event_epoll_flags events) EPOLLOUT && writable then EPOLLOUT else 0).
Definition kqueue_report (x : x_event_source) (readable writable : bool) : list Z :=
  filter (fun f => f = Kqueue.EVFILT_READ /\ readable = true \/ f = Kqueue.EVFILT_WRITE /\ writable = true)
    (kc_filter <$> Kqueue.changes x true NULL).

(** C11. The three builds of the event loop tell a source the same: for every socket
    source and every readiness of its socket, the flags derived from the epoll
    event, the flags of the kqueue events together and the flags derived from the
    sets [select] leaves are exactly what the source asked for and is ready; and
    epoll alone also reports a hang-up or an error, as readiness to read, to every
    source, one that only asked to write included. *)
Theorem backends_agree {os : OS} {build : Select.Build} x readable writable reads writes :
  (Select.fd_of (es_native_handle x) ∈ reads <-> readable = true) ->
  (Select.fd_of (es_native_handle x) ∈ writes <-> writable = true) ->
  let flags := wanted (es_events x) readable writable in
  ready_flags (epoll_report (es_events x) readable writable) = flags /\
  foldr Z.lor 0 (Kqueue.filter_flags <$> kqueue_report x readable writable) = flags /\
  Select.set_flags reads writes x = flags /\
  forall bit, bit ∈ [EPOLLHUP; EPOLLERR] ->
    ready_flags (Z.lor bit (epoll_report (es_events x) readable writable)) = Z.lor X_EVENT_READ flags.
Proof.
  intros Hr Hw. cbn zeta. unfold Select.set_flags.
  rewrite (bool_decide_ext _ _ Hr), (bool_decide_ext _ _ Hw).
  unfold wanted, epoll_report, kqueue_report, Kqueue.changes, x_event_epoll_flags.
  destruct (flag (es_events x) X_EVENT_READ), (flag (es_events x) X_EVENT_WRITE), readable, writable;
    split_and!; try by vm_compute.
  all: intros bit Hb; repeat (apply elem_of_cons in Hb as [->|Hb]; [by vm_compute|]); by apply elem_of_nil in Hb.
Qed.

(** ** kqueue *)

Section KqueueTheorems.
Context {os : OS}.

(** A failed registration that leaves a filter behind. *)
Lemma kqueue_partial lp p (L : x_event_loop) (x : x_event_source) s :
  hp s !! lp = Some (to_obj L) -> hp s !! p = Some (to_obj x) ->
  flag (es_events x) X_EVENT_READ = true -> flag (es_events x) X_EVENT_WRITE = true ->
  (os_call (tr s) (Skevent_change (el_backend_fd L) (Kqueue.changes x true p))).1 = (-1, 1%nat) ->
  exists s1, Kqueue.x_event_backend_add_socket lp p s = Done (errno s1) s1 /\
    0 < errno s1 /\ hp s1 = hp s /\
    filters (tr s1) (el_backend_fd L) !! (es_native_handle x, Kqueue.EVFILT_READ) = Some p.
Proof.
  destruct s as [e h t]. cbn [hp tr]. intros Hl Hx Hread Hwrite Hcall.
  pose proof (os_call_post t (Skevent_change (el_backend_fd L) (Kqueue.changes x true p))) as Hpost.
  pose proof (os_call_errno t (Skevent_change (el_backend_fd L) (Kqueue.changes x true p))) as Herr.
  assert (Kqueue.changes x true p = [KChange (es_native_handle x) Kqueue.EVFILT_READ true p;
    KChange (es_native_handle x) Kqueue.EVFILT_WRITE true p]) as Hc.
  { unfold Kqueue.changes. by rewrite Hread, Hwrite. }
  unfold Kqueue.x_event_backend_add_socket.
  rewrite (bind_done _ _ _ _ _ (load_done lp L (St e h t) Hl)), (bind_done _ _ _ _ _ (load_done p x (St e h t) Hx)).
  rewrite Hc in *. cbv zeta. cbn [length]. change (0 <? Z.of_nat 2) with true. cbn iota.
  set (k := Skevent_change _ _) in *. destruct (os_call t k) as [r e'] eqn:E. cbn [fst snd] in *. subst r.
  destruct Hpost as [[?|[_ He]] _]; [done|].
  exists (St e' h (Ev k (-1, 1%nat) :: t)). cbn [errno hp tr].
  split; [|split; [done|split; [done|]]].
  - rewrite (bind_done _ _ (-1, 1%nat) _ (St e' h (Ev k (-1, 1%nat) :: t))); [done|].
    unfold sys. cbn [tr errno hp]. rewrite E. cbn [fst snd]. by rewrite (proj2 (Z.eqb_neq e' 0)) by lia.
  - unfold k. cbn [filters]. rewrite Z.eqb_refl. cbn [snd take foldl]. unfold apply_change. cbn [kc_add kc_ident kc_filter kc_udata].
    by rewrite lookup_insert_eq.
Qed.

(** C13. Registering a socket for reading and writing with kqueue is not atomic: when
    [kevent] applies the first change and fails on the second, the call reports the
    error but the read filter stays, with the address of the source, which
    [x_event_loop_add_socket] then frees; an event the kernel may deliver for it
    later makes the loop read freed memory. *)
Theorem kqueue_failed_add_dangles dispatch lp p (L : x_event_loop) (x : x_event_source) timeout s :
  hp s !! lp = Some (to_obj L) -> hp s !! p = Some (to_obj x) -> lp <> p -> p <> NULL ->
  flag (es_events x) X_EVENT_READ = true -> flag (es_events x) X_EVENT_WRITE = true ->
  (os_call (tr s) (Skevent_change (el_backend_fd L) (Kqueue.changes x true p))).1 = (-1, 1%nat) ->
  exists e s1, (error ← Kqueue.x_event_backend_add_socket lp p; free p;; mret error) s = Done e s1 /\
    0 < e /\ hp s1 !! p = None /\
    (* the kernel may deliver the filter *)
    sys_post (tr s1) (Skevent_wait (el_backend_fd L) 32 (wait_limit 1000000 timeout))
      (1, [(Kqueue.EVFILT_READ, p)]) 0 /\
    ((os_call (tr s1) (Skevent_wait (el_backend_fd L) 32 (wait_limit 1000000 timeout))).1 =
       (1, [(Kqueue.EVFILT_READ, p)]) ->
     Kqueue.x_event_loop_wait_sockets dispatch lp timeout s1 = Undef UbDangling).
Proof.
  intros Hl Hx Hne Hn Hr Hw Hcall.
  destruct (kqueue_partial lp p L x s Hl Hx Hr Hw Hcall) as (s1 & Hadd & He & Hh & Hf).
  rewrite (bind_done _ _ _ _ _ Hadd). apply Z.eqb_neq in Hn as En.
  assert (free p s1 = Done tt (St (errno s1) (delete p (hp s1)) (EvFree p :: tr s1))) as Hfree.
  { unfold free. by rewrite En, Hh, Hx. }
  rewrite (bind_done _ _ _ _ _ Hfree).
  eexists _, (St _ _ _). split; [reflexivity|]. cbn [errno hp tr].
  split; [done|]. split; [by rewrite lookup_delete_eq|]. split.
  - split; [right; cbn; lia|]. intros _. split; [done|]. constructor; [|constructor].
    exists (es_native_handle x). exact Hf.
  - intros Hwait. unfold Kqueue.x_event_loop_wait_sockets.
    rewrite (bind_done _ _ L _ (St (errno s1) (delete p (hp s1)) (EvFree p :: tr s1))).
    2: { apply load_done. cbn [hp]. by rewrite lookup_delete_ne, Hh by done. }
    set (k := Skevent_wait _ _ _) in *. unfold mbind at 1, M_bind at 1, sys. cbn [tr errno hp].
    rewrite Hwait. cbn [fst snd Z.ltb Z.compare Kqueue.dispatch_filters]. rewrite En.
    unfold mbind, M_bind, load. cbn [hp]. by rewrite lookup_delete_eq.
Qed.
End KqueueTheorems.

(** ** select *)

(** What [x_event_loop_wait_sockets] gathers and tells, as functions of the heap. *)
Section Gathered.
Context {os : OS} {build : Select.Build}.

Definition socket_at (h : heap) (p : ptr) : bool := Select.is_socket (source_val h p).
Definition fd_at (h : heap) (p : ptr) : Z := Select.fd_of (es_native_handle (source_val h p)).
Definition sockets (h : heap) (srcs : list ptr) : list ptr := those (socket_at h) srcs.
(** The descriptors of the sources that ask for [bit]. *)
Definition asking (h : heap) (bit : Z) (srcs : list ptr) : list Z :=
  fd_at h <$> those (fun p => flag (es_events (source_val h p)) bit) (sockets h srcs).
Definition fd_set_of (fds : list Z) : list Z := foldl (fun set fd => Select.fd_put fd set) [] fds.

Definition gathered (h : heap) (srcs : list ptr) : Select.sets :=
  Select.Sets (fd_set_of (asking h X_EVENT_READ srcs)) (fd_set_of (asking h X_EVENT_WRITE srcs))
    (if Select.with_max then foldl Z.max 0 (fd_at h <$> sockets h srcs) else 0)
    (0 <? Z.of_nat (length (sockets h srcs))).

(** The flags a source is told, and the sources told something, in array order. *)
Definition told (h : heap) (reads writes : list Z) (p : ptr) : Z :=
  Select.set_flags reads writes (source_val h p).
Definition notified (h : heap) (reads writes : list Z) (srcs : list ptr) : list ptr :=
  those (fun p => negb (told h reads writes p =? 0)) (sockets h srcs).

(** A dispatch that only records the call. *)
Definition records (dispatch : ptr -> Z -> M Z) : Prop :=
  forall p f s, dispatch p f s = Done 0 (St (errno s) (hp s) (EvCall p [f] :: tr s)).
Definition recorded (h : heap) (reads writes : list Z) (l : list ptr) : list ev :=
  rev ((fun p => EvCall p [told h reads writes p]) <$> l).

(** The descriptor of the source, when it is a socket, has a place in the sets. *)
Definition in_range (h : heap) (p : ptr) : Prop := socket_at h p = true -> Select.fd_ok (fd_at h p) = true.
End Gathered.

Section SelectLemmas.
Context {os : OS} {build : Select.Build}.
Context (lp : ptr) (L : x_event_loop) (l srcs : list ptr) (h : heap).
Hypothesis Hrep : loop_rep lp L l srcs h.

Lemma asking_snoc bit ps p :
  asking h bit (ps ++ [p]) =
  asking h bit ps ++ if socket_at h p && flag (es_events (source_val h p)) bit then [fd_at h p] else [].
Proof.
  unfold asking, sockets. rewrite those_snoc.
  destruct (socket_at h p) eqn:E; cbn [andb]; [|by rewrite !app_nil_r].
  rewrite those_snoc. destruct (flag _ _); rewrite fmap_app; by rewrite ?app_nil_r.
Qed.

(** One more source. *)
Lemma gathered_snoc ps p :
  gathered h (ps ++ [p]) =
  let g := gathered h ps in
  let x := source_val h p in
  if socket_at h p then
    Select.Sets (if flag (es_events x) X_EVENT_READ then Select.fd_put (fd_at h p) (Select.read_set g) else Select.read_set g)
      (if flag (es_events x) X_EVENT_WRITE then Select.fd_put (fd_at h p) (Select.write_set g) else Select.write_set g)
      (if Select.with_max && (Select.max_fd g <? fd_at h p) then fd_at h p else Select.max_fd g) true
  else g.
Proof.
  cbn zeta. unfold gathered at 1. rewrite !asking_snoc. unfold sockets. rewrite !those_snoc.
  destruct (socket_at h p) eqn:E; cbn [andb]; [|by rewrite !app_nil_r].
  unfold gathered. cbn [Select.read_set Select.write_set Select.max_fd]. f_equal.
  - destruct (flag _ _); [|by rewrite app_nil_r]. unfold fd_set_of. by rewrite foldl_app.
  - destruct (flag _ _); [|by rewrite app_nil_r]. unfold fd_set_of. by rewrite foldl_app.
  - destruct Select.with_max; [|done]. cbn [andb]. rewrite fmap_app, foldl_app. cbn [fmap list_fmap foldl].
    unfold sockets. destruct (Z.ltb_spec (foldl Z.max 0 (fd_at h <$> those (socket_at h) ps)) (fd_at h p)); lia.
  - rewrite length_app. cbn [length]. apply Z.ltb_lt. lia.
Qed.

Lemma srcs_length : length srcs = Z.to_nat (el_count L).
Proof. destruct Hrep. rewrite lr_srcs, length_take. lia. Qed.

(** The first [n] rounds. *)
Lemma wp_gather_take md n e t Q :
  (n <= length srcs)%nat -> Forall (in_range h) (take n srcs) ->
  Q (gathered h (take n srcs)) (St e h t) ->
  wp md (fold_range n 0 (Select.gather_step lp) (Select.Sets [] [] 0 false)) Q (St e h t).
Proof.
  intros Hle Hputs HQ. eapply wp_mono.
  { apply (wp_fold_range md (fun i g s => s = St e h t /\ g = gathered h (take i srcs))).
    2: { split; [done|]. unfold gathered. cbn. by destruct Select.with_max. }
    intros i g s Hi [-> ->]. destruct (lookup_lt_is_Some_2 srcs i ltac:(lia)) as [p Hp].
    assert (p ∈ srcs) as Hin by by eapply list_elem_of_lookup_2.
    destruct (loop_rep_in _ _ _ _ _ _ Hrep Hin) as [x Hx].
    assert (in_range h p) as Hput.
    { apply (proj1 (Forall_forall _ _) Hputs), (list_elem_of_lookup_2 _ i), lookup_take_Some. by split; [|lia]. }
    unfold in_range, socket_at, fd_at in Hput.
    cbv beta. rewrite (take_S_r _ _ _ Hp), gathered_snoc. cbn zeta. unfold socket_at, fd_at.
    rewrite (source_val_eq _ _ _ Hx) in *.
    unfold Select.gather_step. wp_step. eapply wp_source_at; [done..|]. wp_step. wp_step.
    destruct (Select.is_socket x); cbn [negb]; [|by apply wp_ret]. specialize (Hput eq_refl).
    set (b := _ && _). destruct (flag (es_events x) X_EVENT_READ), (flag (es_events x) X_EVENT_WRITE);
      unfold Select.fd_set, wp, mbind, M_bind, mret, M_ret; by rewrite ?Hput. }
  intros g s [-> ->]. done.
Qed.

Lemma wp_gather md e t Q :
  Forall (in_range h) srcs -> Q (gathered h srcs) (St e h t) ->
  wp md (fold_range (Z.to_nat (el_count L)) 0 (Select.gather_step lp) (Select.Sets [] [] 0 false)) Q (St e h t).
Proof. rewrite <- srcs_length. intros Hp HQ. apply wp_gather_take; by rewrite ?take_ge. Qed.

Lemma notified_snoc reads writes ps p :
  notified h reads writes (ps ++ [p]) =
  notified h reads writes ps ++ if socket_at h p && negb (told h reads writes p =? 0) then [p] else [].
Proof.
  unfold notified, sockets. rewrite those_snoc.
  destruct (socket_at h p); cbn [andb]; [by rewrite those_snoc|by rewrite !app_nil_r].
Qed.

Lemma source_flags_ok reads writes (x : x_event_source) s :
  Select.fd_ok (Select.fd_of (es_native_handle x)) = true ->
  Select.source_flags reads writes x s = Done (Select.set_flags reads writes x) s.
Proof.
  intros H. unfold Select.source_flags, Select.set_flags, Select.fd_isset, mbind, M_bind. rewrite H.
  destruct (flag (es_events x) X_EVENT_READ), (flag (es_events x) X_EVENT_WRITE); done.
Qed.

Lemma wp_source_flags md reads writes (x : x_event_source) Q s :
  Select.fd_ok (Select.fd_of (es_native_handle x)) = true -> Q (Select.set_flags reads writes x) s ->
  wp md (Select.source_flags reads writes x) Q s.
Proof. intros H HQ. unfold wp. by rewrite source_flags_ok. Qed.

Lemma wp_dispatch_sets md dispatch fuel reads writes e t Q :
  Forall (in_range h) srcs -> records dispatch -> (length srcs < fuel)%nat ->
  (forall e', Q 0 (St e' h (recorded h reads writes (notified h reads writes srcs) ++ t))) ->
  wp md (iterM fuel (Select.dispatch_step dispatch lp reads writes) 0%nat) Q (St e h t).
Proof.
  intros Hin_range Hd Hfuel HQ.
  pose proof srcs_length as Hn.
  apply (wp_iter md (fun i s => (i <= length srcs)%nat /\ exists e',
    s = St e' h (recorded h reads writes (notified h reads writes (take i srcs)) ++ t))
    (fun i _ => (length srcs - i)%nat)); [|split; [lia|by exists e]|lia].
  intros i s [Hi [e' ->]]. unfold Select.dispatch_step. wp_step.
  eapply wp_load; [exact (lr_loop _ _ _ _ _ Hrep)|].
  destruct (Z.ltb_spec (Z.of_nat i) (el_count L)) as [Hlt|Hge]; cbn [negb].
  2: { apply wp_ret. rewrite take_ge by lia. apply HQ. }
  destruct (lookup_lt_is_Some_2 srcs i ltac:(lia)) as [p Hp].
  assert (p ∈ srcs) as Hin by by eapply list_elem_of_lookup_2.
  destruct (loop_rep_in _ _ _ _ _ _ Hrep Hin) as [x Hx].
  wp_step. eapply wp_source_at; [done..|]. wp_step. wp_step.
  assert (socket_at h p = Select.is_socket x) as Es by (unfold socket_at; by rewrite (source_val_eq _ _ _ Hx)).
  assert (told h reads writes p = Select.set_flags reads writes x) as Et
    by (unfold told; by rewrite (source_val_eq _ _ _ Hx)).
  assert (Select.is_socket x = true -> Select.fd_ok (Select.fd_of (es_native_handle x)) = true) as Hok.
  { pose proof (proj1 (Forall_forall _ _) Hin_range p Hin) as Hok. unfold in_range, fd_at in Hok.
    by rewrite Es, (source_val_eq _ _ _ Hx) in Hok. }
  pose proof (notified_snoc reads writes (take i srcs) p) as Hnext.
  rewrite <- (take_S_r _ _ _ Hp), Es, Et in Hnext.
  destruct (Select.is_socket x); cbn [negb andb] in *.
  2: { rewrite app_nil_r in Hnext. apply wp_ret. split; [|lia]. split; [lia|]. exists e'. by rewrite Hnext. }
  wp_step. apply wp_source_flags; [auto|].
  destruct (Z.eqb_spec (Select.set_flags reads writes x) 0); cbn [negb] in *.
  { rewrite app_nil_r in Hnext. apply wp_ret. split; [|lia]. split; [lia|]. exists e'. by rewrite Hnext. }
  unfold wp, mbind, M_bind. rewrite Hd. cbn [Z.eqb negb mret M_ret errno hp tr].
  split; [|lia]. split; [lia|]. exists e'. rewrite Hnext. f_equal.
  unfold recorded. by rewrite fmap_app, rev_app_distr, <- Et.
Qed.

Lemma wp_select_wait md dispatch fuel timeout_ms e t Q :
  let g := gathered h srcs in
  let call := Sselect (Select.max_fd g + 1) (Select.read_set g) (Select.write_set g) (wait_limit 1000 timeout_ms) in
  Forall (in_range h) srcs -> records dispatch -> (length srcs < fuel)%nat ->
  sockets h srcs <> [] ->
  (forall n reads writes e' e'', let ret := (n, (reads, writes)) in
     sys_post t call ret e' ->
     if n <? 0 then wp md Select.select_error Q (St e' h (Ev call ret :: t))
     else Q 0 (St e'' h (recorded h reads writes
       (if n =? 0 then [] else notified h reads writes srcs) ++ Ev call ret :: t))) ->
  wp md (Select.x_event_loop_wait_sockets dispatch fuel lp timeout_ms) Q (St e h t).
Proof.
  cbn zeta. intros Hputs Hd Hfuel Hsock HQ. unfold Select.x_event_loop_wait_sockets. wp_step.
  eapply wp_load; [exact (lr_loop _ _ _ _ _ Hrep)|]. wp_step. apply wp_gather; [done|].
  assert (Select.has_socket (gathered h srcs) = true) as ->.
  { unfold gathered. cbn [Select.has_socket]. destruct (sockets h srcs); [done|]. apply Z.ltb_lt. cbn. lia. }
  cbn [negb]. apply wp_bind, wp_sys. intros [n [reads writes]] e' Hpost _. cbn [fst snd].
  specialize (HQ n reads writes e'). cbn zeta in HQ. destruct (n <? 0); [by apply (HQ 0)|].
  destruct (n =? 0); [apply wp_ret; by apply (HQ e')|].
  apply wp_dispatch_sets; [done..|]. intros e''. by apply HQ.
Qed.
End SelectLemmas.

(** ** The builds of select *)

Lemma foldl_max_ge (l : list Z) a : a <= foldl Z.max a l /\ forall x, x ∈ l -> x <= foldl Z.max a l.
Proof.
  revert a. induction l as [|y l IH]; cbn [foldl]; intros a.
  - split; [lia|]. intros x H. by apply elem_of_nil in H.
  - destruct (IH (Z.max a y)) as [H1 H2]. split; [lia|].
    intros x [->|H]%elem_of_cons; [lia|by apply H2].
Qed.

Lemma fold_range_app {A} n m lo (body : nat -> A -> M A) a :
  forall s, fold_range (n + m) lo body a s = (a' ← fold_range n lo body a; fold_range m (lo + n) body a') s.
Proof.
  revert lo a. induction n as [|n IH]; intros lo a s; cbn [fold_range Nat.add]; [by rewrite Nat.add_0_r|].
  rewrite <- Nat.add_succ_comm. unfold mbind, M_bind in *.
  destruct (body lo a s) as [a' s'| | |]; [apply IH|done..].
Qed.

Section SelectTheorems.
Context {os : OS}.
#[local] Existing Instance Select.posix_build.

Lemma posix_put_elem fds fd : fd ∈ fd_set_of fds <-> fd ∈ fds.
Proof.
  induction fds as [|y fds IH] using rev_ind; [done|]. unfold fd_set_of in *. rewrite foldl_app. cbn [foldl].
  cbn [Select.fd_put Select.posix_build] in *. unfold Select.posix_put at 1.
  rewrite !elem_of_app, list_elem_of_singleton, <- IH.
  case_decide as Hin; rewrite ?elem_of_app, ?list_elem_of_singleton; naive_solver.
Qed.

Lemma notified_nothing {build : Select.Build} h srcs : notified h [] [] srcs = [].
Proof.
  unfold notified. rewrite (those_ext _ (fun _ => false)).
  - induction (sockets h srcs) as [|p ps IH]; [done|exact IH].
  - intros p _. unfold told, Select.set_flags. by rewrite !andb_false_r.
Qed.

(** The POSIX build has no guard for FD_SETSIZE: when some source asks to read
    on a descriptor of 1024 or above, waiting writes outside the array of the
    [fd_set], whatever the other sources are. *)
Theorem posix_select_overflows dispatch fuel lp L l before p after timeout_ms s :
  loop_rep lp L l (before ++ p :: after) (hp s) ->
  Forall (in_range (hp s)) before ->
  socket_at (hp s) p = true -> flag (es_events (source_val (hp s) p)) X_EVENT_READ = true ->
  Select.FD_SETSIZE_POSIX <= fd_at (hp s) p ->
  Select.x_event_loop_wait_sockets dispatch fuel lp timeout_ms s = Undef UbBounds.
Proof.
  destruct s as [e h t]. cbn [hp]. intros Hrep Hrange Hs Hr Hfd.
  assert (p ∈ before ++ p :: after) as Hin by (apply elem_of_app; right; left).
  destruct (loop_rep_in _ _ _ _ _ _ Hrep Hin) as [x Hx].
  unfold Select.x_event_loop_wait_sockets.
  rewrite (bind_done _ _ _ _ _ (load_done lp L (St e h t) (lr_loop _ _ _ _ _ Hrep))).
  rewrite <- (srcs_length _ _ _ _ _ Hrep), length_app. cbn [length]. unfold mbind at 1, M_bind at 1.
  rewrite fold_range_app. unfold mbind at 1, M_bind at 1.
  destruct (wp_done _ _ _ (wp_gather_take lp L l _ h Hrep Total (length before) e t
    (fun _ s' => s' = St e h t) ltac:(rewrite length_app; lia)
    ltac:(by rewrite take_app_length)
    eq_refl)) as (g & s' & -> & ->).
  destruct (wp_done (source_at lp (length before)) (fun q s' => q = p /\ s' = St e h t) (St e h t)) as (q & s' & Hq & -> & ->).
  { eapply wp_source_at; [exact Hrep|apply list_lookup_middle; done|done]. }
  cbn [fold_range Nat.add]. unfold mbind at 1, M_bind at 1, Select.gather_step at 1.
  rewrite (bind_done _ _ _ _ _ Hq), (bind_done _ _ _ _ _ (load_done p x (St e h t) Hx)).
  unfold socket_at, fd_at in *. rewrite (source_val_eq _ _ _ Hx) in *. rewrite Hs, Hr. cbn [negb].
  cbv zeta. unfold mbind at 1, M_bind at 1, Select.fd_set at 1. cbn [Select.fd_ok Select.posix_build].
  by rewrite (proj2 (Z.ltb_ge _ _) Hfd), andb_false_r.
Qed.

(** C12. Waiting with [select] (POSIX), every registered descriptor below FD_SETSIZE:
    one call with exactly the descriptors the sources ask for and a bound above all
    of them; then every socket source that [select] left ready for something it
    asked is told so, once and in the order of the array, and nothing else is; a
    failure is returned, an interruption is not one. *)
Theorem select_wait_dispatches dispatch fuel lp L l srcs timeout_ms s :
  loop_rep lp L l srcs (hp s) -> Forall (in_range (hp s)) srcs ->
  sockets (hp s) srcs <> [] -> records dispatch -> (length srcs < fuel)%nat ->
  exists max_fd reads0 writes0,
    (forall fd, fd ∈ reads0 <-> fd ∈ asking (hp s) X_EVENT_READ srcs) /\
    (forall fd, fd ∈ writes0 <-> fd ∈ asking (hp s) X_EVENT_WRITE srcs) /\
    (forall p, p ∈ sockets (hp s) srcs -> fd_at (hp s) p <= max_fd) /\
    let call := Sselect (max_fd + 1) reads0 writes0 (wait_limit 1000 timeout_ms) in
    wp Total (Select.x_event_loop_wait_sockets dispatch fuel lp timeout_ms) (fun r s' =>
      hp s' = hp s /\ exists n reads writes, let ret := Ev call (n, (reads, writes)) in
        (n < 0 /\ tr s' = ret :: tr s /\ 0 < errno s' /\ r = (if errno s' =? EINTR then 0 else errno s')) \/
        (n = Z.of_nat (length reads) + Z.of_nat (length writes) /\ reads ⊆ reads0 /\ writes ⊆ writes0 /\ r = 0 /\
         tr s' = recorded (hp s) reads writes (notified (hp s) reads writes srcs) ++ ret :: tr s)) s.
Proof.
  destruct s as [e h t]. cbn [hp tr]. intros Hrep Hrange Hsock Hd Hfuel.
  exists (foldl Z.max 0 (fd_at h <$> sockets h srcs)), (fd_set_of (asking h X_EVENT_READ srcs)),
    (fd_set_of (asking h X_EVENT_WRITE srcs)).
  split; [intros; apply posix_put_elem|]. split; [intros; apply posix_put_elem|].
  split; [intros p Hp; destruct (foldl_max_ge (fd_at h <$> sockets h srcs) 0) as [_ Hmax]; by apply Hmax, list_elem_of_fmap_2|]. cbv zeta.
  eapply wp_select_wait; [done..|].
  cbv zeta. intros n reads writes e' e'' Hpost. cbn [fst snd sys_post] in Hpost.
  destruct (Z.ltb_spec n 0) as [Hn|Hn].
  - destruct Hpost as [[_ He]|(-> & _)]; [|lia].
    cbn [Select.select_error Select.posix_build]. wp_step. apply wp_get_errno. apply wp_ret.
    cbn [hp tr errno]. split; [done|]. exists n, reads, writes. by left.
  - destruct Hpost as [[-> _]|(Hn' & Hr & Hw)]; [done|].
    split; [done|]. exists n, reads, writes. right. split_and!; [done..|]. cbn [tr].
    destruct (Z.eqb_spec n 0) as [->|]; [|done].
    destruct reads; [|cbn in Hn'; lia]. destruct writes; [|cbn in Hn'; lia].
    by rewrite notified_nothing.
Qed.
End SelectTheorems.

Section WindowsSelect.
Context {os : OS}.
#[local] Existing Instance Select.windows_build.

Lemma windows_in_range h srcs : Forall (in_range h) srcs.
Proof. by apply Forall_forall. Qed.

(** The first 64 sockets are kept. *)
Lemma windows_put_take fds : NoDup fds -> fd_set_of fds = take 64 fds.
Proof.
  induction fds as [|y fds IH] using rev_ind; intros Hnd; [done|]. unfold fd_set_of in *. rewrite foldl_app.
  apply NoDup_app in Hnd as (Hnd & Hy & _). cbn [foldl]. rewrite IH by done.
  cbn [Select.fd_put Select.windows_build]. unfold Select.windows_put at 1.
  assert (y ∉ fds) as Hny by (intros H; by apply (Hy y H), list_elem_of_singleton).
  rewrite decide_False by (intros H; apply Hny; by eapply subseteq_take).
  rewrite length_take. destruct (Z.ltb_spec (Z.of_nat (64 `min` length fds)) Select.FD_SETSIZE_WINDOWS) as [H|H];
    unfold Select.FD_SETSIZE_WINDOWS in H.
  - rewrite !take_ge; [done|rewrite length_app; cbn; lia|lia].
  - rewrite take_app_le; [done|lia].
Qed.


Lemma recorded_told h reads writes srcs p f :
  EvCall p [f] ∈ recorded h reads writes (notified h reads writes srcs) -> told h reads writes p <> 0.
Proof.
  unfold recorded. intros H. rewrite list_elem_of_In, <- in_rev, <- list_elem_of_In in H.
  apply list_elem_of_fmap in H as (q & Heq & Hq). injection Heq as -> ->.
  apply elem_of_those in Hq as [Hq _]. by apply negb_true_iff, Z.eqb_neq in Hq.
Qed.

(** The Windows build watches 64 sockets: FD_SET drops the sockets after the
    64th silently, so a source that asked to read on such a socket is never told
    anything, however ready its socket is, and the wait reports no error for it. *)
Theorem windows_select_starves dispatch fuel lp L l srcs timeout_ms p s :
  loop_rep lp L l srcs (hp s) -> records dispatch -> (length srcs < fuel)%nat ->
  p ∈ sockets (hp s) srcs ->
  flag (es_events (source_val (hp s) p)) X_EVENT_WRITE = false ->
  NoDup (asking (hp s) X_EVENT_READ srcs) ->
  fd_at (hp s) p ∈ drop 64 (asking (hp s) X_EVENT_READ srcs) ->
  wp Total (Select.x_event_loop_wait_sockets dispatch fuel lp timeout_ms) (fun r s' =>
    (r = 0 \/ r = EIO) /\ hp s' = hp s /\
    exists new, tr s' = new ++ tr s /\ forall f, EvCall p [f] ∉ new) s.
Proof.
  destruct s as [e h t]. cbn [hp tr]. intros Hrep Hd Hfuel Hp Hw Hnd Hdrop.
  eapply wp_select_wait; [done|apply windows_in_range|done..| |].
  { intros E. rewrite E in Hp. by apply elem_of_nil in Hp. }
  cbv zeta. intros n reads writes e' e'' Hpost. cbn [fst snd sys_post] in Hpost.
  destruct (Z.ltb_spec n 0) as [Hn|Hn].
  - apply wp_ret. cbn [hp tr]. split; [by right|]. split; [done|].
    eexists [_]. split; [done|]. intros f H. by apply list_elem_of_singleton in H.
  - destruct Hpost as [[-> _]|(_ & Hr & _)]; [done|]. cbn [hp tr].
    split; [by left|]. split; [done|].
    eexists (_ ++ [_]). split; [by rewrite <- app_assoc|]. intros f [H|H]%elem_of_app.
    2: by apply list_elem_of_singleton in H.
    destruct (n =? 0); [by apply elem_of_nil in H|]. apply recorded_told in H. apply H.
    unfold told, Select.set_flags. rewrite Hw. cbn [andb].
    rewrite bool_decide_eq_false_2; [by rewrite andb_false_r|]. intros Hin. apply Hr in Hin.
    cbn [gathered Select.read_set] in Hin. rewrite windows_put_take in Hin by done.
    rewrite <- (take_drop 64 (asking h X_EVENT_READ srcs)) in Hnd.
    apply NoDup_app in Hnd as (_ & Hnd & _). by apply (Hnd _ Hin).
Qed.
End WindowsSelect.

(** ** Waiting while the callbacks change the loop *)

(** The loop is well formed and its descriptors have a place in the sets: always
    on Windows, below FD_SETSIZE on POSIX. *)
Definition ranged {os : OS} {build : Select.Build} (lp : ptr) (srcs : list ptr) (s : st) : Prop :=
  loop_inv lp srcs s /\ Forall (in_range (hp s)) srcs.
Definition ranged_on {os : OS} {build : Select.Build} (lp : ptr) (srcs : list ptr) (s : st) : Prop :=
  exists more, ranged lp (srcs ++ more) s.
(** [callback_ok] for callbacks that also keep to such descriptors. *)
Definition ranged_callback_ok {os : OS} {build : Select.Build} (md : wpmode)
    (user : Z -> ptr -> ptr -> Z -> ptr -> M Z) (lp : ptr) : Prop :=
  forall cb p ev ud srcs s, ranged lp srcs s -> p ∈ srcs -> cb <> WAKE_CALLBACK ->
    wp md (user cb lp p ev ud) (fun _ => ranged_on lp srcs) s.

Lemma windows_ranged {os : OS} lp srcs s : ranged (build := Select.windows_build) lp srcs s <-> loop_inv lp srcs s.
Proof. split; [by intros []|]. intros H. split; [done|apply windows_in_range]. Qed.

Lemma windows_callback_ok {os : OS} md user lp :
  callback_ok md user lp -> ranged_callback_ok (build := Select.windows_build) md user lp.
Proof.
  intros Hu cb p ev ud srcs s Hs%windows_ranged Hp Hcb. eapply wp_mono; [by apply Hu|].
  intros ? s' [more Hs']. exists more. by apply windows_ranged.
Qed.

Section WaitSafe.
Context {os : OS} {build : Select.Build}.
Variable md : wpmode.
Variable user : Z -> ptr -> ptr -> Z -> ptr -> M Z.
Variable fuel : nat.
Variable lp : ptr.
Hypothesis Hstarve : may_starve md.
Hypothesis Huser : ranged_callback_ok md user lp.

Lemma ranged_keeps srcs s s' : ranged lp srcs s -> keeps s s' -> ranged lp srcs s'.
Proof. intros [Hi Hr] Hk. split; [by eapply loop_inv_keeps|]. destruct Hk as [-> _]. exact Hr. Qed.

Lemma ranged_now srcs s : ranged lp srcs s -> ranged_on lp srcs s.
Proof. exists []. by rewrite app_nil_r. Qed.

Lemma ranged_trans srcs more s : ranged_on lp (srcs ++ more) s -> ranged_on lp srcs s.
Proof. intros [m H]. exists (more ++ m). by rewrite (assoc_L (++)). Qed.

Lemma wp_sleep_ms_keeps ms s : wp md (x_time_sleep_ms fuel ms) (fun _ => keeps s) s.
Proof using Hstarve.
  unfold x_time_sleep_ms. destruct (_ <? _); [apply wp_ret, keeps_refl|]. unfold x_time_sleep_us.
  destruct (_ =? 0); [apply wp_ret, keeps_refl|].
  apply (wp_iter_partial md (fun _ => keeps s)); [done| |apply keeps_refl].
  intros request [e h t] Hk. unfold x_time_sleep_step.
  assert (forall r e', keeps s (St e' h (Ev (Snanosleep request.1 request.2) r :: t))) as Hk'
    by (intros; eapply keeps_trans; [exact Hk|keeps_solve]).
  wp_run; apply Hk'.
Qed.

Lemma wp_wake_keeps loop source events srcs s :
  loop_inv lp srcs s -> wp md (x_event_loop_wake_callback fuel loop source events lp) (fun _ => keeps s) s.
Proof using Hstarve.
  intros Hi. unfold x_event_loop_wake_callback.
  apply (wp_iter_partial md (fun _ => keeps s)); [done| |apply keeps_refl].
  intros ? [e h t] Hk. pose proof (loop_inv_keeps _ _ _ _ Hi Hk) as (L & l & Hr & _).
  destruct (lr_receiver _ _ _ _ _ Hr) as (Hn & x & Hx). wp_step.
  eapply wp_load; [exact (lr_loop _ _ _ _ _ Hr)|]. wp_step.
  eapply wp_socket_receive_from; [done|done|]. intros rc addr n data s' _ Hk' _.
  pose proof (keeps_trans _ _ _ Hk Hk'). wp_run; done.
Qed.

Lemma wp_dispatch_ranged srcs p events s :
  ranged lp srcs s -> p ∈ srcs ->
  wp md (x_event_source_dispatch user fuel p events) (fun _ => ranged_on lp srcs) s.
Proof.
  destruct s as [e h t]. intros Hs Hp. pose proof Hs as [(L & l & Hr & Hreg) Hrange].
  destruct (loop_rep_in _ _ _ _ _ _ Hr Hp) as [x Hx].
  destruct (loop_rep_at _ _ _ _ _ _ _ Hr Hp Hx) as [Hn Hf].
  unfold x_event_source_dispatch. wp_step. wp_step. wp_step.
  1-2: by apply ranged_now.
  wp_step.
  - rewrite (sf_wake _ _ _ Hf) by done. eapply wp_mono; [eapply wp_wake_keeps; exact (proj1 Hs)|].
    intros ? s' Hk. apply ranged_now. by eapply ranged_keeps.
  - apply wp_invoke. rewrite (sf_loop _ _ _ Hf). apply Huser; [|done|done].
    split; [|exact Hrange]. exists L, l. split; [done|]. intros fd q. exact (Hreg fd q).
Qed.

(** One round of the second loop. *)
Lemma wp_dispatch_set srcs reads writes i s :
  ranged_on lp srcs s ->
  wp md (Select.dispatch_step (x_event_source_dispatch user fuel) lp reads writes i)
    (fun _ => ranged_on lp srcs) s.
Proof.
  destruct s as [e h t]. intros [more Hs]. pose proof Hs as [(L & l & Hr & Hreg) Hrange].
  unfold Select.dispatch_step. wp_step. eapply wp_load; [exact (lr_loop _ _ _ _ _ Hr)|].
  wp_step; [wp_step; by exists more|].
  destruct (lookup_lt_is_Some_2 (srcs ++ more) i) as [p Hp].
  { rewrite (srcs_length _ _ _ _ _ Hr). lia. }
  assert (p ∈ srcs ++ more) as Hin by by eapply list_elem_of_lookup_2.
  destruct (loop_rep_in _ _ _ _ _ _ Hr Hin) as [x Hx]. cbn in Hx.
  wp_step. eapply wp_source_at; [done..|]. wp_step. wp_step.
  destruct (Select.is_socket x) eqn:Es; cbn [negb]; [|wp_step; by exists more].
  pose proof (proj1 (Forall_forall _ _) Hrange p Hin) as Hok. unfold in_range, socket_at, fd_at in Hok.
  cbn [hp] in Hok. rewrite (source_val_eq _ _ _ Hx) in Hok.
  wp_step. apply wp_source_flags; [auto|].
  destruct (negb (_ =? 0)); [|wp_step; by exists more].
  wp_step. eapply wp_mono; [by apply wp_dispatch_ranged|].
  intros error s' Hs'. apply ranged_trans in Hs'. by wp_run.
Qed.

Lemma wp_select_wait_safe srcs timeout s :
  (forall s, ranged_on lp srcs s -> wp md Select.select_error (fun _ => ranged_on lp srcs) s) ->
  ranged lp srcs s ->
  wp md (Select.x_event_loop_wait_sockets (x_event_source_dispatch user fuel) fuel lp timeout)
    (fun _ => ranged_on lp srcs) s.
Proof.
  destruct s as [e h t]. cbn [hp]. intros Herr Hs. pose proof Hs as [(L & l & Hr & Hreg) Hrange].
  unfold Select.x_event_loop_wait_sockets. wp_step. eapply wp_load; [exact (lr_loop _ _ _ _ _ Hr)|].
  wp_step. eapply wp_gather; [done..|]. destruct (negb _).
  { wp_step; [wp_step; by apply ranged_now|].
    eapply wp_mono; [apply wp_sleep_ms_keeps|]. intros ? s' Hk.
    apply ranged_now. by eapply ranged_keeps. }
  set (call := Sselect _ _ _ _). apply wp_bind, wp_sys. intros r e' _ _.
  assert (ranged_on lp srcs (St e' h (Ev call r :: t))) as He.
  { apply ranged_now. eapply ranged_keeps; [exact Hs|]. keeps_solve. }
  destruct (r.1 <? 0); [by apply Herr|]. destruct (r.1 =? 0); [by wp_step|].
  apply (wp_iter_partial md (fun _ => ranged_on lp srcs)); [done| |done].
  intros i s' Hs'. eapply wp_mono; [by apply wp_dispatch_set|]. by intros [] s2.
Qed.
End WaitSafe.

Lemma wp_dispatch_filters {os : OS} md user fuel lp srcs events s :
  may_starve md -> callback_ok md user lp ->
  evolves lp srcs s -> Forall (fun ev => ev.2 ∈ srcs) events ->
  wp md (Kqueue.dispatch_filters (x_event_source_dispatch user fuel) events) (fun _ => evolves lp srcs) s.
Proof.
  intros Hm Hu Hs Hev. revert s Hs. induction Hev as [|[filter p] events Hp _ IH];
    intros [e h t] [more Hi]; cbn [Kqueue.dispatch_filters]; [wp_step; by exists more|].
  cbn in Hp. destruct (loop_inv_in lp (srcs ++ more) p _ _ _ Hi ltac:(set_solver)) as [x Hx].
  cbv zeta. destruct (p =? NULL); [apply IH; by exists more|]. wp_step. wp_step.
  destruct (_ && _); [|apply IH; by exists more].
  wp_step. eapply wp_mono; [apply wp_dispatch; [done..|set_solver]|].
  intros error s' Hs'. apply evolves_trans in Hs'. wp_step; [by wp_step|by apply IH].
Qed.

