(* ===== verification/XEventDemo.v ===== *)
(** * The event loop: examples

    A loop in a given state, to which the theorems are applied, and runs
    evaluated from the empty state. *)
From S2P Require Import Prelude Syscalls Structs Machine Contract XTime XNetwork XProcess.
From S2P Require Import XWatcher XEvent XEventInv XEventSafe XEventLoop XEventLife XEventCreate.
From S2P Require Import DemoOS XEventTimers XEventSpec.

(** ** A loop with its wake source and some timers *)

Definition demo_timer (active : bool) (due interval cb : Z) : x_event_source :=
  XEventSource 1 X_EVENT_SOURCE_TIMER active false X_EVENT_TIMER 0 NULL NULL NULL due interval cb 42.
Definition demo_wake : x_event_source :=
  XEventSource 1 X_EVENT_SOURCE_SOCKET true true X_EVENT_READ 4 3 NULL NULL 0 0 WAKE_CALLBACK 1.

(** The loop at 1, its array at 2, its sockets at 3 and 4, a free socket at 5,
    the wake source at 10 and [timers] from 11 on. *)
Definition demo_loop (n : nat) : x_event_loop :=
  XEventLoop 2 (Z.of_nat (S n)) 8 false true 3 4 zero_socket_address 10 9.
Definition demo_srcs (n : nat) : list ptr := (fun i => Z.of_nat i + 10) <$> seq 0 (S n).
Definition demo_array (n : nat) : list ptr := demo_srcs n ++ replicate (8 - S n) NULL.

Fixpoint put_timers (p : ptr) (timers : list x_event_source) (h : heap) : heap :=
  match timers with
  | [] => h
  | x :: timers => put_timers (p + 1) timers (<[p := to_obj x]> h)
  end.

Definition demo_st (timers : list x_event_source) : st :=
  let n := length timers in
  St 0 (put_timers 11 timers
    (<[1 := to_obj (demo_loop n)]> (<[2 := to_obj (demo_array n)]>
    (<[3 := to_obj (XSocket 4 X_SOCKET_UDP 2)]> (<[4 := to_obj (XSocket 5 X_SOCKET_UDP 2)]>
    (<[5 := to_obj (XSocket 6 X_SOCKET_UDP 2)]> (<[10 := to_obj demo_wake]> ∅))))))) [].

(** The timers the examples use: a one-shot timer that is due at 7 seconds, an
    interval timer that missed periods, an inactive one and one in the future. *)
Definition once : x_event_source := demo_timer true 3 0 11.
Definition each_second : x_event_source := demo_timer true 4500000000 1000000000 12.
Definition ended : x_event_source := demo_timer false 1 0 13.
Definition later : x_event_source := demo_timer true 7002500000 0 14.
Definition timers : list x_event_source := [once; each_second; ended; later].

Ltac source_fine_tac :=
  split; [done|eexists; split; [by vm_compute|split; cbn; try done; unfold is_u64; lia]].

Lemma demo_rep ts :
  ts ∈ [[]; [once]; [each_second]; timers; [once; ended; once]] ->
  loop_rep 1 (demo_loop (length ts)) (demo_array (length ts)) (demo_srcs (length ts)) (hp (demo_st ts)).
Proof.
  intros Hin. rewrite !elem_of_cons in Hin.
  destruct Hin as [->|[->|[->|[->|[->|Hin]]]]]; [..|by apply elem_of_nil in Hin];
    (split; try done;
     [right; split; [done|by vm_compute]
     |apply (bool_decide_unpack _); by vm_compute
     |repeat (constructor; [source_fine_tac|]); constructor
     |split; [done|eexists; by vm_compute]|split; [done|eexists; by vm_compute]]).
Qed.

Lemma demo_registered ts n : registered_ok (demo_loop n) (demo_srcs n) (hp (demo_st ts)) (tr (demo_st ts)).
Proof. intros fd p Hp. cbn in Hp. by rewrite lookup_empty in Hp. Qed.

Lemma demo_inv : loop_inv 1 (demo_srcs 4) (demo_st timers).
Proof.
  eexists _, _. split; [apply (demo_rep timers); in_list|apply demo_registered].
Qed.

(** A user whose callbacks return 0. *)
Definition idle_user (cb : Z) (loop source : ptr) (events : Z) (user_data : ptr) : M Z := mret 0.

Lemma idle_quiet lp : quiet_user idle_user lp.
Proof. intros cb p ev ud s. by split; [|apply keeps_refl]. Qed.

(** ** Witnesses *)


(** Callback 11 adds timers and removes its own source, 12 fails. *)
Definition busy_table (cb : Z) : list api_op * Z :=
  if cb =? 11 then ([AAddTimer 0 1 12 7; AAddTimer 1 0 11 8; ARemoveSelf; AWake], 0)
  else if cb =? 12 then ([ACancel], EIO) else ([], 0).

Lemma busy_table_ok cb : Forall op_ok (busy_table cb).1.
Proof. unfold busy_table. repeat case_match; repeat constructor; done. Qed.


Lemma x_event_loop_destroy_frees_witness :
  wp Total (x_event_loop_destroy (os := parent_os) 1)
    (fun _ s' => (forall q, q ∈ footprint 1 (demo_loop 4) (demo_srcs 4) -> q <> NULL -> hp s' !! q = None) /\
       outside (footprint 1 (demo_loop 4) (demo_srcs 4)) (hp (demo_st timers)) (hp s') /\
       held (tr s') = held (tr (demo_st timers)) ∖
         loop_fds (demo_loop 4) (XSocket 4 X_SOCKET_UDP 2) (XSocket 5 X_SOCKET_UDP 2))
    (demo_st timers).
Proof.
  apply (x_event_loop_destroy_frees (os := parent_os) 1 (demo_loop 4) (demo_array 4)).
  - apply (demo_rep timers). in_list.
  - by vm_compute.
  - by vm_compute.
Defined.

Lemma rearm_next_period_witness :
  wp Total (rearm 5 7000000000 11)
    (fun _ s' => exists due, s' = St 0 (<[11 := to_obj (es_set_due due each_second)]>
         (hp (demo_st [each_second]))) [] /\
       7000000000 < due <= 7000000000 + 1000000000 /\ (due - 4500000000) mod 1000000000 = 0)
    (demo_st [each_second]).
Proof.
  apply (rearm_next_period 5 7000000000 11 each_second (demo_st [each_second]));
    [by vm_compute|done|done|done|by vm_compute].
Defined.

(** A timer whose interval saturated. *)
Definition saturated : x_event_source := demo_timer true 1000 UINT64_MAX 11.

Lemma rearm_saturated_runs_back_witness :
  rearm 900 7000000000 11 (demo_st [saturated]) = NoFuel.
Proof.
  apply (rearm_saturated_runs_back (os := parent_os) 900 7000000000 11 saturated);
    [by vm_compute|unfold is_u64; cbn; lia|cbn; lia|done|cbn; lia].
Defined.

Lemma dispatch_timers_fires_witness :
  wp Total (x_event_loop_dispatch_timers (os := parent_os) idle_user 10 1)
    (fun rc s' => rc = 0 /\
       (forall p, p ∈ demo_srcs 4 ->
          hp s' !! p = Some (to_obj (after_pass 7000000000 (hp (demo_st timers)) p))) /\
       (forall q, q ∉ demo_srcs 4 -> hp s' !! q = hp (demo_st timers) !! q) /\
       held (tr s') = ∅ /\
       calls (tr s') = [(12, [1; 12; X_EVENT_TIMER; 42]); (11, [1; 11; X_EVENT_TIMER; 42])])
    (demo_st timers).
Proof.
  apply (dispatch_timers_fires (os := parent_os) idle_user 10 1 (demo_loop 4) (demo_array 4)
           (demo_srcs 4) 7 0 (demo_st timers)).
  - apply (demo_rep timers). in_list.
  - apply idle_quiet.
  - by vm_compute.
  - repeat constructor; cbn; try done; right; by split.
  - cbn. lia.
Defined.

Lemma compact_spec_witness :
  wp Total (x_event_loop_compact 1)
    (fun _ s' => exists l', let live := those (active_at (hp (demo_st timers))) (demo_srcs 4) in
       loop_rep 1 (el_set_count (Z.of_nat (length live)) (demo_loop 4)) l' live (hp s') /\
       (forall p, p ∈ demo_srcs 4 -> active_at (hp (demo_st timers)) p = false -> hp s' !! p = None) /\
       (forall q, q <> 2 -> q <> 1 -> (q ∈ demo_srcs 4 -> active_at (hp (demo_st timers)) q = true) ->
          hp s' !! q = hp (demo_st timers) !! q) /\
       held (tr s') = ∅)
    (demo_st timers).
Proof.
  apply (compact_spec 1 (demo_loop 4) (demo_array 4) (demo_srcs 4)).
  apply (demo_rep timers). in_list.
Defined.




Lemma add_timer_saturated_is_due_witness :
  wp Total (x_event_loop_add_timer (os := parent_os) 1 true 20000000000000 0 11 42)
    (fun r s' => r.1 = 0 -> exists p x now, r.2 = Some p /\ hp s' !! p = Some (OEventSource x) /\
       is_u64 now /\ (0 < now -> es_due_ns x = now - 1)) (demo_st timers).
Proof.
  apply (add_timer_saturated_is_due (os := parent_os) 1 (demo_loop 4) (demo_array 4) (demo_srcs 4)
    20000000000000 0 11 42 (demo_st timers)); [|apply demo_registered|done|done|lia].
  apply (demo_rep timers). in_list.
Defined.

Lemma run_forgets_earlier_stop_witness :
  1 <> NULL /\
  x_event_loop_run (os := parent_os) idle_user 10 1 (St 0 {[1 := to_obj (el_set_stop true (demo_loop 0))]} []) =
  x_event_loop_run (os := parent_os) idle_user 10 1 (St 0 {[1 := to_obj (el_set_stop false (demo_loop 0))]} []).
Proof. split; [done|]. by apply (run_forgets_earlier_stop (os := parent_os)). Defined.

Lemma run_fires_due_timers_witness :
  wp Total (x_event_loop_run (os := parent_os) idle_user 10 1)
    (fun rc s' => rc = 0 /\
       calls (tr s') = [(11, [1; 13; X_EVENT_TIMER; 42]); (11, [1; 11; X_EVENT_TIMER; 42])] /\
       exists L' l', loop_rep 1 L' l' [10] (hp s') /\ el_running L' = false)
    (demo_st [once; ended; once]).
Proof.
  apply (run_fires_due_timers (os := parent_os) idle_user 10 1 (demo_loop 3) (demo_array 3)
           (demo_srcs 3) 7 0 (demo_st [once; ended; once])).
  - apply (demo_rep [once; ended; once]). in_list.
  - apply idle_quiet.
  - by vm_compute.
  - by repeat constructor.
  - by vm_compute.
  - cbn. lia.
Defined.

(** ** Runs from the empty state *)

(** The loop is made, gets a one-shot timer of 0 ms and one of 1 ms whose
    callback stops the loop, runs and is destroyed. *)
Definition sample_user (cb loop source events user_data : Z) : M Z :=
  script_user (os := parent_os) (fun cb => (if cb =? 12 then [AStop] else [], 0))
    cb loop source events user_data.

Definition sample : M (Z * Z) :=
  r ← x_event_loop_create (os := parent_os) true;
  let loop := default NULL r.2 in
  _ ← x_event_loop_add_timer (os := parent_os) loop true 0 0 11 1;
  _ ← x_event_loop_add_timer (os := parent_os) loop true 0 5 12 2;
  rc ← x_event_loop_run (os := parent_os) sample_user 20 loop;
  x_event_loop_destroy (os := parent_os) loop;;
  mret (r.1, rc).

Example sample_runs :
  match sample st0 with
  | Done (created, rc) s => created = 0 /\ rc = 0 /\ hp s = ∅ /\ held (tr s) = ∅ /\
      ((fun c : Z * list Z => c.1) <$> calls (tr s)) = [12; 11]
  | _ => False
  end.
Proof. by vm_compute. Qed.
