(* ===== verification/XBackendDemo.v ===== *)
(** * The other event backends: examples

    A loop with any number of socket sources, to which the theorems of XBackend.v
    are applied. *)
From S2P Require Import Prelude Syscalls Structs Machine Contract XTime XEvent XEventInv XEventSafe.
From S2P Require Import XBackend DemoOS XEventLoop XEventDemo.

(** The loop of XEventDemo.v with its timers replaced by sources for the sockets
    [fds] that ask for [events]. *)
Definition socket_source (events fd : Z) : x_event_source :=
  XEventSource 1 X_EVENT_SOURCE_SOCKET true false events fd 5 NULL NULL 0 0 11 42.

Definition wide_loop (n : nat) : x_event_loop :=
  XEventLoop 2 (Z.of_nat (S n)) 128 false true 3 4 zero_socket_address 10 9.
Definition wide_array (n : nat) : list ptr := demo_srcs n ++ replicate (128 - S n) NULL.
Definition wide_st (events : Z) (fds : list Z) : st :=
  let n := length fds in
  St 0 (<[1 := to_obj (wide_loop n)]> (<[2 := to_obj (wide_array n)]>
    (hp (demo_st (socket_source events <$> fds))))) [].

(** Seventy sockets. *)
Definition many : list Z := Z.of_nat <$> seq 20 70.
Definition both : Z := Z.lor X_EVENT_READ X_EVENT_WRITE.

Definition source_check (h : heap) (p : ptr) : bool :=
  match h !! p with
  | Some (OEventSource x) =>
      negb (p =? NULL) && (es_loop x =? 1) &&
      (negb (es_callback x =? WAKE_CALLBACK) || (es_user_data x =? 1)) &&
      (es_due_ns x =? 0) && (es_interval_ns x =? 0) && (es_type x =? X_EVENT_SOURCE_SOCKET)
  | _ => false
  end.

Lemma source_check_ok h p : source_check h p = true -> source_ok 1 h p.
Proof.
  unfold source_check. destruct (h !! p) as [[]|] eqn:E; try done.
  intros H. repeat (apply andb_true_iff in H as [H ?]). rewrite ?orb_true_iff, ?negb_true_iff, ?Z.eqb_eq, ?Z.eqb_neq in *.
  split; [done|]. eexists. split; [exact E|].
  split; try done; try (unfold is_u64; lia).
  all: try naive_solver.
  all: intros _ Ht; by rewrite Ht in *.
Qed.

Lemma wide_rep events fds :
  (events, fds) ∈ [(X_EVENT_READ, [20; 21]); (X_EVENT_READ, [20; 1024]); (X_EVENT_READ, many); (both, [20])] ->
  loop_rep 1 (wide_loop (length fds)) (wide_array (length fds)) (demo_srcs (length fds)) (hp (wide_st events fds)).
Proof.
  intros Hin. rewrite !elem_of_cons in Hin.
  destruct Hin as [[= -> ->]|[[= -> ->]|[[= -> ->]|[[= -> ->]|Hin]]]]; [..|by apply elem_of_nil in Hin];
    (split; try done;
     [right; split; [done|by vm_compute]
     |apply (bool_decide_unpack _); by vm_compute
     |apply Forall_forall; intros p Hp; apply source_check_ok; revert p Hp;
      apply (proj1 (Forall_forall (fun p => source_check _ p = true) _)), (bool_decide_unpack _); by vm_compute
     |split; [done|eexists; by vm_compute]|split; [done|eexists; by vm_compute]]).
Qed.

Definition recording (p : ptr) (f : Z) : M Z :=
  fun s => Done 0 (St (errno s) (hp s) (EvCall p [f] :: tr s)).

(** Registering with kqueue fails for want of memory after the first change. *)
Definition partial_os : OS := demo_os
  (Demo (fun t => if decide (length t = 0%nat) then Some 12%positive else None)
        (fun _ => []) (fun _ => 0%N) (fun _ => [(-1, 11)]) (fun _ => false)).
(** Everything is ready to read. *)
Definition readable_os : OS := demo_os
  (Demo (fun _ => None) (fun _ => []) (fun _ => 0%N) (fun _ => (fun fd => (fd, NULL)) <$> (4 :: many)) (fun _ => false)).

(** ** Witnesses *)

Lemma backends_agree_witness :
  let x := socket_source X_EVENT_WRITE 20 in
  let flags := wanted (es_events x) true true in
  ready_flags (epoll_report (es_events x) true true) = flags /\
  foldr Z.lor 0 (Kqueue.filter_flags <$> kqueue_report x true true) = flags /\
  Select.set_flags (build := Select.posix_build (os := calm_os)) [20; 4] [20] x = flags /\
  forall bit, bit ∈ [EPOLLHUP; EPOLLERR] ->
    ready_flags (Z.lor bit (epoll_report (es_events x) true true)) = Z.lor X_EVENT_READ flags.
Proof.
  apply (backends_agree (os := calm_os) (build := Select.posix_build (os := calm_os))
    (socket_source X_EVENT_WRITE 20) true true [20; 4] [20]); split; intros; [done|in_list|done|in_list].
Defined.

Lemma kqueue_failed_add_dangles_witness :
  let s := wide_st both [20] in
  exists e s1, (error ← Kqueue.x_event_backend_add_socket (os := partial_os) 1 11; free 11;; mret error) s = Done e s1 /\
    0 < e /\ hp s1 !! 11 = None /\
    sys_post (H := @os_codepage partial_os) (tr s1) (Skevent_wait 9 32 (wait_limit 1000000 5)) (1, [(Kqueue.EVFILT_READ, 11)]) 0 /\
    ((os_call (OS := partial_os) (tr s1) (Skevent_wait 9 32 (wait_limit 1000000 5))).1 = (1, [(Kqueue.EVFILT_READ, 11)]) ->
     Kqueue.x_event_loop_wait_sockets (os := partial_os) (fun p f => mret 0) 1 5 s1 = Undef UbDangling).
Proof.
  apply (kqueue_failed_add_dangles (os := partial_os) (fun p f => mret 0) 1 11 (wide_loop 1) (socket_source both 20) 5
    (wide_st both [20])); by vm_compute.
Defined.

Lemma sockets_check {os : OS} {build : Select.Build} ps h p :
  p ∈ ps -> socket_at h p = true -> sockets h ps <> [].
Proof. intros Hp Hs E. assert (p ∈ sockets h ps) as H by by apply elem_of_those. rewrite E in H. by apply elem_of_nil in H. Qed.

Section PosixWitnesses.
#[local] Existing Instance readable_os.
#[local] Existing Instance Select.posix_build.

Lemma select_wait_dispatches_witness :
  let h := hp (wide_st X_EVENT_READ [20; 21]) in
  exists max_fd reads0 writes0,
    (forall fd, fd ∈ reads0 <-> fd ∈ asking h X_EVENT_READ (demo_srcs 2)) /\
    (forall fd, fd ∈ writes0 <-> fd ∈ asking h X_EVENT_WRITE (demo_srcs 2)) /\
    (forall p, p ∈ sockets h (demo_srcs 2) -> fd_at h p <= max_fd) /\
    let call := Sselect (max_fd + 1) reads0 writes0 (wait_limit 1000 250) in
    wp Total (Select.x_event_loop_wait_sockets recording 4 1 250) (fun r s' =>
      hp s' = h /\ exists n reads writes, let ret := Ev call (n, (reads, writes)) in
        (n < 0 /\ tr s' = [ret] /\ 0 < errno s' /\ r = (if errno s' =? EINTR then 0 else errno s')) \/
        (n = Z.of_nat (length reads) + Z.of_nat (length writes) /\ reads ⊆ reads0 /\ writes ⊆ writes0 /\ r = 0 /\
         tr s' = recorded h reads writes
           (notified h reads writes (demo_srcs 2)) ++ [ret]))
      (wide_st X_EVENT_READ [20; 21]).
Proof.
  apply (select_wait_dispatches (os := readable_os) recording 4 1 (wide_loop 2) (wide_array 2) (demo_srcs 2) 250
    (wide_st X_EVENT_READ [20; 21])).
  - apply (wide_rep X_EVENT_READ [20; 21]). in_list.
  - repeat constructor; intros _; by vm_compute.
  - apply (sockets_check _ _ 11); [apply (bool_decide_unpack _)|]; by vm_compute.
  - done.
  - cbn. lia.
Defined.

Lemma posix_select_overflows_witness :
  Select.x_event_loop_wait_sockets recording 4 1 250
    (wide_st X_EVENT_READ [20; 1024]) = Undef UbBounds.
Proof.
  apply (posix_select_overflows (os := readable_os) recording 4 1 (wide_loop 2) (wide_array 2) [10; 11] 12 [] 250).
  - apply (wide_rep X_EVENT_READ [20; 1024]). in_list.
  - repeat constructor; intros _; by vm_compute.
  - by vm_compute.
  - by vm_compute.
  - by vm_compute.
Defined.

End PosixWitnesses.

Section WindowsWitnesses.
#[local] Existing Instance readable_os.
#[local] Existing Instance Select.windows_build.

Lemma windows_select_starves_witness :
  let s := wide_st X_EVENT_READ many in
  wp Total (Select.x_event_loop_wait_sockets recording 80 1 250) (fun r s' =>
    (r = 0 \/ r = EIO) /\ hp s' = hp s /\
    exists new, tr s' = new ++ tr s /\ forall f, EvCall 80 [f] ∉ new) s.
Proof.
  apply (windows_select_starves (os := readable_os) recording 80 1 (wide_loop 70) (wide_array 70) (demo_srcs 70) 250 80).
  - apply (wide_rep X_EVENT_READ many). in_list.
  - done.
  - cbn. lia.
  - apply elem_of_those. split; [by vm_compute|]. apply (bool_decide_unpack _). by vm_compute.
  - by vm_compute.
  - apply (bool_decide_unpack _). by vm_compute.
  - apply (bool_decide_unpack _). by vm_compute.
Defined.

(** Evaluated: the sources of the first 63 sockets, after the wake source's, are told. *)
Example windows_select_runs :
  match Select.x_event_loop_wait_sockets recording 80 1 250
          (wide_st X_EVENT_READ many) with
  | Done r s => r = 0 /\ length (calls (tr s)) = 64%nat
  | _ => False
  end.
Proof. by vm_compute. Qed.
End WindowsWitnesses.

Lemma wide_inv : loop_inv 1 (demo_srcs 2) (wide_st X_EVENT_READ [20; 21]).
Proof.
  eexists _, _. split; [apply (wide_rep X_EVENT_READ [20; 21]); in_list|].
  intros fd p Hp. cbn in Hp. by rewrite lookup_empty in Hp.
Qed.


(** The hypotheses can hold: these callbacks are admissible, these descriptors
    have a place in the sets, and no filter is set. *)
Lemma idle_admissible :
  ranged_callback_ok (build := Select.posix_build (os := readable_os)) Partial idle_user 1 /\
  callback_ok Partial idle_user 1 /\
  Forall (in_range (build := Select.posix_build (os := readable_os)) (hp (wide_st X_EVENT_READ [20; 21]))) (demo_srcs 2) /\
  forall kq, filters (tr (wide_st X_EVENT_READ [20; 21])) kq = ∅.
Proof.
  split_and!.
  - intros cb p ev ud srcs s Hs _ _. apply wp_ret. exists []. by rewrite app_nil_r.
  - intros cb p ev ud srcs s Hs _ _. apply wp_ret. by apply evolves_now.
  - repeat constructor; intros _; by vm_compute.
  - done.
Qed.
