(* ===== verification/CppOwner.v ===== *)
(** * Owning classes of include/xlib/xlib.hpp

    The C++ classes hold one pointer to a structure of the library: the
    constructor or [open] acquires it, the destructor gives it back, a move
    transfers it, and an error code becomes an exception.  The classes [file],
    [socket], [mapped_file] and [process] have the same shape, which this file
    models once, over the [Handle] interface of the structure. *)
From S2P Require Import Prelude Syscalls Structs Machine Contract XFile DemoOS.

(** ** Exceptions *)

(** [std::system_error], with the code and the operation, and [std::bad_alloc]. *)
Inductive exception :=
  | SystemError (code : Z) (operation : text)
  | BadAlloc.

Definition cpp (A : Type) : Type := exception + A.
Definition throw {A} (e : exception) : M (cpp A) := mret (inl e).
Definition ok {A} (a : A) : M (cpp A) := mret (inr a).

(** The rest of a body, skipped when an exception is thrown. *)
Definition cpp_bind {A B} (m : M (cpp A)) (k : A -> M (cpp B)) : M (cpp B) :=
  r ← m; match r with inl e => throw e | inr a => k a end.
Notation "x <~ m ; k" := (cpp_bind m (fun x => k)) (at level 20, m at level 100, k at level 200).

Definition check (error : Z) (operation : text) : M (cpp unit) :=
  if negb (error =? 0) then throw (SystemError error operation) else ok tt.

(** [check (call, operation)] for a call that stores its result. *)
Definition check_out {A} (call : M (Z * option A)) (value : A) (operation : text) : M (cpp A) :=
  r ← call; _ <~ check r.1 operation; ok (default value r.2).
Definition check_call (call : M Z) (operation : text) : M (cpp unit) :=
  r ← call; check r operation.

(** ** One owner *)

Section Owner.
Context {os : OS} {T : Type} `{CStruct T, !Handle T}.

(** [close ()] or [destroy ()]: the member afterwards. *)
Definition close (handle_ : ptr) : M ptr :=
  if negb (handle_ =? NULL) then h_close handle_;; mret NULL else mret handle_.

(** [open], [create], [start]: the old object goes first; [make] writes the
    member, or leaves it. *)
Definition open (make : M (Z * option ptr)) (operation : text) (handle_ : ptr) : M (ptr * cpp unit) :=
  handle_ ← close handle_;
  r ← make;
  let handle_ := default handle_ r.2 in
  c ← check r.1 operation;
  mret (handle_, c).

(** The move constructor: the new member and what is left in [other]. *)
Definition move_construct (other : ptr) : ptr * ptr := (other, NULL).

(** The move assignment: both members afterwards.  [same] is [this == &other]. *)
Definition move_assign (same : bool) (handle_ other : ptr) : M (ptr * ptr) :=
  if negb same then
    close handle_;;
    let handle_ := other in
    mret (handle_, NULL)
  else mret (handle_, other).
End Owner.

(** ** Programs over owners *)

(** Objects are named by numbers; the store has the member of each live one. *)
Abbreviation owners := (gmap nat ptr).

Inductive owner_op :=
  | Default (x : nat)                                             (* T x; *)
  | Construct (x : nat) (make : M (Z * option ptr)) (operation : text) (* T x (...); *)
  | Open (x : nat) (make : M (Z * option ptr)) (operation : text)      (* x.open (...); *)
  | MoveConstruct (x y : nat)                                     (* T x (std::move (y)); *)
  | MoveAssign (x y : nat)                                        (* x = std::move (y); *)
  | Close (x : nat)                                               (* x.close (); *)
  | Destroy (x : nat).                                            (* the end of x *)

Section Programs.
Context {os : OS} (T : Type) `{CStruct T, !Handle T}.

(** The store afterwards, and the exception thrown, if any. *)
Definition run_op (o : owner_op) (live : owners) : M (owners * option exception) :=
  match o with
  | Default x => mret (<[x := NULL]> live, None)
  | Construct x make operation =>
      (* an object whose constructor throws never lives *)
      r ← open (T := T) make operation NULL;
      mret match r.2 with inr _ => (<[x := r.1]> live, None) | inl e => (live, Some e) end
  | Open x make operation =>
      match live !! x with
      | None => undef UbOther
      | Some p =>
          r ← open (T := T) make operation p;
          mret (<[x := r.1]> live, match r.2 with inr _ => None | inl e => Some e end)
      end
  | MoveConstruct x y =>
      match live !! y with
      | None => undef UbOther
      | Some q => let r := move_construct q in mret (<[x := r.1]> (<[y := r.2]> live), None)
      end
  | MoveAssign x y =>
      match live !! x, live !! y with
      | Some p, Some q =>
          r ← move_assign (T := T) (x =? y)%nat p q;
          mret (<[x := r.1]> (<[y := r.2]> live), None)
      | _, _ => undef UbOther
      end
  | Close x =>
      match live !! x with
      | None => undef UbOther
      | Some p => p ← close (T := T) p; mret (<[x := p]> live, None)
      end
  | Destroy x =>
      match live !! x with
      | None => undef UbOther
      | Some p => close (T := T) p;; mret (delete x live, None)
      end
  end.

(** The program goes on after an exception, which its caller has caught. *)
Fixpoint run_ops (ops : list owner_op) (live : owners) : M (owners * list exception) :=
  match ops with
  | [] => mret (live, [])
  | o :: ops =>
      r ← run_op o live;
      rs ← run_ops ops r.1;
      mret (rs.1, match r.2 with Some e => e :: rs.2 | None => rs.2 end)
  end.

(** The end of the scope. *)
Fixpoint destroy_all (xs : list nat) (live : owners) : M owners :=
  match xs with
  | [] => mret live
  | x :: xs => r ← run_op (Destroy x) live; destroy_all xs r.1
  end.
Definition scope (ops : list owner_op) : M (list exception) :=
  r ← run_ops ops ∅;
  destroy_all (elements (dom r.1)) r.1;;
  mret r.2.

(** C++ names an object only while it lives, and makes it only once. *)
Definition op_allowed (o : owner_op) (live : owners) : Prop :=
  match o with
  | Default x | Construct x _ _ => live !! x = None
  | Open x _ _ | Close x | Destroy x => is_Some (live !! x)
  | MoveConstruct x y => live !! x = None /\ is_Some (live !! y)
  | MoveAssign x y => is_Some (live !! x) /\ is_Some (live !! y)
  end.

(** Every operation of [ops] that is reached is allowed. *)
Fixpoint ops_allowed (ops : list owner_op) (live : owners) (s : st) : Prop :=
  match ops with
  | [] => True
  | o :: ops =>
      op_allowed o live /\
      match run_op o live s with
      | Done r s' => ops_allowed ops r.1 s'
      | _ => True
      end
  end.

(** The makers keep the contract of a constructor. *)
Definition maker (make : M (Z * option ptr)) : Prop :=
  forall s, wp Total make (constructor_post (T := T) (fun _ => True) s) s.
Definition op_makes (o : owner_op) : Prop :=
  match o with Construct _ make _ | Open _ make _ => maker make | _ => True end.

(** ** Unique ownership *)

(** [m] has the structures the live objects own. *)
Record owned (s0 : st) (live : owners) (s : st) (m : gmap ptr T) : Prop := Owned {
  ow_fresh p x : m !! p = Some x -> 0 < p /\ hp s0 !! p = None;
  ow_heap : hp s = (to_obj <$> m) ∪ hp s0;
  ow_live p : p <> NULL -> (exists i, live !! i = Some p) <-> is_Some (m !! p);
  ow_unique i j p : p <> NULL -> live !! i = Some p -> live !! j = Some p -> i = j;
  ow_held y : y ∈ held (tr s) <-> y ∈ held (tr s0) \/ exists p x, m !! p = Some x /\ y ∈ h_res p x;
  ow_disjoint p x : m !! p = Some x -> h_res p x ## held (tr s0);
  ow_apart p q x y : p <> q -> m !! p = Some x -> m !! q = Some y -> h_res p x ## h_res q y
}.

Definition owning (s0 : st) (live : owners) (s : st) : Prop := exists m, owned s0 live s m.

Lemma owning_empty s : owning s ∅ s.
Proof.
  exists ∅. split; try done.
  - by rewrite fmap_empty, map_empty_union.
  - intros p _. split; [intros [i Hi]|intros [x Hx]]; simplify_map_eq.
  - intros y. split; [auto|intros [?|(p & x & Hx & _)]; [done|simplify_map_eq]].
Qed.

Lemma owning_done s0 s : owning s0 ∅ s -> hp s = hp s0 /\ held (tr s) = held (tr s0).
Proof.
  intros [m Hm]. assert (m = ∅) as ->.
  { apply map_eq. intros p. rewrite lookup_empty. destruct (m !! p) as [x|] eqn:Hp; [|done].
    destruct (ow_fresh _ _ _ _ Hm p x Hp) as [Hpos _].
    destruct (proj2 (ow_live _ _ _ _ Hm p ltac:(unfold NULL; lia)) ltac:(eauto)) as [i Hi]. simplify_map_eq. }
  split; [rewrite (ow_heap _ _ _ _ Hm); by rewrite fmap_empty, map_empty_union|].
  apply set_eq. intros y. rewrite (ow_held _ _ _ _ Hm). split; [|auto].
  intros [?|(p & x & Hx & _)]; [done|simplify_map_eq].
Qed.

(** The store may be changed as long as the same pointers live in it once. *)
Lemma owning_store s0 live live' s :
  owning s0 live s ->
  (forall p, p <> NULL -> (exists i, live' !! i = Some p) <-> (exists i, live !! i = Some p)) ->
  (forall i j p, p <> NULL -> live' !! i = Some p -> live' !! j = Some p -> i = j) ->
  owning s0 live' s.
Proof.
  intros [m Hm] Hlive Huniq. exists m. destruct Hm. split; try done.
  intros p Hp. rewrite Hlive by done. auto.
Qed.

(** Giving up the pointer of [x]. *)
Lemma owning_close s0 live x p s Q :
  owning s0 live s -> live !! x = Some p ->
  (forall s', owning s0 (<[x := NULL]> live) s' -> Q NULL s') ->
  wp Total (close (T := T) p) Q s.
Proof.
  intros [m Hm] Hx HQ. unfold close. destruct (Z.eqb_spec p NULL) as [->|Hp]; cbn [negb].
  { apply wp_ret, HQ. rewrite insert_id by done. by exists m. }
  destruct (proj1 (ow_live _ _ _ _ Hm p Hp) (ex_intro _ x Hx)) as [v Hv].
  destruct s as [e h t]. apply wp_bind.
  assert (h !! p = Some (to_obj v)) as Hl.
  { pose proof (ow_heap _ _ _ _ Hm) as Hh. cbn [hp] in Hh. rewrite Hh.
    apply lookup_union_Some_l. by rewrite lookup_fmap, Hv. }
  eapply h_close_spec; [exact Hl|done|]. intros e' t' Ht. apply wp_ret, HQ. exists (delete p m).
  destruct Hm as [Hf Hh Hl' Hu Hy Hd Ha]. cbn [hp tr] in *. split; cbn [hp tr].
  - intros q y Hq. apply lookup_delete_Some in Hq as [_ Hq]. eauto.
  - rewrite Hh, fmap_delete, delete_union. f_equal. apply delete_id. by apply (Hf p v).
  - intros q Hq. rewrite lookup_delete_is_Some, <- Hl' by done. split.
    + intros [i Hi]. apply lookup_insert_Some in Hi as [[-> ?]|[Hi1 Hi2]]; [done|].
      split; [|eauto]. intros ->. apply Hi1. by apply (Hu x i q).
    + intros [Hne [i Hi]]. exists i. rewrite lookup_insert_ne; [done|]. congruence.
  - intros i j q Hq Hi Hj. apply lookup_insert_Some in Hi as [[-> ?]|[Hi1 Hi2]]; [done|].
    apply lookup_insert_Some in Hj as [[-> ?]|[Hj1 Hj2]]; [done|]. eauto.
  - intros y. rewrite Ht, elem_of_difference, Hy. split.
    + intros [[?|(q & w & Hq & Hin)] Hnot]; [by left|right]. exists q, w. split; [|done].
      rewrite lookup_delete_ne; [done|]. intros ->. congruence.
    + intros [Hin|(q & w & Hq & Hin)].
      * split; [by left|]. specialize (Hd p v Hv). set_solver.
      * apply lookup_delete_Some in Hq as [Hne Hq]. split; [eauto|].
        specialize (Ha p q v w Hne Hv Hq). set_solver.
  - intros q y Hq. apply lookup_delete_Some in Hq as [_ Hq]. eauto.
  - intros q q' y y' Hne Hq Hq'. apply lookup_delete_Some in Hq as [_ Hq].
    apply lookup_delete_Some in Hq' as [_ Hq']. eauto.
Qed.

(** A new pointer for [x], which has none. *)
Lemma owning_made s0 live x p v e h t e' t' :
  owning s0 live (St e h t) -> default NULL (live !! x) = NULL ->
  0 < p -> h !! p = None -> held t' = held t ∪ h_res p v -> h_res p v ## held t ->
  owning s0 (<[x := p]> live) (St e' (<[p := to_obj v]> h) t').
Proof.
  intros [m [Hf Hh Hl Hu Hy Hd Ha]] Hx Hp Hn Ht Hdis. exists (<[p := v]> m). cbn [hp tr] in *.
  rewrite Hh in Hn. apply lookup_union_None in Hn as [Hn Hn0].
  rewrite lookup_fmap in Hn. apply fmap_None in Hn.
  assert (forall i, live !! i <> Some p) as Hnot.
  { intros i Hi. destruct (proj1 (Hl p ltac:(unfold NULL; lia)) ltac:(eauto)). congruence. }
  split; cbn [hp tr].
  - intros q y Hq. apply lookup_insert_Some in Hq as [[<- <-]|[_ Hq]]; [done|eauto].
  - by rewrite Hh, fmap_insert, insert_union_l.
  - intros q Hq. rewrite lookup_insert_is_Some. rewrite <- (Hl q Hq). split.
    + intros [i Hi]. apply lookup_insert_Some in Hi as [[_ ->]|[Hne Hi]]; [by left|right]. split; [|eauto].
      intros ->. by apply (Hnot i).
    + intros [->|[Hne [i Hi]]]; [exists x; by rewrite lookup_insert_eq|]. exists i.
      rewrite lookup_insert_ne; [done|]. intros ->. rewrite Hi in Hx. done.
  - intros i j q Hq Hi Hj. apply lookup_insert_Some in Hi as [[<- <-]|[Hi1 Hi2]],
      Hj as [[<- ?]|[Hj1 Hj2]]; subst; try done; try (by exfalso; eapply Hnot). eauto.
  - intros y. rewrite Ht, elem_of_union, Hy. split.
    + intros [[?|(q & w & Hq & Hin)]|Hin]; [by left| |].
      * right. exists q, w. split; [|done]. rewrite lookup_insert_ne; [done|]. congruence.
      * right. exists p, v. by rewrite lookup_insert_eq.
    + intros [?|(q & w & Hq & Hin)]; [auto|].
      apply lookup_insert_Some in Hq as [[<- <-]|[_ Hq]]; [by right|left; right; eauto].
  - intros q y Hq. apply lookup_insert_Some in Hq as [[<- <-]|[_ Hq]]; [|eauto].
    intros z Hz1 Hz2. apply (Hdis z Hz1). rewrite Hy. by left.
  - intros q q' y y' Hne Hq Hq'.
    assert (forall q w, m !! q = Some w -> h_res p v ## h_res q w) as Hpq.
    { intros r w Hr z Hz1 Hz2. apply (Hdis z Hz1). rewrite Hy. right. eauto. }
    apply lookup_insert_Some in Hq as [[<- <-]|[_ Hq]], Hq' as [[? <-]|[_ Hq']]; subst; try done; eauto.
    symmetry. eauto.
Qed.

(** Opening: the member holds the new object, or nothing. *)
Lemma owning_open s0 live x make operation s Q :
  owning s0 live s -> maker make ->
  (forall r s', owning s0 (<[x := r.1]> live) s' -> (forall e, r.2 = inl e -> r.1 = NULL) -> Q r s') ->
  wp Total (open (T := T) make operation (default NULL (live !! x))) Q s.
Proof.
  intros Hs Hmake HQ. unfold open. apply wp_bind.
  assert (wp Total (close (T := T) (default NULL (live !! x)))
    (fun p s' => p = NULL /\ owning s0 (<[x := NULL]> live) s') s) as Hclose.
  { destruct (live !! x) as [p|] eqn:Hx; cbn [default from_option].
    - by eapply owning_close.
    - apply wp_ret. split; [done|]. eapply owning_store; [exact Hs|..].
      + intros p Hp. split; intros [i Hi].
        * apply lookup_insert_Some in Hi as [[_ ?]|[_ Hi]]; [done|eauto].
        * exists i. rewrite lookup_insert_ne; [done|]. congruence.
      + intros i j p Hp Hi Hj. apply lookup_insert_Some in Hi as [[_ ?]|[_ Hi]]; [done|].
        apply lookup_insert_Some in Hj as [[_ ?]|[_ Hj]]; [done|].
        destruct Hs as [m Hm]. by eapply (ow_unique _ _ _ _ Hm). }
  eapply wp_mono; [exact Hclose|]. clear s Hs Hclose. intros p s [-> Hs].
  apply wp_bind. eapply wp_mono; [apply Hmake|].
  intros [rc out] [e' h' t'] [(Hrc & q & v & Ho & Hq & Hn & Hh & Ht & Hd & _)|(Hrc & Ho & Hh & Ht)];
    cbn [fst snd hp tr] in *; apply wp_bind.
  - subst rc out. apply wp_ret, wp_ret, HQ; cbn [fst snd default from_option]; [|by intros].
    destruct s as [e h t]. cbn [hp tr] in *. subst h'.
    rewrite <- (insert_insert_eq live x q NULL). eapply owning_made; [exact Hs|by rewrite lookup_insert_eq|done..].
  - unfold check. destruct (Z.eqb_spec rc 0); [lia|]. apply wp_ret, wp_ret, HQ; cbn [fst snd].
    + replace (default NULL out) with NULL by by destruct Ho as [-> | ->].
      destruct Hs as [m [H1 H2 H3 H4 H5 H6 H7]]. exists m.
      split; cbn [hp tr] in *; try done; [by rewrite Hh|intros y; by rewrite Ht].
    + by destruct Ho as [-> | ->].
Qed.

(** Moving the pointer of [y] to [x], which has none. *)
Lemma owning_move s0 live x y q s :
  owning s0 live s -> default NULL (live !! x) = NULL -> live !! y = Some q -> x <> y ->
  owning s0 (<[x := q]> (<[y := NULL]> live)) s.
Proof.
  intros Hs Hx Hy Hxy.
  assert (forall i p, p <> NULL -> <[x := q]> (<[y := NULL]> live) !! i = Some p <->
            (i = x /\ p = q) \/ (i <> x /\ i <> y /\ live !! i = Some p)) as Hlook.
  { intros i p Hp. rewrite lookup_insert_Some, lookup_insert_Some. split.
    - intros [[-> ->]|[H1 [[_ ?]|[H2 H3]]]]; [by left|done|right; split_and!; congruence].
    - intros [[-> ->]|(H1 & H2 & H3)]; [by left|right]. split; [done|]. right. by split. }
  eapply owning_store; [exact Hs|..].
  - intros p Hp. split.
    + intros [i Hi]. apply Hlook in Hi as [[_ ->]|(_ & _ & Hi)]; eauto.
    + intros [i Hi]. destruct (decide (i = y)) as [->|Hiy].
      * exists x. apply Hlook; [done|]. left. split; [done|congruence].
      * exists i. apply Hlook; [done|]. right. split_and!; try done. intros ->. by rewrite Hi in Hx.
  - intros i j p Hp Hi Hj. apply Hlook in Hi as [[-> ->]|(Hi1 & Hi2 & Hi)]; [|..|done];
      apply Hlook in Hj as [[-> ?]|(Hj1 & Hj2 & Hj)]; try done; destruct Hs as [m Hm].
    + by destruct (Hj2 (ow_unique _ _ _ _ Hm _ _ _ Hp Hj Hy)).
    + subst p. by destruct (Hi2 (ow_unique _ _ _ _ Hm _ _ _ Hp Hi Hy)).
    + by eapply (ow_unique _ _ _ _ Hm).
Qed.

Lemma owning_delete s0 live x s : owning s0 (<[x := NULL]> live) s -> owning s0 (delete x live) s.
Proof.
  intros Hs. eapply owning_store; [exact Hs|..].
  - intros p Hp. split; intros [i Hi]; exists i.
    + apply lookup_delete_Some in Hi as [Hne Hi]. by rewrite lookup_insert_ne.
    + apply lookup_insert_Some in Hi as [[_ ?]|[Hne Hi]]; [done|]. by rewrite lookup_delete_ne.
  - intros i j p Hp Hi Hj. apply lookup_delete_Some in Hi as [Hi1 Hi]. apply lookup_delete_Some in Hj as [Hj1 Hj].
    destruct Hs as [m Hm]. eapply (ow_unique _ _ _ _ Hm _ _ _ Hp); rewrite lookup_insert_ne; done.
Qed.

Lemma owning_null s0 live x s :
  owning s0 live s -> default NULL (live !! x) = NULL -> owning s0 (<[x := NULL]> live) s.
Proof.
  intros Hs Hx. eapply owning_store; [exact Hs|..].
  - intros p Hp. split; intros [i Hi].
    + apply lookup_insert_Some in Hi as [[_ ?]|[_ Hi]]; [done|eauto].
    + exists i. rewrite lookup_insert_ne; [done|]. intros ->. by rewrite Hi in Hx.
  - intros i j p Hp Hi Hj. apply lookup_insert_Some in Hi as [[_ ?]|[_ Hi]]; [done|].
    apply lookup_insert_Some in Hj as [[_ ?]|[_ Hj]]; [done|].
    destruct Hs as [m Hm]. by eapply (ow_unique _ _ _ _ Hm).
Qed.

Lemma owning_op s0 o live s :
  owning s0 live s -> op_allowed o live -> op_makes o ->
  wp Total (run_op o live) (fun r s' => owning s0 r.1 s') s.
Proof.
  intros Hs Hok Hmake. destruct o as [x|x make operation|x make operation|x y|x y|x|x]; cbn [run_op op_allowed] in *.
  - apply wp_ret. apply owning_null; [done|by rewrite Hok].
  - apply wp_bind. replace NULL with (default NULL (live !! x)) by by rewrite Hok.
    eapply owning_open; [done|done|]. intros [p [ex|[]]] s' Hs' Hex; apply wp_ret; cbn [fst snd] in *; [|done].
    rewrite (Hex ex eq_refl) in Hs'. apply owning_delete in Hs'. by rewrite delete_id in Hs'.
  - destruct Hok as [p Hp]. rewrite Hp. apply wp_bind. replace p with (default NULL (live !! x)) by by rewrite Hp.
    eapply owning_open; [done|done|]. intros r s' Hs' _. by apply wp_ret.
  - destruct Hok as [Hx [q Hq]]. rewrite Hq. apply wp_ret. cbn [fst snd move_construct].
    apply owning_move; [done|by rewrite Hx|done|congruence].
  - destruct Hok as [[p Hp] [q Hq]]. rewrite Hp, Hq. apply wp_bind. unfold move_assign.
    destruct (Nat.eqb_spec x y) as [->|Hxy]; cbn [negb].
    + apply wp_ret, wp_ret. cbn [fst snd]. assert (p = q) as -> by congruence.
      by rewrite insert_insert_eq, insert_id.
    + apply wp_bind. eapply owning_close; [done|exact Hp|]. intros s' Hs'. apply wp_ret, wp_ret. cbn [fst snd].
      replace (<[x:=q]> (<[y:=NULL]> live)) with (<[x:=q]> (<[y:=NULL]> (<[x:=NULL]> live))).
      * apply owning_move; [done|by rewrite lookup_insert_eq|by rewrite lookup_insert_ne by done|done].
      * rewrite (insert_insert_ne live y x) by done. by rewrite insert_insert_eq.
  - destruct Hok as [p Hp]. rewrite Hp. apply wp_bind. eapply owning_close; [done|exact Hp|].
    intros s' Hs'. by apply wp_ret.
  - destruct Hok as [p Hp]. rewrite Hp. apply wp_bind. eapply owning_close; [done|exact Hp|].
    intros s' Hs'. apply wp_ret. by apply owning_delete.
Qed.

Lemma owning_ops s0 ops live s :
  owning s0 live s -> ops_allowed ops live s -> Forall op_makes ops ->
  wp Total (run_ops ops live) (fun r s' => owning s0 r.1 s') s.
Proof.
  intros Hs Hok Hmake. revert live s Hs Hok. induction Hmake as [|o ops Ho _ IH]; intros live s Hs Hok;
    cbn [run_ops ops_allowed] in *; [by apply wp_ret|].
  destruct Hok as [Hallowed Hok]. apply wp_bind.
  pose proof (owning_op s0 o live s Hs Hallowed Ho) as Hop.
  unfold wp at 1 in Hop. unfold wp at 1. destruct (run_op o live s) as [r s'| | |]; try done.
  apply wp_bind. eapply wp_mono; [by apply IH|]. intros rs s'' Hs''. by apply wp_ret.
Qed.

Lemma owning_destroy_all s0 xs live s :
  owning s0 live s -> NoDup xs -> (forall x, is_Some (live !! x) <-> x ∈ xs) ->
  wp Total (destroy_all xs live) (fun _ s' => owning s0 ∅ s') s.
Proof.
  intros Hs Hdup. revert live s Hs. induction Hdup as [|x xs Hx Hdup IH]; intros live s Hs Hlive; cbn [destroy_all].
  - apply wp_ret. replace ∅ with live; [done|]. apply map_eq. intros i. rewrite lookup_empty.
    destruct (live !! i) eqn:Hi; [|done]. exfalso.
    apply (not_elem_of_nil i), Hlive. eauto.
  - apply wp_bind. destruct (proj2 (Hlive x) (list_elem_of_here _ _)) as [p Hp].
    cbn [run_op]. rewrite Hp. apply wp_bind. eapply owning_close; [done|exact Hp|].
    intros s' Hs'. apply wp_ret. cbn [fst]. apply IH; [by apply owning_delete|].
    intros i. rewrite lookup_delete_is_Some, Hlive, elem_of_cons. split.
    + intros [Hne [?|?]]; [done|done].
    + intros Hi. split; [|by right]. intros ->. done.
Qed.

(** C18. Resource safety of the owning classes: whatever sequence of
    constructions, openings, moves, assignments (to itself included), closes and
    destructions a program makes, with whatever calls failing and exceptions
    caught, no structure is used or given back after it is gone, and at the end
    of the scope every structure and kernel resource has been given back once. *)
Theorem cpp_owners_release ops s :
  ops_allowed ops ∅ s -> Forall op_makes ops ->
  wp Total (scope ops) (fun _ s' => hp s' = hp s /\ held (tr s') = held (tr s)) s.
Proof.
  intros Hok Hmake. unfold scope. apply wp_bind.
  eapply wp_mono; [by apply owning_ops; [apply owning_empty|..]|]. intros [live log] s' Hs'. cbn [fst snd] in *.
  apply wp_bind. eapply wp_mono.
  - apply (owning_destroy_all _ _ _ _ Hs'); [apply NoDup_elements|].
    intros x. by rewrite elem_of_elements, elem_of_dom.
  - intros left_ s'' Hdone. apply wp_ret. by apply owning_done.
Qed.
End Programs.

(** ** Example *)

(** Two files: opened, one moved over the other, moved on, and left to the scope. *)
Definition file_program {os : OS} (path : text) : list owner_op :=
  let make := x_file_open true (Some path) X_FILE_READ in
  [Construct 0 make (str "x_file_open"); Default 1; Open 1 make (str "x_file_open");
   MoveAssign 0 1; MoveAssign 0 0; MoveConstruct 2 0; Open 0 make (str "x_file_open");
   Close 0; Destroy 1].

Lemma cpp_owners_release_witness :
  let os := calm_os in
  wp Total (scope x_file (file_program (str "/etc/hosts")))
    (fun _ s' => hp s' = hp st0 /\ held (tr s') = held (tr st0)) st0.
Proof.
  apply (cpp_owners_release (os := calm_os) x_file).
  - vm_compute. repeat split; eauto.
  - repeat constructor; intros s; destruct s; by apply wp_file_open.
Defined.
