(* ===== verification/XCpp.v ===== *)
(** * include/xlib/xlib.hpp: the C++ wrapper

    One Module per class, named after it.  A member function takes the value of
    the members and returns what they are afterwards together with its result,
    or with the exception it throws; one that leaves them alone returns only the
    result.  The destructor is [destroy] (the classes of CppOwner.v close
    themselves).  The allocations inside [std::string] are not modelled. *)
From S2P Require Import Prelude Syscalls Structs Machine Contract XTime XPath XNetwork XThread XFile XProcess XMemory XDynLib XHooks XEvent CppOwner DemoOS.

(** An object of a structure that is not owned through [CppOwner]: the
    constructor's check on the code, then the member. *)
Definition made {os : OS} (make : M (Z * option ptr)) (operation : text) : M (cpp ptr) :=
  r ← make; _ <~ check r.1 operation; ok (default NULL r.2).

(** ** file, socket, mapped_file, process *)

Module File.
Section Class.
Context {os : OS}.

Definition close (member : ptr) : M ptr := CppOwner.close (T := x_file) member.
Definition move_construct (other : ptr) : ptr * ptr := CppOwner.move_construct other.
Definition move_assign (same : bool) (member other : ptr) : M (ptr * ptr) :=
  CppOwner.move_assign (T := x_file) same member other.

Definition open (file_ : ptr) (path : cstr) (mode : Z) : M (ptr * cpp unit) :=
  CppOwner.open (T := x_file) (x_file_open true path mode) (str "x_file_open") file_.
(** The bytes stored in the buffer come after the count. *)
Definition read (file_ : ptr) (buffer : bool) (size : Z) : M (cpp (Z * text)) :=
  r ← x_file_read file_ buffer size true;
  _ <~ check r.1.1 (str "x_file_read");
  ok (default 0 r.1.2, r.2).
Definition write (file_ : ptr) (buffer : cstr) (size : Z) : M (cpp Z) :=
  check_out (x_file_write file_ buffer size true) 0 (str "x_file_write").
Definition seek (file_ : ptr) (offset origin : Z) : M (cpp unit) :=
  check_call (x_file_seek file_ offset origin) (str "x_file_seek").
Definition size (file_ : ptr) : M (cpp Z) :=
  check_out (x_file_size file_ true) 0 (str "x_file_size").
End Class.
End File.

Module Socket.
Section Class.
Context {os : OS}.

Definition close (member : ptr) : M ptr := CppOwner.close (T := x_socket) member.
Definition move_construct (other : ptr) : ptr * ptr := CppOwner.move_construct other.
Definition move_assign (same : bool) (member other : ptr) : M (ptr * ptr) :=
  CppOwner.move_assign (T := x_socket) same member other.

Definition tcp : M (cpp ptr) := made (x_socket_tcp true) (str "x_socket_tcp").
Definition udp : M (cpp ptr) := made (x_socket_udp true) (str "x_socket_udp").
Definition tcp6 : M (cpp ptr) := made (x_socket_tcp6 true) (str "x_socket_tcp6").
Definition udp6 : M (cpp ptr) := made (x_socket_udp6 true) (str "x_socket_udp6").

Definition bind (socket_ : ptr) (address : x_socket_address) : M (cpp unit) :=
  check_call (x_socket_bind socket_ (Some address)) (str "x_socket_bind").
Definition listen (socket_ : ptr) (backlog : Z) : M (cpp unit) :=
  check_call (x_socket_listen socket_ backlog) (str "x_socket_listen").
Definition accept (socket_ : ptr) : M (cpp ptr) :=
  made (x_socket_accept socket_ true) (str "x_socket_accept").
Definition connect (socket_ : ptr) (address : x_socket_address) : M (cpp unit) :=
  check_call (x_socket_connect socket_ (Some address)) (str "x_socket_connect").
Definition send (socket_ : ptr) (buffer : cstr) (size : Z) : M (cpp Z) :=
  check_out (x_socket_send socket_ buffer size true) 0 (str "x_socket_send").
Definition receive (socket_ : ptr) (buffer : bool) (size : Z) : M (cpp (Z * text)) :=
  r ← x_socket_receive socket_ buffer size true;
  _ <~ check r.1.1 (str "x_socket_receive");
  ok (default 0 r.1.2, r.2).

Definition set_nonblocking (socket_ : ptr) (enabled : bool) : M (cpp unit) :=
  check_call (x_socket_set_nonblocking socket_ enabled) (str "x_socket_set_nonblocking").
Definition set_reuse_address (socket_ : ptr) (enabled : bool) : M (cpp unit) :=
  check_call (x_socket_set_reuse_address socket_ enabled) (str "x_socket_set_reuse_address").
Definition set_tcp_no_delay (socket_ : ptr) (enabled : bool) : M (cpp unit) :=
  check_call (x_socket_set_tcp_no_delay socket_ enabled) (str "x_socket_set_tcp_no_delay").
Definition set_send_timeout (socket_ : ptr) (milliseconds : Z) : M (cpp unit) :=
  check_call (x_socket_set_send_timeout socket_ milliseconds) (str "x_socket_set_send_timeout").
Definition set_receive_timeout (socket_ : ptr) (milliseconds : Z) : M (cpp unit) :=
  check_call (x_socket_set_receive_timeout socket_ milliseconds) (str "x_socket_set_receive_timeout").
Definition join_multicast_group (socket_ : ptr) (group interface : cstr) : M (cpp unit) :=
  check_call (x_socket_join_multicast_group socket_ group interface) (str "x_socket_join_multicast_group").
Definition leave_multicast_group (socket_ : ptr) (group interface : cstr) : M (cpp unit) :=
  check_call (x_socket_leave_multicast_group socket_ group interface) (str "x_socket_leave_multicast_group").
End Class.
End Socket.

Module MappedFile.
Section Class.
Context {os : OS}.

Definition destroy (member : ptr) : M ptr := CppOwner.close (T := x_mapped_file) member.
Definition move_construct (other : ptr) : ptr * ptr := CppOwner.move_construct other.
Definition move_assign (same : bool) (member other : ptr) : M (ptr * ptr) :=
  CppOwner.move_assign (T := x_mapped_file) same member other.

Definition create (mapping_ : ptr) (path : cstr) (size : Z) : M (ptr * cpp unit) :=
  CppOwner.open (T := x_mapped_file) (x_mapped_file_create true path size) (str "x_mapped_file_create") mapping_.
Definition open (mapping_ : ptr) (path : cstr) (protection : Z) : M (ptr * cpp unit) :=
  CppOwner.open (T := x_mapped_file) (x_mapped_file_open true path protection) (str "x_mapped_file_open") mapping_.
Definition data (mapping_ : ptr) : M ptr := x_mapped_file_data mapping_.
Definition size (mapping_ : ptr) : M Z := x_mapped_file_size mapping_.
Definition flush (mapping_ : ptr) : M (cpp unit) :=
  check_call (x_mapped_file_flush mapping_) (str "x_mapped_file_flush").
End Class.
End MappedFile.

Module Process.
Section Class.
Context {os : OS}.

Definition destroy (member : ptr) : M ptr := CppOwner.close (T := x_process) member.
Definition move_construct (other : ptr) : ptr * ptr := CppOwner.move_construct other.
Definition move_assign (same : bool) (member other : ptr) : M (ptr * ptr) :=
  CppOwner.move_assign (T := x_process) same member other.

Definition start (environ : list text) (process_ : ptr) (path : cstr) (arguments : option (list text))
    (options : option x_process_options) : M (ptr * cpp unit) :=
  CppOwner.open (T := x_process) (x_process_start environ true path arguments options)
    (str "x_process_start") process_.
Definition wait (fuel : nat) (process_ : ptr) : M (cpp Z) :=
  check_out (x_process_wait fuel process_ true) 0 (str "x_process_wait").
Definition terminate (process_ : ptr) : M (cpp unit) :=
  check_call (x_process_terminate process_) (str "x_process_terminate").
End Class.
End Process.

(** ** socket_address *)

Module SocketAddress.
Definition XLIB_ADDRESS_STRING_MAX : Z := 64.

Section Class.
Context {os : OS}.

(** [x_socket_address_t address_{}]. *)
Definition value_init : x_socket_address := zero_socket_address.

Definition resolve (host service : cstr) (type : Z) (passive : bool) : M (cpp x_socket_address) :=
  check_out (x_address_resolve true host service type (if passive then 1 else 0)) value_init
    (str "x_address_resolve").
Definition from_string (host : cstr) (port family : Z) : M (cpp x_socket_address) :=
  check_out (x_address_from_string true host port family) value_init (str "x_address_from_string").
Definition port (address_ : x_socket_address) : M (cpp Z) :=
  check_out (mret (x_address_port (Some address_) true)) 0 (str "x_address_port").
Definition family (address_ : x_socket_address) : Z := x_address_family (Some address_).
Definition to_string (address_ : x_socket_address) : M (cpp text) :=
  r ← x_address_to_string (Some address_) true XLIB_ADDRESS_STRING_MAX;
  _ <~ check r.1 (str "x_address_to_string");
  ok (txt r.2).
Definition local_address (socket_ : ptr) : M (cpp x_socket_address) :=
  check_out (x_socket_local_address socket_ true) value_init (str "x_socket_local_address").
End Class.
End SocketAddress.

(** ** dynamic_library *)

Module DynamicLibrary.
Section Class.
Context {os : OS}.

Definition close (library_ : ptr) : M ptr :=
  if negb (library_ =? NULL) then x_dynamic_library_close library_;; mret NULL else mret library_.
Definition move_construct (other : ptr) : ptr * ptr := (other, NULL).
Definition move_assign (same : bool) (library_ other : ptr) : M (ptr * ptr) :=
  if negb same then _ ← close library_; mret (other, NULL) else mret (library_, other).
(** The thread's error text is the last argument and the last result. *)
Definition open (library_ : ptr) (path : cstr) (error : text) : M (ptr * cpp unit * text) :=
  library_ ← close library_;
  r ← x_dynamic_library_open true path error;
  let library_ := default library_ r.1.2 in
  c ← check r.1.1 (str "x_dynamic_library_open");
  mret (library_, c, r.2).
Definition symbol (library_ : ptr) (name : cstr) (error : text) : M (cpp ptr * text) :=
  r ← x_dynamic_library_symbol library_ name true error;
  c ← (_ <~ check r.1.1 (str "x_dynamic_library_symbol"); ok (default NULL r.1.2));
  mret (c, r.2).
End Class.
End DynamicLibrary.

(** ** mutex, recursive_mutex, condition, semaphore *)

Module Mutex.
Section Class.
Context {os : OS}.

Definition create : M (cpp ptr) := made (x_mutex_create true) (str "x_mutex_create").
Definition destroy (mutex_ : ptr) : M unit := x_mutex_destroy mutex_.
Definition lock (mutex_ : ptr) : M (cpp unit) := check_call (x_mutex_lock mutex_) (str "x_mutex_lock").
Definition try_lock (mutex_ : ptr) : M (cpp bool) :=
  error ← x_mutex_try_lock mutex_;
  if error =? 0 then ok true
  else if error =? EBUSY then ok false
  else throw (SystemError error (str "x_mutex_try_lock")).
Definition unlock (mutex_ : ptr) : M (cpp unit) := check_call (x_mutex_unlock mutex_) (str "x_mutex_unlock").
End Class.
End Mutex.

Module RecursiveMutex.
Section Class.
Context {os : OS}.

Definition create : M (cpp ptr) := made (x_recursive_mutex_create true) (str "x_recursive_mutex_create").
Definition destroy (mutex_ : ptr) : M unit := x_mutex_destroy mutex_.
Definition lock (mutex_ : ptr) : M (cpp unit) := check_call (x_mutex_lock mutex_) (str "x_mutex_lock").
Definition unlock (mutex_ : ptr) : M (cpp unit) := check_call (x_mutex_unlock mutex_) (str "x_mutex_unlock").
End Class.
End RecursiveMutex.

(** The template parameter [Mutex] of [basic_lock_guard]. *)
Class Lockable {os : OS} (L : Type) := {
  lk_lock : L -> M (cpp unit);
  lk_unlock : L -> M (cpp unit)
}.
Inductive mutex := AMutex (mutex_ : ptr).
Inductive recursive_mutex := ARecursiveMutex (mutex_ : ptr).
#[export] Instance mutex_lockable {os : OS} : Lockable mutex := {|
  lk_lock '(AMutex m) := Mutex.lock m; lk_unlock '(AMutex m) := Mutex.unlock m |}.
#[export] Instance recursive_mutex_lockable {os : OS} : Lockable recursive_mutex := {|
  lk_lock '(ARecursiveMutex m) := RecursiveMutex.lock m;
  lk_unlock '(ARecursiveMutex m) := RecursiveMutex.unlock m |}.

(** [std::terminate]: [abort], by SIGABRT. *)
Definition terminate {A} : M A := halt (HExit 134).

(** A scope with a [basic_lock_guard]: the constructor, the rest of the scope,
    and the destructor, which is [noexcept] and runs on an exception too. *)
Definition with_lock_guard {os : OS} {L A} `{!Lockable L} (value : L) (body : M (cpp A)) : M (cpp A) :=
  _ <~ lk_lock value;
  r ← body;
  u ← lk_unlock value;
  match u with inl _ => terminate | inr _ => mret r end.

Module Condition.
Section Class.
Context {os : OS}.

Definition create : M (cpp ptr) := made (x_condition_create true) (str "x_condition_create").
Definition destroy (condition_ : ptr) : M unit := x_condition_destroy condition_.
Definition wait (condition_ m : ptr) : M (cpp unit) :=
  check_call (x_condition_wait condition_ m) (str "x_condition_wait").
Definition signal (condition_ : ptr) : M (cpp unit) :=
  check_call (x_condition_signal condition_) (str "x_condition_signal").
Definition broadcast (condition_ : ptr) : M (cpp unit) :=
  check_call (x_condition_broadcast condition_) (str "x_condition_broadcast").
End Class.
End Condition.

Module Semaphore.
Definition create {os : OS} (initial_count : Z) : M (cpp ptr) :=
  made (x_semaphore_create true initial_count) (str "x_semaphore_create").
Definition destroy {os : OS} (semaphore_ : ptr) : M unit := x_semaphore_destroy semaphore_.
End Semaphore.

(** ** thread *)

Module Thread.
Record thread := AThread { thread_ : ptr; joined_ : bool }.

(** [&thread::entry]. *)
Definition entry_address : Z := 1.

Section Class.
Context {os : OS}.

(** [new std::function<int()> (...)]: the object has the number of the callable. *)
Definition new_function (function : Z) : M (cpp ptr) :=
  p ← calloc 32 [function];
  if p =? NULL then throw BadAlloc else ok p.

(** [body f] runs the callable [f], which returns or throws. *)
Definition entry (body : Z -> M (cpp Z)) (data : ptr) : M Z :=
  function ← load (list ptr) data;
  r ← body (default NULL (head function));
  let result := match r with inr v => v | inl _ => -1 end in
  free data;;
  mret result.

Definition construct (function : Z) : M (cpp thread) :=
  owned <~ new_function function;
  r ← x_thread_create true entry_address owned;
  let thread_ := default NULL r.2 in
  let error := r.1 in
  if negb (error =? 0) then free owned;; throw (SystemError error (str "x_thread_create"))
  else ok (AThread thread_ false).

Definition move_construct (other : thread) : thread * thread :=
  (other, AThread NULL true).

Definition join (t : thread) : M (thread * cpp Z) :=
  r ← x_thread_join (thread_ t) true;
  c ← check r.1 (str "x_thread_join");
  mret match c with
       | inl e => (t, inl e)
       | inr _ => (AThread (thread_ t) true, inr (default 0 r.2))
       end.

Definition joinable (t : thread) : bool := negb (thread_ t =? NULL) && negb (joined_ t).

Definition reset (t : thread) : M thread :=
  if thread_ t =? NULL then mret t
  else
    (if negb (joined_ t) then _ ← x_thread_join (thread_ t) false; mret tt else mret tt);;
    x_thread_destroy (thread_ t);;
    mret (AThread NULL true).

Definition move_assign (same : bool) (this other : thread) : M (thread * thread) :=
  if negb same then
    _ ← reset this;
    mret (AThread (thread_ other) (joined_ other), AThread NULL true)
  else mret (this, other).

(** A scope with a thread, in the order the join imposes: the constructor, the
    new thread, [join] if [joins], and the destructor. *)
Definition scope (body : Z -> M (cpp Z)) (joins : bool) (function : Z) : M (cpp Z) :=
  t <~ construct function;
  x_thread_entry (fun _ data => entry body data) (thread_ t);;
  r ← (if joins then join t else mret (t, inr 0));
  reset r.1;;
  mret r.2.
End Class.
End Thread.

(** ** directory_iterator, directory *)

Module DirectoryIterator.
Record directory_iterator := Iterator { directory_ : ptr; current_ : x_directory_entry }.

Section Class.
Context {os : OS} (fuel : nat).

(** [directory_iterator ()]: the end. *)
Definition end_iterator : directory_iterator := Iterator NULL empty_entry.

Definition advance (it : directory_iterator) : M (directory_iterator * cpp unit) :=
  r ← x_directory_next fuel (directory_ it) true true;
  let '(error, entry, has_entry) := r in
  let it := Iterator (directory_ it) (if directory_ it =? NULL then current_ it else entry) in
  c ← check error (str "x_directory_next");
  match c with
  | inl e => mret (it, inl e)
  | inr _ =>
      if negb has_entry then
        x_directory_close (directory_ it);;
        mret (Iterator NULL (current_ it), inr tt)
      else mret (it, inr tt)
  end.

(** When the constructor throws the destructor does not run. *)
Definition construct (path : cstr) : M (cpp directory_iterator) :=
  r ← x_directory_open true path;
  let directory_ := default NULL r.2 in
  _ <~ check r.1 (str "x_directory_open");
  a ← advance (Iterator directory_ empty_entry);
  mret match a.2 with inl e => inl e | inr _ => inr a.1 end.

Definition destroy (it : directory_iterator) : M unit :=
  if negb (directory_ it =? NULL) then x_directory_close (directory_ it) else mret tt.

Definition move_construct (other : directory_iterator) : directory_iterator * directory_iterator :=
  (other, Iterator NULL (current_ other)).
Definition move_assign (same : bool) (this other : directory_iterator)
    : M (directory_iterator * directory_iterator) :=
  if negb same then
    (if negb (directory_ this =? NULL) then x_directory_close (directory_ this) else mret tt);;
    mret (Iterator (directory_ other) (current_ other), Iterator NULL (current_ other))
  else mret (this, other).

Definition equal (this other : directory_iterator) : bool :=
  Bool.eqb (directory_ this =? NULL) (directory_ other =? NULL).

(** [for (auto &entry : directory (path)) ...], collecting the entries: [begin]
    and [end] are made, [!=], [*] and [++] are called in turn, and the iterators
    are destroyed when the loop ends or an exception leaves it. *)
Definition for_each_step (state : directory_iterator * list x_directory_entry)
    : M (directory_iterator * list x_directory_entry + cpp (list x_directory_entry)) :=
  let '(it, seen) := state in
  if negb (equal it end_iterator) then
    let seen := seen ++ [current_ it] in
    a ← advance it;
    match a.2 with
    | inl e => destroy a.1;; mret (inr (inl e))
    | inr _ => mret (inl (a.1, seen))
    end
  else destroy it;; mret (inr (inr seen)).
Definition for_each (rounds : nat) (path_ : text) : M (cpp (list x_directory_entry)) :=
  it <~ construct (Some path_);
  iterM rounds for_each_step (it, []).
End Class.
End DirectoryIterator.

(** ** event_loop *)

Module EventLoop.
Section Class.
Context {os : OS}.

Definition create : M (cpp ptr) := made (x_event_loop_create true) (str "x_event_loop_create").
Definition destroy (loop_ : ptr) : M unit :=
  if negb (loop_ =? NULL) then x_event_loop_destroy loop_ else mret tt.
Definition wake (loop_ : ptr) : M (cpp unit) :=
  check_call (x_event_loop_wake loop_) (str "x_event_loop_wake").
Definition cancel (loop_ : ptr) : M (cpp unit) :=
  check_call (x_event_loop_cancel loop_) (str "x_event_loop_cancel").
Definition stop (loop_ : ptr) : M unit := x_event_loop_stop loop_.
(** [user] runs the callbacks. *)
Definition run (user : Z -> ptr -> ptr -> Z -> ptr -> M Z) (fuel : nat) (loop_ : ptr) : M (cpp unit) :=
  check_call (x_event_loop_run user fuel loop_) (str "x_event_loop_run").
End Class.
End EventLoop.

(** ** chrono *)

Module Chrono.
Section Functions.
Context {os : OS}.

(** The count of the [std::chrono::nanoseconds]: a cast to [int64_t]. *)
Definition monotonic_now : M (cpp Z) :=
  ns <~ check_out (x_time_monotonic_ns true) 0 (str "x_time_monotonic_ns"); ok (s64 ns).
Definition system_now : M (cpp Z) :=
  ns <~ check_out (x_time_system_ns true) 0 (str "x_time_system_ns"); ok (s64 ns).

(** [duration] counts units of [num / den] seconds; [duration_cast] truncates. *)
Definition duration_cast (num den duration per_second : Z) : Z :=
  Z.quot (duration * num * per_second) den.
Definition sleep (fuel : nat) (num den duration : Z) : M (cpp unit) :=
  let ms := duration_cast num den duration 1000 in
  if 0 <? ms then check_call (x_time_sleep_ms fuel (u64 ms)) (str "x_time_sleep_ms") else ok tt.
Definition sleep_precise (fuel : nat) (num den duration : Z) : M (cpp unit) :=
  let us := duration_cast num den duration 1000000 in
  if 0 <? us then check_call (x_time_sleep_us fuel (u64 us)) (str "x_time_sleep_us") else ok tt.
End Functions.
End Chrono.

(** ** Error codes *)

Module ErrorCategory.
(** The two categories; [std::generic_category ()] is the Standard Library's. *)
Inductive category := Generic | Xlib.
#[export] Instance category_eq_dec : EqDecision category.
Proof. solve_decision. Defined.
Record error_code := ErrorCode { code_value : Z; code_category : category }.
Record error_condition := ErrorCondition { cond_value : Z; cond_category : category }.
#[export] Instance error_condition_eq_dec : EqDecision error_condition.
Proof. solve_decision. Defined.

Definition make_error_code (error : Z) : error_code := ErrorCode error Generic.
Definition make_xlib_error_code (error : Z) : error_code := ErrorCode error Xlib.

Definition name (self : category) : text :=
  match self with Generic => str "generic" | Xlib => str "xlib" end.
(** [generic_message] is [std::generic_category ().message]. *)
Definition message (generic_message : Z -> text) (self : category) (code : Z) : text :=
  match self with Generic => generic_message code | Xlib => str "xlib: " ++ generic_message code end.

(** [equivalent (code, condition)]: the override of xlib_error_category, which the
    base class also defines this way. *)
Definition equivalent (self : category) (code : error_code) (condition : Z) : bool :=
  bool_decide (code_category code = self) && (code_value code =? condition).
(** [equivalent (int, error_condition)], which xlib_error_category inherits: the
    condition with the same value in the category itself. *)
Definition default_equivalent (self : category) (code : Z) (condition : error_condition) : bool :=
  bool_decide (ErrorCondition code self = condition).

(** [code == condition], as the Standard Library defines it. *)
Definition code_is (code : error_code) (condition : error_condition) : bool :=
  default_equivalent (code_category code) (code_value code) condition
  || equivalent (cond_category condition) code (cond_value condition).
End ErrorCategory.

(** ** Hook guards *)

(** A scope with a guard: the hook goes in, [body] runs, the hook is removed. *)
Definition with_log_hook {A} (hook : Z) (user_data : ptr) (body : hooks -> A * hooks) (h : hooks) : A * hooks :=
  let r := body (x_log_set_hook hook user_data h) in (r.1, x_log_set_hook 0 NULL r.2).
Definition with_diag_hook {A} (hook : Z) (user_data : ptr) (body : hooks -> A * hooks) (h : hooks) : A * hooks :=
  let r := body (x_diag_set_hook hook user_data h) in (r.1, x_diag_set_hook 0 NULL r.2).
Definition with_trace_hook {A} (hook : Z) (user_data : ptr) (body : hooks -> A * hooks) (h : hooks) : A * hooks :=
  let r := body (x_trace_set_hook hook user_data h) in (r.1, x_trace_set_hook 0 NULL r.2).

(** ** Theorems: threads *)

Section ThreadTheorems.
Context {os : OS}.

(** What a callable may do here: read the state, answer, or throw. *)
Definition callable (body : Z -> M (cpp Z)) (function : Z) (v : cpp Z) : Prop :=
  forall s Q, (forall s', keeps s s' -> Q v s') -> wp Total (body function) Q s.

Definition thread_answer (v : cpp Z) : Z := match v with inr n => n | inl _ => -1 end.

Lemma wp_thread_entry body function v data e h t Q :
  callable body function v -> h !! data = Some (OPtrs [function]) -> data <> NULL ->
  (forall e' t', inert_ext t t' -> Q (thread_answer v) (St e' (delete data h) (EvFree data :: t'))) ->
  wp Total (Thread.entry body data) Q (St e h t).
Proof.
  intros Hv Hd Hn HQ. unfold Thread.entry. wp_step. wp_step. cbn [head default from_option id].
  apply wp_bind, Hv. intros [e1 h1 t1] [Hh Ht]. cbn [hp tr] in *. subst h1.
  destruct v as [ex|n]; wp_run; by apply HQ.
Qed.

Definition joined_thread (x : x_thread) : x_thread :=
  XThread (th_function x) (th_data x) (th_result x) true (th_handle x).

(** Joining hands out the result once; the handle is then the kernel's no more. *)
Lemma wp_thread_join q (x : x_thread) (result : bool) e (h : gmap ptr obj) t (Q : Z * option Z -> st -> Prop) :
  h !! q = Some (to_obj x) -> q <> NULL ->
  (forall rc e' t', 0 < rc -> held t' = held t -> Q (rc, None) (St e' h t')) ->
  (forall e' t', th_joined x = false -> held t' = held t ∖ {[ (KThread, th_handle x) ]} ->
     Q (0, if result then Some (th_result x) else None) (St e' (<[q := to_obj (joined_thread x)]> h) t')) ->
  wp Total (x_thread_join q result) Q (St e h t).
Proof.
  intros Hq Hn Hfail Hok. unfold x_thread_join. apply Z.eqb_neq in Hn as E. rewrite E. do 2 wp_step.
  destruct (th_joined x) eqn:Hj; [by apply wp_ret, Hfail|]. wp_run.
  all: first [ apply Hfail; [lia|]; held_simpl; destruct (Z.eqb_spec r 0); [lia|]; set_solver
             | cbn [th_result]; apply Hok; [done|]; held_simpl; subst; done ].
Qed.

Lemma wp_thread_reset t (x : x_thread) e (h : gmap ptr obj) u Q :
  h !! Thread.thread_ t = Some (to_obj x) -> Thread.thread_ t <> NULL ->
  (forall e' u', held u' = held u ∖ h_res (Thread.thread_ t) x ->
     Q (Thread.AThread NULL true) (St e' (delete (Thread.thread_ t) h) u')) ->
  wp Total (Thread.reset t) Q (St e h u).
Proof.
  intros Hq Hn HQ. unfold Thread.reset. apply Z.eqb_neq in Hn as E. rewrite E.
  assert (forall e' u' (y : x_thread),
    held u' ∖ h_res (Thread.thread_ t) y = held u ∖ h_res (Thread.thread_ t) x ->
    wp Total (x_thread_destroy (Thread.thread_ t);; mret (Thread.AThread NULL true)) Q
      (St e' (<[Thread.thread_ t := to_obj y]> h) u')) as Hdestroy.
  { intros e' u' y Hy. apply wp_bind. eapply wp_thread_destroy; [by rewrite lookup_insert_eq|done|].
    intros e'' u'' Hu. apply wp_ret. heap_simpl. apply HQ. by rewrite Hu. }
  assert (forall e' u', held u' = held u ->
    wp Total (x_thread_destroy (Thread.thread_ t);; mret (Thread.AThread NULL true)) Q (St e' h u')) as Hplain.
  { intros e' u' Hu. rewrite <- (insert_id h _ _ Hq). apply Hdestroy. by rewrite Hu. }
  destruct (Thread.joined_ t); cbn [negb]; apply wp_bind; [by apply wp_ret, Hplain|].
  apply wp_bind. eapply wp_thread_join; [done..|intros; by apply wp_ret, Hplain|].
  intros e' u' Hj Hu. apply wp_ret, Hdestroy. rewrite Hu. cbn [h_res thread_handle joined_thread th_joined th_handle].
  by rewrite Hj, res_diff_empty.
Qed.

(** The second half of a scope with a thread. *)
Lemma wp_thread_finish (joins : bool) q (x : x_thread) e (h : gmap ptr obj) t X (Q : cpp Z -> st -> Prop) :
  h !! q = None -> 0 < q -> th_joined x = false -> held t = X ∪ h_res q x -> h_res q x ## X ->
  (forall r e' t', held t' = X ->
     r = inr (if joins then th_result x else 0) \/
     (exists code, joins = true /\ 0 < code /\ r = inl (SystemError code (str "x_thread_join"))) ->
     Q r (St e' h t')) ->
  wp Total
    (r ← (if joins then Thread.join (Thread.AThread q false) else mret (Thread.AThread q false, inr 0));
     Thread.reset r.1;; mret r.2) Q (St e (<[q := to_obj x]> h) t).
Proof.
  intros Hq Hpos Hj Ht Hd HQ. assert (q <> NULL) as Hn by (unfold NULL; lia).
  assert (forall u j (y : x_thread) e' (r : cpp Z),
    held u ∖ h_res q y = X ->
    (forall e' t', held t' = X -> Q r (St e' h t')) ->
    wp Total (Thread.reset (Thread.AThread q j);; mret r) Q (St e' (<[q := to_obj y]> h) u)) as Hreset.
  { intros u j y e' r Hu HQ'. apply wp_bind.
    eapply wp_thread_reset; [by rewrite lookup_insert_eq|done|]. intros e'' u' Hu'.
    apply wp_ret. cbn [Thread.thread_]. rewrite delete_insert_eq, delete_id by done. apply HQ'. by rewrite Hu'. }
  assert (held t ∖ h_res q x = X) as Hx by (apply set_eq; set_solver).
  apply wp_bind. destruct joins; [|apply wp_ret; apply Hreset; [done|auto]].
  unfold Thread.join, check. apply wp_bind. eapply wp_thread_join; [by rewrite lookup_insert_eq|done|..].
  - intros rc e' u Hrc Hu. cbn [fst snd]. destruct (Z.eqb_spec rc 0); [lia|].
    cbn [negb]. apply wp_bind, wp_ret, wp_ret. cbn [fst snd]. apply Hreset; [by rewrite Hu|eauto 10].
  - intros e' u _ Hu. cbn [fst snd Z.eqb negb default from_option id]. apply wp_bind, wp_ret, wp_ret.
    cbn [fst snd Thread.thread_]. rewrite insert_insert_eq. apply Hreset; [|auto].
    cbn [h_res thread_handle joined_thread th_joined] in *. rewrite Hj in Hx. by rewrite Hu, res_diff_empty.
Qed.

End ThreadTheorems.

(** ** Theorems: directories *)

Section DirectoryTheorems.
Context {os : OS} (fuel : nat).
Import DirectoryIterator.

(** Beyond [s], [s'] has just the open directory [p]. *)
Definition one_directory (s : st) (p : ptr) (s' : st) : Prop :=
  exists d : x_directory,
    0 < p /\ hp s !! p = None /\ nul_free (dir_path d) /\ strlen (dir_path d) < XLIB_PATH_MAX /\
    hp s' = <[p := to_obj d]> (hp s) /\ held (tr s') = held (tr s) ∪ h_res p d /\ h_res p d ## held (tr s).

Definition it_holds (s : st) (it : directory_iterator) (s' : st) : Prop :=
  (directory_ it = NULL /\ hp s' = hp s /\ held (tr s') = held (tr s)) \/ one_directory s (directory_ it) s'.

(** From the [n]th call on [readdir] has nothing more. *)
Definition entries_end (n : nat) : Prop :=
  forall t dir, (n <= length t)%nat -> (os_call t (Sreaddir dir)).1 = None.

Lemma entries_dots_end n : entries_end n -> dots_end n.
Proof. intros H t dir name Hn Hc. by rewrite H in Hc. Qed.

Lemma wp_directory_close s p s' Q :
  one_directory s p s' ->
  (forall s'', hp s'' = hp s -> held (tr s'') = held (tr s) -> Q tt s'') ->
  wp Total (x_directory_close p) Q s'.
Proof.
  destruct s' as [e h t]. intros (d & Hp & Hn & _ & _ & Hh & Ht & Hd) HQ. cbn [hp tr] in *.
  change (x_directory_close p) with (h_close (T := x_directory) p).
  eapply h_close_spec; [by rewrite Hh, lookup_insert_eq|unfold NULL; lia|].
  intros e' t' Ht'. apply HQ; cbn [hp tr].
  - by rewrite Hh, delete_insert_eq, delete_id.
  - rewrite Ht', Ht. apply set_eq. set_solver.
Qed.

Lemma wp_iterator_destroy s it s' Q :
  it_holds s it s' ->
  (forall s'', hp s'' = hp s -> held (tr s'') = held (tr s) -> Q tt s'') ->
  wp Total (destroy it) Q s'.
Proof.
  intros [(Hn & Hh & Ht)|Ho] HQ; unfold destroy.
  - rewrite Hn. apply wp_ret. by apply HQ.
  - destruct (Z.eqb_spec (directory_ it) NULL) as [E|E]; cbn [negb]; [|by eapply wp_directory_close].
    destruct Ho as (d & Hp & _). unfold NULL in *. lia.
Qed.

Definition proper_entry (e : x_directory_entry) : Prop := x_filesystem_is_dot_entry (ent_name e) = false.
(** The current entry is a proper one, read before the [n]th call. *)
Definition good_entry (n : nat) (it : directory_iterator) (s : st) : Prop :=
  (length (tr s) < n + 2)%nat /\ proper_entry (current_ it).

(** A step of the iterator: the entry is a proper one, or the directory is closed;
    an exception leaves it open. *)
Lemma wp_advance n s it s' Q :
  entries_end n -> (n < fuel)%nat -> one_directory s (directory_ it) s' ->
  (forall r s'', match r.2 with
     | inl ex => one_directory s (directory_ r.1) s'' /\
         exists code, 0 < code /\ ex = SystemError code (str "x_directory_next")
     | inr _ => it_holds s r.1 s'' /\
         (directory_ r.1 <> NULL ->
           (length (tr s') < length (tr s''))%nat /\ good_entry n r.1 s'')
     end -> Q r s'') ->
  wp Total (advance fuel it) Q s'.
Proof.
  intros Hend Hfuel Ho HQ. pose proof Ho as (d & Hp & Hn & Hnul & Hlen & Hh & Ht & Hd).
  assert (directory_ it <> NULL) as Hne by (unfold NULL; lia).
  unfold advance. apply wp_bind. eapply wp_mono.
  { eapply (wp_directory_next _ n _ d); [by rewrite Hh, lookup_insert_eq|done..|by apply entries_dots_end|done]. }
  intros [[rc entry] has_entry] s1 [[[Hh1 Hx1] Hl1] Hpost]. cbn beta iota.
  apply Z.eqb_neq in Hne as E. rewrite E.
  assert (one_directory s (directory_ it) s1) as Ho1.
  { exists d. split_and!; [done..|by rewrite Hh1|by rewrite (inert_ext_held _ _ Hx1)|done]. }
  apply wp_bind. unfold check, throw, ok.
  destruct (Z.eqb_spec rc 0) as [->|Hrc]; cbn [negb]; apply wp_ret.
  2: { apply wp_ret, HQ. cbn. split; [done|]. exists rc. split; [|done].
       destruct Hpost as [[_ ?]|(_ & ? & _)]; lia. }
  destruct Hpost as [[-> _]|(-> & _ & Hdot & _ & st & t' & Ht' & Hcall & _)]; cbn [negb].
  - apply wp_bind. eapply wp_directory_close; [exact Ho1|]. intros s2 Hh2 Ht2. apply wp_ret, HQ. cbn.
    split; [by left|done].
  - apply wp_ret, HQ. cbn [fst snd directory_ current_]. split; [by right|]. intros _. split; [done|].
    split; [|done]. rewrite Ht'. cbn [length].
    destruct (decide (n <= length t')%nat) as [Hle|]; [|lia]. rewrite Hend in Hcall by done. done.
Qed.

Lemma wp_construct n path s :
  entries_end n -> (n < fuel)%nat -> nul_free path ->
  wp Total (construct fuel (Some path))
    (fun r s' =>
       match r with
       | inr it => it_holds s it s' /\ (directory_ it <> NULL -> good_entry n it s')
       | inl ex => exists code operation, ex = SystemError code operation /\ 0 < code /\
           (operation = str "x_directory_open" /\ hp s' = hp s /\ held (tr s') = held (tr s) \/
            operation = str "x_directory_next" /\ exists p, one_directory s p s')
       end) s.
Proof.
  destruct s as [e h t]. intros Hend Hfuel Hnul. unfold construct, cpp_bind, check, throw, ok.
  apply wp_bind, wp_directory_open. intros [rc out] s1
    [(Hrc & p & d & Ho & Hp & Hn & Hh & Ht & Hd & Hne & Hpath & Hlen)|(Hrc & Ho & Hh & Ht)];
    cbn [fst snd hp tr] in *; subst; apply wp_bind; cbn [default from_option id].
  - cbn [Z.eqb negb]. apply wp_ret, wp_bind. injection Hpath as ->.
    eapply (wp_advance n (St e h t)); [done..| |].
    + exists d. unfold strlen, XLIB_PATH_MAX. split_and!; (done || lia).
    + intros [it [ex|[]]] s2 H2; cbn [fst snd] in H2; apply wp_ret; cbn [fst snd].
      * destruct H2 as [H2 (code & Hcode & ->)]. exists code, (str "x_directory_next").
        split_and!; [done..|]. right. split; [done|eauto].
      * destruct H2 as [H2 Hg]. split; [done|]. intros Hne'. by destruct (Hg Hne').
  - destruct (Z.eqb_spec rc 0); [lia|]. apply wp_ret. cbn [negb].
    apply wp_ret. exists rc, (str "x_directory_open"). split_and!; [done..|]. by left.
Qed.

(** C20. What an exception from the constructor of [directory_iterator] leaves
    behind: nothing when the directory could not be opened; but when the first
    step failed, the structure and the directory stream stay allocated, since no
    destructor runs for an object that was not constructed. *)
Theorem iterator_constructor_leaks n path s :
  entries_end n -> (n < fuel)%nat -> nul_free path ->
  wp Total (construct fuel (Some path))
    (fun r s' =>
       match r with
       | inr it => it_holds s it s'
       | inl ex => exists code operation, ex = SystemError code operation /\ 0 < code /\
           (operation = str "x_directory_open" /\ hp s' = hp s /\ held (tr s') = held (tr s) \/
            operation = str "x_directory_next" /\ exists p, one_directory s p s')
       end) s.
Proof.
  intros. eapply wp_mono; [by eapply wp_construct|]. intros [ex|it] s' H'; [done|]. by destruct H'.
Qed.

Lemma wp_for_each n rounds s (seen : list x_directory_entry) it s' :
  entries_end n -> (n < fuel)%nat -> (n + 3 < rounds)%nat ->
  it_holds s it s' -> (directory_ it <> NULL -> good_entry n it s') -> Forall proper_entry seen ->
  wp Total (iterM rounds (for_each_step fuel) (it, seen))
    (fun r s' => hp s' = hp s /\ held (tr s') = held (tr s) /\
       match r with
       | inr seen => Forall proper_entry seen
       | inl ex => exists code, 0 < code /\ ex = SystemError code (str "x_directory_next")
       end) s'.
Proof.
  intros Hend Hfuel Hrounds Hit Hgood Hseen.
  apply (wp_iter _ (fun st s' => it_holds s st.1 s' /\ (directory_ st.1 <> NULL -> good_entry n st.1 s') /\ Forall proper_entry st.2)
    (fun st s' => (if (directory_ st.1 =? NULL)%Z then 0 else n + 3 - length (tr s'))%nat));
    [|by split_and!|cbn [fst]; destruct (directory_ it =? NULL); lia].
  clear it seen s' Hit Hgood Hseen. intros [it seen] s' (Hit & Hgood & Hseen). cbn [fst snd] in *.
  unfold for_each_step, equal, end_iterator. cbn [directory_].
  destruct (Z.eqb_spec (directory_ it) NULL) as [E|E]; cbn [Z.eqb NULL Bool.eqb negb].
  - apply wp_bind. eapply wp_iterator_destroy; [exact Hit|]. intros s2 Hh Ht. by apply wp_ret.
  - destruct Hit as [(? & _)|Ho]; [done|]. destruct (Hgood E) as [Hlt Hp].
    apply wp_bind. eapply (wp_advance n s); [done..|]. intros [it' [ex|[]]] s2 H2; cbn [fst snd] in *.
    + apply wp_bind. eapply wp_iterator_destroy; [right; apply H2|]. intros s3 Hh Ht. apply wp_ret.
      split_and!; [done..|]. apply H2.
    + apply wp_ret. destruct H2 as [H2 Hg]. split.
      * split_and!; [done|intros Hn; by destruct (Hg Hn)|]. apply Forall_app. by repeat constructor.
      * unfold good_entry in *. cbn [fst]. destruct (Z.eqb_spec (directory_ it') NULL) as [E'|E']; [|destruct (Hg E') as [? [? _]]]; lia.
Qed.

(** The whole range-for: it ends, gives the directory back, and has seen proper
    entries only, also when a step throws.  Only a failing first step leaks. *)
Theorem range_for_releases n rounds path s :
  entries_end n -> (n < fuel)%nat -> (n + 3 < rounds)%nat -> nul_free path ->
  wp Total (for_each fuel rounds path)
    (fun r s' =>
       (hp s' = hp s /\ held (tr s') = held (tr s) \/
        exists code p, r = inl (SystemError code (str "x_directory_next")) /\ one_directory s p s') /\
       match r with
       | inr seen => Forall proper_entry seen
       | inl ex => exists code operation, 0 < code /\ ex = SystemError code operation
       end) s.
Proof.
  intros Hend Hfuel Hrounds Hnul. unfold for_each, cpp_bind, throw. apply wp_bind.
  eapply wp_mono; [by apply (wp_construct n)|]. intros [ex|it] s1 H1.
  - destruct H1 as (code & operation & -> & Hc & [(-> & Hh & Ht)|(-> & p & Hp)]); apply wp_ret.
    + split; [by left|eauto].
    + split; [right|]; eauto.
  - destruct H1 as [Hit Hg]. eapply wp_mono; [by eapply wp_for_each|].
    intros [ex|seen] s2 (Hh & Ht & H2); (split; [by left|]); [|done].
    destruct H2 as (code & Hc & ->). eauto.
Qed.
End DirectoryTheorems.

(** ** Theorems: locks, error codes, hooks *)

Section OtherTheorems.
Context {os : OS}.

(** [lock] and [unlock] of both mutexes are one call each. *)
Definition mutex_pointer {L} `{!Lockable L} (pointer : L -> ptr) : Prop :=
  forall value, lk_lock value = check_call (x_mutex_lock (pointer value)) (str "x_mutex_lock") /\
                lk_unlock value = check_call (x_mutex_unlock (pointer value)) (str "x_mutex_unlock").

(** A lock guard is balanced: when [lock] fails the scope is not entered and
    nothing is unlocked; otherwise the mutex is unlocked as the last thing,
    whether the scope ends normally or by an exception, which is passed on; an
    [unlock] that fails in the destructor ends the program. *)
Theorem lock_guard_balanced {L A} `{!Lockable L} (pointer : L -> ptr) value (x : x_mutex) (body : M (cpp A)) s :
  mutex_pointer pointer -> pointer value <> NULL -> hp s !! pointer value = Some (to_obj x) ->
  let lock := os_call (tr s) (Spthread (PMutexLock (pointer value))) in
  if lock.1 =? 0 then
    forall r s2, body (St (if lock.2 =? 0 then errno s else lock.2) (hp s)
                         (Ev (Spthread (PMutexLock (pointer value))) lock.1 :: tr s)) = Done r s2 ->
    hp s2 !! pointer value = Some (to_obj x) ->
    let unlock := os_call (tr s2) (Spthread (PMutexUnlock (pointer value))) in
    exists s3, tr s3 = Ev (Spthread (PMutexUnlock (pointer value))) unlock.1 :: tr s2 /\ hp s3 = hp s2 /\
      with_lock_guard value body s = if unlock.1 =? 0 then Done r s3 else Halt (HExit 134) s3
  else
    exists s1, hp s1 = hp s /\ tr s1 = Ev (Spthread (PMutexLock (pointer value))) lock.1 :: tr s /\
      with_lock_guard value body s = Done (inl (SystemError lock.1 (str "x_mutex_lock"))) s1.
Proof.
  intros Hm Hn Hp. destruct (Hm value) as [Hlock Hunlock]. apply Z.eqb_neq in Hn as E.
  unfold with_lock_guard, cpp_bind. rewrite Hlock, Hunlock. clear Hm Hlock Hunlock.
  generalize dependent (pointer value). intros p Hn Hp E.
  assert (forall c (k : syscall Z) o s', hp s' !! p = Some (to_obj x) ->
    c = (if p =? NULL then mret EINVAL else load x_mutex p;; sys k) ->
    check_call c o s' =
      let a := os_call (tr s') k in
      Done (if a.1 =? 0 then inr tt else inl (SystemError a.1 o))
        (St (if a.2 =? 0 then errno s' else a.2) (hp s') (Ev k a.1 :: tr s'))) as Hcall.
  { intros c k o s' Hp' ->. rewrite E. unfold check_call, mbind, M_bind, load. rewrite Hp', of_to_obj.
    unfold sys, check, throw, ok. cbn zeta. by destruct (_ =? 0). }
  cbn zeta. destruct (Z.eqb_spec (os_call (tr s) (Spthread (PMutexLock p))).1 0) as [E1|E1].
  - intros r s2 Hbody Hp2.
    exists (let a := os_call (tr s2) (Spthread (PMutexUnlock p)) in
            St (if a.2 =? 0 then errno s2 else a.2) (hp s2) (Ev (Spthread (PMutexUnlock p)) a.1 :: tr s2)).
    cbn [tr hp]. split; [done|]. split; [done|].
    unfold mbind, M_bind. rewrite (Hcall (x_mutex_lock p) (Spthread (PMutexLock p)) _ s Hp eq_refl). cbn zeta. rewrite (proj2 (Z.eqb_eq _ _) E1).
    rewrite Hbody. rewrite (Hcall (x_mutex_unlock p) (Spthread (PMutexUnlock p)) _ s2 Hp2 eq_refl). cbn zeta.
    by destruct ((os_call (tr s2) (Spthread (PMutexUnlock p))).1 =? 0).
  - eexists (St _ _ _). cbn [tr hp]. split; [done|]. split; [done|].
    unfold mbind, M_bind. rewrite (Hcall (x_mutex_lock p) (Spthread (PMutexLock p)) _ s Hp eq_refl). cbn zeta. by rewrite (proj2 (Z.eqb_neq _ _) E1).
Qed.

(** [try_lock] tells a busy mutex from an error. *)
Theorem try_lock_spec m (x : x_mutex) s :
  m <> NULL -> hp s !! m = Some (to_obj x) ->
  wp Total (Mutex.try_lock m)
    (fun r s' => exists rc, tr s' = Ev (Spthread (PMutexTrylock m)) rc :: tr s /\
       r = if rc =? 0 then inr true else if rc =? EBUSY then inr false
           else inl (SystemError rc (str "x_mutex_try_lock"))) s.
Proof.
  destruct s as [e h t]. intros Hn Hp. cbn [hp] in Hp. unfold Mutex.try_lock, x_mutex_try_lock, throw, ok.
  apply Z.eqb_neq in Hn as ->. wp_run; exists r; (split; [done|]); zbool; subst; try done.
  by rewrite (proj2 (Z.eqb_neq _ _) E), (proj2 (Z.eqb_neq _ _) E0).
Qed.
End OtherTheorems.

(** An [error_code] of the xlib category never compares equal to a POSIX
    condition such as [std::errc::invalid_argument]: neither category's
    [equivalent] accepts it.  The codes of the exceptions, which are in the
    generic category, compare equal exactly to the condition with their number. *)
Theorem xlib_codes_match_no_errc code condition :
  ErrorCategory.code_is (ErrorCategory.make_xlib_error_code code)
    (ErrorCategory.ErrorCondition condition ErrorCategory.Generic) = false /\
  (ErrorCategory.code_is (ErrorCategory.make_error_code code)
    (ErrorCategory.ErrorCondition condition ErrorCategory.Generic) = true <-> code = condition).
Proof.
  unfold ErrorCategory.code_is, ErrorCategory.default_equivalent, ErrorCategory.equivalent. cbn.
  split.
  - apply orb_false_iff. split; [by apply bool_decide_eq_false_2|]. by rewrite bool_decide_eq_false_2.
  - rewrite orb_true_iff, andb_true_iff, !bool_decide_eq_true, Z.eqb_eq. naive_solver.
Qed.

(** Guards do not nest: after the inner scope the outer hook is gone as well. *)
Theorem log_guards_do_not_nest {A B} outer inner ud ud' (body : hooks -> A * hooks) (k : hooks -> B) h :
  let scope := with_log_hook outer ud
    (fun h => let r := with_log_hook inner ud' body h in (k r.2, r.2)) h in
  exists h', scope.1 = k h' /\ log_hook h' = 0 /\ log_hook scope.2 = 0.
Proof.
  cbn zeta. unfold with_log_hook. cbn [fst snd]. by eexists.
Qed.

(** ** Examples *)


Lemma lock_guard_balanced_witness :
  let os := calm_os in let s := St 0 {[ 5 := to_obj (XMutex false) ]} [] in
  exists s3, tr s3 = [Ev (Spthread (PMutexUnlock 5)) 0; Ev (Spthread (PMutexLock 5)) 0] /\
    hp s3 = hp s /\ with_lock_guard (AMutex 5) (throw BadAlloc : M (cpp unit)) s = Done (inl BadAlloc) s3.
Proof.
  intros os s.
  refine (lock_guard_balanced (os := calm_os) (fun '(AMutex m) => m) (AMutex 5) (XMutex false)
           (throw BadAlloc : M (cpp unit)) s _ _ _ (inl BadAlloc) _ eq_refl _); [by intros [m]|done..].
Defined.

Lemma calm_os_entries_end : entries_end (os := calm_os) 0.
Proof. by intros t dir _. Qed.

Lemma iterator_constructor_leaks_witness :
  let os := calm_os in
  wp Total (DirectoryIterator.construct 1 (Some (str "/tmp")))
    (fun r s' =>
       match r with
       | inr it => it_holds st0 it s'
       | inl ex => exists code operation, ex = SystemError code operation /\ 0 < code /\
           (operation = str "x_directory_open" /\ hp s' = hp st0 /\ held (tr s') = held (tr st0) \/
            operation = str "x_directory_next" /\ exists p, one_directory st0 p s')
       end) st0.
Proof.
  apply (iterator_constructor_leaks (os := calm_os) 1 0 (str "/tmp") st0 calm_os_entries_end).
  - lia.
  - apply (bool_decide_unpack _). by vm_compute.
Defined.

(** Every call fails after the [opendir]. *)
Definition broken_directory_os : OS :=
  demo_os (Demo (fun t => if bool_decide (length t < 2)%nat then None else Some 5%positive)
             (fun _ => []) (fun _ => 0%N) (fun _ => []) (fun _ => false)).

Example iterator_constructor_leaked :
  match DirectoryIterator.construct (os := broken_directory_os) 9 (Some (str "/tmp")) st0 with
  | Done r s' => r = inl (SystemError 5 (str "x_directory_next")) /\ size (hp s') = 1%nat /\ held (tr s') <> ∅
  | _ => False
  end.
Proof. vm_compute. done. Qed.
